(* ===== verification/_CoqProject ===== *)
-Q . S2P
Prelude.v
Mem.v
Spinlock.v
Machine.v
Pmm.v
PmmFacts.v
PmmInit.v
Samples.v
PmmProps.v
FrameAlloc.v
Paging.v
PagingFacts.v
PagingSpec.v
PagingProps.v
Vmm.v
VmmFacts.v
VmmSpec.v
VmmData.v
KernelMap.v
VmmFree.v
VmmProps.v
KernelMapProps.v
VmmDestroy.v
Heap.v
HeapFacts.v
HeapSpec.v
HeapProps.v
Sched.v
SchedSpec.v
SchedProps.v
Reap.v
ReapProps.v
Spawn.v
SpawnProps.v
Syscall.v
VmmAdd.v
Cmdline.v
User.v
Elf.v
ElfSpec.v
ElfProps.v
Board.v
Acpi.v
Apic.v
ApicProps.v
Tables.v
TablesProps.v
Console.v
Interrupts.v
Panic.v
Smp.v
Boot.v
BootMem.v
