(* ===== verification/Prelude.v ===== *)
(** * EMK: a verification development

    EMK is a small x86-64 kernel (C, src/kernel/src).  This library models it file by file
    as executable functions and proves what its parts promise to each other and to user
    programs.

    ** How the program is represented

    Two states.  [machine] (Machine.v) holds what the memory-management and scheduling code
    works on: memory as a map from 64-bit addresses to bytes, and the globals of mm/,
    arch/paging.c and sys/sched.c, one record per file.  [hw] (Board.v) adds to a [machine]
    the globals of the files that drive devices and the list of all device accesses so far,
    newest first; what a read returns is a parameter ([Platform]), a function of that list.
    Code runs in the monad [M] over either state; an outcome is a result, a panic, a hang
    (an endless loop, [hlt]) or exhausted fuel.  [wp] is total correctness: a panic, a hang
    or missing fuel falsify it.  [wpp] is the same except that a panic satisfies an
    assertion of its own; it is used where code panics when memory runs out.  [lift] runs code over a [machine] on an [hw].

    Integers are [Z], wrapped to their width ([w8] ... [w64], [i32]) where the code computes
    them.  Pointers are addresses; 0 is the null pointer.  Structures that live in memory
    are read and written at their offsets.  Exceptions are process control blocks (records
    by address), the arrays [cpu_locals], [gdt], [idt_descriptor] and [real_handlers] and
    the parsed MADT lists (lists), and local variables.

    ** Parts

    - Mem: memory and lib/string.c.  Spinlock: sys/spinlock.h, sequentially and as an
      interleaving of any number of CPUs.
    - Pmm, PmmFacts, PmmInit, PmmProps: mm/pmm.c and lib/bitmap.h, the frame allocator.
      FrameAlloc: the interfaces that its clients are proved against (the operations, and
      the laws of taking frames, giving them back and taking runs), and their
      implementation by [palloc] and [pfree].
    - Paging, PagingFacts, PagingSpec, PagingProps: arch/paging.c, four-level page tables.
      KernelMap, KernelMapProps: the page map that [paging_init] builds, as a list of
      requests.
    - Vmm, VmmFacts, VmmSpec, VmmFree, VmmProps, VmmAdd, VmmDestroy: mm/vmm.c, lists of
      regions with their mappings.  VmmData: the pages that no operation on a context
      touches, for clients that keep data beside it.
    - Heap, HeapFacts, HeapSpec, HeapProps: mm/heap/ff.c, the first-fit heap.
    - Sched, SchedSpec, SchedProps: sys/sched.c, with an abstract round robin ([rr]) that
      it refines.  Reap, ReapProps: a process from [sched_terminate] to the release of its
      stack and context.  Spawn, SpawnProps: [sched_spawn], from the heap, the frame
      allocator and the kernel's context to a process in the queue.  Syscall: sys/syscall.c, util/errno.h, [syscall_handler] of arch/idt.c.
    - Cmdline: lib/ctype.c and [get_key] of emk.c.  User: sys/user.c, through the page map
      that is loaded.  Elf, ElfSpec, ElfProps: sys/data/elf.c and lib/assert.h, with what
      a segment's header says of the pages it gets ([segment_loaded]).
    - Board: arch/io.c, arch/cpu.h, device accesses.  Acpi: sys/acpi.c, sys/acpi/madt.c.
      Apic, ApicProps: sys/apic/ and [get_cpu_local] of arch/smp.c.
    - Tables, TablesProps: arch/gdt.c and arch/idt.c, with the processor's reading of the
      descriptors.  Console: dev/serial.c, util/kprintf.c.  Interrupts: the dispatch of
      arch/idt-stub.S, dev/timer/pit.c.  Panic: sys/kpanic.c.  Smp: arch/smp.c, with
      what [smp_init] has seen of the other CPUs when it returns.  Boot: [emk_entry] of emk.c.  BootMem: its first
      part, which brings up memory.
    - Samples: a small booted machine on which the theorems are tried.

    Definitions have the names of the C functions; a loop of a function is a definition of
    its own.  The files ending in Facts, Spec and Props hold invariants, specifications and
    the theorems.

    ** What the theorems show

    - Memory: each allocator keeps its invariant and does on every branch what its callers
      rely on; allocation and release are inverse; a mapping changes the translation of its
      page only and never another address space's.
    - Processes: the tick implements round robin, every process runs again after at most one
      round, and a timer interrupt, dispatched through the tables that the boot builds,
      resumes the next process with exactly its saved registers; the running CPU is found as
      on the processor, where loading the segments clears the GS base ([gs_base],
      [runs_on]).  Copies from user memory are exact; copies are refused outside user regions
      and, to user memory, in regions that are not writable. The loader refuses a bad header, and puts the
      bytes of every segment of an accepted file, and zeros behind them, at its address, or
      gives the frames of the segment that failed back. [sched_spawn] either panics, for
      one of four reasons and with nothing changed in the scheduler, or the process has a
      control block, a stack region of its own in its context, mapped before the kernel's
      regions join its page map (which they may cover), and is last in the queue; at its end
      its stack and context go back to the frame allocator.
    - Start-up: [paging_init] gives every section of the kernel its place and its rights
      (without 2 MiB pages, which are off by default); [boot_memory] establishes, one upon
      the other, the invariants of the frame allocator, of the loaded page map, of the
      kernel's context and of the heap, from a sound memory map: the states in which the
      other theorems start.  It panics only when the frames run out: [frames_out] says
      that at most one frame is left, [fa_full] that none is, and a memory map with more
      frames than [boot_cost] lets it return.
    - Boot and devices: firmware tables are parsed completely or the boot stops; interrupt
      routes, segment and interrupt descriptors say what they are meant to; console output
      is whole and in order, no byte written before the line status has shown room for it; a
      panic with the interrupt controller mapped reports only after the flag of every other
      CPU was read down, and halts; the boot goes on only after the flag of every other CPU
      was read up and all are counted.
    - Where the code does not do what it means to, a theorem shows that: the same frame
      allocated twice, overlapping regions, a wrapped size on the heap, a process whose
      stack is a window on the kernel's heap, a file size that writes past a segment's
      frames, [exit] that never returns, panics that recurse before the interrupt controller
      is mapped, a start-up check that fails although all CPUs arrive.

    ** Fuel and bounds

    A loop whose end the data decides (strings, lists of regions, the free list) takes
    fuel; theorems ask for more fuel than the length of the data and state that the code
    returns.  Waiting for hardware or for another CPU takes fuel too, and the theorems
    assume that the device answers within [k] polls for some [k] below the fuel.  Loops
    that the code bounds (512 process slots, 20 stack frames, the words of the bitmap) run
    for that many rounds.  A lock that is taken again by its holder is a hang.

    ** Not modelled

    - Log lines, except the report of a panic; [vdump], which only prints.
    - external/nanoprintf.h (third party): a parameter of [kprintf] with its documented
      behaviour.  boot/limine.h (third party): the responses are data.  The frame buffer
      terminal is compiled out by default.
    - The instruction set beyond the instructions above: how the assembly stub saves
      registers, the TLB (flushes are recorded), page faults other than as a panic, caches
      and memory ordering.
    - Preemption inside kernel code: functions run one at a time, except where a file gives
      an interleaving (Spinlock); what other CPUs do to the flags that [kpanic] and
      [smp_init] wait for is a parameter ([Others]).  A handler fetches the index of its
      CPU once.
    - init/ (a user program of one loop), linker scripts and build files. *)

From Stdlib Require Export ZArith Lia Bool.
From stdpp Require Export base numbers gmap list strings.

#[export] Set Default Goal Selector "!".

Declare Scope emk_scope.
Delimit Scope emk_scope with emk.
Open Scope emk_scope.
Open Scope Z_scope.

#[global] Arguments Z.add : simpl never.
#[global] Arguments Z.sub : simpl never.
#[global] Arguments Z.mul : simpl never.
#[global] Arguments Z.div : simpl never.
#[global] Arguments Z.modulo : simpl never.

(** ** Machine integers

    A [w]-bit unsigned integer is a [Z]; arithmetic that can wrap is wrapped
    where the code computes it. *)

Definition w8 (x : Z) : Z := x mod 2 ^ 8.
Definition w16 (x : Z) : Z := x mod 2 ^ 16.
Definition w32 (x : Z) : Z := x mod 2 ^ 32.
Definition w64 (x : Z) : Z := x mod 2 ^ 64.

Abbreviation NULL := 0 (only parsing).
Abbreviation UINT64_MAX := (2 ^ 64 - 1) (only parsing).

(** C's two's complement reading of a 32-bit pattern ([int], [int32_t]). *)
Definition i32 (x : Z) : Z := (x + 2 ^ 31) mod 2 ^ 32 - 2 ^ 31.

Lemma w64_id x : 0 <= x < 2 ^ 64 -> w64 x = x.
Proof. apply Z.mod_small. Qed.

Lemma w32_id x : 0 <= x < 2 ^ 32 -> w32 x = x.
Proof. apply Z.mod_small. Qed.

Lemma w64_range x : 0 <= w64 x < 2 ^ 64.
Proof. apply Z.mod_pos_bound; lia. Qed.

Lemma w32_range x : 0 <= w32 x < 2 ^ 32.
Proof. apply Z.mod_pos_bound; lia. Qed.

Create HintDb emk.
#[export] Hint Resolve w64_id w32_id w64_range w32_range : emk.
Create Rewrite HintDb emk.
#[export] Hint Rewrite w64_id w32_id using lia : emk.

(** ** Outcomes and the kernel monad

    Kernel code threads a state of type [St] and ends in one of four ways: it
    returns; it calls [kpanic] (which halts every CPU and does not return); it
    spins or halts for ever; or the model's fuel for a pointer-chasing loop ran
    out, which every total-correctness theorem excludes. *)

Inductive outcome (St A : Type) : Type :=
  | Ret (a : A) (s : St)
  | Panic (s : St)
  | Hang (s : St)
  | NoFuel.
Arguments Ret {St A} a s.
Arguments Panic {St A} s.
Arguments Hang {St A} s.
Arguments NoFuel {St A}.

Definition M (St A : Type) : Type := St -> outcome St A.

Section Monad.
Context {St : Type}.

Definition ret {A} (a : A) : M St A := fun s => Ret a s.

Definition bind {A B} (m : M St A) (f : A -> M St B) : M St B := fun s =>
  match m s with
  | Ret a s' => f a s'
  | Panic s' => Panic s'
  | Hang s' => Hang s'
  | NoFuel => NoFuel
  end.

Definition get : M St St := fun s => Ret s s.
Definition gets {A} (f : St -> A) : M St A := fun s => Ret (f s) s.
Definition modify (f : St -> St) : M St unit := fun s => Ret tt (f s).
Definition kpanic {A} : M St A := fun s => Panic s.
Definition hang {A} : M St A := fun s => Hang s.
Definition out_of_fuel {A} : M St A := fun _ => NoFuel.
Definition when (b : bool) (m : M St unit) : M St unit :=
  if b then m else ret tt.
End Monad.

Notation "x <- m ;; k" := (bind m (fun x => k))
  (at level 100, m at next level, right associativity) : emk_scope.
Notation "m ;;; k" := (bind m (fun _ => k))
  (at level 100, right associativity) : emk_scope.

(** [for (i = start; i < start + n * step; i += step) body(i)]. *)
Fixpoint for_loop {St} (n : nat) (i step : Z) (body : Z -> M St unit) : M St unit :=
  match n with
  | O => ret tt
  | S n' => body i ;;; for_loop n' (i + step) step body
  end.

(** The pure version, for loops that only update a value. *)
Fixpoint for_pure {A} (n : nat) (i step : Z) (body : Z -> A -> A) (a : A) : A :=
  match n with
  | O => a
  | S n' => for_pure n' (i + step) step body (body i a)
  end.

(** ** Total correctness

    [wp m Q s]: started in [s], [m] returns, and its result and final state
    satisfy [Q].  A panic, a hang or exhausted fuel falsify it. *)

Definition wp {St A} (m : M St A) (Q : A -> St -> Prop) (s : St) : Prop :=
  match m s with
  | Ret a s' => Q a s'
  | _ => False
  end.

Section WP.
Context {St : Type}.
Implicit Types s : St.

Lemma wp_ret {A} (a : A) Q s : Q a s -> wp (ret a) Q s.
Proof. done. Qed.

Lemma wp_bind {A B} (m : M St A) (f : A -> M St B) Q s :
  wp m (fun a s' => wp (f a) Q s') s -> wp (bind m f) Q s.
Proof. unfold wp, bind. by destruct (m s). Qed.

Lemma wp_bind_inv {A B} (m : M St A) (f : A -> M St B) Q s :
  wp (bind m f) Q s -> wp m (fun a s' => wp (f a) Q s') s.
Proof. unfold wp, bind. by destruct (m s). Qed.

Lemma wp_mono {A} (m : M St A) (P Q : A -> St -> Prop) s :
  wp m P s -> (forall a s', P a s' -> Q a s') -> wp m Q s.
Proof. unfold wp. destruct (m s); auto. Qed.

Lemma wp_and {A} (m : M St A) (P Q : A -> St -> Prop) s :
  wp m P s -> wp m Q s -> wp m (fun a s' => P a s' /\ Q a s') s.
Proof. unfold wp. destruct (m s); auto. Qed.

Lemma wp_get Q s : Q s s -> wp get Q s.
Proof. done. Qed.

Lemma wp_gets {A} (f : St -> A) Q s : Q (f s) s -> wp (gets f) Q s.
Proof. done. Qed.

Lemma wp_modify (f : St -> St) Q s : Q tt (f s) -> wp (modify f) Q s.
Proof. done. Qed.

Lemma wp_when b (m : M St unit) Q s :
  (b = true -> wp m Q s) -> (b = false -> Q tt s) -> wp (when b m) Q s.
Proof. destruct b; intros H1 H2; [by apply H1|by apply H2]. Qed.

Lemma wp_run {A} (m : M St A) Q s :
  wp m Q s -> exists a s', m s = Ret a s' /\ Q a s'.
Proof. unfold wp. destruct (m s) as [a s'| | |]; [eauto|done..]. Qed.

Lemma wp_result {A} (m : M St A) Q s a s' : m s = Ret a s' -> wp m Q s -> Q a s'.
Proof. unfold wp. by intros ->. Qed.

(** The invariant rule for counted loops: [I k] holds after [k] rounds. *)
Lemma wp_for_loop (n : nat) start step body (I : nat -> St -> Prop) s :
  I 0%nat s ->
  (forall k s', (k < n)%nat -> I k s' ->
     wp (body (start + Z.of_nat k * step)) (fun _ s'' => I (S k) s'') s') ->
  wp (for_loop n start step body) (fun _ s' => I n s') s.
Proof.
  revert start s I.
  induction n as [|n IH]; intros start s I H0 Hstep; [done|].
  cbn. apply wp_bind. eapply wp_mono.
  { replace start with (start + Z.of_nat 0 * step) by lia. apply Hstep; [lia|done]. }
  intros [] s' H1. apply (IH (start + step) s' (fun k => I (S k))); [done|].
  intros k s'' Hk Hs''.
  replace (start + step + Z.of_nat k * step)
    with (start + Z.of_nat (S k) * step) by lia.
  apply Hstep; [lia|done].
Qed.
End WP.

(** [wpp m Q R s]: [m] returns with [Q], or panics in a state that satisfies [R]. *)
Definition wpp {St A} (m : M St A) (Q : A -> St -> Prop) (R : St -> Prop) (s : St) : Prop :=
  match m s with
  | Ret a s' => Q a s'
  | Panic s' => R s'
  | _ => False
  end.

Lemma wpp_bind {St A B} (m : M St A) (f : A -> M St B) Q R s :
  wp m (fun a s' => wpp (f a) Q R s') s -> wpp (bind m f) Q R s.
Proof. unfold wp, wpp, bind. by destruct (m s). Qed.

Lemma wpp_ret {St A} (m : M St A) Q R s : wp m Q s -> wpp m Q R s.
Proof. unfold wp, wpp. by destruct (m s). Qed.

Lemma wpp_panic {St A} (Q : A -> St -> Prop) (R : St -> Prop) s : R s -> wpp kpanic Q R s.
Proof. done. Qed.

Lemma for_pure_ind {A} (n : nat) start step body (I : nat -> A -> Prop) (a : A) :
  I 0%nat a ->
  (forall k a', (k < n)%nat -> I k a' -> I (S k) (body (start + Z.of_nat k * step) a')) ->
  I n (for_pure n start step body a).
Proof.
  revert start a I.
  induction n as [|n IH]; intros start a I H0 Hstep; [done|].
  cbn. apply (IH (start + step) (body start a) (fun k => I (S k))).
  - replace start with (start + Z.of_nat 0 * step) by lia. apply Hstep; [lia|done].
  - intros k a' Hk Ha'.
    replace (start + step + Z.of_nat k * step)
      with (start + Z.of_nat (S k) * step) by lia.
    apply Hstep; [lia|done].
Qed.

#[export] Hint Resolve wp_ret wp_get wp_gets wp_modify : emk.

(** One step of symbolic execution. *)
Ltac wp_step :=
  lazymatch goal with
  | |- wp (bind _ _) _ _ => apply wp_bind
  | |- wp (ret _) _ _ => apply wp_ret
  | |- wp get _ _ => apply wp_get
  | |- wp (gets _) _ _ => apply wp_gets
  | |- wp (modify _) _ _ => apply wp_modify
  | |- wp (when _ _) _ _ => apply wp_when; intros ?
  end.

Ltac wp_steps := repeat (wp_step; cbv beta).

(** Turn boolean tests in the context into propositions. *)
Ltac bool_simpl :=
  repeat match goal with
  | H : _ && _ = true |- _ => apply andb_true_iff in H; destruct H
  | H : _ || _ = false |- _ => apply orb_false_iff in H; destruct H
  | H : _ || _ = true |- _ => apply orb_true_iff in H
  | H : _ && _ = false |- _ => apply andb_false_iff in H
  | H : negb _ = true |- _ => apply negb_true_iff in H
  | H : negb _ = false |- _ => apply negb_false_iff in H
  | H : (_ =? _) = true |- _ => apply Z.eqb_eq in H
  | H : (_ =? _) = false |- _ => apply Z.eqb_neq in H
  | H : (_ <? _) = true |- _ => apply Z.ltb_lt in H
  | H : (_ <? _) = false |- _ => apply Z.ltb_ge in H
  | H : (_ <=? _) = true |- _ => apply Z.leb_le in H
  | H : (_ <=? _) = false |- _ => apply Z.leb_gt in H
  end.
