(* ===== verification/Mem.v ===== *)
(** * Memory and lib/string.c

    The kernel's view of memory is a map from 64-bit virtual addresses to bytes;
    an absent address reads as zero.  Multi-byte accesses are little endian, as
    on x86-64.  The second half models [memcpy], [memset], [memmove], [memcmp],
    [strncmp] and [strlen] of src/kernel/src/lib/string.c loop by loop and gives
    their functional specifications. *)

From S2P Require Export Prelude.

Abbreviation memory := (gmap Z Z).

(** ** Loads and stores *)

Definition load8 (m : memory) (a : Z) : Z := w8 (default 0 (m !! a)).
Definition store8 (m : memory) (a v : Z) : memory := <[a := w8 v]> m.

Fixpoint loadn (n : nat) (m : memory) (a : Z) : Z :=
  match n with
  | O => 0
  | S n' => load8 m a + 256 * loadn n' m (a + 1)
  end.

Fixpoint storen (n : nat) (m : memory) (a v : Z) : memory :=
  match n with
  | O => m
  | S n' => storen n' (store8 m a v) (a + 1) (v / 256)
  end.

Definition load16 : memory -> Z -> Z := loadn 2.
Definition load32 : memory -> Z -> Z := loadn 4.
Definition load64 : memory -> Z -> Z := loadn 8.
Definition store64 : memory -> Z -> Z -> memory := storen 8.
Definition store32 : memory -> Z -> Z -> memory := storen 4.
#[global] Arguments load16 : simpl never.
#[global] Arguments load32 : simpl never.
#[global] Arguments load64 : simpl never.
#[global] Arguments store32 : simpl never.
#[global] Arguments store64 : simpl never.

(** Two memories are equivalent when every byte reads the same. *)
Definition mem_equiv (m m' : memory) : Prop := forall a, load8 m a = load8 m' a.

#[export] Instance mem_equiv_equivalence : Equivalence mem_equiv.
Proof.
  split.
  - by intros m a.
  - intros m m' H a. by rewrite H.
  - intros m1 m2 m3 H1 H2 a. by rewrite H1, H2.
Qed.

(** [m'] agrees with [m] outside the region [R]. *)
Definition agree_outside (R : Z -> Prop) (m m' : memory) : Prop :=
  forall a, ~ R a -> load8 m' a = load8 m a.

Definition in_range (lo n a : Z) : Prop := lo <= a < lo + n.

Lemma load8_range m a : 0 <= load8 m a < 256.
Proof. unfold load8, w8. apply Z.mod_pos_bound. lia. Qed.

Lemma load8_store8_eq m a v : load8 (store8 m a v) a = w8 v.
Proof.
  unfold load8, store8. rewrite lookup_insert_eq. cbn.
  unfold w8. by rewrite Z.mod_mod by lia.
Qed.

Lemma load8_store8_ne m a b v : a <> b -> load8 (store8 m a v) b = load8 m b.
Proof. intros H. unfold load8, store8. by rewrite lookup_insert_ne. Qed.

Lemma load8_store8 m a b v :
  load8 (store8 m a v) b = if decide (a = b) then w8 v else load8 m b.
Proof.
  case_decide as H; [subst; apply load8_store8_eq|by apply load8_store8_ne].
Qed.

Lemma loadn_ext n m m' a :
  (forall x, a <= x < a + Z.of_nat n -> load8 m x = load8 m' x) ->
  loadn n m a = loadn n m' a.
Proof.
  revert a. induction n as [|n IH]; intros a H; [done|].
  cbn [loadn]. rewrite (H a) by lia. rewrite (IH (a + 1)); [done|].
  intros x Hx. apply H. lia.
Qed.

Lemma loadn_range n m a : 0 <= loadn n m a < 256 ^ Z.of_nat n.
Proof.
  revert a. induction n as [|n IH]; intros a; [cbn; lia|].
  cbn [loadn]. pose proof (load8_range m a). specialize (IH (a + 1)).
  rewrite Nat2Z.inj_succ, Z.pow_succ_r by lia. lia.
Qed.

(** An all-ones word has all-ones bytes. *)
Lemma loadn_all_ones n m a x :
  loadn n m a = 256 ^ Z.of_nat n - 1 -> a <= x < a + Z.of_nat n -> load8 m x = 255.
Proof.
  revert a. induction n as [|n IH]; intros a H Hx; [lia|].
  cbn [loadn] in H. rewrite Nat2Z.inj_succ, Z.pow_succ_r in H by lia.
  pose proof (load8_range m a). pose proof (loadn_range n m (a + 1)).
  destruct (decide (x = a)) as [->|Hne]; [lia|].
  apply (IH (a + 1)); lia.
Qed.

Lemma load64_range m a : 0 <= load64 m a < 2 ^ 64.
Proof. apply (loadn_range 8). Qed.

Lemma load32_range m a : 0 <= load32 m a < 2 ^ 32.
Proof. apply (loadn_range 4). Qed.

Lemma load8_storen_out n m a v x :
  x < a \/ a + Z.of_nat n <= x -> load8 (storen n m a v) x = load8 m x.
Proof.
  revert m a v. induction n as [|n IH]; intros m a v H; [done|].
  cbn [storen]. rewrite IH by lia. apply load8_store8_ne. lia.
Qed.

Lemma loadn_storen_eq n m a v :
  loadn n (storen n m a v) a = v mod 256 ^ Z.of_nat n.
Proof.
  revert m a v. induction n as [|n IH]; intros m a v.
  { cbn. by rewrite Z.mod_1_r. }
  cbn [loadn storen]. rewrite IH.
  rewrite load8_storen_out by lia. rewrite load8_store8_eq. unfold w8.
  rewrite Nat2Z.inj_succ, Z.pow_succ_r by lia.
  rewrite (Z.rem_mul_r v 256) by lia. by change (2 ^ 8) with 256.
Qed.

Lemma loadn_storen_ne k n m a b v :
  b + Z.of_nat k <= a \/ a + Z.of_nat n <= b ->
  loadn k (storen n m a v) b = loadn k m b.
Proof. intros H. apply loadn_ext. intros x Hx. apply load8_storen_out. lia. Qed.

Lemma load64_store64_eq m a v : load64 (store64 m a v) a = w64 v.
Proof. exact (loadn_storen_eq 8 m a v). Qed.

Lemma load64_store64_id m a v :
  0 <= v < 2 ^ 64 -> load64 (store64 m a v) a = v.
Proof. intros H. rewrite load64_store64_eq. by apply w64_id. Qed.

Lemma load64_store64_ne m a b v :
  b + 8 <= a \/ a + 8 <= b -> load64 (store64 m a v) b = load64 m b.
Proof. apply (loadn_storen_ne 8 8). Qed.

Lemma load8_store64_out m a v x :
  x < a \/ a + 8 <= x -> load8 (store64 m a v) x = load8 m x.
Proof. apply (load8_storen_out 8). Qed.

Lemma load64_ext m m' a :
  (forall x, a <= x < a + 8 -> load8 m x = load8 m' x) -> load64 m a = load64 m' a.
Proof. apply (loadn_ext 8). Qed.

Lemma loadn_zero n m a :
  (forall x, a <= x < a + Z.of_nat n -> load8 m x = 0) -> loadn n m a = 0.
Proof.
  revert a. induction n as [|n IH]; intros a H; [done|]. cbn [loadn].
  rewrite IH, (H a); [done|lia|]. intros x Hx. apply H. lia.
Qed.

Lemma load64_zero m a : (forall x, a <= x < a + 8 -> load8 m x = 0) -> load64 m a = 0.
Proof. apply (loadn_zero 8). Qed.

Lemma store64_agree m a v : agree_outside (in_range a 8) m (store64 m a v).
Proof. intros x Hx. apply load8_store64_out. unfold in_range in Hx. lia. Qed.

Lemma agree_outside_trans (R1 R2 R : Z -> Prop) m1 m2 m3 :
  (forall a, R1 a -> R a) -> (forall a, R2 a -> R a) ->
  agree_outside R1 m1 m2 -> agree_outside R2 m2 m3 -> agree_outside R m1 m3.
Proof.
  intros Hs1 Hs2 H1 H2 a Ha. rewrite H2, H1; [done|..]; intros ?; apply Ha; auto.
Qed.

Lemma agree_outside_refl R m : agree_outside R m m.
Proof. by intros a. Qed.

Lemma agree_outside_weaken (R R' : Z -> Prop) m m' :
  (forall a, R a -> R' a) -> agree_outside R m m' -> agree_outside R' m m'.
Proof. intros H1 H2 a Ha. apply H2. auto. Qed.

(** The same bytes elsewhere are the same integer. *)
Lemma loadn_shift n m m' a b :
  (forall x, 0 <= x < Z.of_nat n -> load8 m (a + x) = load8 m' (b + x)) ->
  loadn n m a = loadn n m' b.
Proof.
  revert a b. induction n as [|n IH]; intros a b H; [done|]. cbn [loadn].
  f_equal.
  - specialize (H 0 ltac:(lia)). by rewrite !Z.add_0_r in H.
  - f_equal. apply IH. intros x Hx.
    replace (a + 1 + x) with (a + (1 + x)) by lia. replace (b + 1 + x) with (b + (1 + x)) by lia.
    apply H. lia.
Qed.

#[export] Instance load8_proper : Proper (mem_equiv ==> eq ==> eq) load8.
Proof. intros m m' Hm a ? <-. apply Hm. Qed.

#[export] Instance loadn_proper n : Proper (mem_equiv ==> eq ==> eq) (loadn n).
Proof. intros m m' Hm a ? <-. apply loadn_ext. intros x _. apply Hm. Qed.

#[export] Instance load64_proper : Proper (mem_equiv ==> eq ==> eq) load64.
Proof. apply loadn_proper. Qed.

#[export] Instance store8_proper :
  Proper (mem_equiv ==> eq ==> eq ==> mem_equiv) store8.
Proof.
  intros m m' Hm a ? <- v ? <- x. rewrite !load8_store8. case_decide; [done|apply Hm].
Qed.

#[export] Instance storen_proper n :
  Proper (mem_equiv ==> eq ==> eq ==> mem_equiv) (storen n).
Proof.
  intros m m' Hm a ? <- v ? <-. revert m m' Hm a v.
  induction n as [|n IH]; intros m m' Hm a v; [done|].
  cbn [storen]. apply IH. by rewrite Hm.
Qed.

#[export] Instance store64_proper :
  Proper (mem_equiv ==> eq ==> eq ==> mem_equiv) store64.
Proof. apply storen_proper. Qed.

Create Rewrite HintDb mem.
#[export] Hint Rewrite load64_store64_eq : mem.
#[export] Hint Rewrite load64_store64_ne load8_store64_out using lia : mem.
#[export] Hint Resolve load64_range load32_range load8_range
  agree_outside_refl store64_agree : emk.

(** ** The byte loops of lib/string.c *)

Definition memcpy (m : memory) (dest src n : Z) : memory :=
  for_pure (Z.to_nat n) 0 1 (fun i m => store8 m (dest + i) (load8 m (src + i))) m.

Definition memset (m : memory) (s c n : Z) : memory :=
  for_pure (Z.to_nat n) 0 1 (fun i m => store8 m (s + i) c) m.

(** The descending loop [for (i = n; i > 0; i--) pdest[i-1] = psrc[i-1]]. *)
Definition memmove_down (m : memory) (dest src n : Z) : memory :=
  for_pure (Z.to_nat n) n (-1)
    (fun i m => store8 m (dest + i - 1) (load8 m (src + i - 1))) m.

Definition memmove (m : memory) (dest src n : Z) : memory :=
  if dest <? src then memcpy m dest src n
  else if src <? dest then memmove_down m dest src n
  else m.

Fixpoint memcmp_loop (n : nat) (m : memory) (p1 p2 : Z) : Z :=
  match n with
  | O => 0
  | S n' =>
      if load8 m p1 =? load8 m p2 then memcmp_loop n' m (p1 + 1) (p2 + 1)
      else if load8 m p1 <? load8 m p2 then -1 else 1
  end.

Definition memcmp (m : memory) (s1 s2 n : Z) : Z := memcmp_loop (Z.to_nat n) m s1 s2.

Fixpoint strncmp_loop (n : nat) (m : memory) (s1 s2 : Z) : Z :=
  match n with
  | O => 0
  | S n' =>
      if (load8 m s1 =? 0) || (load8 m s2 =? 0) then load8 m s1 - load8 m s2
      else if load8 m s1 =? load8 m s2 then strncmp_loop n' m (s1 + 1) (s2 + 1)
      else load8 m s1 - load8 m s2
  end.

Definition strncmp (m : memory) (s1 s2 n : Z) : Z := strncmp_loop (Z.to_nat n) m s1 s2.

(** The scan for the terminating NUL has no bound in the code, hence the fuel. *)
Fixpoint strlen_loop (fuel : nat) (m : memory) (s : Z) : option Z :=
  match fuel with
  | O => None
  | S f => if load8 m s =? 0 then Some s else strlen_loop f m (s + 1)
  end.

Definition strlen (fuel : nat) (m : memory) (str : Z) : option Z :=
  (fun s => s - str) <$> strlen_loop fuel m str.

(** ** Specifications *)

Lemma memset_load m s c n x :
  load8 (memset m s c n) x = if (s <=? x) && (x <? s + n) then w8 c else load8 m x.
Proof.
  unfold memset.
  pose proof (for_pure_ind (Z.to_nat n) 0 1
    (fun i m => store8 m (s + i) c)
    (fun k m' => forall y, load8 m' y =
       if (s <=? y) && (y <? s + Z.of_nat k) then w8 c else load8 m y) m) as HI.
  rewrite HI.
  - destruct (s <=? x) eqn:H1, (x <? s + Z.of_nat (Z.to_nat n)) eqn:H2,
      (x <? s + n) eqn:H3; bool_simpl; try done; lia.
  - intros y. destruct (s <=? y) eqn:H1, (y <? s + Z.of_nat 0) eqn:H2; bool_simpl;
      try done; lia.
  - intros k m' _ IH y. rewrite load8_store8, IH. case_decide as He.
    + subst y. destruct (s <=? _) eqn:H1, (_ <? s + Z.of_nat (S k)) eqn:H2; bool_simpl;
        try done; lia.
    + destruct (s <=? y) eqn:H1, (y <? s + Z.of_nat k) eqn:H2,
        (y <? s + Z.of_nat (S k)) eqn:H3; bool_simpl; try done; lia.
Qed.

Lemma memset_agree m s c n : agree_outside (in_range s n) m (memset m s c n).
Proof.
  intros x Hx. rewrite memset_load. unfold in_range in Hx.
  destruct (s <=? x) eqn:H1, (x <? s + n) eqn:H2; bool_simpl; try done; lia.
Qed.

(** Reading a word inside a zeroed range. *)
Lemma memset_zero_load64 m s n a :
  s <= a -> a + 8 <= s + n -> load64 (memset m s 0 n) a = 0.
Proof.
  intros H1 H2.
  apply load64_zero. intros x Hx. rewrite memset_load.
  destruct (s <=? x) eqn:E1, (x <? s + n) eqn:E2; bool_simpl; (done || lia).
Qed.

(** The copy loop, when no byte is overwritten before it is read: either the
    ranges are disjoint or the destination is below the source. *)
Lemma memcpy_load m d s n x :
  d <= s \/ s + n <= d ->
  load8 (memcpy m d s n) x =
    if (d <=? x) && (x <? d + n) then load8 m (s + (x - d)) else load8 m x.
Proof.
  intros Hov. unfold memcpy.
  pose proof (for_pure_ind (Z.to_nat n) 0 1
    (fun i m => store8 m (d + i) (load8 m (s + i)))
    (fun k m' => forall y, load8 m' y =
       if (d <=? y) && (y <? d + Z.of_nat k) then load8 m (s + (y - d))
       else load8 m y) m) as HI.
  rewrite HI.
  - destruct (d <=? x) eqn:H1, (x <? d + Z.of_nat (Z.to_nat n)) eqn:H2,
      (x <? d + n) eqn:H3; bool_simpl; try done; lia.
  - intros y. destruct (d <=? y) eqn:H1, (y <? d + Z.of_nat 0) eqn:H2; bool_simpl;
      try done; lia.
  - intros k m' Hk IH y. rewrite load8_store8. case_decide as He.
    + subst y. rewrite IH. unfold w8. rewrite (Z.mod_small _ (2 ^ 8)).
      2: { case_match; apply load8_range. }
      destruct (d <=? s + (0 + Z.of_nat k * 1)) eqn:H1,
        (s + (0 + Z.of_nat k * 1) <? d + Z.of_nat k) eqn:H2,
        (d <=? d + (0 + Z.of_nat k * 1)) eqn:H3,
        (d + (0 + Z.of_nat k * 1) <? d + Z.of_nat (S k)) eqn:H4;
        bool_simpl; cbn [andb]; try lia; f_equal; lia.
    + rewrite IH. destruct (d <=? y) eqn:H1, (y <? d + Z.of_nat k) eqn:H2,
        (y <? d + Z.of_nat (S k)) eqn:H3; bool_simpl; try done; lia.
Qed.

(** The descending loop is right when the destination is above the source. *)
Lemma memmove_down_load m d s n x :
  s <= d -> 
  load8 (memmove_down m d s n) x =
    if (d <=? x) && (x <? d + n) then load8 m (s + (x - d)) else load8 m x.
Proof.
  intros Hov. unfold memmove_down.
  pose proof (for_pure_ind (Z.to_nat n) n (-1)
    (fun i m => store8 m (d + i - 1) (load8 m (s + i - 1)))
    (fun k m' => forall y, load8 m' y =
       if (d + n - Z.of_nat k <=? y) && (y <? d + n) then load8 m (s + (y - d))
       else load8 m y) m) as HI.
  destruct (Z.leb_spec 0 n) as [Hn|Hn].
  2: { replace (Z.to_nat n) with 0%nat by lia. cbn.
       destruct (d <=? x) eqn:H1, (x <? d + n) eqn:H2; bool_simpl; try done; lia. }
  rewrite HI.
  - destruct (d <=? x) eqn:H1, (x <? d + n) eqn:H2,
      (d + n - Z.of_nat (Z.to_nat n) <=? x) eqn:H3; bool_simpl; try done; lia.
  - intros y. destruct (d + n - Z.of_nat 0 <=? y) eqn:H1, (y <? d + n) eqn:H2; bool_simpl;
      try done; lia.
  - intros k m' Hk IH y. rewrite load8_store8. case_decide as He.
    + subst y. rewrite IH. unfold w8. rewrite (Z.mod_small _ (2 ^ 8)).
      2: { case_match; apply load8_range. }
      repeat match goal with |- context [?a <=? ?b] => destruct (Z.leb_spec a b)
        | |- context [?a <? ?b] => destruct (Z.ltb_spec a b) end;
        cbn [andb]; try lia; f_equal; lia.
    + rewrite IH.
      repeat match goal with |- context [?a <=? ?b] => destruct (Z.leb_spec a b)
        | |- context [?a <? ?b] => destruct (Z.ltb_spec a b) end;
        cbn [andb]; try lia; done.
Qed.

Lemma memmove_load m d s n x :
  load8 (memmove m d s n) x =
    if (d <=? x) && (x <? d + n) then load8 m (s + (x - d)) else load8 m x.
Proof.
  unfold memmove. destruct (Z.ltb_spec d s) as [H|H].
  { apply memcpy_load. lia. }
  destruct (Z.ltb_spec s d) as [H'|H'].
  { apply memmove_down_load. lia. }
  assert (s = d) as -> by lia. case_match; [f_equal; lia|done].
Qed.

Lemma memcpy_agree m d s n :
  d <= s \/ s + n <= d -> agree_outside (in_range d n) m (memcpy m d s n).
Proof.
  intros H x Hx. rewrite memcpy_load by done. unfold in_range in Hx.
  destruct (d <=? x) eqn:H1, (x <? d + n) eqn:H2; bool_simpl; try done; lia.
Qed.

(** ** Byte strings in memory *)

Fixpoint bytes_at (n : nat) (m : memory) (a : Z) : list Z :=
  match n with
  | O => []
  | S n' => load8 m a :: bytes_at n' m (a + 1)
  end.

(** [cstring m a l]: a NUL-terminated string with bytes [l] at [a]. *)
Fixpoint cstring (m : memory) (a : Z) (l : list Z) : Prop :=
  match l with
  | [] => load8 m a = 0
  | c :: l' => load8 m a = c /\ c <> 0 /\ cstring m (a + 1) l'
  end.

Lemma length_bytes_at n m a : length (bytes_at n m a) = n.
Proof. revert a. induction n as [|n IH]; intros a; cbn; [done|by rewrite IH]. Qed.

Lemma bytes_at_lookup n m a i :
  (i < n)%nat -> bytes_at n m a !! i = Some (load8 m (a + Z.of_nat i)).
Proof.
  revert a i. induction n as [|n IH]; intros a i Hi; [lia|].
  destruct i as [|i].
  - by rewrite Z.add_0_r.
  - cbn [bytes_at lookup list_lookup]. rewrite IH by lia. do 2 f_equal. lia.
Qed.

(** [memcmp] decides equality of the two byte ranges... *)
Lemma memcmp_zero_iff m s1 s2 n :
  memcmp m s1 s2 n = 0 <->
  bytes_at (Z.to_nat n) m s1 = bytes_at (Z.to_nat n) m s2.
Proof.
  unfold memcmp. generalize (Z.to_nat n) as k. intros k. revert s1 s2.
  induction k as [|k IH]; intros s1 s2; cbn; [done|].
  destruct (Z.eqb_spec (load8 m s1) (load8 m s2)) as [He|He].
  - rewrite IH, He. split; [by intros ->|by intros [= ->]].
  - destruct (_ <? _); split; try lia; intros [=]; congruence.
Qed.

(** ... and is antisymmetric. *)
Lemma memcmp_antisym m s1 s2 n : memcmp m s1 s2 n = - memcmp m s2 s1 n.
Proof.
  unfold memcmp. generalize (Z.to_nat n) as k. intros k. revert s1 s2.
  induction k as [|k IH]; intros s1 s2; cbn; [done|].
  destruct (Z.eqb_spec (load8 m s1) (load8 m s2)) as [He|He].
  - rewrite He, Z.eqb_refl. apply IH.
  - destruct (Z.eqb_spec (load8 m s2) (load8 m s1)); [congruence|].
    destruct (Z.ltb_spec (load8 m s1) (load8 m s2)),
      (Z.ltb_spec (load8 m s2) (load8 m s1)); lia.
Qed.

Lemma strlen_loop_cstring m a l fuel :
  cstring m a l -> (length l < fuel)%nat ->
  strlen_loop fuel m a = Some (a + Z.of_nat (length l)).
Proof.
  revert a fuel. induction l as [|c l IH]; intros a fuel H Hf;
    (destruct fuel as [|fuel]; [cbn in Hf; lia|]); cbn in *.
  - rewrite H. cbn. f_equal. lia.
  - destruct H as (H1 & H2 & H3). rewrite H1.
    destruct (Z.eqb_spec c 0); [lia|]. rewrite (IH _ fuel) by (done || lia).
    f_equal. lia.
Qed.

Lemma strlen_cstring m a l fuel :
  cstring m a l -> (length l < fuel)%nat ->
  strlen fuel m a = Some (Z.of_nat (length l)).
Proof.
  intros H Hf. unfold strlen. rewrite (strlen_loop_cstring m a l) by done.
  cbn. f_equal. lia.
Qed.

(** [strncmp] returns zero exactly when the first [n] characters agree. *)
Lemma strncmp_zero_iff m a b l1 l2 n :
  cstring m a l1 -> cstring m b l2 ->
  strncmp m a b n = 0 <-> take (Z.to_nat n) l1 = take (Z.to_nat n) l2.
Proof.
  unfold strncmp. generalize (Z.to_nat n) as k. intros k H1 H2.
  revert a b l1 l2 H1 H2. induction k as [|k IH]; intros a b l1 l2 H1 H2; [done|].
  cbn [strncmp_loop].
  destruct l1 as [|c1 l1], l2 as [|c2 l2]; cbn in H1, H2 |- *.
  - rewrite H1, H2. done.
  - destruct H2 as (-> & ? & _). rewrite H1. cbn. split; [lia|done].
  - destruct H1 as (-> & ? & _). rewrite H2.
    destruct (Z.eqb_spec c1 0); [lia|]. cbn. split; [lia|done].
  - destruct H1 as (-> & Hc1 & H1), H2 as (-> & Hc2 & H2).
    destruct (Z.eqb_spec c1 0), (Z.eqb_spec c2 0); [lia..|]. cbn.
    destruct (Z.eqb_spec c1 c2) as [->|Hne].
    + rewrite (IH _ _ l1 l2) by done. split; [by intros ->|by intros [= ->]].
    + split; [lia|]. intros [=]; congruence.
Qed.

(** ** memmove is a copy through a buffer *)

Fixpoint store_bytes (m : memory) (a : Z) (l : list Z) : memory :=
  match l with
  | [] => m
  | c :: l' => store_bytes (store8 m a c) (a + 1) l'
  end.

Lemma load8_store_bytes m a l x :
  load8 (store_bytes m a l) x =
    if (a <=? x) && (x <? a + Z.of_nat (length l)) then w8 (default 0 (l !! Z.to_nat (x - a)))
    else load8 m x.
Proof.
  revert m a. induction l as [|c l IH]; intros m a; cbn [store_bytes length].
  - destruct (a <=? x) eqn:H1, (x <? a + Z.of_nat 0) eqn:H2; bool_simpl; try done; lia.
  - rewrite IH, load8_store8. destruct (decide (a = x)) as [->|Hne].
    + rewrite (proj2 (Z.leb_gt (x + 1) x)), Z.leb_refl, Z.sub_diag by lia. cbn [andb].
      by rewrite (proj2 (Z.ltb_lt x _)) by lia.
    + destruct (Z.leb_spec (a + 1) x), (Z.leb_spec a x), (Z.ltb_spec x (a + 1 + Z.of_nat (length l))),
        (Z.ltb_spec x (a + Z.of_nat (S (length l)))); cbn [andb]; try lia; try done.
      by replace (Z.to_nat (x - a)) with (S (Z.to_nat (x - (a + 1)))) by lia.
Qed.

(** C38: however the two ranges overlap, [memmove] has the effect of reading all bytes
    first and writing them afterwards. *)
Theorem memmove_simultaneous m d s n :
  mem_equiv (memmove m d s n) (store_bytes m d (bytes_at (Z.to_nat n) m s)).
Proof.
  intros x. rewrite memmove_load, load8_store_bytes, length_bytes_at.
  destruct (Z.leb_spec d x), (Z.ltb_spec x (d + n)), (Z.ltb_spec x (d + Z.of_nat (Z.to_nat n)));
    cbn [andb]; try lia; try done.
  rewrite bytes_at_lookup by lia. cbn [default from_option id].
  unfold w8. rewrite Z.mod_small by apply load8_range. f_equal. lia.
Qed.

(** From here on the copy loops are known by their specifications only. *)
#[global] Opaque memset memcpy memmove.
