(* ===== verification/Spinlock.v ===== *)
(** * sys/spinlock.h

    The spin lock word, its operations, the sequential reading used by the rest
    of the development ([acquire]/[release] on a lock stored in a larger state),
    and the concurrent reading: any number of CPUs running
    [spinlock_acquire]; critical section; [spinlock_release] as an interleaving
    of atomic steps. *)

From S2P Require Export Prelude.

Definition spinlock_t := Z.

Definition spinlock_init : spinlock_t := 0.

(** [__atomic_test_and_set]: the previous value (as a boolean), and the lock set. *)
Definition test_and_set (l : spinlock_t) : bool * spinlock_t := (negb (l =? 0), 1).

Definition spinlock_release (_ : spinlock_t) : spinlock_t := 0.

Definition spinlock_try_acquire (l : spinlock_t) : bool * spinlock_t :=
  let '(old, l') := test_and_set l in (negb old, l').

Definition spinlock_held (l : spinlock_t) : bool := negb (l =? 0).

(** [while (test_and_set) pause;] for at most [fuel] rounds, with nobody else
    running: [Some l] when the loop ended with the lock word [l]. *)
Fixpoint spinlock_acquire (fuel : nat) (l : spinlock_t) : option spinlock_t :=
  match fuel with
  | O => None
  | S f => let '(old, l') := test_and_set l in
           if old then spinlock_acquire f l' else Some l'
  end.

Lemma spinlock_acquire_free fuel : (0 < fuel)%nat -> spinlock_acquire fuel 0 = Some 1.
Proof. by destruct fuel; [lia|]. Qed.

Lemma spinlock_acquire_stuck fuel l : l <> 0 -> spinlock_acquire fuel l = None.
Proof.
  revert l. induction fuel as [|f IH]; intros l Hl; [done|]. cbn.
  destruct (Z.eqb_spec l 0); [done|]. cbn. by apply IH.
Qed.

(** ** Locks inside a state

    Taking a lock that is already held never returns when no other CPU can
    release it ([spinlock_acquire_stuck]): the outcome is [Hang]. *)
Section Lens.
Context {St : Type} (getl : St -> spinlock_t) (setl : spinlock_t -> St -> St).

Definition acquire : M St unit := fun s =>
  match spinlock_acquire 1 (getl s) with
  | Some l => Ret tt (setl l s)
  | None => Hang s
  end.

Definition release : M St unit := modify (fun s => setl (spinlock_release (getl s)) s).

Lemma acquire_free s : getl s = 0 -> acquire s = Ret tt (setl 1 s).
Proof. intros H. unfold acquire. by rewrite H. Qed.

Lemma acquire_held s : getl s <> 0 -> acquire s = Hang s.
Proof. intros H. unfold acquire. by rewrite spinlock_acquire_stuck. Qed.

Lemma wp_acquire Q s : getl s = 0 -> Q tt (setl 1 s) -> wp acquire Q s.
Proof. intros H HQ. unfold wp. by rewrite acquire_free. Qed.

Lemma wp_release Q s : Q tt (setl 0 s) -> wp release Q s.
Proof. done. Qed.
End Lens.

(** ** Interleavings *)

Inductive pc := Idle | Spinning | Critical.

#[export] Instance pc_eq_dec : EqDecision pc.
Proof. solve_decision. Defined.

(** The lock word and every CPU's position. *)
Record conf := Conf { lock_word : spinlock_t; pcs : gmap nat pc }.

Inductive step : conf -> conf -> Prop :=
  | step_start c i : pcs c !! i = Some Idle ->
      step c (Conf (lock_word c) (<[i := Spinning]> (pcs c)))
  | step_tas c i : pcs c !! i = Some Spinning ->
      step c (let '(old, l) := test_and_set (lock_word c) in
              Conf l (<[i := if old then Spinning else Critical]> (pcs c)))
  | step_release c i : pcs c !! i = Some Critical ->
      step c (Conf (spinlock_release (lock_word c)) (<[i := Idle]> (pcs c))).

Inductive reachable (c0 : conf) : conf -> Prop :=
  | reach_refl : reachable c0 c0
  | reach_step c c' : reachable c0 c -> step c c' -> reachable c0 c'.

Definition initial (c : conf) : Prop :=
  lock_word c = spinlock_init /\ forall i p, pcs c !! i = Some p -> p = Idle.

(** Somebody is in the critical section exactly when the lock word is set, and
    it is one CPU. *)
Definition lock_inv (c : conf) : Prop :=
  (lock_word c = 0 -> forall i, pcs c !! i <> Some Critical) /\
  (lock_word c <> 0 -> exists i, pcs c !! i = Some Critical /\
     forall j, pcs c !! j = Some Critical -> j = i).

Lemma lock_inv_initial c : initial c -> lock_inv c.
Proof.
  intros [Hl Hp]. split; [|by rewrite Hl].
  intros _ i Hi. by specialize (Hp _ _ Hi).
Qed.

Lemma insert_critical_inv (m : gmap nat pc) i j p :
  <[i := p]> m !! j = Some Critical ->
  (i = j /\ p = Critical) \/ (i <> j /\ m !! j = Some Critical).
Proof. rewrite lookup_insert. case_decide; [intros [= ->]|]; auto. Qed.

Lemma lock_inv_step c c' : lock_inv c -> step c c' -> lock_inv c'.
Proof.
  intros [H0 H1] Hs. destruct Hs as [c i Hi|c i Hi|c i Hi]; cbn in *.
  - split; cbn.
    + intros Hl j Hj%insert_critical_inv. destruct Hj as [[? ?]|[? Hj]]; [done|].
      by eapply H0.
    + intros Hl. destruct (H1 Hl) as (k & Hk & Hu). exists k. split.
      * rewrite lookup_insert_ne by congruence. done.
      * intros j [[? ?]|[? Hj]]%insert_critical_inv; [done|auto].
  - destruct (Z.eqb_spec (lock_word c) 0) as [Hl|Hl]; cbn; split; cbn; try done.
    + intros _. exists i. rewrite lookup_insert_eq. split; [done|].
      intros j [[? ?]|[? Hj]]%insert_critical_inv; [done|].
      exfalso. by eapply H0.
    + intros _. destruct (H1 Hl) as (k & Hk & Hu). exists k. split.
      * rewrite lookup_insert_ne by congruence. done.
      * intros j [[? ?]|[? Hj]]%insert_critical_inv; [done|auto].
  - split; [|done]. cbn. intros _ j [[? ?]|[Hne Hj]]%insert_critical_inv; [done|].
    destruct (decide (lock_word c = 0)) as [Hl|Hl]; [by eapply H0|].
    destruct (H1 Hl) as (k & Hk & Hu). by rewrite (Hu i Hi), (Hu j Hj) in Hne.
Qed.

Lemma lock_inv_reachable c0 c : initial c0 -> reachable c0 c -> lock_inv c.
Proof.
  intros Hi Hr. induction Hr; [by apply lock_inv_initial|eauto using lock_inv_step].
Qed.

(** C27: two CPUs are never in the critical section together. *)
Theorem spinlock_mutual_exclusion c0 c i j :
  initial c0 -> reachable c0 c ->
  pcs c !! i = Some Critical -> pcs c !! j = Some Critical -> i = j.
Proof.
  intros Hi Hr Ha Hb. destruct (lock_inv_reachable _ _ Hi Hr) as [H0 H1].
  destruct (decide (lock_word c = 0)) as [Hl|Hl]; [by destruct (H0 Hl i)|].
  destruct (H1 Hl) as (k & _ & Hu). by rewrite (Hu i Ha), (Hu j Hb).
Qed.

(** CPU 0 holds the lock, CPU 1 spins. *)
Lemma spinlock_mutual_exclusion_witness :
  let c0 := Conf 0 {[0%nat := Idle; 1%nat := Idle]} in
  let c := Conf 1 {[0%nat := Critical; 1%nat := Spinning]} in
  initial c0 /\ reachable c0 c /\ 0%nat = 0%nat.
Proof.
  cbv zeta. set (c0 := Conf 0 {[0%nat := Idle; 1%nat := Idle]}).
  assert (Hi : initial c0).
  { split; [reflexivity|]. intros i p. unfold c0. cbn.
    intros [[_ <-]|[_ H]]%lookup_insert_Some; [reflexivity|].
    apply lookup_singleton_Some in H as [_ <-]. reflexivity. }
  assert (H1 : reachable c0 (Conf 0 {[0%nat := Spinning; 1%nat := Idle]})).
  { eapply reach_step; [apply reach_refl|]. exact (step_start c0 0%nat eq_refl). }
  assert (H2 : reachable c0 (Conf 1 {[0%nat := Critical; 1%nat := Idle]})).
  { eapply reach_step; [exact H1|]. exact (step_tas (Conf 0 {[0%nat := Spinning; 1%nat := Idle]}) 0%nat eq_refl). }
  assert (H3 : reachable c0 (Conf 1 {[0%nat := Critical; 1%nat := Spinning]})).
  { eapply reach_step; [exact H2|]. exact (step_start (Conf 1 {[0%nat := Critical; 1%nat := Idle]}) 1%nat eq_refl). }
  split; [exact Hi|]. split; [exact H3|].
  exact (spinlock_mutual_exclusion c0 _ 0%nat 0%nat Hi H3 eq_refl eq_refl).
Defined.
