(* ===== verification/Machine.v ===== *)
(** * The kernel's global state

    The C globals of the modelled files, grouped into one record per file, and
    the memory they point into.  [K] is the kernel monad over this state. *)

From S2P Require Export Prelude Mem Spinlock.

Definition PAGE_SIZE : Z := 4096.
Definition PAGE_SIZE_2M : Z := 2 * 1024 * 1024.
Definition MAX_CPUS : Z := 64.

(** ** boot/limine.h: the boot loader's memory map *)

Definition LIMINE_MEMMAP_USABLE : Z := 0.

Record limine_memmap_entry := MemmapEntry {
  e_base : Z;
  e_length : Z;
  e_type : Z }.

(** ** mm/pmm.c *)

Record pmm_state := Pmm {
  bitmap_pages : Z;
  bitmap_size : Z;
  bitmap : Z;
  free_pages : Z;
  pmm_lock : spinlock_t;
  page_cache : list Z;
  cache_size : Z;
  cache_index : Z }.

(** ** arch/paging.c: [kernel_pagemap], the CR3 register and the addresses
    flushed by [invlpg] (newest first). *)

Record paging_state := Paging {
  kernel_pagemap : Z;
  cr3 : Z;
  invlpg : list Z }.

(** ** mm/heap/ff.c *)

Record heap_state := Heap {
  pool : Z;
  freelist : Z }.

(** ** arch/idt.h: the saved register frame *)

Record register_ctx := RegisterCtx {
  r_es : Z; r_ds : Z;
  r_cr4 : Z; r_cr3 : Z; r_cr2 : Z; r_cr0 : Z;
  r_r15 : Z; r_r14 : Z; r_r13 : Z; r_r12 : Z; r_r11 : Z; r_r10 : Z; r_r9 : Z; r_r8 : Z;
  r_rsi : Z; r_rdi : Z; r_rbp : Z; r_rdx : Z; r_rcx : Z; r_rbx : Z; r_rax : Z;
  r_vector : Z; r_err : Z;
  r_rip : Z; r_cs : Z; r_rflags : Z; r_rsp : Z; r_ss : Z }.

Definition zero_ctx : register_ctx :=
  RegisterCtx 0 0 0 0 0 0 0 0 0 0 0 0 0 0 0 0 0 0 0 0 0 0 0 0 0 0 0 0.

(** ** sys/sched.h and sys/sched.c *)

Inductive proc_state_t := PROC_READY | PROC_RUNNING | PROC_WAITING | PROC_TERMINATED.

#[export] Instance proc_state_eq_dec : EqDecision proc_state_t.
Proof. solve_decision. Defined.

Record pcb_t := Pcb {
  p_pid : Z;
  p_state : proc_state_t;
  p_timeslice : Z;
  p_pagemap : Z;
  p_vctx : Z;
  p_ctx : register_ctx;
  p_exit_code : Z;
  p_errno : Z;
  p_user : bool }.

(** [memset(proc, 0, sizeof(pcb_t))]; enumerator 0 is [PROC_READY]. *)
Definition zero_pcb : pcb_t := Pcb 0 PROC_READY 0 0 0 zero_ctx 0 0 false.

Record cpu_sched_t := CpuSched {
  procs_at : Z;
  procs : list Z;
  count : Z;
  current_pid : Z;
  s_lock : spinlock_t }.

(** The per-CPU schedulers ([procs_at] is the address of the array [procs] on the
    kernel heap), the process control blocks by the address [kmalloc]
    returned for them, the PID counter, and the index of the running CPU. *)
Record sched_state := Sched {
  cpu_schedulers : list cpu_sched_t;
  pcbs : gmap Z pcb_t;
  global_pid_counter : Z;
  cpu_index : Z }.

(** ** The machine *)

Record machine := Machine {
  mem : memory;
  hhdm_offset : Z;
  memmap : list limine_memmap_entry;
  kvm_ctx : Z;
  pmm : pmm_state;
  paging : paging_state;
  heap : heap_state;
  sched : sched_state }.

Abbreviation K := (M machine).

Definition set_mem (m : memory) (s : machine) : machine :=
  Machine m (hhdm_offset s) (memmap s) (kvm_ctx s) (pmm s) (paging s) (heap s) (sched s).
Definition set_memmap (x : list limine_memmap_entry) (s : machine) : machine :=
  Machine (mem s) (hhdm_offset s) x (kvm_ctx s) (pmm s) (paging s) (heap s) (sched s).
Definition set_kvm_ctx (x : Z) (s : machine) : machine :=
  Machine (mem s) (hhdm_offset s) (memmap s) x (pmm s) (paging s) (heap s) (sched s).
Definition set_pmm (x : pmm_state) (s : machine) : machine :=
  Machine (mem s) (hhdm_offset s) (memmap s) (kvm_ctx s) x (paging s) (heap s) (sched s).
Definition set_paging (x : paging_state) (s : machine) : machine :=
  Machine (mem s) (hhdm_offset s) (memmap s) (kvm_ctx s) (pmm s) x (heap s) (sched s).
Definition set_heap (x : heap_state) (s : machine) : machine :=
  Machine (mem s) (hhdm_offset s) (memmap s) (kvm_ctx s) (pmm s) (paging s) x (sched s).
Definition set_sched (x : sched_state) (s : machine) : machine :=
  Machine (mem s) (hhdm_offset s) (memmap s) (kvm_ctx s) (pmm s) (paging s) (heap s) x.

(** Everything but the memory and the frame allocator's own variables. *)
Definition others (s : machine) :=
  (hhdm_offset s, memmap s, kvm_ctx s, paging s, heap s, sched s).

(** ** Memory access in the monad *)

Definition read64 (a : Z) : K Z := gets (fun s => load64 (mem s) a).
Definition write64 (a v : Z) : K unit := modify (fun s => set_mem (store64 (mem s) a v) s).
Definition memset_at (a c n : Z) : K unit :=
  modify (fun s => set_mem (memset (mem s) a c n) s).
Definition memcpy_at (dst src n : Z) : K unit :=
  modify (fun s => set_mem (memcpy (mem s) dst src n) s).

(** ** util/align.h and boot/emk.h *)

Definition DIV_ROUND_UP (x y : Z) : Z := w64 (w64 x + w64 (w64 y - 1)) / w64 y.
Definition ALIGN_UP (x y : Z) : Z := w64 (DIV_ROUND_UP x y * w64 y).
Definition ALIGN_DOWN (x y : Z) : Z := (w64 x / w64 y) * w64 y.
Definition IS_PAGE_ALIGNED (x : Z) : bool := Z.land x (PAGE_SIZE - 1) =? 0.

Definition HIGHER_HALF (hhdm p : Z) : Z := if p <? hhdm then w64 (p + hhdm) else p.
Definition PHYSICAL (hhdm p : Z) : Z := if hhdm <=? p then w64 (p - hhdm) else p.

Lemma align_up_spec x y :
  0 <= x -> 0 < y -> x + y < 2 ^ 64 ->
  ALIGN_UP x y mod y = 0 /\ x <= ALIGN_UP x y < x + y.
Proof.
  intros Hx Hy Hb. unfold ALIGN_UP, DIV_ROUND_UP.
  rewrite (w64_id x), (w64_id y) by lia. rewrite (w64_id (y - 1)) by lia.
  rewrite (w64_id (x + _)) by lia.
  pose proof (Z.div_mod (x + (y - 1)) y ltac:(lia)) as Hd.
  pose proof (Z.mod_pos_bound (x + (y - 1)) y ltac:(lia)) as Hm.
  assert (Hq : (x + (y - 1)) / y * y = x + (y - 1) - (x + (y - 1)) mod y) by lia.
  rewrite w64_id by lia. split; [by apply Z.mod_mul; lia|lia].
Qed.

Lemma align_down_spec x y :
  0 <= x < 2 ^ 64 -> 0 < y < 2 ^ 64 ->
  ALIGN_DOWN x y mod y = 0 /\ ALIGN_DOWN x y <= x < ALIGN_DOWN x y + y.
Proof.
  intros Hx Hy. unfold ALIGN_DOWN. rewrite (w64_id x), (w64_id y) by lia.
  pose proof (Z.div_mod x y ltac:(lia)). pose proof (Z.mod_pos_bound x y ltac:(lia)).
  split; [by apply Z.mod_mul; lia|lia].
Qed.

Lemma is_page_aligned_mod x : IS_PAGE_ALIGNED x = (x mod PAGE_SIZE =? 0).
Proof.
  unfold IS_PAGE_ALIGNED, PAGE_SIZE. change (4096 - 1) with (Z.ones 12).
  rewrite Z.land_ones by lia. done.
Qed.

Lemma higher_half_phys hhdm p :
  0 <= p < hhdm -> hhdm + p < 2 ^ 64 -> HIGHER_HALF hhdm p = hhdm + p.
Proof.
  intros H1 H2. unfold HIGHER_HALF. destruct (Z.ltb_spec p hhdm); [|lia].
  rewrite w64_id; lia.
Qed.

Lemma physical_higher hhdm p : 
  0 <= hhdm -> 0 <= p -> hhdm + p < 2 ^ 64 -> PHYSICAL hhdm (hhdm + p) = p.
Proof.
  intros H0 H1 H2. unfold PHYSICAL. destruct (Z.leb_spec hhdm (hhdm + p)); [|lia].
  rewrite w64_id; lia.
Qed.
