(* ===== verification/Pmm.v ===== *)
(** * mm/pmm.c and lib/bitmap.h: the physical frame allocator

    The bitmap lives in memory ([bitmap] is its address in the higher half); a
    set bit is a frame in use.  [pmm_ok] is the allocator's invariant. *)

From S2P Require Export Machine.

(** ** lib/bitmap.h *)

Definition bitmap_set (m : memory) (bm bit : Z) : memory :=
  store8 m (bm + bit / 8) (Z.lor (load8 m (bm + bit / 8)) (Z.shiftl 1 (bit mod 8))).

Definition bitmap_clear (m : memory) (bm bit : Z) : memory :=
  store8 m (bm + bit / 8)
    (Z.land (load8 m (bm + bit / 8)) (Z.lnot (Z.shiftl 1 (bit mod 8)))).

Definition bitmap_get (m : memory) (bm bit : Z) : bool :=
  negb (Z.land (load8 m (bm + bit / 8)) (Z.shiftl 1 (bit mod 8)) =? 0).

(** ** Setters of the allocator's variables *)

Definition set_lock (l : spinlock_t) (s : machine) : machine :=
  let p := pmm s in
  set_pmm (Pmm (bitmap_pages p) (bitmap_size p) (bitmap p) (free_pages p) l
             (page_cache p) (cache_size p) (cache_index p)) s.
Definition set_free_pages (x : Z) (s : machine) : machine :=
  let p := pmm s in
  set_pmm (Pmm (bitmap_pages p) (bitmap_size p) (bitmap p) x (pmm_lock p)
             (page_cache p) (cache_size p) (cache_index p)) s.
Definition set_cache (c : list Z) (i : Z) (s : machine) : machine :=
  let p := pmm s in
  set_pmm (Pmm (bitmap_pages p) (bitmap_size p) (bitmap p) (free_pages p) (pmm_lock p)
             c (cache_size p) i) s.

Definition pmm_acquire : K unit := acquire (fun s => pmm_lock (pmm s)) set_lock.
Definition pmm_release : K unit := release (fun s => pmm_lock (pmm s)) set_lock.

(** ** pmm_init *)

Definition PAGE_CACHE_SIZE : Z := 1024.
Definition BITMAP_WORD_SIZE : Z := 64.

Definition is_aligned (addr align : Z) : bool := addr mod align =? 0.

Definition usable (e : limine_memmap_entry) : bool := e_type e =? LIMINE_MEMMAP_USABLE.

(** Rounds of [for (x = start; x < stop; x += step)]. *)
Definition iters (start stop step : Z) : nat := Z.to_nat ((stop - start + step - 1) / step).

(** The first loop: the end of usable memory and the number of usable frames. *)
Fixpoint scan_usable (es : list limine_memmap_entry) (high free : Z) : Z * Z :=
  match es with
  | [] => (high, free)
  | e :: es' =>
      if usable e then
        let top := w64 (e_base e + e_length e) in
        scan_usable es' (if high <? top then top else high)
          (w64 (free + e_length e / PAGE_SIZE))
      else scan_usable es' high free
  end.

(** The second loop: the bitmap goes to the start of the first usable entry that
    can hold it; that entry shrinks.  [None]: no entry is large enough. *)
Fixpoint place_bitmap (hhdm bsize : Z) (es : list limine_memmap_entry)
  : option (Z * list limine_memmap_entry) :=
  match es with
  | [] => None
  | e :: es' =>
      if usable e && (bsize <=? e_length e) then
        Some (w64 (e_base e + hhdm),
              MemmapEntry (w64 (e_base e + bsize)) (w64 (e_length e - bsize)) (e_type e)
                :: es')
      else
        match place_bitmap hhdm bsize es' with
        | Some (bm, es'') => Some (bm, e :: es'')
        | None => None
        end
  end.

(** The third loop, for one entry and for all of them. *)
Definition clear_entry (bm pages : Z) (e : limine_memmap_entry) (m : memory) : memory :=
  if usable e then
    for_pure (iters (e_base e) (w64 (e_base e + e_length e)) PAGE_SIZE) (e_base e) PAGE_SIZE
      (fun j m => if j / PAGE_SIZE <? pages then bitmap_clear m bm (j / PAGE_SIZE) else m) m
  else m.

Fixpoint clear_entries (bm pages : Z) (es : list limine_memmap_entry) (m : memory) : memory :=
  match es with
  | [] => m
  | e :: es' => clear_entries bm pages es' (clear_entry bm pages e m)
  end.

Definition pmm_init : K unit := fun s =>
  let '(high, free0) := scan_usable (memmap s) 0 0 in
  let pages := high / PAGE_SIZE in
  let bsize := ALIGN_UP (pages / 8) PAGE_SIZE in
  let '(bm, es, m, free) :=
    match place_bitmap (hhdm_offset s) bsize (memmap s) with
    | Some (bm, es) =>
        (bm, es, memset (mem s) bm 255 bsize, w64 (free0 - bsize / PAGE_SIZE))
    | None => (bitmap (pmm s), memmap s, mem s, free0)
    end in
  let m' := clear_entries bm pages es m in
  let p := Pmm pages bsize bm free spinlock_init
             (replicate (Z.to_nat PAGE_CACHE_SIZE) 0) PAGE_CACHE_SIZE 0 in
  Ret tt (set_mem m' (set_memmap es (set_pmm p s))).

(** ** palloc *)

(** The bits of one bitmap word, [n] of them left to look at. *)
Fixpoint scan_bits (n : nat) (m : memory) (bm start_bit j consecutive pages limit : Z)
  : option Z :=
  match n with
  | O => None
  | S n' =>
      if start_bit + j <? limit then
        if negb (bitmap_get m bm (start_bit + j)) then
          if consecutive + 1 =? pages then Some (start_bit + j - pages + 1)
          else scan_bits n' m bm start_bit (j + 1) (consecutive + 1) pages limit
        else scan_bits n' m bm start_bit (j + 1) 0 pages limit
      else None
  end.

(** The words of the bitmap, [n] of them left; full words are skipped. *)
Fixpoint scan_words (n : nat) (m : memory) (bm i pages limit : Z) : option Z :=
  match n with
  | O => None
  | S n' =>
      if negb (load64 m (bm + 8 * i) =? UINT64_MAX) then
        match scan_bits 64 m bm (i * BITMAP_WORD_SIZE) 0 0 pages limit with
        | Some start => Some start
        | None => scan_words n' m bm (i + 1) pages limit
        end
      else scan_words n' m bm (i + 1) pages limit
  end.

Definition word_count (p : pmm_state) : Z :=
  (bitmap_pages p + BITMAP_WORD_SIZE - 1) / BITMAP_WORD_SIZE.

Definition mark_used (m : memory) (bm start pages : Z) : memory :=
  for_pure (Z.to_nat pages) 0 1 (fun k m => bitmap_set m bm (start + k)) m.

Definition palloc (pages : Z) (higher_half : bool) : K Z :=
  s <- get ;;
  if (pages =? 0) || (free_pages (pmm s) <? pages) then ret NULL else
  pmm_acquire ;;;
  s <- get ;;
  let p := pmm s in
  let hh := hhdm_offset s in
  if (pages =? 1) && (0 <? cache_index p) then
    let addr := w64 (nth (Z.to_nat (cache_index p - 1)) (page_cache p) 0 * PAGE_SIZE) in
    modify (set_cache (page_cache p) (cache_index p - 1)) ;;;
    modify (fun s => set_mem (bitmap_set (mem s) (bitmap p) (addr / PAGE_SIZE)) s) ;;;
    modify (fun s => set_free_pages (w64 (free_pages (pmm s) - 1)) s) ;;;
    memset_at (HIGHER_HALF hh addr) 0 (pages * PAGE_SIZE) ;;;
    pmm_release ;;;
    ret (if higher_half then w64 (addr + hh) else addr)
  else
    match scan_words (Z.to_nat (word_count p)) (mem s) (bitmap p) 0 pages (bitmap_pages p) with
    | Some start =>
        modify (fun s => set_mem (mark_used (mem s) (bitmap p) start pages) s) ;;;
        modify (fun s => set_free_pages (w64 (free_pages (pmm s) - pages)) s) ;;;
        let addr := w64 (start * PAGE_SIZE) in
        memset_at (HIGHER_HALF hh addr) 0 (pages * PAGE_SIZE) ;;;
        pmm_release ;;;
        ret (if higher_half then w64 (addr + hh) else addr)
    | None =>
        pmm_release ;;;
        ret NULL
    end.

(** ** pfree *)

(** One round of the loop of [pfree]. *)
Definition pfree_step (start pages i : Z) : K unit := fun s =>
  let p := pmm s in
  let b := start + i in
  if bitmap_get (mem s) (bitmap p) b then
    let s := set_mem (bitmap_clear (mem s) (bitmap p) b) s in
    let s := set_free_pages (w64 (free_pages p + 1)) s in
    if (pages =? 1) && (cache_index p <? cache_size p) then
      Ret tt (set_cache (<[Z.to_nat (cache_index p) := start]> (page_cache p))
                (cache_index p + 1) s)
    else Ret tt s
  else Ret tt s.

Definition pfree (ptr pages : Z) : K unit :=
  if (ptr =? NULL) || negb (is_aligned ptr PAGE_SIZE) then ret tt else
  pmm_acquire ;;;
  s <- get ;;
  let hh := hhdm_offset s in
  let start := w64 (ptr - (if hh <=? ptr then hh else 0)) / PAGE_SIZE in
  if bitmap_pages (pmm s) <? w64 (start + pages) then pmm_release
  else
    for_loop (Z.to_nat pages) 0 1 (pfree_step start pages) ;;;
    pmm_release.
