(* ===== verification/PmmFacts.v ===== *)
(** * Properties of the physical frame allocator

    The bitmap as a set of used frames, the invariant [pmm_ok], and what
    [pmm_init], [palloc] and [pfree] do to them. *)

From S2P Require Export Pmm.

(** ** Bits *)

Lemma land_bit x k : 0 <= k -> negb (Z.land x (Z.shiftl 1 k) =? 0) = Z.testbit x k.
Proof.
  intros Hk. rewrite Z.shiftl_1_l.
  destruct (Z.testbit x k) eqn:Hb.
  - apply negb_true_iff, Z.eqb_neq. intros H.
    apply (f_equal (fun z => Z.testbit z k)) in H.
    rewrite Z.land_spec, Hb, Z.pow2_bits_true, Z.bits_0 in H by done. done.
  - apply negb_false_iff, Z.eqb_eq. apply Z.bits_inj'. intros i Hi.
    rewrite Z.land_spec, Z.bits_0, Z.pow2_bits_eqb by done.
    destruct (Z.eqb_spec k i) as [->|]; [by rewrite Hb|by rewrite andb_false_r].
Qed.

Lemma bitmap_get_testbit m bm b :
  bitmap_get m bm b = Z.testbit (load8 m (bm + b / 8)) (b mod 8).
Proof. apply land_bit. by apply Z.mod_pos_bound. Qed.

Lemma testbit_w8 x k : 0 <= k < 8 -> Z.testbit (w8 x) k = Z.testbit x k.
Proof. intros H. unfold w8. apply Z.mod_pow2_bits_low. lia. Qed.

Lemma bit_eq b b' : b / 8 = b' / 8 -> b mod 8 = b' mod 8 -> b = b'.
Proof. intros H1 H2. rewrite (Z.div_mod b 8), (Z.div_mod b' 8), H1, H2 by lia. done. Qed.

Lemma bitmap_get_set m bm b b' :
  bitmap_get (bitmap_set m bm b) bm b' = (b' =? b) || bitmap_get m bm b'.
Proof.
  rewrite !bitmap_get_testbit. unfold bitmap_set. rewrite load8_store8.
  pose proof (Z.mod_pos_bound b 8). pose proof (Z.mod_pos_bound b' 8).
  case_decide as Ha.
  - rewrite testbit_w8, Z.lor_spec, Z.shiftl_1_l, Z.pow2_bits_eqb by lia.
    replace (b / 8) with (b' / 8) by lia. rewrite orb_comm. f_equal.
    destruct (Z.eqb_spec (b mod 8) (b' mod 8)) as [Hm|Hm], (Z.eqb_spec b' b); try done.
    + exfalso. cut (b = b'); [lia|]. apply bit_eq; lia.
    + by subst.
  - destruct (Z.eqb_spec b' b); [subst; lia|done].
Qed.

Lemma bitmap_get_clear m bm b b' :
  bitmap_get (bitmap_clear m bm b) bm b' = negb (b' =? b) && bitmap_get m bm b'.
Proof.
  rewrite !bitmap_get_testbit. unfold bitmap_clear. rewrite load8_store8.
  pose proof (Z.mod_pos_bound b 8). pose proof (Z.mod_pos_bound b' 8).
  case_decide as Ha.
  - rewrite testbit_w8, Z.land_spec, Z.lnot_spec, Z.shiftl_1_l, Z.pow2_bits_eqb by lia.
    replace (b / 8) with (b' / 8) by lia. rewrite andb_comm. do 2 f_equal.
    destruct (Z.eqb_spec (b mod 8) (b' mod 8)) as [Hm|Hm], (Z.eqb_spec b' b); try done.
    + exfalso. cut (b = b'); [lia|]. apply bit_eq; lia.
    + by subst.
  - destruct (Z.eqb_spec b' b); [subst; lia|done].
Qed.

Lemma bitmap_get_ext m m' bm b :
  load8 m (bm + b / 8) = load8 m' (bm + b / 8) -> bitmap_get m bm b = bitmap_get m' bm b.
Proof. intros H. by rewrite !bitmap_get_testbit, H. Qed.

(** Where the bitmap operations write. *)
Lemma bitmap_set_out m bm b a :
  a <> bm + b / 8 -> load8 (bitmap_set m bm b) a = load8 m a.
Proof. intros H. apply load8_store8_ne. lia. Qed.

Lemma bitmap_clear_out m bm b a :
  a <> bm + b / 8 -> load8 (bitmap_clear m bm b) a = load8 m a.
Proof. intros H. apply load8_store8_ne. lia. Qed.

#[export] Hint Rewrite bitmap_get_set bitmap_get_clear : mem.

(** A word equal to [UINT64_MAX] has no clear bit. *)
Lemma full_word_bits m bm i b :
  load64 m (bm + 8 * i) = UINT64_MAX -> 64 * i <= b < 64 * i + 64 ->
  bitmap_get m bm b = true.
Proof.
  intros Hw Hb. rewrite bitmap_get_testbit.
  assert (H255 : load8 m (bm + b / 8) = 255).
  { apply (loadn_all_ones 8 m (bm + 8 * i)); [done|].
    pose proof (Z.div_mod b 8). pose proof (Z.mod_pos_bound b 8). lia. }
  rewrite H255. change 255 with (Z.ones 8). apply Z.ones_spec_low.
  apply Z.mod_pos_bound. lia.
Qed.

(** ** Counting free frames *)

Fixpoint nfree (u : Z -> bool) (n : nat) : Z :=
  match n with
  | O => 0
  | S n' => nfree u n' + (if u (Z.of_nat n') then 0 else 1)
  end.

Lemma nfree_ext u v n :
  (forall i, 0 <= i < Z.of_nat n -> u i = v i) -> nfree u n = nfree v n.
Proof.
  induction n as [|n IH]; intros H; [done|]. cbn. rewrite IH by (intros; apply H; lia).
  by rewrite H by lia.
Qed.

Lemma nfree_bounds u n : 0 <= nfree u n <= Z.of_nat n.
Proof. induction n as [|n IH]; cbn [nfree]; [lia|]. destruct (u _); lia. Qed.

Lemma nfree_update u v n b :
  0 <= b < Z.of_nat n -> (forall i, i <> b -> v i = u i) ->
  nfree v n = nfree u n + (if u b then 0 else -1) + (if v b then 0 else 1).
Proof.
  induction n as [|n IH]; intros Hb H; [lia|]. cbn [nfree].
  destruct (decide (b = Z.of_nat n)) as [->|Hne].
  - rewrite (nfree_ext v u n) by (intros; apply H; lia).
    destruct (u _), (v _); lia.
  - rewrite IH by (done || lia). rewrite (H (Z.of_nat n)) by done. lia.
Qed.

(** Marking a run of [k] free frames lowers the count by [k]. *)
Lemma nfree_run u v n st k :
  0 <= st -> st + Z.of_nat k <= Z.of_nat n ->
  (forall i, st <= i < st + Z.of_nat k -> u i = false) ->
  (forall i, v i = ((st <=? i) && (i <? st + Z.of_nat k)) || u i) ->
  nfree v n = nfree u n - Z.of_nat k.
Proof.
  revert v. induction k as [|k IH]; intros v H0 H1 Hf Hv.
  - rewrite (nfree_ext v u); [lia|]. intros i _. rewrite Hv.
    destruct (Z.leb_spec st i), (Z.ltb_spec i (st + Z.of_nat 0)); cbn; (done || lia).
  - set (w := fun i => ((st <=? i) && (i <? st + Z.of_nat k)) || u i).
    assert (Hw : nfree w n = nfree u n - Z.of_nat k).
    { apply IH; [lia..| |done]. intros i Hi. apply Hf. lia. }
    rewrite (nfree_update w v n (st + Z.of_nat k)); [|lia|].
    + rewrite Hw. unfold w at 1. rewrite Hv, (Hf (st + Z.of_nat k)) by lia.
      destruct (Z.leb_spec st (st + Z.of_nat k)),
        (Z.ltb_spec (st + Z.of_nat k) (st + Z.of_nat k)),
        (Z.ltb_spec (st + Z.of_nat k) (st + Z.of_nat (S k))); cbn; lia.
    + intros i Hi. rewrite Hv. unfold w.
      destruct (Z.leb_spec st i), (Z.ltb_spec i (st + Z.of_nat k)),
        (Z.ltb_spec i (st + Z.of_nat (S k))); cbn; (done || lia).
Qed.

(** ** The search for a run *)

(** [free_run m bm st k]: frames [st .. st + k - 1] are free. *)
Definition free_run (m : memory) (bm st k : Z) : Prop :=
  forall b, st <= b < st + k -> bitmap_get m bm b = false.

Lemma scan_bits_sound n m bm sb j c pages limit st :
  0 <= c <= j -> c < pages -> free_run m bm (sb + j - c) c -> j + Z.of_nat n <= 64 ->
  scan_bits n m bm sb j c pages limit = Some st ->
  sb <= st /\ st + pages <= limit /\ st + pages <= sb + 64 /\ free_run m bm st pages.
Proof.
  revert j c. induction n as [|n IH]; intros j c Hc Hp Hr Hn; cbn [scan_bits]; [done|].
  destruct (Z.ltb_spec (sb + j) limit) as [Hl|]; [|done].
  destruct (bitmap_get m bm (sb + j)) eqn:Hb; cbn [negb].
  - intros H. apply (IH (j + 1) 0); [lia..|intros b ?; lia|lia|done].
  - destruct (Z.eqb_spec (c + 1) pages) as [He|He]; intros H.
    + injection H as <-. repeat split; [lia..|]. intros b Hbb.
      destruct (decide (b = sb + j)) as [->|]; [done|]. apply Hr. lia.
    + apply (IH (j + 1) (c + 1)); [lia..| |lia|done]. intros b Hbb.
      destruct (decide (b = sb + j)) as [->|]; [done|]. apply Hr. lia.
Qed.

Lemma scan_bits_complete n m bm sb j c pages limit st :
  0 <= c <= j -> c < pages -> (c = j \/ bitmap_get m bm (sb + j - c - 1) = true) ->
  scan_bits n m bm sb j c pages limit = None ->
  sb <= st -> sb + j < st + pages <= sb + j + Z.of_nat n -> st + pages <= limit ->
  ~ free_run m bm st pages.
Proof.
  revert j c. induction n as [|n IH]; intros j c Hc Hp Hm; cbn [scan_bits]; [lia|].
  intros H Hst He Hlim Hrun.
  destruct (Z.ltb_spec (sb + j) limit) as [Hl|]; [|lia].
  destruct (bitmap_get m bm (sb + j)) eqn:Hb; cbn [negb] in H.
  - destruct (decide (st <= sb + j)) as [Hle|Hgt].
    { rewrite Hrun in Hb by lia. done. }
    revert Hrun. apply (IH (j + 1) 0); [lia|lia| |done|lia|lia|lia].
    right. rewrite <- Hb. f_equal. lia.
  - destruct (Z.eqb_spec (c + 1) pages) as [|Hne]; [done|].
    destruct (decide (st + pages = sb + j + 1)) as [Heq|Hneq].
    { destruct Hm as [->|Hm]; [lia|]. rewrite Hrun in Hm by lia. done. }
    revert Hrun. apply (IH (j + 1) (c + 1)); [lia|lia| |done|lia|lia|lia].
    destruct Hm as [->|Hm]; [by left|right]. rewrite <- Hm. f_equal. lia.
Qed.

(** A run that lies inside one 64-frame bitmap word. *)
Definition word_run (m : memory) (bm pages limit st : Z) : Prop :=
  0 <= st /\ st + pages <= limit /\ free_run m bm st pages /\
  exists i, 64 * i <= st /\ st + pages <= 64 * i + 64.

Lemma scan_words_sound n m bm i pages limit st :
  0 <= i -> 0 < pages -> scan_words n m bm i pages limit = Some st ->
  word_run m bm pages limit st.
Proof.
  intros Hi Hp. revert i Hi. induction n as [|n IH]; intros i Hi; cbn [scan_words]; [done|].
  destruct (negb _); [|by apply IH; lia].
  destruct (scan_bits 64 _ _ _ _ _ _ _) as [st'|] eqn:Hs; [|by apply IH; lia].
  intros [= <-]. apply scan_bits_sound in Hs; [|lia..|intros b ?; lia|lia].
  unfold BITMAP_WORD_SIZE in Hs. destruct Hs as (H1 & H2 & H3 & H4).
  repeat split; [lia|lia|done|]. exists i. lia.
Qed.

Lemma scan_word_none m bm i pages limit st :
  0 < pages -> scan_bits 64 m bm (64 * i) 0 0 pages limit = None ->
  64 * i <= st -> st + pages <= 64 * i + 64 -> st + pages <= limit ->
  ~ free_run m bm st pages.
Proof.
  intros Hp Hs H1 H2 H3.
  refine (scan_bits_complete 64 m bm (64 * i) 0 0 pages limit st _ Hp _ Hs H1 _ H3);
    [lia|by left|lia].
Qed.

Lemma scan_words_step n m bm i pages limit :
  scan_words (S n) m bm i pages limit = None ->
  scan_words n m bm (i + 1) pages limit = None /\
  (load64 m (bm + 8 * i) = UINT64_MAX \/ scan_bits 64 m bm (64 * i) 0 0 pages limit = None).
Proof.
  cbn [scan_words]. rewrite (Z.mul_comm i). unfold BITMAP_WORD_SIZE.
  generalize (scan_bits 64 m bm (64 * i) 0 0 pages limit) as o. intros o.
  destruct (Z.eqb_spec (load64 m (bm + 8 * i)) UINT64_MAX) as [Hf|Hf]; cbn [negb]; [by auto|].
  destruct o; [discriminate|]. by auto.
Qed.

Lemma scan_words_complete n m bm i pages limit st :
  0 < pages -> scan_words n m bm i pages limit = None ->
  64 * i <= st -> st + pages <= 64 * (i + Z.of_nat n) ->
  ~ word_run m bm pages limit st.
Proof.
  intros Hp. revert i. induction n as [|n IH]; intros i Hs H1 H2; [lia|].
  apply scan_words_step in Hs as [Hn Hw].
  intros (H3 & H4 & Hrun & k & Hk1 & Hk2).
  destruct (decide (k = i)) as [->|Hne].
  - destruct Hw as [Hf|Hb].
    + specialize (Hrun st ltac:(lia)).
      rewrite (full_word_bits m bm i) in Hrun by (exact Hf || lia). discriminate Hrun.
    + revert Hrun. by apply (scan_word_none m bm i pages limit st).
  - revert Hn. intros Hn. apply (IH (i + 1)) in Hn; [|lia|lia]. apply Hn.
    repeat split; [lia|lia|exact Hrun|by exists k].
Qed.

Lemma mark_used_get m bm st pages b :
  bitmap_get (mark_used m bm st pages) bm b =
    ((st <=? b) && (b <? st + pages)) || bitmap_get m bm b.
Proof.
  unfold mark_used.
  pose proof (for_pure_ind (Z.to_nat pages) 0 1 (fun k m => bitmap_set m bm (st + k))
    (fun k m' => forall b, bitmap_get m' bm b =
       ((st <=? b) && (b <? st + Z.of_nat k)) || bitmap_get m bm b) m) as HI.
  rewrite HI.
  - destruct (Z.leb_spec st b), (Z.ltb_spec b (st + Z.of_nat (Z.to_nat pages))),
      (Z.ltb_spec b (st + pages)); cbn; (done || lia).
  - intros x. destruct (Z.leb_spec st x), (Z.ltb_spec x (st + Z.of_nat 0)); cbn;
      (done || lia).
  - intros k m' _ IH x. rewrite bitmap_get_set, IH.
    destruct (Z.eqb_spec x (st + (0 + Z.of_nat k * 1))), (Z.leb_spec st x),
      (Z.ltb_spec x (st + Z.of_nat k)), (Z.ltb_spec x (st + Z.of_nat (S k)));
      cbn; (done || lia).
Qed.

Lemma mark_used_agree m bm st pages hi :
  0 <= st -> st + pages <= hi ->
  agree_outside (fun a => bm <= a < bm + (hi + 7) / 8) m (mark_used m bm st pages).
Proof.
  intros H0 H1. unfold mark_used.
  apply (for_pure_ind (Z.to_nat pages) 0 1 (fun k m => bitmap_set m bm (st + k))
    (fun k m' => agree_outside (fun a => bm <= a < bm + (hi + 7) / 8) m m')).
  - apply agree_outside_refl.
  - intros k m' Hk IH a Ha. rewrite bitmap_set_out; [by apply IH|].
    intros ->. apply Ha.
    pose proof (Z.div_pos (st + (0 + Z.of_nat k * 1)) 8).
    pose proof (Z.div_le_mono (st + (0 + Z.of_nat k * 1) + 8) (hi + 7) 8).
    replace (st + (0 + Z.of_nat k * 1) + 8) with (st + (0 + Z.of_nat k * 1) + 1 * 8) in * by lia.
    rewrite Z.div_add in * by lia. lia.
Qed.

(** ** Frames, and the allocator's invariant *)

(** Frame [f] is marked in use. *)
Definition used (s : machine) (f : Z) : bool := bitmap_get (mem s) (bitmap (pmm s)) f.

(** The bytes of frames [f .. f + n - 1] in the higher half. *)
Definition in_frames (s : machine) (f n a : Z) : Prop :=
  in_range (hhdm_offset s + f * PAGE_SIZE) (n * PAGE_SIZE) a.

(** The bytes of the bitmap that [palloc] reads, word by word. *)
Definition in_bitmap (s : machine) (a : Z) : Prop :=
  in_range (bitmap (pmm s)) (8 * word_count (pmm s)) a.

(** Frame [f] holds a part of the bitmap. *)
Definition bitmap_frame (s : machine) (f : Z) : Prop :=
  exists a, in_bitmap s a /\ in_frames s f 1 a.

(** Frame [f] is in use by a client of the allocator. *)
Definition owned (s : machine) (f : Z) : Prop :=
  0 < f < bitmap_pages (pmm s) /\ used s f = true /\ ~ bitmap_frame s f.

Definition cached (s : machine) : list Z :=
  take (Z.to_nat (cache_index (pmm s))) (page_cache (pmm s)).

Record pmm_ok (s : machine) : Prop := PmmOk {
  ok_lock : pmm_lock (pmm s) = 0;
  ok_hhdm : 0 < hhdm_offset s /\ hhdm_offset s mod PAGE_SIZE = 0;
  ok_pages : 0 < bitmap_pages (pmm s) /\
             bitmap_pages (pmm s) * PAGE_SIZE <= hhdm_offset s /\
             hhdm_offset s + bitmap_pages (pmm s) * PAGE_SIZE < 2 ^ 64;
  ok_frame0 : used s 0 = true;
  ok_bitmap : forall a, in_bitmap s a ->
      exists f, 0 <= f < bitmap_pages (pmm s) /\ used s f = true /\ in_frames s f 1 a;
  ok_free : free_pages (pmm s) = nfree (used s) (Z.to_nat (bitmap_pages (pmm s)));
  ok_cache_size : cache_size (pmm s) = PAGE_CACHE_SIZE /\
                  length (page_cache (pmm s)) = Z.to_nat PAGE_CACHE_SIZE /\
                  0 <= cache_index (pmm s) <= PAGE_CACHE_SIZE;
  ok_cache : NoDup (cached s) /\
             Forall (fun f => 0 <= f < bitmap_pages (pmm s) /\ used s f = false) (cached s) }.

(** What a successful allocation of frames [st .. st + n - 1] does. *)
Record allocates (s : machine) (st n : Z) (s' : machine) : Prop := Allocates {
  al_others : others s' = others s;
  al_bitmap : bitmap (pmm s') = bitmap (pmm s) /\ bitmap_pages (pmm s') = bitmap_pages (pmm s);
  al_free : forall f, st <= f < st + n -> 0 < f < bitmap_pages (pmm s) /\ used s f = false;
  al_used : forall f, 0 <= f < bitmap_pages (pmm s) ->
      used s' f = ((st <=? f) && (f <? st + n)) || used s f;
  al_zero : forall a, in_frames s st n a -> load8 (mem s') a = 0;
  al_frame : agree_outside (fun a => in_frames s st n a \/ in_bitmap s a) (mem s) (mem s') }.

Lemma used_frame_unique s f g a : in_frames s f 1 a -> in_frames s g 1 a -> f = g.
Proof. unfold in_frames, in_range, PAGE_SIZE. lia. Qed.

(** A frame that is not in use shares no byte with the bitmap. *)
Lemma free_not_bitmap s f a :
  pmm_ok s -> used s f = false -> in_frames s f 1 a -> ~ in_bitmap s a.
Proof.
  intros Hok Hf Ha Hb. destruct (ok_bitmap s Hok a Hb) as (g & _ & Hg & Hag).
  by rewrite (used_frame_unique s f g a), Hg in Hf.
Qed.

(** The byte that holds the bit of a frame of the machine is a bitmap byte. *)
Lemma bit_in_bitmap s f :
  0 <= f < bitmap_pages (pmm s) -> in_bitmap s (bitmap (pmm s) + f / 8).
Proof.
  intros Hf. unfold in_bitmap, in_range, word_count, BITMAP_WORD_SIZE.
  pose proof (Z.div_pos f 8). 
  pose proof (Z.div_mod (bitmap_pages (pmm s) + 64 - 1) 64).
  pose proof (Z.mod_pos_bound (bitmap_pages (pmm s) + 64 - 1) 64).
  pose proof (Z.div_mod f 8). pose proof (Z.mod_pos_bound f 8). lia.
Qed.

Lemma others_hhdm s s' : others s' = others s -> hhdm_offset s' = hhdm_offset s.
Proof. by intros [= ->]. Qed.

Lemma in_frames_split s st n a :
  in_frames s st n a -> exists f, st <= f < st + n /\ in_frames s f 1 a.
Proof.
  unfold in_frames, in_range, PAGE_SIZE. intros H.
  exists ((a - hhdm_offset s) / 4096).
  pose proof (Z.div_mod (a - hhdm_offset s) 4096).
  pose proof (Z.mod_pos_bound (a - hhdm_offset s) 4096). lia.
Qed.

(** The state [palloc] leaves, before the lock is released: run [st .. st+n-1]
    marked, zeroed and discounted. *)
Definition take_frames (st n : Z) (s : machine) : machine :=
  set_free_pages (free_pages (pmm s) - n)
    (set_mem (memset (mark_used (mem s) (bitmap (pmm s)) st n)
                (hhdm_offset s + st * PAGE_SIZE) 0 (n * PAGE_SIZE)) s).

Section Take.
Context (s : machine) (st n : Z).
Hypothesis (Hok : pmm_ok s) (Hn : 0 < n) (Hst : 0 <= st)
  (Hlim : st + n <= bitmap_pages (pmm s))
  (Hrun : free_run (mem s) (bitmap (pmm s)) st n).

Let zeroed := in_range (hhdm_offset s + st * PAGE_SIZE) (n * PAGE_SIZE).

Lemma take_zeroed_not_bitmap a : zeroed a -> ~ in_bitmap s a.
Proof.
  intros Ha. destruct (in_frames_split s st n a Ha) as (f & Hf & Haf).
  eapply free_not_bitmap; [done| |done]. by apply Hrun.
Qed.

Lemma take_allocates : allocates s st n (take_frames st n s).
Proof.
  split; [done|done| | | |].
  - intros f Hf. pose proof (Hrun f Hf) as Hu. split; [|done].
    destruct (decide (f = 0)) as [->|]; [|lia].
    pose proof (ok_frame0 s Hok) as H0. unfold used in H0. by rewrite Hu in H0.
  - intros f Hf. unfold used. cbn. rewrite <- mark_used_get.
    apply bitmap_get_ext, memset_agree. intros Hz.
    by apply take_zeroed_not_bitmap in Hz; apply Hz, bit_in_bitmap.
  - intros a Ha. cbn. rewrite memset_load. unfold in_frames, in_range in Ha.
    destruct (Z.leb_spec (hhdm_offset s + st * PAGE_SIZE) a),
      (Z.ltb_spec a (hhdm_offset s + st * PAGE_SIZE + n * PAGE_SIZE)); (done || lia).
  - intros a Ha. cbn. rewrite memset_agree by (intros ?; apply Ha; by left).
    apply (mark_used_agree _ _ _ _ (bitmap_pages (pmm s))); [lia|lia|].
    intros Hr. apply Ha. right. unfold in_bitmap, in_range, word_count, BITMAP_WORD_SIZE.
    pose proof (Z.div_mod (bitmap_pages (pmm s) + 64 - 1) 64).
    pose proof (Z.mod_pos_bound (bitmap_pages (pmm s) + 64 - 1) 64).
    pose proof (Z.div_mod (bitmap_pages (pmm s) + 7) 8).
    pose proof (Z.mod_pos_bound (bitmap_pages (pmm s) + 7) 8). lia.
Qed.
End Take.

Lemma word_count_nonneg s : pmm_ok s -> 0 <= word_count (pmm s).
Proof.
  intros Hok. pose proof (ok_pages s Hok). unfold word_count, BITMAP_WORD_SIZE.
  apply Z.div_pos; lia.
Qed.

(** Frame [f] of a machine whose fields agree with another's is the same range. *)
Lemma in_frames_others s s' f n a :
  others s' = others s -> in_frames s' f n a <-> in_frames s f n a.
Proof. intros H. unfold in_frames. by rewrite (others_hhdm s s' H). Qed.

Lemma in_bitmap_same s s' a :
  bitmap (pmm s') = bitmap (pmm s) -> bitmap_pages (pmm s') = bitmap_pages (pmm s) ->
  in_bitmap s' a <-> in_bitmap s a.
Proof. intros H1 H2. unfold in_bitmap, word_count. by rewrite H1, H2. Qed.

(** An allocation keeps the invariant, provided no frame it takes stays in the
    cache of free frames. *)
Lemma allocates_ok s st n s' :
  pmm_ok s -> 0 < n -> 0 <= st -> st + n <= bitmap_pages (pmm s) ->
  allocates s st n s' ->
  pmm_lock (pmm s') = 0 ->
  free_pages (pmm s') = free_pages (pmm s) - n ->
  cache_size (pmm s') = cache_size (pmm s) ->
  length (page_cache (pmm s')) = length (page_cache (pmm s)) ->
  0 <= cache_index (pmm s') <= cache_index (pmm s) ->
  NoDup (cached s') ->
  Forall (fun f => f ∈ cached s /\ ~ st <= f < st + n) (cached s') ->
  pmm_ok s'.
Proof.
  intros Hok Hn Hst Hlim [Ho [Hb Hp] Hfree Hused Hz Hfr] Hl Hf Hcs Hlen Hci Hnd Hc.
  destruct Hok as [_ Hhh Hpg H0 Hbm Hfp (Hcs0 & Hlen0 & Hci0) [Hnd0 Hc0]].
  split; rewrite ?(others_hhdm s s' Ho), ?Hp; try done.
  - rewrite Hused by lia. by rewrite H0, orb_true_r.
  - intros a Ha. apply (in_bitmap_same s s' a Hb Hp) in Ha.
    destruct (Hbm a Ha) as (f & Hfb & Hfu & Hfa). exists f. split; [done|].
    rewrite Hused, Hfu, orb_true_r by done. split; [done|]. by rewrite (in_frames_others s s').
  - rewrite Hf, Hfp. rewrite <- (Z2Nat.id n) at 1 by lia. symmetry.
    rewrite (nfree_ext (used s') (fun f =>
      ((st <=? f) && (f <? st + Z.of_nat (Z.to_nat n))) || used s f)).
    2: { intros f Hff. rewrite Hused by lia. by rewrite (Z2Nat.id n) by lia. }
    apply (nfree_run (used s) _ _ st); [done|lia| |done].
    intros f Hff. by apply Hfree; lia.
  - rewrite Hcs, Hlen. lia.
  - split; [done|]. apply Forall_forall. intros f Hin.
    rewrite Forall_forall in Hc, Hc0. destruct (Hc f Hin) as [Hin' Hout].
    destruct (Hc0 f Hin') as [Hfb Hfu]. split; [done|].
    rewrite Hused, Hfu, orb_false_r by done.
    destruct (Z.leb_spec st f), (Z.ltb_spec f (st + n)); (done || lia).
Qed.

(** ** palloc *)

Lemma set_lock_twice s : pmm_lock (pmm s) = 0 -> set_lock 0 (set_lock 1 s) = s.
Proof. destruct s as [m hh mm kc [] pg hp sc]. cbn. by intros ->. Qed.

Lemma word_run_free s pages st :
  pmm_ok s -> 0 < pages -> word_run (mem s) (bitmap (pmm s)) pages (bitmap_pages (pmm s)) st ->
  pages <= free_pages (pmm s).
Proof.
  intros Hok Hp (H0 & H1 & Hrun & _). rewrite (ok_free s Hok).
  pose proof (nfree_run (used s)
    (fun f => ((st <=? f) && (f <? st + Z.of_nat (Z.to_nat pages))) || used s f)
    (Z.to_nat (bitmap_pages (pmm s))) st (Z.to_nat pages)) as Hr.
  rewrite Z2Nat.id in Hr by lia.
  pose proof (nfree_bounds (fun f => ((st <=? f) && (f <? st + pages)) || used s f)
    (Z.to_nat (bitmap_pages (pmm s)))).
  specialize (Hr ltac:(lia) ltac:(lia) Hrun (fun _ => eq_refl)). lia.
Qed.

Lemma scan_words_none s pages st :
  pmm_ok s -> 0 < pages ->
  scan_words (Z.to_nat (word_count (pmm s))) (mem s) (bitmap (pmm s)) 0 pages
    (bitmap_pages (pmm s)) = None ->
  ~ word_run (mem s) (bitmap (pmm s)) pages (bitmap_pages (pmm s)) st.
Proof.
  intros Hok Hp Hs Hr. pose proof (word_count_nonneg s Hok).
  destruct Hr as (H0 & H1 & Hr).
  apply (scan_words_complete _ _ _ _ _ _ st Hp) in Hs; [by apply Hs|lia|].
  rewrite Z2Nat.id by lia. unfold word_count, BITMAP_WORD_SIZE.
  pose proof (Z.div_mod (bitmap_pages (pmm s) + 64 - 1) 64).
  pose proof (Z.mod_pos_bound (bitmap_pages (pmm s) + 64 - 1) 64). lia.
Qed.

(** Frame addresses do not wrap. *)
Lemma frame_addr s f n :
  pmm_ok s -> 0 <= f -> 0 < n -> f + n <= bitmap_pages (pmm s) ->
  w64 (f * PAGE_SIZE) = f * PAGE_SIZE /\
  HIGHER_HALF (hhdm_offset s) (f * PAGE_SIZE) = hhdm_offset s + f * PAGE_SIZE /\
  w64 (f * PAGE_SIZE + hhdm_offset s) = hhdm_offset s + f * PAGE_SIZE.
Proof.
  intros Hok H0 Hn H1. destruct (ok_pages s Hok) as (_ & Hp1 & Hp2).
  destruct (ok_hhdm s Hok) as [Hh _]. unfold PAGE_SIZE in *.
  rewrite !w64_id by lia. rewrite higher_half_phys by lia. lia.
Qed.

Definition frame_ptr (s : machine) (higher_half : bool) (f : Z) : Z :=
  if higher_half then hhdm_offset s + f * PAGE_SIZE else f * PAGE_SIZE.

Lemma mark_used_one m bm f : mark_used m bm f 1 = bitmap_set m bm f.
Proof. change (mark_used m bm f 1) with (bitmap_set m bm (f + 0)). by rewrite Z.add_0_r. Qed.

Lemma cached_pop s f :
  pmm_ok s -> 0 < cache_index (pmm s) ->
  f = nth (Z.to_nat (cache_index (pmm s) - 1)) (page_cache (pmm s)) 0 ->
  cached s = take (Z.to_nat (cache_index (pmm s) - 1)) (page_cache (pmm s)) ++ [f].
Proof.
  intros Hok Hi ->. destruct (ok_cache_size s Hok) as (_ & Hlen & Hb).
  unfold cached. replace (Z.to_nat (cache_index (pmm s)))
    with (S (Z.to_nat (cache_index (pmm s) - 1))) by lia.
  apply take_S_r. rewrite nth_lookup.
  destruct (lookup_lt_is_Some_2 (page_cache (pmm s)) (Z.to_nat (cache_index (pmm s) - 1)))
    as [x Hx]; [unfold PAGE_CACHE_SIZE in *; lia|]. by rewrite Hx.
Qed.

(** The two ways [palloc] succeeds, as equations on the state. *)
Lemma palloc_cached s hh f :
  pmm_ok s -> 0 < cache_index (pmm s) -> 1 <= free_pages (pmm s) ->
  f = nth (Z.to_nat (cache_index (pmm s) - 1)) (page_cache (pmm s)) 0 ->
  0 <= f < bitmap_pages (pmm s) ->
  palloc 1 hh s = Ret (frame_ptr s hh f)
    (set_cache (page_cache (pmm s)) (cache_index (pmm s) - 1) (take_frames f 1 s)).
Proof.
  intros Hok Hi Hfp Hf Hb. destruct (frame_addr s f 1 Hok) as (Ha1 & Ha2 & Ha3); [lia..|].
  unfold palloc, bind, get. cbn beta iota.
  destruct (Z.ltb_spec (free_pages (pmm s)) 1); [lia|]. cbn [Z.eqb orb].
  unfold pmm_acquire. rewrite (acquire_free _ _ s) by apply (ok_lock s Hok).
  cbn. destruct (Z.ltb_spec 0 (cache_index (pmm s))); [|lia]. cbn.
  rewrite <- Hf, Ha1, Ha2. cbn.
  rewrite (Z.div_mul f PAGE_SIZE) by (unfold PAGE_SIZE; lia).
  rewrite Ha3. pose proof (ok_free s Hok) as Hfree. pose proof (ok_pages s Hok).
  pose proof (nfree_bounds (used s) (Z.to_nat (bitmap_pages (pmm s)))).
  rewrite (w64_id (free_pages (pmm s) - 1)) by (unfold PAGE_SIZE in *; lia).
  pose proof (ok_lock s Hok) as Hl. unfold take_frames. rewrite mark_used_one.
  destruct s as [m h mm kc [] pg hp sc]; cbn in *. subst pmm_lock.
  generalize (memset (bitmap_set m bitmap f) (h + f * PAGE_SIZE) 0 (1 * PAGE_SIZE)).
  by destruct hh.
Qed.

Lemma palloc_scanned s pages hh st :
  pmm_ok s -> (pages = 1 -> cache_index (pmm s) = 0) -> 0 < pages <= free_pages (pmm s) ->
  scan_words (Z.to_nat (word_count (pmm s))) (mem s) (bitmap (pmm s)) 0 pages
    (bitmap_pages (pmm s)) = Some st ->
  palloc pages hh s = Ret (frame_ptr s hh st) (take_frames st pages s).
Proof.
  intros Hok Hi Hfp Hs. pose proof Hs as Hw.
  apply scan_words_sound in Hw; [|lia|lia]. destruct Hw as (H0 & H1 & _).
  destruct (frame_addr s st pages Hok) as (Ha1 & Ha2 & Ha3); [lia..|].
  unfold palloc, bind, get. cbn beta iota.
  destruct (Z.ltb_spec (free_pages (pmm s)) pages); [lia|].
  destruct (Z.eqb_spec pages 0); [lia|]. cbn [orb].
  unfold pmm_acquire. rewrite (acquire_free _ _ s) by apply (ok_lock s Hok). cbn -[scan_words].
  assert (Hc : (pages =? 1) && (0 <? cache_index (pmm s)) = false).
  { destruct (Z.eqb_spec pages 1); [|done]. by rewrite Hi. }
  rewrite Hc. unfold word_count in *. cbn -[scan_words] in *. rewrite Hs. cbn.
  rewrite Ha1, Ha2, Ha3. pose proof (ok_free s Hok) as Hfree. pose proof (ok_pages s Hok).
  pose proof (nfree_bounds (used s) (Z.to_nat (bitmap_pages (pmm s)))).
  rewrite (w64_id (free_pages (pmm s) - pages)) by (unfold PAGE_SIZE in *; lia).
  pose proof (ok_lock s Hok) as Hl. unfold take_frames.
  destruct s as [m h mm kc [] pg hp sc]; cbn in *. subst pmm_lock. by destruct hh.
Qed.

Lemma palloc_refused s pages hh :
  pmm_ok s -> (pages = 1 -> cache_index (pmm s) = 0) ->
  scan_words (Z.to_nat (word_count (pmm s))) (mem s) (bitmap (pmm s)) 0 pages
    (bitmap_pages (pmm s)) = None ->
  palloc pages hh s = Ret NULL s.
Proof.
  intros Hok Hi Hs. unfold palloc, bind, get. cbn beta iota.
  destruct ((pages =? 0) || _); [done|].
  unfold pmm_acquire. rewrite (acquire_free _ _ s) by apply (ok_lock s Hok). cbn -[scan_words].
  assert (Hc : (pages =? 1) && (0 <? cache_index (pmm s)) = false).
  { destruct (Z.eqb_spec pages 1); [|done]. by rewrite Hi. }
  rewrite Hc. unfold word_count in *. cbn -[scan_words] in *. rewrite Hs.
  cbn. unfold spinlock_release. by rewrite set_lock_twice by apply (ok_lock s Hok).
Qed.

(** The outcome of [palloc]: nothing found and nothing changed, or a run of
    frames handed out. *)
Definition palloc_post (s : machine) (pages : Z) (hh : bool) (r : Z) (s' : machine) : Prop :=
  (r = NULL /\ s' = s /\
     forall st, 0 < pages -> ~ word_run (mem s) (bitmap (pmm s)) pages (bitmap_pages (pmm s)) st)
  \/ (exists st, 0 < st /\ st + pages <= bitmap_pages (pmm s) /\ 0 < pages <= 64 /\
        r = frame_ptr s hh st /\ allocates s st pages s' /\ pmm_ok s').

Lemma take_frames_ok s pages st :
  pmm_ok s -> 0 < pages -> 0 <= st -> st + pages <= bitmap_pages (pmm s) ->
  free_run (mem s) (bitmap (pmm s)) st pages -> cache_index (pmm s) = 0 ->
  pmm_ok (take_frames st pages s).
Proof.
  intros Hok Hp H0 H1 Hrun Hc.
  pose proof (ok_cache_size s Hok) as (Hcs & Hlen & _).
  apply (allocates_ok s st pages); try done.
  - by apply take_allocates.
  - apply (ok_lock s Hok).
  - cbn. lia.
  - unfold cached. cbn. rewrite Hc. apply NoDup_nil_2.
  - unfold cached. cbn. rewrite Hc. by apply Forall_nil.
Qed.

Lemma palloc_pop_ok s f :
  pmm_ok s -> 0 < cache_index (pmm s) ->
  f = nth (Z.to_nat (cache_index (pmm s) - 1)) (page_cache (pmm s)) 0 ->
  let s' := set_cache (page_cache (pmm s)) (cache_index (pmm s) - 1) (take_frames f 1 s) in
  0 < f < bitmap_pages (pmm s) /\ allocates s f 1 s' /\ pmm_ok s'.
Proof.
  intros Hok Hi Hf s'. pose proof (cached_pop s f Hok Hi Hf) as Hpop.
  destruct (ok_cache s Hok) as [Hnd Hc]. rewrite Hpop in Hnd, Hc.
  apply NoDup_app in Hnd as (Hnd & Hdisj & _).
  apply Forall_app in Hc as [Hc [[Hb Hu] _]%Forall_cons].
  assert (Hrun : free_run (mem s) (bitmap (pmm s)) f 1).
  { intros b ?. by replace b with f by lia. }
  assert (Hal : allocates s f 1 (take_frames f 1 s))
    by (apply take_allocates; (assumption || lia)).
  assert (Hal' : allocates s f 1 s') by (destruct Hal; by split).
  assert (Hf0 : 0 < f) by (apply (al_free _ _ _ _ Hal f); lia).
  split; [lia|]. split; [done|].
  apply (allocates_ok s f 1); try done; try lia.
  - apply (ok_lock s Hok).
  - cbn. lia.
  - apply Forall_forall. intros g Hg. split; [rewrite Hpop; by apply elem_of_app; left|].
    intros Hgf. apply (Hdisj g Hg). apply list_elem_of_singleton. lia.
Qed.

Lemma palloc_spec s pages hh :
  pmm_ok s -> 0 <= pages -> (pages = 1 \/ cache_index (pmm s) = 0) ->
  wp (palloc pages hh) (palloc_post s pages hh) s.
Proof.
  intros Hok Hp Hcase. pose proof (ok_cache_size s Hok) as (_ & _ & Hci).
  destruct (decide (pages = 0)) as [->|Hp0]; [left; repeat split; lia|].
  destruct (Z.ltb_spec (free_pages (pmm s)) pages) as [Hlt|Hge].
  { unfold wp, palloc, bind, get. cbn beta iota.
    destruct (Z.ltb_spec (free_pages (pmm s)) pages); [|lia]. rewrite orb_true_r. cbn.
    left. repeat split. intros st _ Hr.
    apply (word_run_free s pages st Hok) in Hr; lia. }
  destruct (decide (pages = 1 /\ 0 < cache_index (pmm s))) as [[-> Hi]|Hnc].
  - set (f := nth (Z.to_nat (cache_index (pmm s) - 1)) (page_cache (pmm s)) 0).
    destruct (palloc_pop_ok s f Hok Hi eq_refl) as (Hf & Hal & Hok').
    unfold wp. rewrite (palloc_cached s hh f) by (assumption || reflexivity || lia).
    right. exists f. split_and!; [lia..|reflexivity|exact Hal|exact Hok'].
  - assert (Hi : pages = 1 -> cache_index (pmm s) = 0) by lia.
    unfold wp. destruct (scan_words (Z.to_nat (word_count (pmm s))) (mem s) (bitmap (pmm s)) 0
      pages (bitmap_pages (pmm s))) as [st|] eqn:Hs.
    + rewrite (palloc_scanned s pages hh st) by (assumption || lia).
      apply scan_words_sound in Hs as (H0 & H1 & Hrun & k & Hk); [|lia|lia].
      assert (Hal : allocates s st pages (take_frames st pages s)).
      { apply take_allocates; (assumption || lia). }
      right. exists st. destruct (al_free _ _ _ _ Hal st) as [Hst0 _]; [lia|].
      split_and!; [lia..|reflexivity|exact Hal|].
      apply take_frames_ok; [exact Hok|lia|lia|lia|exact Hrun|lia].
    + rewrite palloc_refused by assumption. left. split_and!; [reflexivity..|].
      intros st _. apply scan_words_none; [exact Hok|lia|exact Hs].
Qed.

(** ** pfree *)

(** What [pfree] of frames [st .. st + n - 1] does: those in use become free. *)
Record frees (s : machine) (st n : Z) (s' : machine) : Prop := Frees {
  fr_others : others s' = others s;
  fr_bitmap : bitmap (pmm s') = bitmap (pmm s) /\ bitmap_pages (pmm s') = bitmap_pages (pmm s);
  fr_used : forall f, used s' f = negb ((st <=? f) && (f <? st + n)) && used s f;
  fr_frame : agree_outside (in_bitmap s) (mem s) (mem s') }.

(** A frame that a client may give back. *)
Definition freeable (s : machine) (f : Z) : Prop :=
  used s f = true -> 0 < f /\ ~ bitmap_frame s f.

(** Clearing the bit of one frame in use. *)
Definition drop_frame (f : Z) (s : machine) : machine :=
  set_free_pages (free_pages (pmm s) + 1)
    (set_mem (bitmap_clear (mem s) (bitmap (pmm s)) f) s).

Lemma drop_used s f g : used (drop_frame f s) g = negb (g =? f) && used s g.
Proof. apply bitmap_get_clear. Qed.

Lemma drop_ok s f :
  pmm_ok s -> 0 <= f < bitmap_pages (pmm s) -> used s f = true ->
  0 < f /\ ~ bitmap_frame s f -> pmm_ok (drop_frame f s).
Proof.
  intros [Hl Hhh Hpg H0 Hbm Hfp Hcs [Hnd Hc]] Hf Hu [Hf0 Hnb]. split; try done.
  - rewrite drop_used, H0. destruct (Z.eqb_spec 0 f); (done || lia).
  - intros a Ha. destruct (Hbm a Ha) as (g & Hg & Hgu & Hga). exists g.
    split; [done|]. rewrite drop_used, Hgu. split; [|done].
    destruct (Z.eqb_spec g f) as [->|]; [|done]. exfalso. apply Hnb. by exists a.
  - change (free_pages (pmm s) + 1 = nfree (used (drop_frame f s))
      (Z.to_nat (bitmap_pages (pmm s)))).
    rewrite Hfp, (nfree_update (used s) (used (drop_frame f s)) _ f).
    + rewrite drop_used, Z.eqb_refl, Hu. cbn. lia.
    + lia.
    + intros i Hi. rewrite drop_used. by destruct (Z.eqb_spec i f).
  - split; [done|]. change (cached (drop_frame f s)) with (cached s).
    apply Forall_forall. intros g Hg. rewrite Forall_forall in Hc.
    destruct (Hc g Hg) as [Hgb Hgu]. split; [done|]. by rewrite drop_used, Hgu, andb_false_r.
Qed.

Lemma drop_frees s f :
  0 <= f < bitmap_pages (pmm s) -> frees s f 1 (drop_frame f s).
Proof.
  intros Hf. split; [done|done| |].
  - intros g. rewrite drop_used. f_equal. f_equal.
    destruct (Z.eqb_spec g f), (Z.leb_spec f g), (Z.ltb_spec g (f + 1)); (done || lia).
  - intros a Ha. apply bitmap_clear_out. intros ->. by apply Ha, bit_in_bitmap.
Qed.

(** The cache takes a frame that has just become free. *)
Lemma push_ok s f :
  pmm_ok s -> 0 <= f < bitmap_pages (pmm s) -> used s f = false -> f ∉ cached s ->
  cache_index (pmm s) < cache_size (pmm s) ->
  pmm_ok (set_cache (<[Z.to_nat (cache_index (pmm s)) := f]> (page_cache (pmm s)))
            (cache_index (pmm s) + 1) s).
Proof.
  intros [Hl Hhh Hpg H0 Hbm Hfp (Hcs & Hlen & Hci) [Hnd Hc]] Hf Hu Hnin Hlt.
  assert (He : cached (set_cache (<[Z.to_nat (cache_index (pmm s)) := f]> (page_cache (pmm s)))
            (cache_index (pmm s) + 1) s) = cached s ++ [f]).
  { unfold cached. cbn. replace (Z.to_nat (cache_index (pmm s) + 1))
      with (S (Z.to_nat (cache_index (pmm s)))) by lia.
    rewrite (take_S_r _ _ f).
    - by rewrite take_insert_ge by lia.
    - apply list_lookup_insert_eq. lia. }
  split; try done.
  - split; [done|]. cbn. rewrite length_insert. lia.
  - rewrite He. split.
    + apply NoDup_app. split; [done|]. split; [|apply NoDup_singleton].
      intros x Hx ->%list_elem_of_singleton. done.
    + apply Forall_app. split; [done|]. apply Forall_singleton. by split.
Qed.

Lemma frees_snoc s st k s1 s2 :
  0 <= k -> frees s st k s1 -> frees s1 (st + k) 1 s2 -> frees s st (k + 1) s2.
Proof.
  intros Hk [Ho [Hb Hp] Hu Hfr] [Ho' [Hb' Hp'] Hu' Hfr'].
  split; [congruence|split; congruence| |].
  - intros f. rewrite Hu', Hu.
    destruct (Z.leb_spec st f), (Z.ltb_spec f (st + k)), (Z.leb_spec (st + k) f),
      (Z.ltb_spec f (st + k + 1)), (Z.ltb_spec f (st + (k + 1))); cbn; (done || lia).
  - intros a Ha. rewrite Hfr', Hfr; [done|done|].
    by rewrite (in_bitmap_same s s1).
Qed.

Lemma frees_nothing s f : used s f = false -> frees s f 1 s.
Proof.
  intros Hu. split; [done|done| |apply agree_outside_refl].
  intros g. destruct (Z.leb_spec f g), (Z.ltb_spec g (f + 1)); cbn; try done.
  by replace g with f by lia.
Qed.

(** One round of the loop, run with the lock held. *)
Lemma pfree_step_spec s st pages i s1 :
  pmm_ok (set_lock 0 s1) -> pmm_lock (pmm s1) = 1 ->
  frees s st i (set_lock 0 s1) -> 0 <= i < pages -> 0 <= st ->
  st + pages <= bitmap_pages (pmm s) ->
  (forall f, st <= f < st + pages -> freeable s f) ->
  wp (pfree_step st pages i)
    (fun _ s2 => pmm_ok (set_lock 0 s2) /\ pmm_lock (pmm s2) = 1 /\
                 frees s st (i + 1) (set_lock 0 s2)) s1.
Proof.
  intros Hok Hl Hfr Hi Hst Hlim Hfree. set (t := set_lock 0 s1) in *.
  assert (Hbp : bitmap_pages (pmm t) = bitmap_pages (pmm s)) by apply (fr_bitmap _ _ _ _ Hfr).
  pose proof (ok_pages t Hok) as (_ & Hpg1 & Hpg2).
  pose proof (ok_free t Hok) as Hfp.
  pose proof (nfree_bounds (used t) (Z.to_nat (bitmap_pages (pmm t)))) as Hnb.
  unfold wp, pfree_step. change (bitmap_get (mem s1) (bitmap (pmm s1)) (st + i))
    with (used t (st + i)).
  destruct (used t (st + i)) eqn:Hu.
  - assert (Hcan : 0 < st + i /\ ~ bitmap_frame t (st + i)).
    { destruct (Hfree (st + i) ltac:(lia)) as [H0 Hb].
      - rewrite (fr_used _ _ _ _ Hfr) in Hu. by apply andb_true_iff in Hu as [_ ->].
      - split; [done|]. intros (a & Ha & Hfa). apply Hb. exists a.
        rewrite <- (in_bitmap_same s t) by apply Hfr. split; [done|].
        by rewrite <- (in_frames_others s t) by apply Hfr. }
    pose proof (drop_ok t (st + i) Hok ltac:(lia) Hu Hcan) as Hok'.
    pose proof (frees_snoc s st i t _ ltac:(lia) Hfr (drop_frees t (st + i) ltac:(lia))) as Hfr'.
    change (free_pages (pmm t)) with (free_pages (pmm s1)) in Hfp.
    rewrite (w64_id (free_pages (pmm s1) + 1)) by (unfold PAGE_SIZE in *; lia).
    destruct ((pages =? 1) && (cache_index (pmm s1) <? cache_size (pmm s1))) eqn:Hc.
    + bool_simpl. assert (i = 0) as -> by lia. rewrite Z.add_0_r in *.
      split; [|split; [done|]].
      * apply (push_ok (drop_frame st t));
          [done|change (0 <= st < bitmap_pages (pmm t)); lia| | |done].
        { by rewrite drop_used, Z.eqb_refl. }
        intros Hin. destruct (ok_cache t Hok) as [_ Hca].
        rewrite Forall_forall in Hca. destruct (Hca st Hin) as [_ Hu']. congruence.
      * destruct Hfr' as [? ? ? ?]. by split.
    + split; [exact Hok'|]. split; [done|exact Hfr'].
  - split; [done|]. split; [done|]. apply (frees_snoc s st i t); [lia|done|].
    by apply frees_nothing.
Qed.

(** The frame a pointer names, in either half. *)
Definition frame_of (s : machine) (ptr : Z) : Z :=
  w64 (ptr - (if hhdm_offset s <=? ptr then hhdm_offset s else 0)) / PAGE_SIZE.

Lemma pfree_spec s ptr pages :
  pmm_ok s -> 0 < ptr -> ptr mod PAGE_SIZE = 0 -> 0 <= pages ->
  frame_of s ptr + pages <= bitmap_pages (pmm s) ->
  (forall f, frame_of s ptr <= f < frame_of s ptr + pages -> freeable s f) ->
  wp (pfree ptr pages)
    (fun _ s' => pmm_ok s' /\ frees s (frame_of s ptr) pages s') s.
Proof.
  intros Hok Hp Ha Hn Hlim Hfree.
  assert (Hst : 0 <= frame_of s ptr).
  { unfold frame_of. apply Z.div_pos; [apply w64_range|unfold PAGE_SIZE; lia]. }
  pose proof (ok_pages s Hok) as (_ & Hpg1 & Hpg2).
  unfold pfree, is_aligned. rewrite Ha.
  destruct (Z.eqb_spec ptr 0); [lia|]. cbn [Z.eqb negb orb].
  wp_step. apply wp_acquire; [apply (ok_lock s Hok)|]. wp_step. wp_step.
  change (w64 (ptr - (if hhdm_offset (set_lock 1 s) <=? ptr then hhdm_offset (set_lock 1 s) else 0))
    / PAGE_SIZE) with (frame_of s ptr).
  rewrite (w64_id (frame_of s ptr + pages)) by (unfold PAGE_SIZE in *; lia).
  change (bitmap_pages (pmm (set_lock 1 s))) with (bitmap_pages (pmm s)).
  destruct (Z.ltb_spec (bitmap_pages (pmm s)) (frame_of s ptr + pages)); [lia|].
  wp_step. eapply wp_mono.
  - apply (wp_for_loop (Z.to_nat pages) 0 1 _ (fun k s1 => pmm_ok (set_lock 0 s1) /\
      pmm_lock (pmm s1) = 1 /\ frees s (frame_of s ptr) (Z.of_nat k) (set_lock 0 s1))).
    + rewrite set_lock_twice by apply (ok_lock s Hok). split; [done|]. split; [done|].
      split; [done|done| |apply agree_outside_refl].
      intros f. destruct (Z.leb_spec (frame_of s ptr) f),
        (Z.ltb_spec f (frame_of s ptr + Z.of_nat 0)); (done || lia).
    + intros k s1 Hk (H1 & H2 & H3). eapply wp_mono.
      { apply (pfree_step_spec s _ _ _ s1); try done; try lia.
        by replace (0 + Z.of_nat k * 1) with (Z.of_nat k) by lia. }
      intros [] s2 (G1 & G2 & G3). split; [done|]. split; [done|].
      by replace (Z.of_nat (S k)) with (0 + Z.of_nat k * 1 + 1) by lia.
  - intros [] s1 (H1 & H2 & H3). apply wp_release. rewrite Z2Nat.id in H3 by lia. done.
Qed.

Lemma frame_of_ptr s hh f :
  pmm_ok s -> 0 <= f < bitmap_pages (pmm s) -> frame_of s (frame_ptr s hh f) = f.
Proof.
  intros Hok Hf. destruct (ok_pages s Hok) as (_ & H1 & H2).
  destruct (ok_hhdm s Hok) as [H0 _].
  unfold frame_of, frame_ptr, PAGE_SIZE in *. destruct hh.
  - destruct (Z.leb_spec (hhdm_offset s) (hhdm_offset s + f * 4096)); [|lia].
    replace (hhdm_offset s + f * 4096 - hhdm_offset s) with (f * 4096) by lia.
    rewrite w64_id by lia. by rewrite Z.div_mul.
  - destruct (Z.leb_spec (hhdm_offset s) (f * 4096)); [lia|].
    rewrite Z.sub_0_r, w64_id by lia. by rewrite Z.div_mul.
Qed.

Lemma frame_ptr_aligned s hh f :
  pmm_ok s -> 0 < f -> 0 < frame_ptr s hh f /\ frame_ptr s hh f mod PAGE_SIZE = 0.
Proof.
  intros Hok Hf. destruct (ok_hhdm s Hok) as [H0 Hm].
  unfold frame_ptr, PAGE_SIZE in *. destruct hh; split; try lia.
  - by rewrite Z.mod_add by lia.
  - by apply Z.mod_mul.
Qed.
