(* ===== verification/PmmInit.v ===== *)
(** * pmm_init establishes the allocator's invariant

    From a memory map as the boot loader documents it (usable entries page
    aligned, sorted and disjoint, none at address zero) the bitmap marks exactly
    the frames of the usable entries as free, minus those the bitmap occupies. *)

From S2P Require Export PmmFacts.

(** ** The frames of an entry *)

Definition first_frame (e : limine_memmap_entry) : Z := e_base e / PAGE_SIZE.
Definition nframes (e : limine_memmap_entry) : Z := e_length e / PAGE_SIZE.

Definition entry_has (e : limine_memmap_entry) (f : Z) : bool :=
  usable e && ((first_frame e <=? f) && (f <? first_frame e + nframes e)).

Definition entry_free (es : list limine_memmap_entry) (f : Z) : bool :=
  existsb (fun e => entry_has e f) es.

Fixpoint total_frames (es : list limine_memmap_entry) : Z :=
  match es with
  | [] => 0
  | e :: es' => (if usable e then nframes e else 0) + total_frames es'
  end.

(** A usable entry is page aligned, not at zero, and ends by [top]. *)
Definition entry_ok (top : Z) (e : limine_memmap_entry) : Prop :=
  usable e = true ->
  0 < e_base e /\ e_base e mod PAGE_SIZE = 0 /\
  0 <= e_length e /\ e_length e mod PAGE_SIZE = 0 /\ e_base e + e_length e <= top.

(** Usable entries come in order and do not overlap. *)
Fixpoint entries_sorted (es : list limine_memmap_entry) : Prop :=
  match es with
  | [] => True
  | e :: es' =>
      (usable e = true -> Forall (fun e' => usable e' = true ->
         e_base e + e_length e <= e_base e') es') /\ entries_sorted es'
  end.

Lemma aligned_mul x : x mod PAGE_SIZE = 0 -> x = x / PAGE_SIZE * PAGE_SIZE.
Proof. unfold PAGE_SIZE. intros H. pose proof (Z.div_mod x 4096). lia. Qed.

Lemma entry_frames top e :
  entry_ok top e -> usable e = true ->
  e_base e = first_frame e * PAGE_SIZE /\ e_length e = nframes e * PAGE_SIZE /\
  0 < first_frame e /\ 0 <= nframes e.
Proof.
  intros He Hu. destruct (He Hu) as (H0 & H1 & H2 & H3 & H4).
  apply aligned_mul in H1, H3. unfold first_frame, nframes.
  repeat split; try done; unfold PAGE_SIZE in *; lia.
Qed.

(** ** The clearing loop *)

Lemma clear_entry_get bm pages e m f :
  entry_ok (pages * PAGE_SIZE) e -> pages * PAGE_SIZE < 2 ^ 64 ->
  bitmap_get (clear_entry bm pages e m) bm f = negb (entry_has e f) && bitmap_get m bm f.
Proof.
  intros He Hp. unfold clear_entry, entry_has.
  destruct (usable e) eqn:Hu; cbn [andb negb]; [|done].
  destruct (entry_frames _ _ He Hu) as (Hb & Hl & H0 & H1).
  destruct (He Hu) as (_ & _ & _ & _ & Ht).
  set (b := first_frame e) in *. set (k := nframes e) in *.
  assert (Hit : iters (e_base e) (w64 (e_base e + e_length e)) PAGE_SIZE = Z.to_nat k).
  { unfold iters. f_equal. rewrite w64_id by (unfold PAGE_SIZE in *; lia).
    rewrite Hb, Hl. unfold PAGE_SIZE in *.
    replace (b * 4096 + k * 4096 - b * 4096 + 4096 - 1) with (4095 + k * 4096) by lia.
    by rewrite Z.div_add by lia. }
  rewrite Hit.
  pose proof (for_pure_ind (Z.to_nat k) (e_base e) PAGE_SIZE
    (fun j m => if j / PAGE_SIZE <? pages then bitmap_clear m bm (j / PAGE_SIZE) else m)
    (fun i m' => forall f, bitmap_get m' bm f =
       negb ((b <=? f) && (f <? b + Z.of_nat i)) && bitmap_get m bm f) m) as HI.
  rewrite HI.
  - by rewrite Z2Nat.id by lia.
  - intros x. destruct (Z.leb_spec b x), (Z.ltb_spec x (b + Z.of_nat 0)); cbn; (done || lia).
  - intros i m' Hi IH x.
    replace ((e_base e + Z.of_nat i * PAGE_SIZE) / PAGE_SIZE) with (b + Z.of_nat i).
    2: { rewrite Hb, <- Z.mul_add_distr_r. by rewrite Z.div_mul by (unfold PAGE_SIZE; lia). }
    destruct (Z.ltb_spec (b + Z.of_nat i) pages); [|unfold PAGE_SIZE in *; lia].
    rewrite bitmap_get_clear, IH.
    destruct (Z.eqb_spec x (b + Z.of_nat i)), (Z.leb_spec b x),
      (Z.ltb_spec x (b + Z.of_nat i)), (Z.ltb_spec x (b + Z.of_nat (S i)));
      cbn; (done || lia).
Qed.

Lemma clear_entries_get bm pages es m f :
  Forall (entry_ok (pages * PAGE_SIZE)) es -> pages * PAGE_SIZE < 2 ^ 64 ->
  bitmap_get (clear_entries bm pages es m) bm f =
    negb (entry_free es f) && bitmap_get m bm f.
Proof.
  intros Hes Hp. revert m. induction Hes as [|e es He Hes IH]; intros m; [done|].
  cbn [clear_entries entry_free existsb]. rewrite IH, clear_entry_get by done.
  fold (entry_free es f). rewrite negb_orb. destruct (entry_has e f), (entry_free es f); done.
Qed.

(** ** Counting *)

Lemma entry_free_elim es f :
  entry_free es f = true -> exists e, e ∈ es /\ entry_has e f = true.
Proof.
  unfold entry_free. rewrite existsb_exists. intros (e & Hin & He).
  exists e. by rewrite list_elem_of_In.
Qed.

(** A frame of a later entry is not in an earlier one. *)
Lemma sorted_disjoint top e es f :
  entry_ok top e -> Forall (entry_ok top) es -> entries_sorted (e :: es) ->
  entry_free es f = true -> entry_has e f = false.
Proof.
  intros He Hes [Hs _] Hf. destruct (usable e) eqn:Hu; unfold entry_has; rewrite Hu; [|done].
  destruct (entry_free_elim es f Hf) as (e' & Hin & Hf').
  rewrite Forall_forall in Hes. specialize (Hs eq_refl). rewrite Forall_forall in Hs.
  unfold entry_has in Hf'. apply andb_true_iff in Hf' as [Hu' Hf'].
  pose proof (Hs e' Hin Hu'). destruct (entry_frames _ _ He Hu) as (? & ? & _).
  destruct (entry_frames _ _ (Hes e' Hin) Hu') as (? & ? & _). bool_simpl.
  unfold PAGE_SIZE in *.
  destruct (Z.leb_spec (first_frame e) f), (Z.ltb_spec f (first_frame e + nframes e));
    (done || lia).
Qed.

Lemma nfree_entries es u n :
  Forall (entry_ok (Z.of_nat n * PAGE_SIZE)) es -> entries_sorted es ->
  (forall f, entry_free es f = true -> u f = true) ->
  nfree (fun f => negb (entry_free es f) && u f) n = nfree u n + total_frames es.
Proof.
  intros Hes. revert u. induction Hes as [|e es He Hes IH]; intros u Hs Hu.
  { cbn. rewrite Z.add_0_r. by apply nfree_ext. }
  set (u1 := fun f => negb (entry_has e f) && u f).
  assert (Hu1 : forall f, entry_free es f = true -> u1 f = true).
  { intros f Hf. unfold u1. rewrite (sorted_disjoint _ e es f He Hes Hs Hf). cbn.
    apply Hu. cbn. fold (entry_free es f). by rewrite Hf, orb_true_r. }
  rewrite (nfree_ext _ (fun f => negb (entry_free es f) && u1 f)).
  2: { intros f _. cbn. fold (entry_free es f). unfold u1.
       by destruct (entry_has e f), (entry_free es f). }
  rewrite (IH u1 (proj2 Hs) Hu1). cbn [total_frames].
  destruct (usable e) eqn:Hus.
  - destruct (entry_frames _ _ He Hus) as (Hb & Hl & H0 & H1).
    destruct (He Hus) as (_ & _ & _ & _ & Ht).
    pose proof (nfree_run u1 u n (first_frame e) (Z.to_nat (nframes e))) as Hr.
    rewrite Hr; [rewrite Z2Nat.id by lia; lia|lia|unfold PAGE_SIZE in *; lia|..].
    + intros f Hf. unfold u1, entry_has. rewrite Hus.
      destruct (Z.leb_spec (first_frame e) f), (Z.ltb_spec f (first_frame e + nframes e));
        (done || lia).
    + intros f. unfold u1. rewrite Z2Nat.id by lia.
      assert (Hin : entry_has e f = true -> u f = true).
      { intros Hh. apply Hu. cbn. by rewrite Hh. }
      unfold entry_has in *. rewrite Hus in *. cbn [andb] in *.
      destruct ((first_frame e <=? f) && (f <? first_frame e + nframes e)); [|done].
      by rewrite Hin.
  - rewrite (nfree_ext u1 u); [done|]. intros f _. unfold u1, entry_has. by rewrite Hus.
Qed.

(** ** The first two loops *)

Lemma scan_usable_free es high free :
  snd (scan_usable es high (w64 free)) = w64 (free + total_frames es).
Proof.
  revert high free. induction es as [|e es IH]; intros high free; cbn.
  - by rewrite Z.add_0_r.
  - destruct (usable e); [|apply IH].
    fold (nframes e). replace (w64 (w64 free + nframes e)) with (w64 (free + nframes e)).
    + rewrite IH. f_equal. lia.
    + unfold w64. by rewrite Zplus_mod_idemp_l.
Qed.

Lemma scan_usable_high es high free :
  Forall (entry_ok (2 ^ 64 - 1)) es -> high mod PAGE_SIZE = 0 ->
  let h := fst (scan_usable es high free) in
  high <= h /\ h mod PAGE_SIZE = 0 /\
  Forall (fun e => usable e = true -> e_base e + e_length e <= h) es.
Proof.
  intros Hes. revert high free. induction Hes as [|e es He Hes IH]; intros high free Hh; cbn.
  { by repeat split. }
  destruct (usable e) eqn:Hu.
  - destruct (He Hu) as (H0 & H1 & H2 & H3 & H4). rewrite w64_id by lia.
    set (h' := if high <? e_base e + e_length e then e_base e + e_length e else high).
    assert (Hm : h' mod PAGE_SIZE = 0).
    { unfold h'. destruct (_ <? _); [|done]. by rewrite Zplus_mod, H1, H3. }
    assert (Hle : high <= h' /\ e_base e + e_length e <= h').
    { unfold h'. destruct (Z.ltb_spec high (e_base e + e_length e)); lia. }
    destruct (IH h' (w64 (free + e_length e / PAGE_SIZE)) Hm) as (Ha & Hb & Hc).
    repeat split; [lia|done|]. constructor; [intros _; lia|done].
  - destruct (IH high free Hh) as (Ha & Hb & Hc). repeat split; [done|done|].
    constructor; [congruence|done].
Qed.

Lemma place_bitmap_spec hhdm bsize es bm es' :
  place_bitmap hhdm bsize es = Some (bm, es') ->
  exists l e r, es = l ++ e :: r /\ usable e = true /\ bsize <= e_length e /\
    bm = w64 (e_base e + hhdm) /\
    es' = l ++ MemmapEntry (w64 (e_base e + bsize)) (w64 (e_length e - bsize)) (e_type e) :: r.
Proof.
  revert es'. induction es as [|e es IH]; intros es'; cbn; [done|].
  destruct (usable e && (bsize <=? e_length e)) eqn:Hc.
  - intros [= <- <-]. bool_simpl. by exists [], e, es.
  - destruct (place_bitmap hhdm bsize es) as [[bm' es'']|]; [|done].
    intros [= -> <-]. destruct (IH es'' eq_refl) as (l & e0 & r & -> & ? & ? & ? & ->).
    by exists (e :: l), e0, r.
Qed.

(** ** pmm_init *)

(** What the boot loader provides. *)
Record boot_ok (s : machine) : Prop := BootOk {
  bo_hhdm : 0 < hhdm_offset s /\ hhdm_offset s mod PAGE_SIZE = 0;
  bo_entries : Forall (entry_ok (2 ^ 64 - 1)) (memmap s);
  bo_sorted : entries_sorted (memmap s);
  bo_range : fst (scan_usable (memmap s) 0 0) <= hhdm_offset s /\
             hhdm_offset s + fst (scan_usable (memmap s) 0 0) < 2 ^ 64 }.

(** The sizes [pmm_init] computes. *)
Definition init_pages (s : machine) : Z := fst (scan_usable (memmap s) 0 0) / PAGE_SIZE.
Definition init_bitmap_size (s : machine) : Z := ALIGN_UP (init_pages s / 8) PAGE_SIZE.

(** A usable entry can hold the bitmap, and the bitmap has a word for every
    frame: the second clause is what rounding [bitmap_pages / 8] down can break. *)
Definition bitmap_fits (s : machine) : Prop :=
  (exists e, e ∈ memmap s /\ usable e = true /\ init_bitmap_size s <= e_length e) /\
  8 * ((init_pages s + 63) / 64) <= init_bitmap_size s.

Lemma place_bitmap_found hhdm bsize es e :
  e ∈ es -> usable e = true -> bsize <= e_length e ->
  exists r, place_bitmap hhdm bsize es = Some r.
Proof.
  intros Hin Hu Hl. induction Hin as [e es|e e' es Hin IH].
  - cbn. rewrite Hu. destruct (Z.leb_spec bsize (e_length e)); [cbn; eauto|lia].
  - cbn. destruct (usable e' && _); [eauto|]. destruct (IH Hu Hl) as [[bm r] ->]. eauto.
Qed.

(** Shrinking an entry from below. *)
Section Shrink.
Context (top bsize : Z) (l r : list limine_memmap_entry) (e : limine_memmap_entry).
Hypothesis (Hes : Forall (entry_ok top) (l ++ e :: r)) (Hs : entries_sorted (l ++ e :: r))
  (Hu : usable e = true) (Hb0 : 0 <= bsize) (Hb : bsize <= e_length e)
  (Hal : bsize mod PAGE_SIZE = 0) (Htop : top < 2 ^ 64).

Let e' := MemmapEntry (w64 (e_base e + bsize)) (w64 (e_length e - bsize)) (e_type e).

Lemma shrink_entry :
  usable e' = true /\ e_base e' = e_base e + bsize /\ e_length e' = e_length e - bsize /\
  entry_ok top e'.
Proof.
  assert (He : entry_ok top e) by (apply Forall_app in Hes as [_ [? _]%Forall_cons]; done).
  destruct (He Hu) as (H0 & H1 & H2 & H3 & H4).
  assert (Hbase : e_base e' = e_base e + bsize) by (cbn; rewrite w64_id; lia).
  assert (Hlen : e_length e' = e_length e - bsize) by (cbn; rewrite w64_id; lia).
  repeat split; [exact Hu|exact Hbase|exact Hlen|..]; intros; rewrite ?Hbase, ?Hlen;
    try lia.
  - by rewrite Zplus_mod, H1, Hal.
  - by rewrite Zminus_mod, H3, Hal.
Qed.

Lemma shrink_total :
  total_frames (l ++ e' :: r) = total_frames (l ++ e :: r) - bsize / PAGE_SIZE.
Proof.
  destruct shrink_entry as (Hu' & _ & Hlen & _).
  assert (Happ : forall a b, total_frames (a ++ b) = total_frames a + total_frames b).
  { intros a b. induction a as [|x a IH]; cbn; [done|rewrite IH; lia]. }
  rewrite !Happ. cbn [total_frames]. rewrite Hu, Hu'. unfold nframes. rewrite Hlen.
  assert (He : entry_ok top e) by (apply Forall_app in Hes as [_ [? _]%Forall_cons]; done).
  destruct (He Hu) as (_ & _ & _ & H3 & _).
  apply aligned_mul in H3. pose proof (aligned_mul _ Hal) as H4.
  rewrite H3, H4 at 1. unfold PAGE_SIZE in *.
  replace (e_length e / 4096 * 4096 - bsize / 4096 * 4096)
    with ((e_length e / 4096 - bsize / 4096) * 4096) by lia.
  rewrite Z.div_mul by lia. lia.
Qed.

Lemma shrink_entries_ok : Forall (entry_ok top) (l ++ e' :: r).
Proof.
  pose proof (proj2 (proj2 (proj2 shrink_entry))) as He'.
  apply Forall_app in Hes as [Hl [_ Hr]%Forall_cons].
  apply Forall_app. split; [exact Hl|]. by apply Forall_cons.
Qed.

Lemma shrink_sorted : entries_sorted (l ++ e' :: r).
Proof.
  destruct shrink_entry as (Hu' & Hbase & Hlen & _). clear Hes.
  induction l as [|x l' IH]; cbn in Hs |- *.
  - destruct Hs as [H1 H2]. split; [|exact H2]. intros _. specialize (H1 Hu).
    rewrite Forall_forall in H1 |- *. intros y Hy Huy.
    change (e_base e' + e_length e' <= e_base y). rewrite Hbase, Hlen.
    specialize (H1 y Hy Huy). lia.
  - destruct Hs as [H1 H2]. split; [|by apply IH].
    intros Hx. specialize (H1 Hx). apply Forall_app in H1 as [H1 [H3 H4]%Forall_cons].
    apply Forall_app. split; [done|]. apply Forall_cons. split; [|done].
    intros _. specialize (H3 Hu). change (e_base x + e_length x <= e_base e').
    rewrite Hbase. lia.
Qed.

(** The frames cut off are in no entry. *)
Lemma shrink_cut f :
  first_frame e <= f < first_frame e + bsize / PAGE_SIZE ->
  entry_free (l ++ e' :: r) f = false.
Proof.
  intros Hf. destruct shrink_entry as (Hu' & Hbase & Hlen & Hok').
  assert (He : entry_ok top e) by (apply Forall_app in Hes as [_ [? _]%Forall_cons]; done).
  destruct (entry_frames _ _ He Hu) as (Hbe & Hle & _).
  destruct (entry_frames _ _ Hok' Hu') as (Hbe' & Hle' & _).
  pose proof (aligned_mul _ Hal) as Hbs.
  apply not_true_is_false. intros (x & Hin & Hx)%entry_free_elim.
  unfold entry_has in Hx. apply andb_true_iff in Hx as [Hux Hx]. bool_simpl.
  assert (Hxok : entry_ok top x).
  { pose proof shrink_entries_ok as Hall. rewrite Forall_forall in Hall. by apply Hall. }
  destruct (entry_frames _ _ Hxok Hux) as (Hbx & Hlx & _).
  unfold PAGE_SIZE in *.
  apply elem_of_app in Hin as [Hin|[->|Hin]%elem_of_cons]; [|lia|].
  - assert (Hord : e_base x + e_length x <= e_base e).
    { clear -Hs Hin Hux Hu. induction l as [|y l' IH]; [by apply not_elem_of_nil in Hin|].
      destruct Hs as [H1 H2]. apply elem_of_cons in Hin as [->|Hin]; [|by apply IH].
      specialize (H1 Hux). apply Forall_app in H1 as [_ [H1 _]%Forall_cons]. by apply H1. }
    lia.
  - assert (Hord : e_base e + e_length e <= e_base x).
    { clear -Hs Hin Hux Hu. induction l as [|y l' IH]; [|by apply IH, Hs].
      destruct Hs as [H1 _]. specialize (H1 Hu). rewrite Forall_forall in H1.
      by apply H1. }
    lia.
Qed.
End Shrink.

(** [e'] is the page-aligned entry [e] without its first frames. *)
Record shrunk (e e' : limine_memmap_entry) : Prop := Shrunk {
  sk_base : 0 < e_base e <= e_base e';
  sk_aligned : e_base e mod PAGE_SIZE = 0 /\ e_base e' mod PAGE_SIZE = 0;
  sk_length : 0 <= e_length e';
  sk_end : e_base e' + e_length e' = e_base e + e_length e /\ e_base e + e_length e < 2 ^ 64 }.

Record pmm_init_post (s s' : machine) : Prop := PmmInitPost {
  pi_ok : pmm_ok s';
  pi_pages : bitmap_pages (pmm s') = init_pages s;
  pi_free : free_pages (pmm s') = total_frames (memmap s) - init_bitmap_size s / PAGE_SIZE;
  pi_used : forall f, 0 <= f < init_pages s -> used s' f = negb (entry_free (memmap s') f);
  pi_cache : cache_index (pmm s') = 0;
  pi_map : exists l e e' r, memmap s = l ++ e :: r /\ memmap s' = l ++ e' :: r /\ shrunk e e';
  pi_kept : (hhdm_offset s', kvm_ctx s', paging s', heap s', sched s') =
      (hhdm_offset s, kvm_ctx s, paging s, heap s, sched s) }.

Lemma memset_ones_get m bm n b :
  0 <= b / 8 < n -> bitmap_get (memset m bm 255 n) bm b = true.
Proof.
  intros Hb. rewrite bitmap_get_testbit, memset_load.
  destruct (Z.leb_spec bm (bm + b / 8)), (Z.ltb_spec (bm + b / 8) (bm + n)); try lia.
  cbn [andb]. change (w8 255) with (Z.ones 8). apply Z.ones_spec_low.
  apply Z.mod_pos_bound. lia.
Qed.

Section Init.
Context (s : machine).
Hypothesis (Hboot : boot_ok s) (Hfits : bitmap_fits s).

Let pages := init_pages s.
Let bsize := init_bitmap_size s.
Let hh := hhdm_offset s.

Lemma init_high : fst (scan_usable (memmap s) 0 0) = pages * PAGE_SIZE.
Proof.
  apply aligned_mul. by apply (scan_usable_high (memmap s) 0 0), eq_refl; apply Hboot.
Qed.

Lemma init_pages_bounds : 0 <= pages /\ pages * PAGE_SIZE <= hh /\ hh + pages * PAGE_SIZE < 2 ^ 64.
Proof.
  pose proof (bo_range s Hboot) as Hr. rewrite init_high in Hr.
  destruct (scan_usable_high (memmap s) 0 0 (bo_entries s Hboot) eq_refl) as [Hp _].
  split; [unfold pages, init_pages; apply Z.div_pos; [exact Hp|unfold PAGE_SIZE; lia]|].
  exact Hr.
Qed.

Lemma init_entries : Forall (entry_ok (pages * PAGE_SIZE)) (memmap s).
Proof.
  destruct (scan_usable_high (memmap s) 0 0 (bo_entries s Hboot) eq_refl) as (_ & _ & Hh).
  rewrite init_high in Hh. pose proof (bo_entries s Hboot) as He.
  rewrite Forall_forall in He, Hh |- *. intros e Hin Hu.
  destruct (He e Hin Hu) as (? & ? & ? & ? & _). specialize (Hh e Hin Hu). done.
Qed.

Lemma init_bsize : 0 <= bsize /\ bsize mod PAGE_SIZE = 0 /\ pages <= 8 * bsize.
Proof.
  destruct init_pages_bounds as (H0 & H1 & H2). destruct Hfits as [_ Hw].
  fold pages bsize in Hw.
  pose proof (Z.div_pos pages 8 H0 ltac:(lia)) as Hd.
  pose proof (Z.div_le_upper_bound pages 8 pages ltac:(lia) ltac:(lia)).
  destruct (align_up_spec (pages / 8) PAGE_SIZE) as [Ha Hb]; [done|unfold PAGE_SIZE; lia| |].
  { unfold PAGE_SIZE in *. lia. }
  split; [unfold bsize, init_bitmap_size; fold pages; lia|]. split; [done|].
  pose proof (Z.div_mod (pages + 63) 64). pose proof (Z.mod_pos_bound (pages + 63) 64). lia.
Qed.

Lemma init_top : pages * PAGE_SIZE < 2 ^ 64.
Proof. pose proof init_pages_bounds. pose proof (bo_hhdm s Hboot). unfold hh in *. lia. Qed.

(** The bitmap is at [bm], the start of the entry [e], which has lost its first frames. *)
Section Placed.
Context (bm : Z) (es l r : list limine_memmap_entry) (e : limine_memmap_entry).
Hypothesis (Hsplit : memmap s = l ++ e :: r) (Hu : usable e = true) (Hle : bsize <= e_length e)
  (Hbm : bm = w64 (e_base e + hh))
  (Hes : es = l ++ MemmapEntry (w64 (e_base e + bsize)) (w64 (e_length e - bsize)) (e_type e) :: r).

Let free := w64 (snd (scan_usable (memmap s) 0 0) - bsize / PAGE_SIZE).
Let s' := set_mem (clear_entries bm pages es (memset (mem s) bm 255 bsize))
  (set_memmap es (set_pmm (Pmm pages bsize bm free spinlock_init
     (replicate (Z.to_nat PAGE_CACHE_SIZE) 0) PAGE_CACHE_SIZE 0) s)).

Lemma placed_entries :
  Forall (entry_ok (pages * PAGE_SIZE)) es /\ entries_sorted es /\
  total_frames es = total_frames (memmap s) - bsize / PAGE_SIZE /\
  forall f, first_frame e <= f < first_frame e + bsize / PAGE_SIZE -> entry_free es f = false.
Proof.
  destruct init_pages_bounds as (H0 & H1 & H2). destruct init_bsize as (Hb0 & Hbmod & Hb8).
  pose proof init_entries as He. pose proof (bo_sorted s Hboot) as Hso. rewrite Hsplit in He, Hso.
  pose proof init_top as Htop.
  rewrite Hes, Hsplit. split_and!.
  - by apply shrink_entries_ok.
  - by apply (shrink_sorted (pages * PAGE_SIZE)).
  - by apply (shrink_total (pages * PAGE_SIZE)).
  - intros f. by apply (shrink_cut (pages * PAGE_SIZE)).
Qed.

Lemma placed_entry :
  entry_ok (pages * PAGE_SIZE) e /\ bm = hh + first_frame e * PAGE_SIZE /\
  0 < first_frame e /\ first_frame e * PAGE_SIZE + bsize <= pages * PAGE_SIZE.
Proof.
  pose proof init_entries as He. rewrite Hsplit in He.
  apply Forall_app in He as [_ [He _]%Forall_cons]. split; [done|].
  destruct (entry_frames _ _ He Hu) as (Hbe & Hlen & Hf0 & Hn0). destruct (He Hu) as (_ & _ & _ & _ & Het).
  destruct init_pages_bounds as (H0 & H1 & H2). destruct init_bsize as (Hb0 & _).
  rewrite Hbm, w64_id by (unfold PAGE_SIZE in *; lia). unfold PAGE_SIZE in *. lia.
Qed.

Lemma placed_used f : 0 <= f < pages -> used s' f = negb (entry_free es f).
Proof.
  intros Hf. destruct placed_entries as (Hok & _). destruct init_bsize as (Hb0 & _ & Hb8).
  unfold used. cbn. rewrite clear_entries_get by (done || exact init_top).
  rewrite memset_ones_get; [by rewrite andb_true_r|].
  pose proof (Z.div_pos f 8). pose proof (Z.div_lt_upper_bound f 8 bsize). lia.
Qed.

Lemma placed_count : nfree (used s') (Z.to_nat pages) = total_frames es.
Proof.
  destruct placed_entries as (Hok & Hso & _). destruct init_pages_bounds as (H0 & _).
  rewrite (nfree_ext _ (fun f => negb (entry_free es f) && true)).
  2: { intros f Hf. rewrite andb_true_r. apply placed_used. lia. }
  rewrite (nfree_entries es (fun _ => true)); [|by rewrite Z2Nat.id|done|done].
  assert (Hz : forall n, nfree (fun _ => true) n = 0) by (induction n; cbn; lia).
  rewrite Hz. lia.
Qed.

Lemma placed_free : free = total_frames (memmap s) - bsize / PAGE_SIZE.
Proof.
  destruct placed_entries as (_ & _ & Htot & _). pose proof placed_count as Hc.
  destruct init_pages_bounds as (H0 & H1 & H2). pose proof (bo_hhdm s Hboot) as [Hh0 _].
  pose proof (scan_usable_free (memmap s) 0 0) as Hfree. change (w64 0) with 0 in Hfree.
  unfold free. rewrite Hfree. unfold w64. rewrite Zminus_mod_idemp_l, Z.add_0_l.
  pose proof (nfree_bounds (used s') (Z.to_nat pages)). unfold PAGE_SIZE in *.
  apply Z.mod_small. lia.
Qed.

(** Frame 0 is below every usable entry. *)
Lemma placed_frame0 : used s' 0 = true.
Proof.
  destruct placed_entries as (Hok & _). destruct placed_entry as (_ & _ & Hf0 & Htop).
  destruct init_bsize as (Hb0 & _).
  rewrite placed_used by (unfold PAGE_SIZE in *; lia). apply negb_true_iff, not_true_is_false.
  intros (x & Hxin & Hx)%entry_free_elim. rewrite Forall_forall in Hok.
  unfold entry_has in Hx. apply andb_true_iff in Hx as [Hux Hx]. bool_simpl.
  destruct (entry_frames _ _ (Hok x Hxin) Hux) as (_ & _ & ? & _). lia.
Qed.

(** The entry loses the frames of the bitmap. *)
Lemma placed_map : exists l0 x x' r0, memmap s = l0 ++ x :: r0 /\ memmap s' = l0 ++ x' :: r0 /\ shrunk x x'.
Proof.
  do 4 eexists. split; [exact Hsplit|]. split; [exact Hes|].
  pose proof init_entries as He. rewrite Hsplit in He.
  pose proof He as [_ [He1 _]%Forall_cons]%Forall_app. destruct init_bsize as (Hb0 & Hbmod & _).
  destruct (shrink_entry (pages * PAGE_SIZE) bsize l r e He Hu Hb0 Hle Hbmod init_top) as (_ & E1 & E2 & Hok).
  destruct (He1 Hu) as (H1 & H2 & H3 & H4 & H5). destruct (Hok Hu) as (G1 & G2 & G3 & _).
  pose proof init_top. split; [|by split|done|]; rewrite ?E1, ?E2; lia.
Qed.

(** The frames that hold the bitmap are in use. *)
Lemma placed_bitmap a :
  in_bitmap s' a -> exists f, 0 <= f < pages /\ used s' f = true /\ in_frames s' f 1 a.
Proof.
  intros Ha. destruct placed_entries as (_ & _ & _ & Hcut). destruct placed_entry as (_ & Hb & Hf0 & Htop).
  destruct Hfits as [_ Hw]. fold pages bsize in Hw. destruct init_bsize as (Hb0 & Hbmod & _).
  pose proof (aligned_mul bsize Hbmod) as Hbs.
  unfold in_bitmap, in_range, word_count in Ha. cbn in Ha.
  unfold BITMAP_WORD_SIZE in Ha. replace (pages + 64 - 1) with (pages + 63) in Ha by lia.
  exists ((a - hh) / PAGE_SIZE).
  assert (Hr : first_frame e <= (a - hh) / PAGE_SIZE < first_frame e + bsize / PAGE_SIZE).
  { unfold PAGE_SIZE in *. split; [apply Z.div_le_lower_bound|apply Z.div_lt_upper_bound]; lia. }
  assert (Hfb : 0 <= (a - hh) / PAGE_SIZE < pages) by (unfold PAGE_SIZE in *; lia).
  split; [exact Hfb|]. split; [rewrite placed_used by done; by rewrite Hcut|].
  unfold in_frames, in_range. change (hhdm_offset s') with hh. unfold PAGE_SIZE.
  pose proof (Z.div_mod (a - hh) 4096). pose proof (Z.mod_pos_bound (a - hh) 4096). lia.
Qed.

Lemma placed_post : pmm_init_post s s'.
Proof.
  destruct placed_entries as (_ & _ & Htot & _). destruct placed_entry as (_ & _ & Hf0 & Htop).
  destruct init_pages_bounds as (H0 & H1 & H2). destruct init_bsize as (Hb0 & _).
  split; [|done|exact placed_free|exact placed_used|done|exact placed_map|done].
  split; try done.
  - apply (bo_hhdm s Hboot).
  - split; [unfold PAGE_SIZE in *; cbn; lia|done].
  - exact placed_frame0.
  - exact placed_bitmap.
  - change (free = nfree (used s') (Z.to_nat pages)). by rewrite placed_free, placed_count.
  - split; [apply NoDup_nil_2|by apply Forall_nil].
Qed.
End Placed.
End Init.

Lemma pmm_init_spec s :
  boot_ok s -> bitmap_fits s -> wp pmm_init (fun _ s' => pmm_init_post s s') s.
Proof.
  intros Hboot Hfits. destruct Hfits as [(e0 & Hin & Hu0 & Hl0) Hw] eqn:E. clear E.
  destruct (place_bitmap_found (hhdm_offset s) (init_bitmap_size s) (memmap s) e0 Hin Hu0 Hl0)
    as [[bm es] Hplace].
  pose proof (place_bitmap_spec _ _ _ _ _ Hplace) as (l & e & r & Hsplit & Hu & Hle & Hbm & Hes).
  pose proof (placed_post s Hboot Hfits bm es l r e Hsplit Hu Hle Hbm Hes) as Hpost.
  unfold wp, pmm_init. unfold init_bitmap_size, init_pages in *.
  destruct (scan_usable (memmap s) 0 0) as [high free0]. cbn [fst snd] in *.
  by rewrite Hplace.
Qed.
