(* ===== verification/Samples.v ===== *)
(** * A small concrete machine

    One usable region of 1020 KiB at 4 KiB and a reserved one, as a boot loader
    would report them, with the higher half at the usual x86-64 address.  The
    witnesses of the development start from this machine. *)

From S2P Require Export PmmInit.

(** A memory with the little-endian fields (width, address, value) of a list. *)
Definition store_fields (m : memory) (l : list (nat * Z * Z)) : memory :=
  foldl (fun m f => storen f.1.1 m f.1.2 f.2) m l.

Lemma store_fields_agree (P : Z -> Prop) m l :
  (forall f x, f ∈ l -> f.1.2 <= x < f.1.2 + Z.of_nat f.1.1 -> P x) ->
  agree_outside P m (store_fields m l).
Proof.
  revert m. induction l as [|f l IH]; intros m Hl x Hx; [done|]. cbn [store_fields foldl].
  fold (store_fields (storen f.1.1 m f.1.2 f.2) l).
  assert (Hl' : forall g y, g ∈ l -> g.1.2 <= y < g.1.2 + Z.of_nat g.1.1 -> P y)
    by (intros g y Hg; apply Hl, elem_of_cons; by right).
  rewrite (IH (storen f.1.1 m f.1.2 f.2) Hl' x Hx). apply load8_storen_out.
  assert (~ (f.1.2 <= x < f.1.2 + Z.of_nat f.1.1)); [|lia].
  intros Hin. apply Hx, (Hl f x); [apply elem_of_cons; by left|done].
Qed.

Definition HHDM : Z := 0xffff800000000000.

Definition boot0 : machine :=
  Machine ∅ HHDM
    [MemmapEntry 0x1000 0xff000 LIMINE_MEMMAP_USABLE; MemmapEntry 0x100000 0x100000 1]
    0 (Pmm 0 0 0 0 0 [] 0 0) (Paging 0 0 []) (Heap 0 0) (Sched [] ∅ 0 0).

Definition state_of {A} (o : outcome machine A) (d : machine) : machine :=
  match o with Ret _ s => s | _ => d end.

Definition result_of {A} (o : outcome machine A) : option A :=
  match o with Ret a _ => Some a | _ => None end.

Lemma ran {A} (o : outcome machine A) d a : result_of o = Some a -> o = Ret a (state_of o d).
Proof. destruct o; [|done..]. by intros [= ->]. Qed.

(** The machine after [pmm_init]. *)
Definition m0 : machine := state_of (pmm_init boot0) boot0.

Lemma boot0_ok : boot_ok boot0.
Proof.
  split.
  - by split; vm_compute.
  - apply Forall_cons. split; [|apply Forall_cons; split; [|by apply Forall_nil]].
    + intros _. split_and!; by vm_compute.
    + intros H. by vm_compute in H.
  - split; [|split; [|done]].
    + intros _. apply Forall_cons. split; [|by apply Forall_nil]. intros H. by vm_compute in H.
    + intros H. by vm_compute in H.
  - by split; vm_compute.
Qed.

Lemma boot0_fits : bitmap_fits boot0.
Proof.
  split; [|vm_compute; done].
  exists (MemmapEntry 0x1000 0xff000 LIMINE_MEMMAP_USABLE).
  split; [constructor|]. split; [done|vm_compute; done].
Qed.

Lemma m0_post : pmm_init_post boot0 m0.
Proof.
  destruct (wp_run _ _ _ (pmm_init_spec boot0 boot0_ok boot0_fits)) as ([] & s & Hr & Hp).
  unfold m0. by rewrite Hr.
Qed.

Lemma m0_ok : pmm_ok m0.
Proof. apply m0_post. Qed.

(** Only [vm_compute] looks inside the sample states. *)
#[global] Opaque m0.
