(* ===== verification/PmmProps.v ===== *)
(** * The frame allocator: main theorems

    The contract of [pmm_init], [palloc] and [pfree], the limits of the scan,
    and two defects of the free-page cache and of the bitmap's size. *)

From S2P Require Export Samples.

(** ** Contract *)

(** C1: [pmm_init], on a well-formed memory map with room for the bitmap,
    establishes the allocator's invariant; exactly the frames of the (shrunk)
    usable entries are free, and [free_pages] counts them. *)
Theorem pmm_init_correct s :
  boot_ok s -> bitmap_fits s -> wp pmm_init (fun _ s' => pmm_init_post s s') s.
Proof. apply pmm_init_spec. Qed.

Lemma pmm_init_correct_witness :
  boot_ok boot0 /\ bitmap_fits boot0 /\
  wp pmm_init (fun _ s' => pmm_init_post boot0 s') boot0.
Proof.
  split; [apply boot0_ok|]. split; [apply boot0_fits|].
  apply pmm_init_correct; [apply boot0_ok|apply boot0_fits].
Defined.

(** C2: [palloc] of one page, or of several while the free-page cache is empty (with a
    cached frame the bitmap search can hand the same frame out twice, see
    [palloc_double_allocation], so that the invariant is lost): it returns; it either finds
    no run of [pages] free frames inside a bitmap word and changes nothing, or hands out a
    run of frames that were free, marks exactly them, zeroes them, leaves every other byte
    outside the bitmap alone and keeps the invariant. *)
Theorem palloc_correct s pages hh :
  pmm_ok s -> 0 <= pages -> (pages = 1 \/ cache_index (pmm s) = 0) ->
  wp (palloc pages hh) (palloc_post s pages hh) s.
Proof. apply palloc_spec. Qed.

Lemma palloc_correct_witness :
  pmm_ok m0 /\ 0 <= 3 /\ (3 = 1 \/ cache_index (pmm m0) = 0) /\
  wp (palloc 3 true) (palloc_post m0 3 true) m0.
Proof.
  assert (Hc : 3 = 1 \/ cache_index (pmm m0) = 0) by (right; vm_compute; reflexivity).
  split; [apply m0_ok|]. split; [lia|]. split; [exact Hc|].
  apply palloc_correct; [apply m0_ok|lia|exact Hc].
Defined.

Lemma allocated_freeable s st n s' f :
  pmm_ok s -> allocates s st n s' -> st <= f < st + n -> freeable s' f.
Proof.
  intros Hok Hal Hf _. destruct (al_free _ _ _ _ Hal f Hf) as [[H0 _] Hu].
  split; [done|]. intros (a & Ha & Hfa).
  apply (in_bitmap_same s s') in Ha; [|apply Hal|apply Hal].
  rewrite (in_frames_others s s') in Hfa by apply Hal.
  by eapply free_not_bitmap.
Qed.

(** Frames 2 and 3 of the sample machine, handed out. *)
Definition m1 : machine := state_of (palloc 2 true m0) m0.

Lemma m1_facts : pmm_ok m1 /\ allocates m0 2 2 m1.
Proof.
  assert (Hc : 2 = 1 \/ cache_index (pmm m0) = 0) by (right; vm_compute; reflexivity).
  destruct (wp_run _ _ _ (palloc_spec m0 2 true m0_ok ltac:(lia) Hc)) as (r & s & Hr & Hp).
  assert (Hv : result_of (palloc 2 true m0) = Some (HHDM + 2 * PAGE_SIZE))
    by (vm_compute; reflexivity).
  unfold m1. rewrite Hr in Hv |- *. cbn [state_of result_of] in *. injection Hv as Hv.
  destruct Hp as [(-> & _)|(st & H0 & H1 & Hn & -> & Hal & Hok)]; [discriminate Hv|].
  assert (st = 2) as ->; [|exact (conj Hok Hal)]. unfold frame_ptr in Hv.
  change (hhdm_offset m0) with HHDM in Hv. unfold PAGE_SIZE in Hv. lia.
Qed.

(** C3: [pfree] of frames a client owns (or that are already free) marks exactly
    them free, touches no byte outside the bitmap and keeps the invariant,
    including [free_pages] and the free-page cache. *)
Theorem pfree_correct s ptr pages :
  pmm_ok s -> 0 < ptr -> ptr mod PAGE_SIZE = 0 -> 0 <= pages ->
  frame_of s ptr + pages <= bitmap_pages (pmm s) ->
  (forall f, frame_of s ptr <= f < frame_of s ptr + pages -> freeable s f) ->
  wp (pfree ptr pages)
    (fun _ s' => pmm_ok s' /\ frees s (frame_of s ptr) pages s') s.
Proof. apply pfree_spec. Qed.

#[global] Opaque m1.

Lemma pfree_correct_witness :
  pmm_ok m1 /\ used m1 2 = true /\ used m1 3 = true /\
  wp (pfree (HHDM + 2 * PAGE_SIZE) 2)
    (fun _ s' => pmm_ok s' /\ frees m1 (frame_of m1 (HHDM + 2 * PAGE_SIZE)) 2 s') m1.
Proof.
  destruct m1_facts as [Hok Hal].
  split; [exact Hok|]. split; [vm_compute; reflexivity|]. split; [vm_compute; reflexivity|].
  apply pfree_correct; [exact Hok|vm_compute; reflexivity|vm_compute; reflexivity|lia
    |vm_compute; discriminate|].
  assert (Hf : frame_of m1 (HHDM + 2 * PAGE_SIZE) = 2) by (vm_compute; reflexivity).
  rewrite Hf. intros f Hin. exact (allocated_freeable m0 2 2 m1 f m0_ok Hal Hin).
Defined.

(** ** Allocation followed by release *)

(** C4: giving back what [palloc] returned (one page, or several taken while the
    free-page cache was empty) restores the set of used frames and the count of free ones. *)
Theorem palloc_pfree_roundtrip s pages hh :
  pmm_ok s -> 0 < pages -> (pages = 1 \/ cache_index (pmm s) = 0) ->
  wp (r <- palloc pages hh ;; pfree r pages)
    (fun _ s' => pmm_ok s' /\ free_pages (pmm s') = free_pages (pmm s) /\
       forall f, 0 <= f < bitmap_pages (pmm s) -> used s' f = used s f) s.
Proof.
  intros Hok Hp Hc. apply wp_bind. eapply wp_mono.
  { apply (palloc_spec s pages hh Hok); [lia|exact Hc]. }
  intros r s1 [(-> & -> & _)|(st & H0 & H1 & Hn & -> & Hal & Hok1)].
  { unfold pfree. cbn. split_and!; [exact Hok|reflexivity|reflexivity]. }
  destruct (al_bitmap _ _ _ _ Hal) as [Hb Hbp].
  assert (Hfp : frame_ptr s hh st = frame_ptr s1 hh st).
  { unfold frame_ptr. by rewrite (others_hhdm s s1) by apply Hal. }
  rewrite Hfp. pose proof (frame_of_ptr s1 hh st Hok1 ltac:(lia)) as Hst.
  destruct (frame_ptr_aligned s1 hh st Hok1 H0) as [Hpos Ham].
  eapply wp_mono.
  { apply (pfree_spec s1); [done|done|done|lia|rewrite Hst; lia|].
    rewrite Hst. intros f Hf. exact (allocated_freeable s st pages s1 f Hok Hal Hf). }
  intros [] s2 [Hok2 Hfr]. rewrite Hst in Hfr. destruct (fr_bitmap _ _ _ _ Hfr) as [_ Hbp2].
  assert (Hused : forall f, 0 <= f < bitmap_pages (pmm s) -> used s2 f = used s f).
  { intros f Hf. rewrite (fr_used _ _ _ _ Hfr), (al_used _ _ _ _ Hal) by done.
    pose proof (al_free _ _ _ _ Hal f) as Hfree.
    destruct (Z.leb_spec st f), (Z.ltb_spec f (st + pages)); cbn; try done.
    by destruct Hfree as [_ ->]. }
  split; [done|]. split; [|done].
  rewrite (ok_free s2 Hok2), (ok_free s Hok), Hbp2, Hbp.
  apply nfree_ext. intros f Hf. apply Hused. lia.
Qed.

Lemma palloc_pfree_roundtrip_witness :
  pmm_ok m0 /\
  wp (r <- palloc 2 true ;; pfree r 2)
    (fun _ s' => pmm_ok s' /\ free_pages (pmm s') = free_pages (pmm m0) /\
       forall f, 0 <= f < bitmap_pages (pmm m0) -> used s' f = used m0 f) m0.
Proof.
  split; [apply m0_ok|].
  apply palloc_pfree_roundtrip; [apply m0_ok|lia|right; vm_compute; reflexivity].
Defined.

(** ** Limits of the scan *)

Lemma word_run_short m bm pages limit st : word_run m bm pages limit st -> pages <= 64.
Proof. intros (_ & _ & _ & i & H1 & H2). lia. Qed.

(** a request for more than 64 frames is refused whatever is free, because
    runs are counted within one 64-bit word of the bitmap. *)
Theorem palloc_more_than_word s pages hh :
  pmm_ok s -> 64 < pages -> palloc pages hh s = Ret NULL s.
Proof.
  intros Hok Hp. apply palloc_refused; [done|lia|].
  destruct (scan_words _ _ _ _ _ _) as [st|] eqn:Hs; [|done].
  eapply scan_words_sound in Hs; [|lia|lia]. pose proof (word_run_short _ _ _ _ _ Hs). lia.
Qed.

Lemma palloc_more_than_word_witness :
  pmm_ok m0 /\ 100 <= free_pages (pmm m0) /\ palloc 65 true m0 = Ret NULL m0.
Proof.
  split; [apply m0_ok|]. split; [vm_compute; discriminate|].
  apply palloc_more_than_word; [apply m0_ok|lia].
Defined.

(** ** Two defects *)

Lemma nth_cached s f :
  pmm_ok s -> 0 < cache_index (pmm s) ->
  f = nth (Z.to_nat (cache_index (pmm s) - 1)) (page_cache (pmm s)) 0 -> f ∈ cached s.
Proof.
  intros Hok Hi Hf. rewrite (cached_pop s f Hok Hi Hf).
  apply elem_of_app. right. by apply list_elem_of_singleton.
Qed.

(** the free-page cache is not consulted by multi-page requests: when such a
    request takes a run that contains the frame on top of the cache, the next
    single-page request is given the same frame again. *)
Theorem palloc_double_allocation s pages st f :
  pmm_ok s -> 2 <= pages -> 0 < cache_index (pmm s) ->
  f = nth (Z.to_nat (cache_index (pmm s) - 1)) (page_cache (pmm s)) 0 ->
  pages < free_pages (pmm s) ->
  scan_words (Z.to_nat (word_count (pmm s))) (mem s) (bitmap (pmm s)) 0 pages
    (bitmap_pages (pmm s)) = Some st ->
  st <= f < st + pages ->
  exists s1 s2, palloc pages true s = Ret (frame_ptr s true st) s1 /\
    palloc 1 true s1 = Ret (frame_ptr s true f) s2.
Proof.
  intros Hok Hp Hi Hf Hfp Hs Hin.
  destruct (ok_cache s Hok) as [_ Hca]. rewrite Forall_forall in Hca.
  destruct (Hca f (nth_cached s f Hok Hi Hf)) as [Hfb _].
  exists (take_frames st pages s). rewrite (palloc_scanned s pages true st) by (done || lia).
  destruct (frame_addr s f 1 Hok) as (Ha1 & Ha2 & Ha3); [lia..|].
  unfold palloc, bind, get. cbn beta iota.
  change (free_pages (pmm (take_frames st pages s))) with (free_pages (pmm s) - pages).
  destruct (Z.ltb_spec (free_pages (pmm s) - pages) 1); [lia|]. cbn [Z.eqb orb].
  unfold pmm_acquire. rewrite (acquire_free _ _ (take_frames st pages s))
    by apply (ok_lock s Hok).
  cbn. destruct (Z.ltb_spec 0 (cache_index (pmm s))); [|lia].
  cbn. rewrite <- Hf, Ha1, Ha3. eexists. split; reflexivity.
Qed.

(** The state after allocating frame 2 of [m0] and freeing it again. *)
Definition m0_cached : machine :=
  state_of ((r <- palloc 1 true ;; pfree r 1) m0) m0.

Lemma m0_cached_ok : pmm_ok m0_cached.
Proof.
  assert (Hw : wp (r <- palloc 1 true ;; pfree r 1) (fun _ s' => pmm_ok s') m0).
  { apply wp_bind. eapply wp_mono.
    { apply palloc_spec; [apply m0_ok|lia|by left]. }
    intros r s1 [(-> & -> & _)|(st & H0 & H1 & Hn & -> & Hal & Hok1)].
    { unfold pfree. cbn. apply m0_ok. }
    destruct (al_bitmap _ _ _ _ Hal) as [Hb Hbp].
    assert (Hfp : frame_ptr m0 true st = frame_ptr s1 true st).
    { unfold frame_ptr. by rewrite (others_hhdm m0 s1) by apply Hal. }
    rewrite Hfp. pose proof (frame_of_ptr s1 true st Hok1 ltac:(lia)) as Hst.
    destruct (frame_ptr_aligned s1 true st Hok1 H0) as [Hpos Ham].
    eapply wp_mono.
    { apply (pfree_spec s1); [done|done|done|lia|rewrite Hst; lia|].
      rewrite Hst. intros f Hf. exact (allocated_freeable m0 st 1 s1 f m0_ok Hal Hf). }
    by intros [] s2 [? _]. }
  destruct (wp_run _ _ _ Hw) as ([] & s' & Hr & Hok). unfold m0_cached. by rewrite Hr.
Qed.

Lemma palloc_double_allocation_witness :
  pmm_ok m0_cached /\
  exists s1 s2, palloc 2 true m0_cached = Ret (frame_ptr m0_cached true 2) s1 /\
    palloc 1 true s1 = Ret (frame_ptr m0_cached true 2) s2.
Proof.
  split; [apply m0_cached_ok|].
  apply (palloc_double_allocation m0_cached 2 2 2).
  - apply m0_cached_ok.
  - lia.
  - vm_compute. reflexivity.
  - vm_compute. reflexivity.
  - vm_compute. reflexivity.
  - vm_compute. reflexivity.
  - lia.
Defined.

(** C40: when the number of frames is [32768 * k + r] with [0 < r < 8], the size
    computed for the bitmap is one byte short: the bit of the last frame lies in
    the byte after it. *)
Theorem bitmap_one_byte_short s k r :
  boot_ok s -> init_pages s = 32768 * k + r -> 0 < r < 8 -> 0 <= k ->
  wp pmm_init (fun _ s' =>
    bitmap_pages (pmm s') = 32768 * k + r /\ bitmap_size (pmm s') = 4096 * k /\
    (bitmap_pages (pmm s') - 1) / 8 = bitmap_size (pmm s')) s.
Proof.
  intros Hboot Hp Hr Hk. pose proof (init_pages_bounds s Hboot) as (_ & Ha & Hb).
  rewrite Hp in Ha, Hb.
  assert (Hsz : ALIGN_UP (init_pages s / 8) PAGE_SIZE = 4096 * k).
  { rewrite Hp. replace ((32768 * k + r) / 8) with (4096 * k).
    2: { apply Z.div_unique with r; lia. }
    destruct (align_up_spec (4096 * k) PAGE_SIZE) as [Hm Hbd];
      [lia|unfold PAGE_SIZE; lia|unfold PAGE_SIZE in *; lia|].
    apply aligned_mul in Hm. unfold PAGE_SIZE in *. lia. }
  unfold wp, pmm_init. unfold init_pages in Hp, Hsz.
  destruct (scan_usable (memmap s) 0 0) as [high free0]. cbn [fst] in *.
  destruct (place_bitmap _ _ _) as [[bm es]|]; cbn; rewrite Hsz, Hp;
    (split_and!; [done|done|]; symmetry; apply Z.div_unique with (r - 1); lia).
Qed.

(** 128 MiB and one frame. *)
Definition boot_short : machine :=
  Machine ∅ HHDM [MemmapEntry 0x1000 0x8000000 LIMINE_MEMMAP_USABLE]
    0 (Pmm 0 0 0 0 0 [] 0 0) (Paging 0 0 []) (Heap 0 0) (Sched [] ∅ 0 0).

Lemma boot_short_ok : boot_ok boot_short.
Proof.
  split.
  - by split; vm_compute.
  - apply Forall_cons. split; [|by apply Forall_nil]. intros _. split_and!; by vm_compute.
  - split; [|done]. intros _. by apply Forall_nil.
  - by split; vm_compute.
Qed.

Lemma bitmap_one_byte_short_witness :
  boot_ok boot_short /\
  wp pmm_init (fun _ s' =>
    bitmap_pages (pmm s') = 32768 * 1 + 1 /\ bitmap_size (pmm s') = 4096 * 1 /\
    (bitmap_pages (pmm s') - 1) / 8 = bitmap_size (pmm s')) boot_short.
Proof.
  split; [apply boot_short_ok|].
  apply bitmap_one_byte_short; [apply boot_short_ok|vm_compute; reflexivity|lia|lia].
Defined.
