(* ===== verification/FrameAlloc.v ===== *)
(** * What the frame allocator promises to its clients

    The page tables and the virtual memory manager are written against the
    operations of [FrameAlloc] and verified against the laws of
    [FrameAllocLaws]; the instances at the end say that mm/pmm.c provides both. *)

From S2P Require Export Samples.

Class FrameAlloc := {
  fa_palloc : Z -> bool -> K Z;
  fa_pfree : Z -> Z -> K unit }.

(** [m'] differs from [m] only inside frames with property [P]. *)
Definition differs_in_frames (hhdm : Z) (P : Z -> Prop) (m m' : memory) : Prop :=
  agree_outside (fun a => exists f, P f /\ in_range (hhdm + f * PAGE_SIZE) PAGE_SIZE a) m m'.

(** Frame [f] was not a client's, is one now, and is zeroed; nothing else a
    client can see has changed. *)
Record hands_out (owned : machine -> Z -> Prop) (s : machine) (f : Z) (s' : machine) : Prop :=
  HandsOut {
    ho_others : others s' = others s;
    ho_new : ~ owned s f;
    ho_owned : forall g, owned s' g <-> owned s g \/ g = f;
    ho_zero : forall a, in_range (hhdm_offset s + f * PAGE_SIZE) PAGE_SIZE a ->
        load8 (mem s') a = 0;
    ho_kept : forall g a, owned s g -> in_range (hhdm_offset s + g * PAGE_SIZE) PAGE_SIZE a ->
        load8 (mem s') a = load8 (mem s) a;
    ho_low : forall a, a < hhdm_offset s -> load8 (mem s') a = load8 (mem s) a }.

(** Frame [f] was a client's and no longer is; nothing else has changed for clients. *)
Record takes_back (owned : machine -> Z -> Prop) (s : machine) (f : Z) (s' : machine) : Prop :=
  TakesBack {
    tb_others : others s' = others s;
    tb_owned : forall g, owned s' g <-> owned s g /\ g <> f;
    tb_kept : forall g a, owned s g -> in_range (hhdm_offset s + g * PAGE_SIZE) PAGE_SIZE a ->
        load8 (mem s') a = load8 (mem s) a;
    tb_low : forall a, a < hhdm_offset s -> load8 (mem s') a = load8 (mem s) a }.

Class FrameAllocLaws `{FrameAlloc} := {
  fa_inv : machine -> Prop;
  fa_owned : machine -> Z -> Prop;
  fa_hhdm : forall s, fa_inv s -> 0 < hhdm_offset s /\ hhdm_offset s mod PAGE_SIZE = 0;
  fa_bounds : forall s f, fa_inv s -> fa_owned s f ->
      0 < f /\ (f + 1) * PAGE_SIZE <= hhdm_offset s /\ (f + 1) * PAGE_SIZE <= 2 ^ 52 /\
      hhdm_offset s + (f + 1) * PAGE_SIZE <= 2 ^ 64;
  (** Memory of the clients' frames, and the other globals, are the clients'. *)
  fa_client : forall s s', fa_inv s -> hhdm_offset s' = hhdm_offset s -> pmm s' = pmm s ->
      (forall a, hhdm_offset s <= a -> load8 (mem s') a <> load8 (mem s) a ->
         exists f, fa_owned s f /\ in_range (hhdm_offset s + f * PAGE_SIZE) PAGE_SIZE a) ->
      fa_inv s' /\ forall f, fa_owned s' f <-> fa_owned s f;
  fa_palloc_one : forall s hh, fa_inv s ->
      wp (fa_palloc 1 hh) (fun r s' =>
        (r = NULL /\ s' = s) \/
        (exists f, r = frame_ptr s hh f /\ fa_inv s' /\ hands_out fa_owned s f s')) s;
  (** How many frames are left; NULL is returned when, and only when, there is none. *)
  fa_free : machine -> Z;
  fa_free_nonneg : forall s, fa_inv s -> 0 <= fa_free s;
  fa_free_same : forall s s', pmm s' = pmm s -> fa_free s' = fa_free s;
  fa_palloc_count : forall s hh, fa_inv s ->
      wp (fa_palloc 1 hh) (fun r s' =>
        (r = NULL <-> fa_free s = 0) /\ (r <> NULL -> fa_free s' = fa_free s - 1)) s }.

(** No frame is left. *)
Definition fa_full `{FrameAllocLaws} (s : machine) : Prop := fa_free s = 0.

Lemma fa_full_same `{FrameAllocLaws} s s' : pmm s' = pmm s -> fa_full s -> fa_full s'.
Proof. unfold fa_full. by intros ->%fa_free_same. Qed.

(** Both at once. *)
Lemma fa_palloc_fresh `{FrameAllocLaws} s hh :
  fa_inv s ->
  wp (fa_palloc 1 hh) (fun r s' =>
    (r = NULL /\ s' = s /\ fa_full s) \/
    (exists f, r = frame_ptr s hh f /\ fa_inv s' /\ hands_out fa_owned s f s' /\
       ~ fa_full s /\ fa_free s' = fa_free s - 1)) s.
Proof.
  intros Hi. eapply wp_mono; [apply wp_and; [by apply fa_palloc_one|by apply fa_palloc_count]|].
  intros r s' [[[-> ->]|(f & -> & Hi' & Hout)] [Hn Hc]]; [left; split_and!; try done; by apply Hn|right].
  assert (Hof : fa_owned s' f) by (apply (ho_owned _ _ _ _ Hout); by right).
  destruct (fa_bounds s' f Hi' Hof) as (Hf0 & _), (fa_hhdm s Hi) as [Hh _].
  assert (frame_ptr s hh f <> NULL) by (unfold frame_ptr, PAGE_SIZE; destruct hh; lia).
  exists f. split_and!; auto. by intros Hf%Hn.
Qed.

(** An allocator that takes single frames back. *)
Class FrameFreeLaws `{FrameAllocLaws} := {
  fa_pfree_one : forall s hh f, fa_inv s -> fa_owned s f ->
      wp (fa_pfree (frame_ptr s hh f) 1) (fun _ s' =>
        fa_inv s' /\ takes_back fa_owned s f s') s;
  fa_pfree_count : forall s hh f, fa_inv s -> fa_owned s f ->
      wp (fa_pfree (frame_ptr s hh f) 1) (fun _ s' => fa_free s' = fa_free s + 1) s }.

(** At most one frame is left. *)
Definition frames_out `{FrameAllocLaws} (s : machine) : Prop := fa_free s <= 1.

Lemma frames_out_full `{FrameAllocLaws} s s' : pmm s' = pmm s -> fa_full s -> frames_out s'.
Proof. unfold frames_out, fa_full. intros ->%fa_free_same ->. lia. Qed.

(** Frames [f .. f + n - 1] were not a client's and are now; nothing a client could
    see has changed. *)
Record hands_out_run (owned : machine -> Z -> Prop) (s : machine) (f n : Z) (s' : machine) : Prop :=
  HandsOutRun {
    hr_others : others s' = others s;
    hr_new : forall g, f <= g < f + n -> ~ owned s g;
    hr_owned : forall g, owned s' g <-> owned s g \/ f <= g < f + n;
    hr_kept : forall g a, owned s g -> in_range (hhdm_offset s + g * PAGE_SIZE) PAGE_SIZE a ->
        load8 (mem s') a = load8 (mem s) a }.

(** Frames [f .. f + n - 1] were a client's and no longer are. *)
Record takes_back_run (owned : machine -> Z -> Prop) (s : machine) (f n : Z) (s' : machine) : Prop :=
  TakesBackRun {
    tr_others : others s' = others s;
    tr_owned : forall g, owned s' g <-> owned s g /\ ~ (f <= g < f + n);
    tr_kept : forall g a, owned s g -> in_range (hhdm_offset s + g * PAGE_SIZE) PAGE_SIZE a ->
        load8 (mem s') a = load8 (mem s) a }.

(** An allocator that also serves several frames in one call.  The invariant may be one
    that giving a frame back does not preserve. *)
Class FrameRunLaws `{FrameAllocLaws} := {
  fa_palloc_run : forall s n hh, fa_inv s -> 0 < n ->
      wp (fa_palloc n hh) (fun r s' =>
        (r = NULL /\ s' = s) \/
        (exists f, r = frame_ptr s hh f /\ fa_inv s' /\ hands_out_run fa_owned s f n s' /\
           fa_free s' = fa_free s - n)) s;
  fa_pfree_run : forall s f n hh, fa_inv s -> 0 < n ->
      (forall g, f <= g < f + n -> fa_owned s g) ->
      wp (fa_pfree (frame_ptr s hh f) n) (fun _ s' => takes_back_run fa_owned s f n s') s }.

(** ** mm/pmm.c *)

#[export] Instance pmm_frame_alloc : FrameAlloc := {|
  fa_palloc := palloc;
  fa_pfree := pfree |}.

(** The invariant, with physical addresses inside x86-64's 52 bits. *)
Definition pmm_inv (s : machine) : Prop :=
  pmm_ok s /\ bitmap_pages (pmm s) * PAGE_SIZE <= 2 ^ 52.

Lemma owned_bounds s f :
  pmm_inv s -> owned s f ->
  0 < f /\ (f + 1) * PAGE_SIZE <= hhdm_offset s /\ (f + 1) * PAGE_SIZE <= 2 ^ 52 /\
  hhdm_offset s + (f + 1) * PAGE_SIZE <= 2 ^ 64.
Proof.
  intros [Hok Ht] (Hf & _). destruct (ok_pages s Hok) as (_ & H1 & H2).
  unfold PAGE_SIZE in *. lia.
Qed.

Lemma in_frames_one s f a :
  in_frames s f 1 a <-> in_range (hhdm_offset s + f * PAGE_SIZE) PAGE_SIZE a.
Proof. unfold in_frames, in_range, PAGE_SIZE. lia. Qed.

(** Writing into owned frames does not reach the bitmap. *)
Lemma client_bitmap s s' a :
  pmm_ok s ->
  (forall a, hhdm_offset s <= a -> load8 (mem s') a <> load8 (mem s) a ->
     exists f, owned s f /\ in_range (hhdm_offset s + f * PAGE_SIZE) PAGE_SIZE a) ->
  in_bitmap s a -> load8 (mem s') a = load8 (mem s) a.
Proof.
  intros Hok Hd Ha. destruct (decide (load8 (mem s') a = load8 (mem s) a)) as [|Hne]; [done|].
  destruct (ok_bitmap s Hok a Ha) as (g & Hg & _ & Hga).
  destruct (ok_hhdm s Hok) as [Hh _].
  destruct (Hd a) as (f & (_ & _ & Hnb) & Hf); [|done|].
  - unfold in_frames, in_range, PAGE_SIZE in Hga. lia.
  - exfalso. apply Hnb. exists a. by rewrite in_frames_one.
Qed.

Lemma pmm_client s s' :
  pmm_inv s -> hhdm_offset s' = hhdm_offset s -> pmm s' = pmm s ->
  (forall a, hhdm_offset s <= a -> load8 (mem s') a <> load8 (mem s) a ->
     exists f, owned s f /\ in_range (hhdm_offset s + f * PAGE_SIZE) PAGE_SIZE a) ->
  pmm_inv s' /\ forall f, owned s' f <-> owned s f.
Proof.
  intros [Hok Ht] Hh Hp Hd.
  assert (Hused : forall f, 0 <= f < bitmap_pages (pmm s) -> used s' f = used s f).
  { intros f Hf. unfold used. rewrite Hp. apply bitmap_get_ext.
    apply (client_bitmap s s'); [done..|by apply bit_in_bitmap]. }
  assert (Hib : forall a, in_bitmap s' a <-> in_bitmap s a)
    by (intros a; unfold in_bitmap; by rewrite Hp).
  assert (Hif : forall f n a, in_frames s' f n a <-> in_frames s f n a)
    by (intros f n a; unfold in_frames; by rewrite Hh).
  split; [split; [|by rewrite Hp]|].
  - destruct Hok as [Hl Hhh Hpg H0 Hbm Hfp Hcs [Hnd Hc]].
    split; rewrite ?Hp, ?Hh; try done.
    + by rewrite Hused by lia.
    + intros a Ha. rewrite Hib in Ha. destruct (Hbm a Ha) as (f & Hf & Hu & Hfa).
      exists f. rewrite Hused, Hif by done. done.
    + rewrite Hfp. apply nfree_ext. intros f Hf. symmetry. apply Hused. lia.
    + unfold cached in *. rewrite Hp. split; [done|].
      apply Forall_forall. intros f Hf. rewrite Forall_forall in Hc.
      destruct (Hc f Hf) as [Hb Hu]. split; [done|]. by rewrite Hused.
  - intros f. unfold owned. rewrite Hp.
    assert (Hbf : bitmap_frame s' f <-> bitmap_frame s f).
    { unfold bitmap_frame. split; intros (a & Ha & Hfa); exists a; 
        [rewrite <- Hib, <- Hif|rewrite Hib, Hif]; done. }
    rewrite Hbf. split; intros (Hf & Hu & Hn); (split; [done|]); rewrite Hused in * by lia; done.
Qed.

Lemma bitmap_frame_same s s' f :
  others s' = others s ->
  bitmap (pmm s') = bitmap (pmm s) /\ bitmap_pages (pmm s') = bitmap_pages (pmm s) ->
  bitmap_frame s' f <-> bitmap_frame s f.
Proof.
  intros Ho%others_hhdm [Hb Hp]. unfold bitmap_frame, in_bitmap, in_frames, word_count.
  by rewrite Hb, Hp, Ho.
Qed.

(** A byte of a run of frames lies in one of them. *)
Lemma bitmap_above s a : pmm_ok s -> in_bitmap s a -> hhdm_offset s <= a.
Proof.
  intros Hok Hin. destruct (ok_bitmap s Hok a Hin) as (g & Hg & _ & Hin').
  unfold in_frames, in_range, PAGE_SIZE in *. lia.
Qed.

Lemma allocates_hands_out s f n s' :
  pmm_ok s -> 0 < n -> 0 < f -> f + n <= bitmap_pages (pmm s) -> allocates s f n s' ->
  hands_out_run owned s f n s'.
Proof.
  intros Hok Hn Hf0 Hf1 [Ho Hbp Hfree Hus _ Hfr].
  assert (Hbf : forall g, bitmap_frame s' g <-> bitmap_frame s g) by (intros g; by apply bitmap_frame_same).
  destruct Hbp as [Hb Hp]. split; [done| | |].
  - intros g Hg (_ & Hu & _). destruct (Hfree g Hg) as [_ Hu']. congruence.
  - intros g. unfold owned. rewrite Hp, Hbf. split.
    + intros (Hg & Hug & Hng). rewrite Hus in Hug by lia.
      apply orb_true_iff in Hug as [Hug|Hug]; [right; bool_simpl; lia|by left].
    + intros [(Hg & Hug & Hng)|Hg].
      * split; [done|]. split; [|done]. rewrite Hus by lia. by rewrite Hug, orb_true_r.
      * destruct (Hfree g Hg) as [Hgb Hu]. split; [lia|]. split.
        -- rewrite Hus by lia. destruct (Z.leb_spec f g), (Z.ltb_spec g (f + n)); (done || lia).
        -- intros (a & Ha & Hga). by apply (free_not_bitmap s g a Hok Hu Hga).
  - intros g a Hg Ha. rewrite <-in_frames_one in Ha. apply Hfr. intros [Hin|Hin].
    + destruct (in_frames_split s f n a Hin) as (g' & Hg' & Hin').
      rewrite (used_frame_unique s g g' a Ha Hin') in Hg. destruct Hg as (_ & Hg & _).
      destruct (Hfree g' Hg') as [_ Hu]. congruence.
    + destruct Hg as (_ & _ & Hg). apply Hg. by exists a.
Qed.

Lemma frees_takes_back s f n s' :
  frees s f n s' -> takes_back_run owned s f n s'.
Proof.
  intros [Ho Hbp Hus Hfr].
  assert (Hbf : forall g, bitmap_frame s' g <-> bitmap_frame s g) by (intros g; by apply bitmap_frame_same).
  destruct Hbp as [_ Hp]. split; [done| |].
  - intros g. unfold owned. rewrite Hp, Hus, Hbf.
    destruct (Z.leb_spec f g), (Z.ltb_spec g (f + n)); cbn [andb negb];
      (split; [intros (?&?&?)|intros [(?&?&?) ?]]; split_and!; (done || lia)).
  - intros g a (_ & _ & Hg) Ha. apply Hfr. intros Hin. apply Hg. exists a.
    by rewrite in_frames_one.
Qed.

Lemma pmm_palloc_one s hh :
  pmm_inv s ->
  wp (palloc 1 hh) (fun r s' =>
    (r = NULL /\ s' = s) \/
    (exists f, r = frame_ptr s hh f /\ pmm_inv s' /\ hands_out owned s f s')) s.
Proof.
  intros [Hok Ht]. destruct (ok_pages s Hok) as (Hp0 & Hp1 & Hp2).
  eapply wp_mono; [apply (palloc_spec s 1 hh Hok); [lia|by left]|].
  intros r s' [(-> & -> & _)|(f & Hf0 & Hf1 & _ & Hr & Hal & Hok')]; [by left|right].
  exists f. destruct (allocates_hands_out s f 1 s' Hok ltac:(lia) Hf0 Hf1 Hal) as [Ho Hnew Hown Hk].
  destruct Hal as [_ [_ Hp] _ _ Hz Hfr]. split_and!; [done| |].
  { split; [done|]. by rewrite Hp. }
  split; [done| | | |done|].
  - apply Hnew. lia.
  - intros g. rewrite Hown. split; (intros [?|?]; [by left|right; lia]).
  - intros a Ha. apply Hz. by rewrite in_frames_one.
  - intros a Ha. apply Hfr. intros [Hin|Hin%bitmap_above]; [|lia|done].
    unfold in_frames, in_range, PAGE_SIZE in *. lia.
Qed.

(** The allocator counts its free frames; NULL means that there is none. *)
Definition pmm_free (s : machine) : Z := free_pages (pmm s).

Lemma pmm_free_nonneg s : pmm_inv s -> 0 <= pmm_free s.
Proof. intros [Hok _]. unfold pmm_free. rewrite (ok_free s Hok). apply nfree_bounds. Qed.

Lemma pmm_free_same s s' : pmm s' = pmm s -> pmm_free s' = pmm_free s.
Proof. unfold pmm_free. by intros ->. Qed.

Lemma allocates_count s f n s' :
  pmm_ok s -> pmm_ok s' -> allocates s f n s' -> 0 <= n -> pmm_free s' = pmm_free s - n.
Proof.
  intros Hok Hok' [_ [_ Hp] Hfree Hus _ _] Hn. unfold pmm_free.
  rewrite (ok_free s Hok), (ok_free s' Hok'), Hp. replace n with (Z.of_nat (Z.to_nat n)) by lia.
  destruct (decide (n = 0)) as [->|Hn0].
  { rewrite (nfree_ext (used s') (used s)); [cbn; lia|]. intros i Hi. rewrite Hus by lia.
    destruct (Z.leb_spec f i), (Z.ltb_spec i (f + 0)); (done || lia). }
  rewrite (nfree_ext (used s') (fun g => ((f <=? g) && (g <? f + Z.of_nat (Z.to_nat n))) || used s g))
    by (intros i Hi; rewrite Hus by lia; by rewrite Z2Nat.id by lia).
  destruct (Hfree f ltac:(lia)) as [Hb0 _], (Hfree (f + n - 1) ltac:(lia)) as [Hb1 _].
  apply (nfree_run (used s) _ _ f); [lia|lia| |done].
  intros i Hi. apply Hfree. lia.
Qed.

Lemma nfree_used u n : (forall i, 0 <= i < Z.of_nat n -> u i = true) -> nfree u n = 0.
Proof.
  induction n as [|n IH]; intros H; [done|]. cbn [nfree].
  rewrite IH by (intros; apply H; lia). by rewrite H by lia.
Qed.

Lemma no_run_full s :
  pmm_ok s -> (forall st, ~ word_run (mem s) (bitmap (pmm s)) 1 (bitmap_pages (pmm s)) st) -> pmm_free s = 0.
Proof.
  intros Hok Hno. unfold pmm_free. rewrite (ok_free s Hok). apply nfree_used. intros f Hf.
  destruct (used s f) eqn:Hu; [done|]. destruct (Hno f). split_and!; [lia|lia| |].
  - intros b Hb. by replace b with f by lia.
  - exists (f / 64). pose proof (Z.div_mod f 64 ltac:(lia)). pose proof (Z.mod_pos_bound f 64 ltac:(lia)). lia.
Qed.

Lemma pmm_palloc_count s hh :
  pmm_inv s ->
  wp (palloc 1 hh) (fun r s' =>
    (r = NULL <-> pmm_free s = 0) /\ (r <> NULL -> pmm_free s' = pmm_free s - 1)) s.
Proof.
  intros [Hok Ht]. destruct (decide (free_pages (pmm s) = 0)) as [Hz|Hnz].
  { unfold wp, palloc, bind, get. cbn beta iota. by rewrite Hz. }
  eapply wp_mono; [apply (palloc_spec s 1 hh Hok); [lia|by left]|].
  intros r s' [(_ & _ & Hno)|(f & Hf0 & Hf1 & _ & -> & Hal & Hok')].
  - destruct Hnz. apply (no_run_full s Hok). intros st. by apply Hno.
  - destruct (frame_ptr_aligned s hh f Hok ltac:(lia)) as [Hp _]. split; [split; [intros He; lia|done]|].
    intros _. by apply (allocates_count s f).
Qed.

(** Giving back frames that a client owns. *)
Lemma pfree_owned s hh f n :
  pmm_inv s -> 0 < n -> (forall g, f <= g < f + n -> owned s g) ->
  wp (pfree (frame_ptr s hh f) n) (fun _ s' => pmm_inv s' /\ frees s f n s') s.
Proof.
  intros [Hok Ht] Hn Hf. destruct (Hf f ltac:(lia)) as (Hf0 & _).
  destruct (Hf (f + n - 1) ltac:(lia)) as (Hf1 & _).
  destruct (frame_ptr_aligned s hh f Hok ltac:(lia)) as [Hp Ha].
  pose proof (frame_of_ptr s hh f Hok ltac:(lia)) as Hfo.
  eapply wp_mono.
  { apply (pfree_spec s (frame_ptr s hh f) n Hok Hp Ha ltac:(lia)); rewrite Hfo; [lia|].
    intros g Hg _. destruct (Hf g Hg) as (? & _ & ?). split; [lia|done]. }
  rewrite Hfo. intros [] s' [Hok' Hfr]. split; [|done]. split; [done|].
  destruct (fr_bitmap _ _ _ _ Hfr) as [_ ->]. done.
Qed.

Lemma pmm_pfree_one s hh f :
  pmm_inv s -> owned s f ->
  wp (pfree (frame_ptr s hh f) 1) (fun _ s' => pmm_inv s' /\ takes_back owned s f s') s.
Proof.
  intros Hi Hf. eapply wp_mono.
  { apply (pfree_owned s hh f 1 Hi); [lia|]. intros g Hg. by replace g with f by lia. }
  intros [] s' [Hi' Hfr]. split; [done|].
  destruct (frees_takes_back s f 1 s' Hfr) as [Ho Hown Hk]. split; [done| |done|].
  - intros g. rewrite Hown. split; (intros [? Hg]; split; [done|intros ?; apply Hg; lia]).
  - intros a Ha. apply (fr_frame _ _ _ _ Hfr). intros Hin%bitmap_above; [lia|apply Hi].
Qed.

Lemma frees_count s f s' :
  pmm_ok s -> pmm_ok s' -> frees s f 1 s' -> owned s f -> pmm_free s' = pmm_free s + 1.
Proof.
  intros Hok Hok' [_ [_ Hp] Hus _] (Hf & Hu & _). unfold pmm_free.
  rewrite (ok_free s Hok), (ok_free s' Hok'), Hp.
  rewrite (nfree_update (used s) (used s') _ f); [|lia|].
  - rewrite Hu, Hus. destruct (Z.leb_spec f f), (Z.ltb_spec f (f + 1)); cbn; lia.
  - intros i Hne. rewrite Hus. destruct (Z.leb_spec f i), (Z.ltb_spec i (f + 1)); (done || lia).
Qed.

Lemma pmm_pfree_count s hh f :
  pmm_inv s -> owned s f ->
  wp (pfree (frame_ptr s hh f) 1) (fun _ s' => pmm_free s' = pmm_free s + 1) s.
Proof.
  intros Hi Hf. eapply wp_mono.
  { apply (pfree_owned s hh f 1 Hi); [lia|]. intros g Hg. by replace g with f by lia. }
  intros [] s' [Hi' Hfr]. apply (frees_count s f); [apply Hi|apply Hi'|done..].
Qed.

(** *** Several frames in one call

    A frame in the cache is still clear in the bitmap, so a call for several frames may
    hand it out a second time ([palloc_double_allocation]).  The laws hold as long as
    nothing is cached, which only [pfree] of one frame changes. *)

Definition pmm_uncached (s : machine) : Prop := pmm_inv s /\ cache_index (pmm s) = 0.

Lemma palloc_keeps_uncached s n hh :
  pmm_ok s -> 0 < n -> cache_index (pmm s) = 0 ->
  wp (palloc n hh) (fun _ s' => cache_index (pmm s') = 0) s.
Proof.
  intros Hok Hn Hc. destruct (Z.ltb_spec (free_pages (pmm s)) n) as [Hlt|Hge].
  { unfold wp, palloc, bind, get. cbn beta iota. rewrite (proj2 (Z.ltb_lt _ _) Hlt), orb_true_r. done. }
  unfold wp. destruct (scan_words (Z.to_nat (word_count (pmm s))) (mem s) (bitmap (pmm s)) 0
      n (bitmap_pages (pmm s))) as [st|] eqn:Hs.
  - by rewrite (palloc_scanned s n hh st Hok (fun _ => Hc) ltac:(lia) Hs).
  - by rewrite (palloc_refused s n hh Hok (fun _ => Hc) Hs).
Qed.

Lemma uncached_palloc_one s hh :
  pmm_uncached s ->
  wp (palloc 1 hh) (fun r s' =>
    (r = NULL /\ s' = s) \/
    (exists f, r = frame_ptr s hh f /\ pmm_uncached s' /\ hands_out owned s f s')) s.
Proof.
  intros [Hi Hc].
  eapply wp_mono; [apply wp_and; [by apply pmm_palloc_one|by apply (palloc_keeps_uncached s 1); [apply Hi|..]]|].
  intros r s' [[?|(f & Hr & Hi' & Ho)] Hc']; [by left|right]. by exists f.
Qed.

Lemma uncached_palloc_run s n hh :
  pmm_uncached s -> 0 < n ->
  wp (palloc n hh) (fun r s' =>
    (r = NULL /\ s' = s) \/
    (exists f, r = frame_ptr s hh f /\ pmm_uncached s' /\ hands_out_run owned s f n s' /\
       pmm_free s' = pmm_free s - n)) s.
Proof.
  intros [[Hok Ht] Hc] Hn.
  eapply wp_mono; [apply wp_and; [apply (palloc_spec s n hh Hok); [lia|by right]
    |by apply palloc_keeps_uncached]|].
  intros r s' [[(-> & -> & _)|(f & Hf0 & Hf1 & _ & Hr & Hal & Hok')] Hc']; [by left|right].
  exists f. split; [done|]. split; [|split; [by apply allocates_hands_out|apply (allocates_count s f); (done || lia)]].
  split; [|done]. split; [done|]. destruct (al_bitmap _ _ _ _ Hal) as [_ ->]. done.
Qed.

Lemma uncached_pfree_run s f n hh :
  pmm_uncached s -> 0 < n -> (forall g, f <= g < f + n -> owned s g) ->
  wp (pfree (frame_ptr s hh f) n) (fun _ s' => takes_back_run owned s f n s') s.
Proof.
  intros [Hi _] Hn Hf. eapply wp_mono; [by apply pfree_owned|].
  intros [] s' [_ Hfr]. by apply frees_takes_back.
Qed.

Lemma uncached_client s s' :
  pmm_uncached s -> hhdm_offset s' = hhdm_offset s -> pmm s' = pmm s ->
  (forall a, hhdm_offset s <= a -> load8 (mem s') a <> load8 (mem s) a ->
     exists f, owned s f /\ in_range (hhdm_offset s + f * PAGE_SIZE) PAGE_SIZE a) ->
  pmm_uncached s' /\ forall f, owned s' f <-> owned s f.
Proof.
  intros [Hi Hc] Hh Hp Hd. destruct (pmm_client s s' Hi Hh Hp Hd) as [Hi' Ho].
  split; [|done]. split; [done|]. by rewrite Hp.
Qed.

#[export] Instance pmm_frame_alloc_laws : FrameAllocLaws := {|
  fa_inv := pmm_inv;
  fa_owned := owned;
  fa_hhdm := fun s H => ok_hhdm s (proj1 H);
  fa_bounds := owned_bounds;
  fa_client := pmm_client;
  fa_palloc_one := pmm_palloc_one;
  fa_free := pmm_free;
  fa_free_nonneg := pmm_free_nonneg;
  fa_free_same := pmm_free_same;
  fa_palloc_count := pmm_palloc_count |}.

#[export] Instance pmm_frame_free_laws : FrameFreeLaws := {|
  fa_pfree_one := pmm_pfree_one;
  fa_pfree_count := pmm_pfree_count |}.

(** Not an instance: clients of single frames take the laws above. *)
Definition pmm_uncached_laws : FrameAllocLaws := {|
  fa_inv := pmm_uncached;
  fa_owned := owned;
  fa_hhdm := fun s H => ok_hhdm s (proj1 (proj1 H));
  fa_bounds := fun s f H => owned_bounds s f (proj1 H);
  fa_client := uncached_client;
  fa_palloc_one := uncached_palloc_one;
  fa_free := pmm_free;
  fa_free_nonneg := fun s H => pmm_free_nonneg s (proj1 H);
  fa_free_same := pmm_free_same;
  fa_palloc_count := fun s hh H => pmm_palloc_count s hh (proj1 H) |}.

Definition pmm_run_laws : @FrameRunLaws pmm_frame_alloc pmm_uncached_laws :=
  @Build_FrameRunLaws pmm_frame_alloc pmm_uncached_laws uncached_palloc_run uncached_pfree_run.
