(* ===== verification/Paging.v ===== *)
(** * arch/paging.c and arch/paging.h: four-level page tables

    Tables live in memory; a table is named by its higher-half address, as in
    the code.  Everything is written against the frame allocator's interface. *)

From S2P Require Export FrameAlloc.

(** ** Constants and flags *)

Definition VMM_PRESENT : Z := 1.
Definition VMM_WRITE : Z := 2.
Definition VMM_USER : Z := 4.
Definition VMM_NX : Z := 2 ^ 63.
Definition VMM_PS : Z := Z.shiftl 1 7.

Definition PAGE_MASK : Z := 0x000FFFFFFFFFF000.
Definition PAGE_INDEX_MASK : Z := 0x1FF.

Definition PML1_SHIFT : Z := 12.
Definition PML2_SHIFT : Z := 21.
Definition PML3_SHIFT : Z := 30.
Definition PML4_SHIFT : Z := 39.

Definition VALLOC_READ : Z := 1.
Definition VALLOC_WRITE : Z := 2.
Definition VALLOC_EXEC : Z := 4.
Definition VALLOC_USER : Z := 8.
Definition VALLOC_RW : Z := Z.lor VALLOC_READ VALLOC_WRITE.

Definition has (x flag : Z) : bool := negb (Z.land x flag =? 0).

Definition VFLAGS_TO_PFLAGS (flags : Z) : Z :=
  Z.lor VMM_PRESENT
    (Z.lor (if has flags VALLOC_WRITE then VMM_WRITE else 0)
      (Z.lor (if has flags VALLOC_USER then VMM_USER else 0)
             (if has flags VALLOC_EXEC then 0 else VMM_NX))).

Definition page_index (virt shift : Z) : Z :=
  Z.land (Z.shiftr virt shift) PAGE_INDEX_MASK.

(** ** Build parameters and linker symbols *)

(** [LARGE_PAGES], what [cpuid] reports, the symbols of the linker script, and
    what the boot loader answered about the kernel and its stack. *)
Record kernel_image := KernelImage {
  LARGE_PAGES : bool;
  cpuid_edx : Z;
  kvirt : Z;
  kphys : Z;
  kstack_top : Z;
  limine_requests : Z * Z;
  text : Z * Z;
  rodata : Z * Z;
  data : Z * Z }.

Definition set_kernel_pagemap (x : Z) (s : machine) : machine :=
  set_paging (Paging x (cr3 (paging s)) (invlpg (paging s))) s.
Definition load_cr3 (x : Z) (s : machine) : machine :=
  set_paging (Paging (kernel_pagemap (paging s)) x (invlpg (paging s))) s.
Definition invlpg_at (virt : Z) : K unit :=
  modify (fun s => set_paging (Paging (kernel_pagemap (paging s)) (cr3 (paging s))
                                 (virt :: invlpg (paging s))) s).

Section Paging.
Context {FA : FrameAlloc}.

(** ** Table walks *)

Definition get_table (s : machine) (table index : Z) : Z :=
  if (table =? NULL) || negb (has (load64 (mem s) (table + 8 * index)) VMM_PRESENT) then NULL
  else HIGHER_HALF (hhdm_offset s) (Z.land (load64 (mem s) (table + 8 * index)) PAGE_MASK).

Definition get_or_alloc_table (table index flags : Z) : K Z :=
  if table =? NULL then ret NULL else
  entry <- read64 (table + 8 * index) ;;
  ok <- (if has entry VMM_PRESENT then ret true else
         new_table <- fa_palloc 1 true ;;
         if (new_table =? NULL) || negb (IS_PAGE_ALIGNED new_table) then ret false else
         memset_at new_table 0 PAGE_SIZE ;;;
         hh <- gets hhdm_offset ;;
         write64 (table + 8 * index) (Z.lor (PHYSICAL hh new_table) 7) ;;;
         ret true) ;;
  if ok : bool then
    entry <- read64 (table + 8 * index) ;;
    write64 (table + 8 * index) (Z.lor entry (Z.land flags 0xFF)) ;;;
    entry <- read64 (table + 8 * index) ;;
    gets (fun s => HIGHER_HALF (hhdm_offset s) (Z.land entry PAGE_MASK))
  else ret NULL.

Definition virt_to_phys (s : machine) (pagemap virt : Z) : Z :=
  if pagemap =? NULL then 0 else
  let pml3 := get_table s pagemap (page_index virt PML4_SHIFT) in
  if pml3 =? NULL then 0 else
  let pml2 := get_table s pml3 (page_index virt PML3_SHIFT) in
  if pml2 =? NULL then 0 else
  let pml1 := get_table s pml2 (page_index virt PML2_SHIFT) in
  if pml1 =? NULL then 0 else
  let e := load64 (mem s) (pml1 + 8 * page_index virt PML1_SHIFT) in
  if negb (has e VMM_PRESENT) then 0 else Z.land e PAGE_MASK.

(** ** CR3 *)

Definition pmset (pagemap : Z) : K unit :=
  s <- get ;;
  if (pagemap =? NULL) || negb (IS_PAGE_ALIGNED (PHYSICAL (hhdm_offset s) pagemap))
  then kpanic
  else modify (load_cr3 (PHYSICAL (hhdm_offset s) pagemap)).

Definition pmget : K Z := gets (fun s => HIGHER_HALF (hhdm_offset s) (cr3 (paging s))).

Definition pmnew : K Z :=
  pm <- fa_palloc 1 true ;;
  if pm =? NULL then kpanic else
  memset_at pm 0 PAGE_SIZE ;;;
  kpm <- gets (fun s => kernel_pagemap (paging s)) ;;
  when (negb (kpm =? NULL)) (memcpy_at (pm + 8 * 256) (kpm + 8 * 256) (256 * 8)) ;;;
  ret pm.

(** ** Mapping and unmapping; the result is the code's [int] *)

Definition vmap (pagemap virt phys flags : Z) : K Z :=
  if pagemap =? NULL then ret (-1) else
  pml3 <- get_or_alloc_table pagemap (page_index virt PML4_SHIFT) flags ;;
  if pml3 =? NULL then ret (-1) else
  pml2 <- get_or_alloc_table pml3 (page_index virt PML3_SHIFT) flags ;;
  if pml2 =? NULL then ret (-1) else
  pml1 <- get_or_alloc_table pml2 (page_index virt PML2_SHIFT) flags ;;
  if pml1 =? NULL then ret (-1) else
  write64 (pml1 + 8 * page_index virt PML1_SHIFT) (Z.lor phys flags) ;;;
  invlpg_at virt ;;;
  ret 0.

Definition vunmap (pagemap virt : Z) : K Z :=
  if (pagemap =? NULL) || has virt (PAGE_SIZE - 1) then ret (-1) else
  s <- get ;;
  let pml3 := get_table s pagemap (page_index virt PML4_SHIFT) in
  if pml3 =? NULL then ret 0 else
  let pml2 := get_table s pml3 (page_index virt PML3_SHIFT) in
  if pml2 =? NULL then ret 0 else
  let pml1 := get_table s pml2 (page_index virt PML2_SHIFT) in
  if pml1 =? NULL then ret 0 else
  write64 (pml1 + 8 * page_index virt PML1_SHIFT) 0 ;;;
  invlpg_at virt ;;;
  ret 0.

(** ** 2 MiB pages *)

Definition supports_large_pages (k : kernel_image) : bool :=
  LARGE_PAGES k && has (cpuid_edx k) (Z.shiftl 1 3).

Definition vmap_large (k : kernel_image) (pagemap virt phys flags : Z) : K Z :=
  if negb (LARGE_PAGES k) then ret (-1) else
  if (pagemap =? NULL) || has virt (PAGE_SIZE_2M - 1) || has phys (PAGE_SIZE_2M - 1)
  then ret (-1) else
  if negb (supports_large_pages k) then ret (-1) else
  pml3 <- get_or_alloc_table pagemap (page_index virt PML4_SHIFT) flags ;;
  if pml3 =? NULL then ret (-1) else
  pml2 <- get_or_alloc_table pml3 (page_index virt PML3_SHIFT) flags ;;
  if pml2 =? NULL then ret (-1) else
  write64 (pml2 + 8 * page_index virt PML2_SHIFT) (Z.lor (Z.lor phys flags) VMM_PS) ;;;
  invlpg_at virt ;;;
  ret 0.

(** ** paging_init *)

(** [for (addr = start; addr < stop; addr += PAGE_SIZE) vmap(...)]. *)
Definition map_range (start stop : Z) (phys_of : Z -> Z) (flags : Z) : K unit :=
  for_loop (iters start stop PAGE_SIZE) start PAGE_SIZE (fun addr =>
    kpm <- gets (fun s => kernel_pagemap (paging s)) ;;
    vmap kpm addr (phys_of addr) flags ;;; ret tt).

(** The [while] loop over one memory map entry, [n] rounds at most. *)
Fixpoint map_entry (k : kernel_image) (n : nat) (addr stop : Z) : K unit :=
  match n with
  | O => if addr <? stop then out_of_fuel else ret tt
  | S n' =>
      if negb (addr <? stop) then ret tt else
      s <- get ;;
      let virt := HIGHER_HALF (hhdm_offset s) addr in
      let kpm := kernel_pagemap (paging s) in
      let flags := Z.lor VMM_PRESENT (Z.lor VMM_WRITE VMM_NX) in
      large <- (if (Z.land addr (PAGE_SIZE_2M - 1) =? 0) && (Z.land virt (PAGE_SIZE_2M - 1) =? 0)
                   && (PAGE_SIZE_2M <=? stop - addr)
                then r <- vmap_large k kpm virt addr flags ;; ret (r =? 0)
                else ret false) ;;
      if large : bool then map_entry k n' (addr + PAGE_SIZE_2M) stop
      else
        vmap kpm virt addr flags ;;;
        map_entry k n' (addr + PAGE_SIZE) stop
  end.

Fixpoint map_entries (k : kernel_image) (es : list limine_memmap_entry) : K unit :=
  match es with
  | [] => ret tt
  | e :: es' =>
      (if (e_base e =? 0) || (e_length e =? 0) then ret tt else
       let base := ALIGN_DOWN (e_base e) PAGE_SIZE in
       let stop := ALIGN_UP (w64 (e_base e + e_length e)) PAGE_SIZE in
       map_entry k (iters base stop PAGE_SIZE) base stop) ;;;
      map_entries k es'
  end.

Definition paging_init (k : kernel_image) : K unit :=
  kpm <- fa_palloc 1 true ;;
  modify (set_kernel_pagemap kpm) ;;;
  if (kpm =? NULL) || negb (IS_PAGE_ALIGNED kpm) then kpanic else
  memset_at kpm 0 PAGE_SIZE ;;;
  hh <- gets hhdm_offset ;;
  let in_image addr := w64 (w64 (addr - kvirt k) + kphys k) in
  let stack_top := ALIGN_UP (kstack_top k) PAGE_SIZE in
  map_range (w64 (stack_top - 16 * 1024)) stack_top (PHYSICAL hh)
    (Z.lor VMM_PRESENT (Z.lor VMM_WRITE VMM_NX)) ;;;
  map_range (ALIGN_DOWN (fst (limine_requests k)) PAGE_SIZE)
    (ALIGN_UP (snd (limine_requests k)) PAGE_SIZE) in_image
    (Z.lor VMM_PRESENT VMM_WRITE) ;;;
  map_range (ALIGN_DOWN (fst (text k)) PAGE_SIZE) (ALIGN_UP (snd (text k)) PAGE_SIZE)
    in_image VMM_PRESENT ;;;
  map_range (ALIGN_DOWN (fst (rodata k)) PAGE_SIZE) (ALIGN_UP (snd (rodata k)) PAGE_SIZE)
    in_image (Z.lor VMM_PRESENT VMM_NX) ;;;
  map_range (ALIGN_DOWN (fst (data k)) PAGE_SIZE) (ALIGN_UP (snd (data k)) PAGE_SIZE)
    in_image (Z.lor VMM_PRESENT (Z.lor VMM_WRITE VMM_NX)) ;;;
  for_loop (iters 0 0x100000000 PAGE_SIZE) 0 PAGE_SIZE (fun gb4 =>
    kpm <- gets (fun s => kernel_pagemap (paging s)) ;;
    vmap kpm (HIGHER_HALF hh gb4) gb4 (Z.lor VMM_PRESENT VMM_WRITE) ;;; ret tt) ;;;
  es <- gets memmap ;;
  map_entries k es ;;;
  kpm <- gets (fun s => kernel_pagemap (paging s)) ;;
  pmset kpm.
End Paging.
