(* ===== verification/PagingFacts.v ===== *)
(** * Page tables as a tree

    [walk] names a table by the path of indices that leads to it; [pt_ok] says
    that the tables of a page map are a tree of frames owned by the page map's
    clients.  [lookup] is what the processor finds for an address. *)

From S2P Require Export Paging.

(** ** Bits of an entry *)

Lemma has_lor x y f : has (Z.lor x y) f = has x f || has y f.
Proof.
  unfold has. rewrite Z.land_lor_distr_l.
  destruct (Z.eqb_spec (Z.land x f) 0) as [->|Hx]; cbn; [done|].
  destruct (Z.eqb_spec (Z.lor (Z.land x f) (Z.land y f)) 0) as [He|]; [|done].
  apply Z.lor_eq_0_iff in He as [? _]. done.
Qed.

Lemma has_present x : has x VMM_PRESENT = Z.testbit x 0.
Proof.
  unfold has, VMM_PRESENT. change 1 with (Z.shiftl 1 0). by apply land_bit.
Qed.

Lemma land_page_mask x : Z.land x PAGE_MASK = x / PAGE_SIZE mod 2 ^ 40 * PAGE_SIZE.
Proof.
  unfold PAGE_SIZE. change PAGE_MASK with (Z.shiftl (Z.ones 40) 12).
  change 4096 with (2 ^ 12).
  rewrite <- Z.land_ones, <- Z.shiftr_div_pow2, <- Z.shiftl_mul_pow2 by lia.
  apply Z.bits_inj'. intros i Hi. rewrite Z.land_spec, !Z.shiftl_spec by done.
  rewrite Z.land_spec. destruct (Z.ltb_spec i 12).
  - rewrite (Z.testbit_neg_r (Z.ones 40)) by lia. by rewrite !andb_false_r.
  - rewrite Z.shiftr_spec by lia. do 2 f_equal. lia.
Qed.

Lemma land_page_mask_small y : 0 <= y < PAGE_SIZE -> Z.land y PAGE_MASK = 0.
Proof. intros H. rewrite land_page_mask, Z.div_small by done. done. Qed.

Lemma land_page_mask_frame f :
  0 <= f -> f * PAGE_SIZE < 2 ^ 52 -> Z.land (f * PAGE_SIZE) PAGE_MASK = f * PAGE_SIZE.
Proof.
  intros H0 H1. rewrite land_page_mask. unfold PAGE_SIZE in *.
  rewrite Z.div_mul by lia. rewrite Z.mod_small by lia. done.
Qed.

Lemma land_flags_range flags : 0 <= Z.land flags 0xFF < 256.
Proof. change 0xFF with (Z.ones 8). rewrite Z.land_ones by lia. apply Z.mod_pos_bound. lia. Qed.

Lemma lor_range64 x y : 0 <= x < 2 ^ 64 -> 0 <= y < 2 ^ 64 -> 0 <= Z.lor x y < 2 ^ 64.
Proof.
  intros Hx Hy. assert (H0 : 0 <= Z.lor x y) by (apply Z.lor_nonneg; lia).
  split; [done|]. destruct (decide (Z.lor x y = 0)) as [->|Hn]; [lia|].
  apply Z.log2_lt_pow2; [lia|]. rewrite Z.log2_lor by lia.
  destruct (decide (x = 0)) as [->|], (decide (y = 0)) as [->|].
  - done.
  - rewrite Z.max_r by apply Z.log2_nonneg. apply Z.log2_lt_pow2; lia.
  - rewrite Z.max_l by apply Z.log2_nonneg. apply Z.log2_lt_pow2; lia.
  - apply Z.max_lub_lt; apply Z.log2_lt_pow2; lia.
Qed.

(** ** Virtual addresses *)

(** The page number: bits 12 to 47. *)
Definition page_of (virt : Z) : Z := virt / PAGE_SIZE mod 2 ^ 36.

Definition idx (i : Z) : Prop := 0 <= i < 512.

Definition table_path (virt : Z) : list Z :=
  [page_index virt PML4_SHIFT; page_index virt PML3_SHIFT; page_index virt PML2_SHIFT].

Lemma page_index_eq virt k :
  0 <= k -> page_index virt k = virt / 2 ^ k mod 512.
Proof.
  intros Hk. unfold page_index. change PAGE_INDEX_MASK with (Z.ones 9).
  rewrite Z.land_ones, Z.shiftr_div_pow2 by lia. done.
Qed.

Lemma page_index_idx virt k : 0 <= k -> idx (page_index virt k).
Proof. intros Hk. rewrite page_index_eq by done. apply Z.mod_pos_bound. lia. Qed.

Lemma page_of_indices virt :
  page_of virt = page_index virt PML4_SHIFT * 2 ^ 27 + page_index virt PML3_SHIFT * 2 ^ 18
    + page_index virt PML2_SHIFT * 2 ^ 9 + page_index virt PML1_SHIFT.
Proof.
  rewrite !page_index_eq by (unfold PML4_SHIFT, PML3_SHIFT, PML2_SHIFT, PML1_SHIFT; lia).
  unfold page_of, PAGE_SIZE, PML4_SHIFT, PML3_SHIFT, PML2_SHIFT, PML1_SHIFT.
  set (x := virt / 4096).
  assert (H1 : virt / 2 ^ 12 = x) by done.
  assert (H2 : virt / 2 ^ 21 = x / 512) by (unfold x; rewrite Z.div_div by lia; done).
  assert (H3 : virt / 2 ^ 30 = x / 512 / 512) by (unfold x; rewrite !Z.div_div by lia; done).
  assert (H4 : virt / 2 ^ 39 = x / 512 / 512 / 512)
    by (unfold x; rewrite !Z.div_div by lia; done).
  rewrite H1, H2, H3, H4. clearbody x. clear.
  pose proof (Z.div_mod x 512 ltac:(lia)). set (x1 := x / 512) in *.
  pose proof (Z.div_mod x1 512 ltac:(lia)). set (x2 := x1 / 512) in *.
  pose proof (Z.div_mod x2 512 ltac:(lia)). set (x3 := x2 / 512) in *.
  pose proof (Z.div_mod x3 512 ltac:(lia)).
  pose proof (Z.mod_pos_bound x 512). pose proof (Z.mod_pos_bound x1 512).
  pose proof (Z.mod_pos_bound x2 512). pose proof (Z.mod_pos_bound x3 512).
  symmetry. apply Z.mod_unique with (x3 / 512); lia.
Qed.

Lemma page_of_eq v v' :
  table_path v = table_path v' -> page_index v PML1_SHIFT = page_index v' PML1_SHIFT ->
  page_of v = page_of v'.
Proof. intros [= H1 H2 H3] H4. rewrite !page_of_indices, H1, H2, H3, H4. done. Qed.

Lemma page_of_inv v v' :
  page_of v = page_of v' ->
  table_path v = table_path v' /\ page_index v PML1_SHIFT = page_index v' PML1_SHIFT.
Proof.
  rewrite !page_of_indices. unfold table_path.
  pose proof (page_index_idx v PML4_SHIFT ltac:(done)).
  pose proof (page_index_idx v PML3_SHIFT ltac:(done)).
  pose proof (page_index_idx v PML2_SHIFT ltac:(done)).
  pose proof (page_index_idx v PML1_SHIFT ltac:(done)).
  pose proof (page_index_idx v' PML4_SHIFT ltac:(done)).
  pose proof (page_index_idx v' PML3_SHIFT ltac:(done)).
  pose proof (page_index_idx v' PML2_SHIFT ltac:(done)).
  pose proof (page_index_idx v' PML1_SHIFT ltac:(done)).
  unfold idx in *. intros He.
  assert (E4 : page_index v PML4_SHIFT = page_index v' PML4_SHIFT) by lia.
  rewrite E4 in *. assert (E3 : page_index v PML3_SHIFT = page_index v' PML3_SHIFT) by lia.
  rewrite E3 in *. assert (E2 : page_index v PML2_SHIFT = page_index v' PML2_SHIFT) by lia.
  rewrite E2 in *. split; [done|lia].
Qed.

(** ** Walks *)

Definition entry (s : machine) (t i : Z) : Z := load64 (mem s) (t + 8 * i).

Fixpoint walk (s : machine) (t : Z) (path : list Z) : option Z :=
  match path with
  | [] => Some t
  | i :: p =>
      let t' := get_table s t i in
      if t' =? NULL then None else walk s t' p
  end.

(** The entry that maps an address, when it is present. *)
Definition lookup (s : machine) (root virt : Z) : option Z :=
  match walk s root (table_path virt) with
  | Some t =>
      let e := entry s t (page_index virt PML1_SHIFT) in
      if has e VMM_PRESENT then Some e else None
  | None => None
  end.

Definition is_path (p : list Z) : Prop := (length p <= 3)%nat /\ Forall idx p.

Lemma table_path_is_path virt : is_path (table_path virt).
Proof.
  split; [cbn; lia|]. unfold table_path.
  rewrite !Forall_cons. split_and!; try (by apply page_index_idx). by apply Forall_nil.
Qed.

Lemma is_path_prefix p q : is_path (p ++ q) -> is_path p.
Proof. intros [H1 [H2 _]%Forall_app]. rewrite length_app in H1. split; [lia|done]. Qed.

Lemma prefix_is_path p q : p `prefix_of` q -> is_path q -> is_path p.
Proof. intros [r ->]. apply is_path_prefix. Qed.

Lemma virt_to_phys_lookup s root virt :
  root <> NULL ->
  virt_to_phys s root virt =
    match lookup s root virt with Some e => Z.land e PAGE_MASK | None => 0 end.
Proof.
  intros Hr. unfold virt_to_phys, lookup, table_path, entry. cbn [walk].
  destruct (Z.eqb_spec root NULL); [done|].
  set (p3 := get_table s root _). destruct (Z.eqb_spec p3 NULL); [done|].
  set (p2 := get_table s p3 _). destruct (Z.eqb_spec p2 NULL); [done|].
  set (p1 := get_table s p2 _). destruct (Z.eqb_spec p1 NULL); [done|].
  by destruct (has _ VMM_PRESENT).
Qed.

Lemma lookup_page s root v v' : page_of v = page_of v' -> lookup s root v = lookup s root v'.
Proof. intros [H1 H2]%page_of_inv. unfold lookup. by rewrite H1, H2. Qed.

Lemma get_table_ext s s' t i :
  hhdm_offset s' = hhdm_offset s -> entry s' t i = entry s t i ->
  get_table s' t i = get_table s t i.
Proof. unfold get_table, entry. by intros -> ->. Qed.

(** A walk depends only on the entries it goes through. *)
Lemma walk_ext s s' root p :
  (forall q t i r, p = q ++ i :: r -> walk s root q = Some t ->
     get_table s' t i = get_table s t i) ->
  walk s' root p = walk s root p.
Proof.
  revert root. induction p as [|i p IH]; intros root Hext; [done|]. cbn.
  rewrite (Hext [] root i p) by done.
  destruct (Z.eqb_spec (get_table s root i) NULL) as [|Hn]; [done|].
  apply IH. intros q t j r -> Hq. apply (Hext (i :: q) t j r); [done|]. cbn.
  by destruct (Z.eqb_spec (get_table s root i) NULL).
Qed.

Lemma walk_app s root p q :
  walk s root (p ++ q) = match walk s root p with Some t => walk s t q | None => None end.
Proof.
  revert root. induction p as [|i p IH]; intros root; [done|]. cbn.
  by destruct (Z.eqb_spec (get_table s root i) NULL).
Qed.

Lemma walk_snoc s root p i t :
  walk s root p = Some t -> get_table s t i <> NULL ->
  walk s root (p ++ [i]) = Some (get_table s t i).
Proof.
  intros Hp Hn. rewrite walk_app, Hp. cbn. by destruct (Z.eqb_spec (get_table s t i) NULL).
Qed.

Lemma walk_prefix s root p q u :
  walk s root (p ++ q) = Some u -> exists t, walk s root p = Some t /\ walk s t q = Some u.
Proof. rewrite walk_app. destruct (walk s root p) as [t|]; [eauto|done]. Qed.

Section Tree.
Context {FA : FrameAlloc} {FL : FrameAllocLaws}.

(** The higher-half address of a frame, and the addresses of clients' frames. *)
Definition page_at (s : machine) (f : Z) : Z := hhdm_offset s + f * PAGE_SIZE.

Definition client_page (s : machine) (t : Z) : Prop :=
  exists f, fa_owned s f /\ t = page_at s f.

Record pt_ok (s : machine) (root : Z) : Prop := PtOk {
  pt_client : forall p t, is_path p -> walk s root p = Some t -> client_page s t;
  pt_tree : forall p q t, is_path p -> is_path q ->
      walk s root p = Some t -> walk s root q = Some t -> p = q }.

Definition write_entry (t i v : Z) (s : machine) : machine :=
  set_mem (store64 (mem s) (t + 8 * i) v) s.

Lemma client_page_bounds s t :
  fa_inv s -> client_page s t ->
  hhdm_offset s <= t /\ t mod PAGE_SIZE = 0 /\ t + PAGE_SIZE <= 2 ^ 64 /\ 0 < t.
Proof.
  intros Hi (f & Hf & ->). destruct (fa_hhdm s Hi) as [Hh Hm].
  destruct (fa_bounds s f Hi Hf) as (H1 & H2 & H3 & H4). unfold page_at.
  split; [unfold PAGE_SIZE in *; lia|]. split; [|unfold PAGE_SIZE in *; lia].
  rewrite Z.mod_add by (unfold PAGE_SIZE; lia). done.
Qed.

Lemma client_page_disjoint s t u a :
  client_page s t -> client_page s u -> in_range t PAGE_SIZE a -> in_range u PAGE_SIZE a ->
  t = u.
Proof.
  intros (f & _ & ->) (g & _ & ->). unfold in_range, page_at, PAGE_SIZE. lia.
Qed.

Lemma client_page_apart s t u :
  client_page s t -> client_page s u -> t <> u -> t + PAGE_SIZE <= u \/ u + PAGE_SIZE <= t.
Proof.
  intros (f & _ & ->) (g & _ & ->) Hne. assert (f <> g) by congruence.
  unfold page_at, PAGE_SIZE. lia.
Qed.

Lemma in_entry t i a : idx i -> in_range (t + 8 * i) 8 a -> in_range t PAGE_SIZE a.
Proof. unfold idx, in_range, PAGE_SIZE. lia. Qed.

(** A write into a client's page is the client's business. *)
Lemma client_write s t m :
  fa_inv s -> client_page s t -> agree_outside (in_range t PAGE_SIZE) (mem s) m ->
  fa_inv (set_mem m s) /\ forall f, fa_owned (set_mem m s) f <-> fa_owned s f.
Proof.
  intros Hi (f & Hf & ->) Ha. apply (fa_client s); [done..|].
  intros a _ Hne. exists f. split; [done|].
  destruct (decide (hhdm_offset s + f * PAGE_SIZE <= a < hhdm_offset s + f * PAGE_SIZE + PAGE_SIZE))
    as [Hin|Hout]; [exact Hin|]. exfalso. apply Hne. by apply Ha.
Qed.

Lemma write_entry_ok s t i v :
  fa_inv s -> client_page s t -> idx i ->
  fa_inv (write_entry t i v s) /\ forall f, fa_owned (write_entry t i v s) f <-> fa_owned s f.
Proof.
  intros Hi Ht Hx. apply (client_write s t); [done..|].
  eapply agree_outside_weaken; [|apply store64_agree]. intros a. by apply in_entry.
Qed.

Lemma entry_write_eq t i v s :
  0 <= v < 2 ^ 64 -> entry (write_entry t i v s) t i = v.
Proof. intros Hv. unfold entry, write_entry. cbn. by apply load64_store64_id. Qed.

Lemma entry_write_ne s t i v u j :
  client_page s t -> client_page s u -> idx i -> idx j -> (u, j) <> (t, i) ->
  entry (write_entry t i v s) u j = entry s u j.
Proof.
  intros Ht Hu Hi Hj Hne. unfold entry, write_entry. cbn. apply load64_store64_ne.
  destruct (decide (u = t)) as [->|Hut].
  - assert (i <> j) by congruence. lia.
  - destruct Ht as (f & _ & ->), Hu as (g & _ & ->). unfold page_at, idx, PAGE_SIZE in *.
    assert (f <> g) by congruence. lia.
Qed.

Definition not_table (s : machine) (root u : Z) : Prop :=
  forall p, is_path p -> walk s root p <> Some u.

(** Present entries of the upper tables lead to tables. *)
Definition linked (s : machine) (root : Z) : Prop :=
  forall p t i, is_path (p ++ [i]) -> walk s root p = Some t -> has (entry s t i) VMM_PRESENT = true ->
    walk s root (p ++ [i]) <> None.

(** The same tables with the same entries. *)
Lemma linked_same s s' root :
  (forall p, is_path p -> walk s' root p = walk s root p) ->
  (forall p t i, is_path (p ++ [i]) -> walk s root p = Some t -> entry s' t i = entry s t i) ->
  linked s root -> linked s' root.
Proof.
  intros Hw He Hl p t i Hp Ht. pose proof (is_path_prefix _ _ Hp) as Hp'.
  rewrite Hw in Ht by done. rewrite Hw by done. rewrite (He p t i) by done. by apply Hl.
Qed.

Lemma is_path_snoc_lt p i : is_path p -> (length p < 3)%nat -> idx i -> is_path (p ++ [i]).
Proof.
  intros [_ Hp] Hl Hi. split; [rewrite length_app; cbn; lia|]. apply Forall_app. by rewrite Forall_singleton.
Qed.

Lemma is_path_snoc p i : is_path (p ++ [i]) -> idx i.
Proof. intros [_ H]. apply Forall_app in H as [_ H]. by apply Forall_cons in H as [? _]. Qed.

(** ** Growing the tree

    What happens below a page map while [vmap] looks for the last table: no
    translation changes, no walk is lost, and of the pages [own] none that was
    not a table becomes one or has a byte changed. *)
Record grows (own : Z -> Prop) (tp : list Z) (root : Z) (s s' : machine) : Prop := Grows {
  gr_inv : fa_inv s';
  gr_ok : pt_ok s' root;
  gr_others : others s' = others s;
  gr_owned : forall f, fa_owned s f -> fa_owned s' f;
  gr_walk : forall p t, is_path p -> walk s root p = Some t -> walk s' root p = Some t;
  gr_leaf : forall p t j, is_path p -> length p = 3%nat -> walk s root p = Some t -> idx j ->
      entry s' t j = entry s t j;
  gr_new : forall p t j, is_path p -> length p = 3%nat -> walk s root p = None ->
      walk s' root p = Some t -> idx j -> has (entry s' t j) VMM_PRESENT = false;
  gr_kept : forall u, own u -> (forall p, p `prefix_of` tp -> walk s root p <> Some u) ->
      (forall p, p `prefix_of` tp -> walk s' root p <> Some u) /\
      forall a, in_range u PAGE_SIZE a -> load8 (mem s') a = load8 (mem s) a;
  gr_tables : forall u, own u -> not_table s root u -> not_table s' root u;
  gr_low : forall a, a < hhdm_offset s -> load8 (mem s') a = load8 (mem s) a;
  gr_full : fa_full s -> fa_full s';
  gr_linked : linked s root -> linked s' root }.

Lemma grows_refl own tp root s : fa_inv s -> pt_ok s root -> grows own tp root s s.
Proof.
  intros Hi Hok. split; try done. congruence.
Qed.

Lemma grows_trans own tp root s s1 s2 :
  grows own tp root s s1 -> grows own tp root s1 s2 -> grows own tp root s s2.
Proof.
  intros H1 H2. pose proof (others_hhdm _ _ (gr_others _ _ _ _ _ H1)) as Hh.
  split.
  - apply H2.
  - apply H2.
  - rewrite (gr_others _ _ _ _ _ H2). apply H1.
  - intros f Hf. by apply (gr_owned _ _ _ _ _ H2), (gr_owned _ _ _ _ _ H1).
  - intros p t Hp Ht. by apply (gr_walk _ _ _ _ _ H2), (gr_walk _ _ _ _ _ H1).
  - intros p t j Hp Hl Ht Hj.
    rewrite (gr_leaf _ _ _ _ _ H2 p), (gr_leaf _ _ _ _ _ H1 p); try done.
    by apply (gr_walk _ _ _ _ _ H1).
  - intros p t j Hp Hl Hn Ht Hj. destruct (walk s1 root p) as [u|] eqn:Hu.
    + pose proof (gr_walk _ _ _ _ _ H2 p u Hp Hu) as Hu'. assert (t = u) as -> by congruence.
      rewrite (gr_leaf _ _ _ _ _ H2 p) by done. by apply (gr_new _ _ _ _ _ H1 p).
    + by apply (gr_new _ _ _ _ _ H2 p).
  - intros u Hu Hn. destruct (gr_kept _ _ _ _ _ H1 u Hu Hn) as [Hn1 Hb1].
    destruct (gr_kept _ _ _ _ _ H2 u Hu Hn1) as [Hn2 Hb2]. split; [done|].
    intros a Ha. by rewrite Hb2, Hb1.
  - intros u Hu Hn. by apply (gr_tables _ _ _ _ _ H2), (gr_tables _ _ _ _ _ H1).
  - intros a Ha. rewrite (gr_low _ _ _ _ _ H2), (gr_low _ _ _ _ _ H1) by (done || lia). done.
  - intros Hf. by apply (gr_full _ _ _ _ _ H2), (gr_full _ _ _ _ _ H1).
  - intros Hn. by apply (gr_linked _ _ _ _ _ H2), (gr_linked _ _ _ _ _ H1).
Qed.

(** *** Frames spent

    A new table costs one frame.  For any list of paths that contains those below which
    [vmap] may link a table, frames that are left and tables that are there never get
    fewer together. *)
Definition has_paths (tp : list Z) (P : list (list Z)) : Prop :=
  NoDup P /\ Forall is_path P /\ forall p, p <> [] -> p `prefix_of` tp -> p ∈ P.

Definition tables_in (P : list (list Z)) (root : Z) (s : machine) : Z :=
  Z.of_nat (length (filter (fun p => is_Some (walk s root p)) P)).

Definition counted (tp : list Z) (root : Z) (s s' : machine) : Prop :=
  forall P, has_paths tp P -> fa_free s + tables_in P root s <= fa_free s' + tables_in P root s'.

Lemma tables_in_bounds P root s : 0 <= tables_in P root s <= Z.of_nat (length P).
Proof. unfold tables_in. pose proof (length_filter (fun p => is_Some (walk s root p)) P). lia. Qed.

Lemma tables_in_mono P root s s' :
  Forall is_path P -> (forall p t, is_path p -> walk s root p = Some t -> walk s' root p = Some t) ->
  tables_in P root s <= tables_in P root s'.
Proof.
  intros HP Hw. unfold tables_in. induction HP as [|p P Hp _ IH]; [done|].
  rewrite !filter_cons. destruct (decide (is_Some (walk s root p))) as [[t Ht]|_].
  - rewrite decide_True by (exists t; by apply Hw). cbn. lia.
  - destruct (decide _); cbn; lia.
Qed.

Lemma tables_in_new P root s s' q :
  NoDup P -> Forall is_path P -> (forall p t, is_path p -> walk s root p = Some t -> walk s' root p = Some t) ->
  q ∈ P -> walk s root q = None -> is_Some (walk s' root q) -> tables_in P root s + 1 <= tables_in P root s'.
Proof.
  intros Hnd HP Hw Hq Hn Hs. apply list_elem_of_split in Hq as (l & r & ->).
  apply Forall_app in HP as [Hl [_ Hr]%Forall_cons].
  pose proof (tables_in_mono l root s s' Hl Hw) as H1. pose proof (tables_in_mono r root s s' Hr Hw) as H2.
  unfold tables_in in *. rewrite !filter_app, !filter_cons, !length_app.
  rewrite (decide_True _ _ Hs), Hn, decide_False by by intros []. cbn. lia.
Qed.

Lemma counted_refl tp root s : counted tp root s s.
Proof. intros P _. lia. Qed.

Lemma counted_trans tp root s s1 s2 :
  counted tp root s s1 -> counted tp root s1 s2 -> counted tp root s s2.
Proof. intros H1 H2 P HP. specialize (H1 P HP). specialize (H2 P HP). lia. Qed.

Lemma counted_same tp root s s' :
  fa_free s' = fa_free s -> (forall p, is_path p -> walk s' root p = walk s root p) -> counted tp root s s'.
Proof.
  intros Hf Hw P (_ & HP & _). rewrite Hf.
  pose proof (tables_in_mono P root s s' HP) as Hm. enough (tables_in P root s <= tables_in P root s') by lia.
  apply Hm. intros p t Hp. by rewrite Hw.
Qed.

Lemma counted_new own tp root s s' q :
  grows own tp root s s' -> fa_free s' = fa_free s - 1 -> q <> [] -> q `prefix_of` tp ->
  walk s root q = None -> is_Some (walk s' root q) -> counted tp root s s'.
Proof.
  intros Hg Hf Hq0 Hq Hn Hs P (Hnd & HP & Hin). rewrite Hf.
  pose proof (tables_in_new P root s s' q Hnd HP (gr_walk _ _ _ _ _ Hg) (Hin q Hq0 Hq) Hn Hs). lia.
Qed.

(** Three frames are enough for one page. *)
Definition prefixes_of (tp : list Z) : list (list Z) := (fun n => take (S n) tp) <$> seq 0 (length tp).

Lemma prefixes_cover tp : is_path tp -> has_paths tp (prefixes_of tp).
Proof.
  intros Htp. split_and!.
  - apply NoDup_fmap_2_strong; [|apply NoDup_seq]. intros i j Hi%elem_of_seq Hj%elem_of_seq He%(f_equal length).
    rewrite !length_take in He. lia.
  - apply Forall_forall. intros p (n & -> & _)%list_elem_of_fmap. apply (prefix_is_path _ tp); [|done].
    exists (drop (S n) tp). by rewrite take_drop.
  - intros p Hp [r ->]. apply list_elem_of_fmap. exists (length p - 1)%nat.
    destruct p as [|x p]; [done|]. split; [|apply elem_of_seq; rewrite length_app; cbn; lia].
    replace (S (length (x :: p) - 1)) with (length (x :: p)) by (cbn; lia). by rewrite take_app_length.
Qed.

Lemma counted_page tp root s s' : is_path tp -> counted tp root s s' -> fa_free s <= fa_free s' + 3.
Proof.
  intros Htp Hc. specialize (Hc _ (prefixes_cover tp Htp)). destruct Htp as [Hl _].
  assert (length (prefixes_of tp) = length tp) by (unfold prefixes_of; by rewrite length_fmap, length_seq).
  pose proof (tables_in_bounds (prefixes_of tp) root s). pose proof (tables_in_bounds (prefixes_of tp) root s'). lia.
Qed.

(** Growing changes no translation. *)
Lemma grows_lookup own tp root s s' virt :
  grows own tp root s s' -> lookup s' root virt = lookup s root virt.
Proof.
  intros Hg. unfold lookup. pose proof (table_path_is_path virt) as Hp.
  pose proof (page_index_idx virt PML1_SHIFT ltac:(done)) as Hj.
  destruct (walk s root (table_path virt)) as [t|] eqn:Ht.
  - rewrite (gr_walk _ _ _ _ _ Hg _ t) by done. by rewrite (gr_leaf _ _ _ _ _ Hg (table_path virt)).
  - destruct (walk s' root (table_path virt)) as [t|] eqn:Ht'; [|done].
    by rewrite (gr_new _ _ _ _ _ Hg (table_path virt) t).
Qed.

Lemma client_page_mono s s' u :
  hhdm_offset s' = hhdm_offset s -> (forall f, fa_owned s f -> fa_owned s' f) ->
  client_page s u -> client_page s' u.
Proof. intros Hh Ho (f & Hf & ->). exists f. unfold page_at. rewrite Hh. auto. Qed.

(** The same walks make the same tree. *)
Lemma pt_ok_same s s' root :
  pt_ok s root -> hhdm_offset s' = hhdm_offset s ->
  (forall f, fa_owned s f -> fa_owned s' f) ->
  (forall p, is_path p -> walk s' root p = walk s root p) -> pt_ok s' root.
Proof.
  intros [Hc Ht] Hh Ho Hw. split.
  - intros p t Hp. rewrite Hw by done. intros Hpt. eapply client_page_mono; eauto.
  - intros p q t Hp Hq. rewrite !Hw by done. by apply Ht.
Qed.

Lemma entry_kept s s' t i :
  (forall a, in_range t PAGE_SIZE a -> load8 (mem s') a = load8 (mem s) a) -> idx i ->
  entry s' t i = entry s t i.
Proof.
  intros Hk Hi. apply load64_ext. intros x Hx. apply Hk. apply (in_entry t i); [done|].
  unfold in_range. lia.
Qed.

(** Whoever leaves the clients' pages alone leaves the tree alone. *)
Lemma walk_kept s s' root p :
  pt_ok s root -> hhdm_offset s' = hhdm_offset s ->
  (forall u a, client_page s u -> in_range u PAGE_SIZE a -> load8 (mem s') a = load8 (mem s) a) ->
  is_path p -> walk s' root p = walk s root p.
Proof.
  intros Hok Hh Hk Hp. apply walk_ext. intros q t i r -> Hq.
  apply get_table_ext; [done|].
  assert (Hpq : is_path q) by (by apply is_path_prefix in Hp).
  apply entry_kept.
  - intros a. apply Hk. by apply (pt_client s root Hok q).
  - destruct Hp as [_ Hf]. apply Forall_app in Hf as [_ Hf]. by apply Forall_cons in Hf as [? _].
Qed.

Lemma grows_keep own tp root s s' :
  pt_ok s root -> is_path tp -> fa_inv s' -> others s' = others s ->
  (forall f, fa_owned s f -> fa_owned s' f) ->
  (forall u, own u -> client_page s u) ->
  (forall u a, client_page s u -> in_range u PAGE_SIZE a -> load8 (mem s') a = load8 (mem s) a) ->
  (forall a, a < hhdm_offset s -> load8 (mem s') a = load8 (mem s) a) ->
  (fa_full s -> fa_full s') -> grows own tp root s s'.
Proof.
  intros Hok Htp Hi Ho Hw Hown Hk Hl Hfull. pose proof (others_hhdm _ _ Ho) as Hh.
  assert (Hwk : forall p, is_path p -> walk s' root p = walk s root p)
    by (intros p Hp; by apply walk_kept).
  split; try done.
  - by apply (pt_ok_same s).
  - intros p t Hp Ht. by rewrite Hwk.
  - intros p t j Hp _ Ht Hj. apply entry_kept; [|done]. intros a. apply Hk.
    by apply (pt_client s root Hok p).
  - intros p t j Hp _ Hn Ht. rewrite Hwk in Ht by done. congruence.
  - intros u Hu Hn. split.
    + intros p Hp. rewrite Hwk by (by apply (prefix_is_path p tp)). by apply Hn.
    + intros a. apply Hk. by apply Hown.
  - intros u _ Hn p Hp. rewrite Hwk by done. by apply Hn.
  - apply linked_same; [exact Hwk|]. intros p t i Hp Ht. apply entry_kept; [|by apply (is_path_snoc p)].
    intros a. apply Hk. apply (pt_client s root Hok p); [by apply (is_path_prefix p [i])|done].
Qed.

(** ** Writing one entry of a table *)

Section Write.
Context (s : machine) (root : Z) (p : list Z) (t i v : Z).
Hypothesis (Hinv : fa_inv s) (Hok : pt_ok s root) (Hp : is_path p)
  (Ht : walk s root p = Some t) (Hi : idx i) (Hv : 0 <= v < 2 ^ 64).

Let s' := write_entry t i v s.

Lemma write_client : client_page s t.
Proof. by apply (pt_client s root Hok p). Qed.

Lemma write_entry_other q u j :
  is_path q -> walk s root q = Some u -> idx j -> (q, j) <> (p, i) ->
  entry s' u j = entry s u j.
Proof.
  intros Hq Hu Hj Hne. apply entry_write_ne; try done.
  - apply write_client.
  - by apply (pt_client s root Hok q).
  - intros [= -> ->]. apply Hne. f_equal. by apply (pt_tree s root Hok q p t).
Qed.

Lemma walk_write_other q :
  is_path q -> (forall r, q <> p ++ i :: r) -> walk s' root q = walk s root q.
Proof.
  intros Hq Hne. apply walk_ext. intros q' u j r -> Hu. apply get_table_ext; [done|].
  pose proof (is_path_prefix _ _ Hq) as Hq'.
  apply (write_entry_other q'); try done.
  - destruct Hq as [_ Hf]. apply Forall_app in Hf as [_ Hf]. by apply Forall_cons in Hf as [? _].
  - intros [= -> ->]. by apply (Hne r).
Qed.

Lemma walk_write_self : walk s' root p = Some t.
Proof.
  rewrite walk_write_other; [done..|]. intros r Hr. apply (f_equal length) in Hr.
  rewrite length_app in Hr. cbn in Hr. lia.
Qed.

(** A new value that leads to the same table changes no walk. *)
Lemma walk_write_flags q :
  get_table s' t i = get_table s t i -> is_path q -> walk s' root q = walk s root q.
Proof.
  intros Hg Hq. apply walk_ext. intros q' u j r -> Hu.
  destruct (decide ((q', j) = (p, i))) as [[= -> ->]|Hne].
  - congruence.
  - apply get_table_ext; [done|]. pose proof (is_path_prefix _ _ Hq) as Hq'.
    apply (write_entry_other q'); try done.
    destruct Hq as [_ Hf]. apply Forall_app in Hf as [_ Hf]. by apply Forall_cons in Hf as [? _].
Qed.

(** In a last-level table no walk goes through the entry. *)
Lemma walk_write_leaf q : length p = 3%nat -> is_path q -> walk s' root q = walk s root q.
Proof.
  intros Hl Hq. apply walk_write_other; [done|]. intros r ->. destruct Hq as [Hq _].
  rewrite length_app in Hq. cbn in Hq. lia.
Qed.

Lemma write_low a : a < hhdm_offset s -> load8 (mem s') a = load8 (mem s) a.
Proof.
  intros Ha. destruct (client_page_bounds s t Hinv write_client) as (H1 & _).
  unfold idx in Hi. unfold s', write_entry. cbn. apply load8_store64_out. lia.
Qed.

Lemma write_kept u a :
  client_page s u -> u <> t -> in_range u PAGE_SIZE a -> load8 (mem s') a = load8 (mem s) a.
Proof.
  intros Hu Hne Ha. unfold s', write_entry. cbn. apply load8_store64_out.
  destruct (decide (a < t + 8 * i \/ t + 8 * i + 8 <= a)) as [|Hin]; [done|].
  exfalso. apply Hne. apply (client_page_disjoint s u t a); [done|apply write_client|done|].
  apply (in_entry t i); [done|]. unfold in_range. lia.
Qed.

Lemma flag_grows own tp :
  is_path tp -> p `prefix_of` tp ->
  (length p < 3)%nat -> get_table s' t i = get_table s t i -> has (entry s t i) VMM_PRESENT = true ->
  (forall u, own u -> client_page s u) -> grows own tp root s s'.
Proof.
  intros Htp Hpre Hl Hg Hpr Hown.
  destruct (write_entry_ok s t i v Hinv write_client Hi) as [Hi' Ho'].
  assert (Hw : forall q, is_path q -> walk s' root q = walk s root q)
    by (intros q Hq; by apply walk_write_flags).
  split; try done.
  - apply (pt_ok_same s); try done. intros f. apply Ho'.
  - intros f. apply Ho'.
  - intros q u Hq Hu. by rewrite Hw.
  - intros q u j Hq Hl' Hu Hj. apply (write_entry_other q); try done.
    intros [= -> ->]. lia.
  - intros q u j Hq _ Hn Hu. rewrite Hw in Hu by done. congruence.
  - intros u Hu Hn.
    split; [intros q Hq; rewrite Hw by (by apply (prefix_is_path q tp)); by apply Hn|].
    intros a. apply write_kept; [by apply Hown|]. intros ->. by apply (Hn p).
  - intros u _ Hn q Hq. rewrite Hw by done. by apply Hn.
  - apply write_low.
  - by apply fa_full_same.
  - intros Hlk q u j Hq Hu He. pose proof (is_path_prefix _ _ Hq) as Hq'. rewrite Hw in Hu by done.
    rewrite Hw by done. destruct (decide ((q, j) = (p, i))) as [[= -> ->]|Hne].
    + by apply (Hlk p t i).
    + rewrite (write_entry_other q) in He; [by apply (Hlk q u j)|done|done|by apply (is_path_snoc q)|done].
Qed.

(** Linking a zeroed page [n] that is no table yet. *)
Lemma link_walk n q :
  get_table s t i = NULL -> get_table s' t i = n -> n <> NULL ->
  (forall j, idx j -> get_table s' n j = NULL) -> is_path q ->
  walk s' root q = if decide (q = p ++ [i]) then Some n else walk s root q.
Proof.
  intros Hg Hg' Hn Hz Hq. case_decide as Hd.
  - subst q. rewrite <- Hg'. apply walk_snoc; [apply walk_write_self|congruence].
  - destruct (decide (take (S (length p)) q = p ++ [i])) as [Htk|Htk].
    + rewrite <- (take_drop (S (length p)) q), Htk in Hq, Hd |- *.
      destruct (drop (S (length p)) q) as [|j r]; [by rewrite app_nil_r in Hd|].
      rewrite <- app_assoc. cbn [app]. rewrite !walk_app, walk_write_self, Ht. cbn.
      rewrite Hg, Hg'. cbn. destruct (Z.eqb_spec n NULL); [done|].
      rewrite Hz; [done|]. destruct Hq as [_ Hf]. rewrite <- app_assoc in Hf.
      apply Forall_app in Hf as [_ Hf]. apply Forall_app in Hf as [_ Hf].
      by apply Forall_cons in Hf as [? _].
    + apply walk_write_other; [done|]. intros r ->. apply Htk.
      rewrite take_app_ge by lia. by replace (S (length p) - length p)%nat with 1%nat by lia.
Qed.

Lemma link_grows own tp n :
  is_path tp -> p `prefix_of` tp ->
  (length p < 3)%nat ->
  get_table s t i = NULL -> get_table s' t i = n -> n <> NULL ->
  (forall j, idx j -> get_table s' n j = NULL) ->
  (forall j, idx j -> has (entry s' n j) VMM_PRESENT = false) ->
  client_page s n -> (forall q, is_path q -> walk s root q <> Some n) ->
  (forall u, own u -> client_page s u) -> ~ own n -> grows own tp root s s'.
Proof.
  intros Htp Hpre Hl Hg Hg' Hn Hz Hnp Hc Hfresh Hown Hno.
  destruct (write_entry_ok s t i v Hinv write_client Hi) as [Hi' Ho'].
  assert (Hw : forall q, is_path q ->
      walk s' root q = if decide (q = p ++ [i]) then Some n else walk s root q)
    by (intros q Hq; by apply (link_walk n q)).
  assert (Hnone : walk s root (p ++ [i]) = None) by (rewrite walk_app, Ht; cbn; by rewrite Hg).
  split; try done.
  - split.
    + intros q u Hq. rewrite Hw by done. case_decide as Hd.
      * intros [= <-]. apply (client_page_mono s); [done|intros f; apply Ho'|done].
      * intros Hu. apply (client_page_mono s); [done|intros f; apply Ho'|].
        by apply (pt_client s root Hok q).
    + intros q r u Hq Hr. rewrite !Hw by done. repeat case_decide; subst; try done.
      * intros [= <-] Hu. by apply Hfresh in Hu.
      * intros Hu [= <-]. by apply Hfresh in Hu.
      * by apply (pt_tree s root Hok).
  - intros f. apply Ho'.
  - intros q u Hq Hu. rewrite Hw by done. case_decide; [congruence|done].
  - intros q u j Hq Hl' Hu Hj. apply (write_entry_other q); try done.
    intros [= -> ->]. lia.
  - intros q u j Hq _ Hno' Hu Hj. rewrite Hw in Hu by done. case_decide; [|congruence].
    injection Hu as <-. by apply Hnp.
  - intros u Hu Hnt. split.
    + intros q Hq. rewrite Hw by (by apply (prefix_is_path q tp)).
      case_decide; [congruence|by apply Hnt].
    + intros a. apply write_kept; [by apply Hown|]. intros ->. by apply (Hnt p).
  - intros u Hu Hnt q Hq. rewrite Hw by done. case_decide; [congruence|by apply Hnt].
  - apply write_low.
  - by apply fa_full_same.
  - intros Hlk q u j Hq Hu He. pose proof (is_path_prefix _ _ Hq) as Hq'. rewrite Hw in Hu |- * by done.
    destruct (decide (q ++ [j] = p ++ [i])) as [|Hne]; [done|].
    destruct (decide (q = p ++ [i])) as [|Hqn].
    + injection Hu as <-. by rewrite (Hnp j) in He by by apply (is_path_snoc q).
    + rewrite (write_entry_other q) in He; [by apply (Hlk q u j)|done|done|by apply (is_path_snoc q)|].
      by intros [= -> ->].
Qed.

(** Writing the last-level entry of a page. *)
Lemma leaf_lookup virt virt' :
  p = table_path virt -> i = page_index virt PML1_SHIFT ->
  lookup s' root virt' =
    if decide (page_of virt' = page_of virt)
    then (if has v VMM_PRESENT then Some v else None) else lookup s root virt'.
Proof.
  intros Hpv Hiv. assert (Hl : length p = 3%nat) by (by rewrite Hpv).
  pose proof (table_path_is_path virt') as Hp'. unfold lookup.
  rewrite walk_write_leaf by done. case_decide as Hd.
  - apply page_of_inv in Hd as [-> ->]. rewrite <- Hpv, <- Hiv, Ht.
    unfold s'. by rewrite entry_write_eq by done.
  - destruct (walk s root (table_path virt')) as [u|] eqn:Hu; [|done].
    rewrite (write_entry_other (table_path virt')); try done; [by apply page_index_idx|].
    intros He. rewrite Hpv, Hiv in He.
    apply Hd, page_of_eq; [exact (f_equal fst He)|exact (f_equal snd He)].
Qed.

Lemma leaf_ok :
  length p = 3%nat ->
  fa_inv s' /\ pt_ok s' root /\ (forall f, fa_owned s' f <-> fa_owned s f).
Proof.
  intros Hl. destruct (write_entry_ok s t i v Hinv write_client Hi) as [Hi' Ho'].
  split; [done|]. split; [|done]. apply (pt_ok_same s); try done; [intros f; apply Ho'|].
  intros q Hq. by apply walk_write_leaf.
Qed.
End Write.

(** ** What [get_table] makes of an entry *)

Lemma get_table_absent s t i : has (entry s t i) VMM_PRESENT = false -> get_table s t i = NULL.
Proof. unfold get_table, entry. intros ->. by rewrite orb_true_r. Qed.

Lemma get_table_present s t i :
  t <> NULL -> has (entry s t i) VMM_PRESENT = true ->
  get_table s t i = HIGHER_HALF (hhdm_offset s) (Z.land (entry s t i) PAGE_MASK).
Proof.
  unfold get_table, entry. intros Ht ->. by destruct (Z.eqb_spec t NULL).
Qed.

Lemma flags_same_table s t i flags :
  t <> NULL -> has (entry s t i) VMM_PRESENT = true ->
  get_table (write_entry t i (Z.lor (entry s t i) (Z.land flags 0xFF)) s) t i = get_table s t i /\
  has (entry (write_entry t i (Z.lor (entry s t i) (Z.land flags 0xFF)) s) t i) VMM_PRESENT = true.
Proof.
  intros Ht Hp. pose proof (land_flags_range flags) as Hf.
  assert (He : entry (write_entry t i (Z.lor (entry s t i) (Z.land flags 0xFF)) s) t i
    = Z.lor (entry s t i) (Z.land flags 0xFF)).
  { apply entry_write_eq, lor_range64; [apply load64_range|lia]. }
  assert (Hpr : has (Z.lor (entry s t i) (Z.land flags 0xFF)) VMM_PRESENT = true)
    by (by rewrite has_lor, Hp).
  split; [|by rewrite He].
  rewrite !get_table_present; rewrite ?He; try done.
  rewrite Z.land_lor_distr_l, (land_page_mask_small (Z.land flags 0xFF)), Z.lor_0_r; [done|].
  unfold PAGE_SIZE. lia.
Qed.

Lemma page_at_inj s f g : page_at s f = page_at s g -> f = g.
Proof. unfold page_at, PAGE_SIZE. lia. Qed.

(** The entry that links frame [f] leads to its page. *)
Lemma link_entry s f :
  fa_inv s -> fa_owned s f ->
  has (Z.lor (PHYSICAL (hhdm_offset s) (page_at s f)) 7) VMM_PRESENT = true /\
  0 <= Z.lor (PHYSICAL (hhdm_offset s) (page_at s f)) 7 < 2 ^ 64 /\
  HIGHER_HALF (hhdm_offset s) (Z.land (Z.lor (PHYSICAL (hhdm_offset s) (page_at s f)) 7) PAGE_MASK)
    = page_at s f.
Proof.
  intros Hi Hf. destruct (fa_hhdm s Hi) as [Hh _].
  destruct (fa_bounds s f Hi Hf) as (H0 & H1 & H2 & H3). unfold page_at.
  rewrite physical_higher by (unfold PAGE_SIZE in *; lia).
  split; [|split].
  - rewrite has_lor. apply orb_true_iff. by right.
  - apply lor_range64; unfold PAGE_SIZE in *; lia.
  - rewrite Z.land_lor_distr_l, (land_page_mask_small 7), Z.lor_0_r by done.
    rewrite land_page_mask_frame by (unfold PAGE_SIZE in *; lia).
    rewrite higher_half_phys; unfold PAGE_SIZE in *; lia.
Qed.

(** [s1] comes out of the allocator with page [f]; zeroing it again. *)
Section Fresh.
Context (s s1 : machine) (f : Z).
Hypothesis (Hinv1 : fa_inv s1) (Hout : hands_out fa_owned s f s1).

Let n := page_at s f.
Let s2 := set_mem (memset (mem s1) n 0 PAGE_SIZE) s1.

Lemma fresh_hhdm : hhdm_offset s1 = hhdm_offset s.
Proof. apply others_hhdm, Hout. Qed.

Lemma fresh_client : client_page s1 n.
Proof.
  exists f. split; [apply (ho_owned _ _ _ _ Hout); by right|]. unfold page_at.
  by rewrite fresh_hhdm.
Qed.

Lemma fresh_not_client : ~ client_page s n.
Proof.
  intros (g & Hg & He). apply page_at_inj in He. subst g. by apply (ho_new _ _ _ _ Hout).
Qed.

Lemma fresh_inv : fa_inv s2 /\ forall g, fa_owned s2 g <-> fa_owned s1 g.
Proof. apply (client_write s1 n); [done|apply fresh_client|apply memset_agree]. Qed.

Lemma fresh_kept u a :
  client_page s u -> in_range u PAGE_SIZE a -> load8 (mem s2) a = load8 (mem s) a.
Proof.
  intros Hu Ha. unfold s2. cbn [mem set_mem]. rewrite (memset_agree (mem s1) n 0 PAGE_SIZE).
  - destruct Hu as (g & Hg & ->). by apply (ho_kept _ _ _ _ Hout g).
  - intros Hn. apply fresh_not_client. rewrite <- (client_page_disjoint s1 u n a); try done.
    + destruct Hu as (g & Hg & ->). exists g. unfold page_at. rewrite fresh_hhdm.
      split; [apply (ho_owned _ _ _ _ Hout); by left|done].
    + apply fresh_client.
Qed.

Lemma fresh_grows own tp root :
  ~ fa_full s -> pt_ok s root -> is_path tp -> (forall u, own u -> client_page s u) ->
  grows own tp root s s2.
Proof.
  intros Hnf Hok Htp Hown. destruct fresh_inv as [Hi2 Ho2]. apply grows_keep; try done.
  - apply Hout.
  - intros g Hg. apply Ho2, (ho_owned _ _ _ _ Hout). by left.
  - apply fresh_kept.
  - intros a Ha. unfold s2. cbn [mem set_mem].
    destruct (client_page_bounds s1 n Hinv1 fresh_client) as (Hb & _).
    rewrite fresh_hhdm in Hb.
    rewrite (memset_agree (mem s1) n 0 PAGE_SIZE) by (unfold in_range; lia).
    by apply (ho_low _ _ _ _ Hout).
Qed.

Lemma fresh_zero j : idx j -> entry s2 n j = 0.
Proof.
  intros Hj. unfold entry, s2. cbn [mem set_mem]. unfold idx in Hj.
  apply memset_zero_load64; unfold PAGE_SIZE; lia.
Qed.
End Fresh.

(** ** get_or_alloc_table *)

(** The tail of the function: or the flags in, read the pointer back. *)
Definition set_flags (t i flags : Z) : K Z :=
  entry <- read64 (t + 8 * i) ;;
  write64 (t + 8 * i) (Z.lor entry (Z.land flags 0xFF)) ;;;
  entry <- read64 (t + 8 * i) ;;
  gets (fun s => HIGHER_HALF (hhdm_offset s) (Z.land entry PAGE_MASK)).

Definition goa_post (own : Z -> Prop) (tp : list Z) (root : Z) (p : list Z) (i : Z) (s : machine)
    (r : Z) (s' : machine) : Prop :=
  (grows own tp root s s' /\ counted tp root s s') /\
  ((r = NULL /\ (linked s root -> fa_full s')) \/ walk s' root (p ++ [i]) = Some r).

Lemma set_flags_spec own tp root p t i flags s :
  fa_inv s -> pt_ok s root -> is_path tp -> p `prefix_of` tp ->
  is_path p -> (length p < 3)%nat -> walk s root p = Some t ->
  idx i -> (forall u, own u -> client_page s u) -> has (entry s t i) VMM_PRESENT = true ->
  wp (set_flags t i flags) (goa_post own tp root p i s) s.
Proof.
  intros Hinv Hok Htp Hpre Hp Hl Ht Hi Hown Hpr.
  assert (Hc : client_page s t) by (by apply (pt_client s root Hok p)).
  assert (Htn : t <> NULL) by (destruct (client_page_bounds s t Hinv Hc) as (_ & _ & _ & ?); lia).
  destruct (flags_same_table s t i flags Htn Hpr) as [Hg Hpr'].
  unfold set_flags, read64, write64. wp_steps.
  change (set_mem (store64 _ _ _) s)
    with (write_entry t i (Z.lor (entry s t i) (Z.land flags 0xFF)) s).
  set (v := Z.lor (entry s t i) (Z.land flags 0xFF)) in *.
  assert (Hv : 0 <= v < 2 ^ 64).
  { pose proof (land_flags_range flags). apply lor_range64; [apply load64_range|lia]. }
  set (s' := write_entry t i v s) in *.
  split; [split; [by apply (flag_grows s root p t i v)|]|].
  { apply counted_same; [by apply fa_free_same|]. intros q Hq. by apply (walk_write_flags s root p). }
  change (load64 (mem s') (t + 8 * i)) with (entry s' t i).
  rewrite <- get_table_present by done. destruct (decide (get_table s' t i = NULL)) as [Hn|Hn];
    [left|right].
  { split; [done|]. intros Hlk. exfalso. apply (Hlk p t i); try done.
    - apply (is_path_snoc_lt p i); done.
    - rewrite walk_app, Ht. cbn. rewrite <-Hg, Hn. done. }
  apply walk_snoc; [|done]. by apply (walk_write_self s root p).
Qed.

(** Linking the fresh page. *)
Lemma fresh_link own tp root p t i s s1 f :
  fa_inv s -> pt_ok s root -> is_path tp -> p ++ [i] `prefix_of` tp ->
  is_path p -> (length p < 3)%nat -> walk s root p = Some t ->
  idx i -> (forall u, own u -> client_page s u) -> has (entry s t i) VMM_PRESENT = false ->
  ~ fa_full s -> fa_free s1 = fa_free s - 1 -> fa_inv s1 -> hands_out fa_owned s f s1 ->
  let s2 := set_mem (memset (mem s1) (page_at s f) 0 PAGE_SIZE) s1 in
  let s3 := write_entry t i (Z.lor (PHYSICAL (hhdm_offset s2) (page_at s f)) 7) s2 in
  (grows own tp root s s3 /\ counted tp root s s3) /\
  walk s3 root p = Some t /\ has (entry s3 t i) VMM_PRESENT = true.
Proof.
  intros Hinv Hok Htp Hpre' Hp Hl Ht Hi Hown Hpr Hnf Hfree Hinv1 Hout s2 s3.
  assert (Hpre : p `prefix_of` tp) by (etrans; [by exists [i]|done]).
  pose proof (fresh_grows s s1 f Hinv1 Hout own tp root Hnf Hok Htp Hown) as Hg. fold s2 in Hg.
  pose proof (fresh_hhdm s s1 f Hout) as Hh1.
  destruct (fresh_inv s s1 f Hinv1 Hout) as [Hinv2 Ho2]. fold s2 in Hinv2, Ho2.
  assert (Hf2 : fa_owned s2 f) by (apply Ho2, (ho_owned _ _ _ _ Hout); by right).
  assert (Hn2 : page_at s2 f = page_at s f) by (unfold page_at; cbn; by rewrite Hh1).
  destruct (link_entry s2 f Hinv2 Hf2) as (Hvp & Hv & Hhh). rewrite Hn2 in Hvp, Hv, Hhh.
  assert (Ht2 : walk s2 root p = Some t) by (by apply (gr_walk _ _ _ _ _ Hg)).
  assert (Hok2 : pt_ok s2 root) by apply Hg.
  assert (Hc : client_page s t) by (by apply (pt_client s root Hok p)).
  assert (Hc2 : client_page s2 t) by (by apply (pt_client s2 root Hok2 p)).
  assert (Hcn2 : client_page s2 (page_at s f)) by (exists f; by rewrite Hn2).
  assert (Htn : t <> NULL) by (destruct (client_page_bounds s t Hinv Hc) as (_ & _ & _ & ?); lia).
  assert (Hnn : page_at s f <> NULL)
    by (destruct (client_page_bounds s2 _ Hinv2 Hcn2) as (_ & _ & _ & ?); lia).
  assert (Hntc : ~ client_page s (page_at s f)) by (by apply (fresh_not_client s s1)).
  assert (Hnt : page_at s f <> t) by (intros He; by rewrite He in Hntc).
  assert (He3 : entry s3 t i = Z.lor (PHYSICAL (hhdm_offset s2) (page_at s f)) 7)
    by (by apply entry_write_eq).
  assert (Hz : forall j, idx j -> has (entry s3 (page_at s f) j) VMM_PRESENT = false).
  { intros j Hj. unfold s3.
    rewrite (entry_write_ne s2 t i _ (page_at s f) j Hc2 Hcn2 Hi Hj)
      by (intros [= He _]; exact (Hnt He)).
    rewrite (fresh_zero s s1 f j Hj : entry s2 _ _ = _). reflexivity. }
  assert (Hg3 : grows own tp root s2 s3).
  { unfold s3. set (v := Z.lor _ 7) in *.
    apply (link_grows s2 root p t i v Hinv2 Hok2 Hp Ht2 Hi own tp (page_at s f)); try assumption; fold s3.
    - apply get_table_absent. rewrite <- Hpr. f_equal. apply entry_kept; [|done].
      intros a. exact (fresh_kept s s1 f Hout t a Hc).
    - rewrite (get_table_present s3 t i Htn) by (rewrite He3; exact Hvp).
      rewrite He3. exact Hhh.
    - intros j Hj. apply get_table_absent. exact (Hz j Hj).
    - intros q Hq. rewrite (walk_kept s s2 root q Hok Hh1 (fresh_kept s s1 f Hout) Hq).
      intros Hw. exact (Hntc (pt_client s root Hok q _ Hq Hw)).
    - intros u Hu. apply (client_page_mono s); [exact Hh1| |exact (Hown u Hu)].
      intros g. apply (gr_owned _ _ _ _ _ Hg).
    - intros Hu. exact (Hntc (Hown _ Hu)). }
  pose proof (grows_trans own tp root s s2 s3 Hg Hg3) as Hg'. split; [split; [exact Hg'|]|].
  { apply (counted_new own tp root s s3 (p ++ [i]) Hg'); [|by destruct p|done| |].
    - rewrite <-Hfree. by apply fa_free_same.
    - rewrite walk_app, Ht. cbn. by rewrite (get_table_absent s t i Hpr).
    - exists (get_table s3 t i). apply walk_snoc; [exact (gr_walk _ _ _ _ _ Hg3 p t Hp Ht2)|].
      rewrite (get_table_present s3 t i Htn) by (rewrite He3; exact Hvp). rewrite He3.
      intros He. apply Hnn. rewrite <-He. symmetry. exact Hhh. }
  split; [exact (gr_walk _ _ _ _ _ Hg3 p t Hp Ht2)|]. rewrite He3. exact Hvp.
Qed.

Lemma get_or_alloc_table_spec own tp root p t i flags s :
  fa_inv s -> pt_ok s root -> is_path tp -> p ++ [i] `prefix_of` tp ->
  is_path p -> (length p < 3)%nat -> walk s root p = Some t ->
  idx i -> (forall u, own u -> client_page s u) ->
  wp (get_or_alloc_table t i flags) (goa_post own tp root p i s) s.
Proof.
  intros Hinv Hok Htp Hpre' Hp Hl Ht Hi Hown.
  assert (Hpre : p `prefix_of` tp) by (etrans; [by exists [i]|done]).
  assert (Hc : client_page s t) by (by apply (pt_client s root Hok p)).
  assert (Htn : t <> NULL) by (destruct (client_page_bounds s t Hinv Hc) as (_ & _ & _ & ?); lia).
  unfold get_or_alloc_table. destruct (Z.eqb_spec t NULL); [done|].
  unfold read64 at 1. wp_step. wp_step. cbv beta. fold (entry s t i). wp_step.
  destruct (has (entry s t i) VMM_PRESENT) eqn:Hpr.
  { wp_step. by apply (set_flags_spec own tp root p t i flags s). }
  wp_step. eapply wp_mono; [by apply fa_palloc_fresh|].
  intros r s1 [(-> & -> & Hfull)|(f & -> & Hinv1 & Hout & Hnf & Hfree)].
  { cbn. split; [split; [by apply grows_refl|apply counted_refl]|by left]. }
  change (frame_ptr s true f) with (page_at s f).
  destruct (client_page_bounds s1 (page_at s f) Hinv1) as (_ & Hal & _ & Hpos).
  { by apply fresh_client. }
  rewrite is_page_aligned_mod, Hal.
  destruct (Z.eqb_spec (page_at s f) NULL); [lia|]. cbn [Z.eqb negb orb].
  unfold memset_at, write64. do 7 (wp_step; cbv beta).
  change (mem (set_mem (memset (mem s1) (page_at s f) 0 PAGE_SIZE) s1))
    with (memset (mem s1) (page_at s f) 0 PAGE_SIZE).
  destruct (fresh_link own tp root p t i s s1 f Hinv Hok Htp Hpre' Hp Hl Ht Hi Hown Hpr Hnf Hfree Hinv1 Hout)
    as ([Hg Hcn] & Hw & Hpr').
  eapply wp_mono.
  - refine (set_flags_spec own tp root p t i flags _ (gr_inv _ _ _ _ _ Hg) (gr_ok _ _ _ _ _ Hg)
      Htp Hpre Hp Hl Hw Hi _ Hpr'). intros u Hu. apply (client_page_mono s); [apply (others_hhdm s), Hg| |by apply Hown].
    apply Hg.
  - intros r s4 [[Hg4 Hcn4] Hr].
    split; [split; [exact (grows_trans own tp root s _ s4 Hg Hg4)|exact (counted_trans _ _ _ _ _ Hcn Hcn4)]|].
    destruct Hr as [[-> Hr]|Hr]; [left|by right]. split; [done|].
    intros Hlk. by apply Hr, (gr_linked _ _ _ _ _ Hg).
Qed.
End Tree.
