(* ===== verification/PagingSpec.v ===== *)
(** * What the page-table operations do

    [vmap], [vunmap] and [pmnew], stated on the translations ([lookup]) they
    leave behind. *)

From S2P Require Export PagingFacts.

Section Spec.
Context {FA : FrameAlloc} {FL : FrameAllocLaws}.

(** The globals that no page-table operation touches. *)
Definition globals (s : machine) :=
  (hhdm_offset s, memmap s, kvm_ctx s, kernel_pagemap (paging s), cr3 (paging s),
   heap s, sched s).

(** From [s] to [s'] the translations of [root] become [tr], and of the pages
    [own] none that was not a table becomes one or has a byte changed. *)
Record updates (own : Z -> Prop) (tp : list Z) (root : Z) (s s' : machine) (tr : Z -> option Z) : Prop :=
  Updates {
    up_inv : fa_inv s';
    up_ok : pt_ok s' root;
    up_globals : globals s' = globals s;
    up_owned : forall f, fa_owned s f -> fa_owned s' f;
    up_lookup : forall virt, lookup s' root virt = tr virt;
    up_kept : forall u, own u -> (forall p, p `prefix_of` tp -> walk s root p <> Some u) ->
        (forall p, p `prefix_of` tp -> walk s' root p <> Some u) /\
        forall a, in_range u PAGE_SIZE a -> load8 (mem s') a = load8 (mem s) a;
    up_tables : forall u, own u -> not_table s root u -> not_table s' root u;
    up_low : forall a, a < hhdm_offset s -> load8 (mem s') a = load8 (mem s) a;
    up_full : fa_full s -> fa_full s';
    up_counted : counted tp root s s';
    up_linked : linked s root -> linked s' root }.

Lemma grows_updates own tp root s s' :
  grows own tp root s s' -> counted tp root s s' -> updates own tp root s s' (lookup s root).
Proof.
  intros Hg Hc. split; try apply Hg; [| |done].
  - pose proof (gr_others _ _ _ _ _ Hg) as Ho. unfold others in Ho. unfold globals. congruence.
  - intros virt. by eapply grows_lookup.
Qed.

Lemma globals_hhdm s s' : globals s' = globals s -> hhdm_offset s' = hhdm_offset s.
Proof. unfold globals. congruence. Qed.

Lemma globals_pagemap s s' :
  globals s' = globals s -> kernel_pagemap (paging s') = kernel_pagemap (paging s).
Proof. unfold globals. congruence. Qed.

Lemma updates_trans own tp root s s1 s2 tr1 tr2 :
  updates own tp root s s1 tr1 -> updates own tp root s1 s2 tr2 -> updates own tp root s s2 tr2.
Proof.
  intros H1 H2. pose proof (globals_hhdm _ _ (up_globals _ _ _ _ _ _ H1)) as Hh.
  split; try apply H2.
  - rewrite (up_globals _ _ _ _ _ _ H2). apply H1.
  - intros f Hf. by apply (up_owned _ _ _ _ _ _ H2), (up_owned _ _ _ _ _ _ H1).
  - intros u Hu Hn. destruct (up_kept _ _ _ _ _ _ H1 u Hu Hn) as [Hn1 Hb1].
    destruct (up_kept _ _ _ _ _ _ H2 u Hu Hn1) as [Hn2 Hb2]. split; [done|].
    intros a Ha. by rewrite Hb2, Hb1.
  - intros u Hu Hn. by apply (up_tables _ _ _ _ _ _ H2), (up_tables _ _ _ _ _ _ H1).
  - intros a Ha. rewrite (up_low _ _ _ _ _ _ H2), (up_low _ _ _ _ _ _ H1) by (done || lia). done.
  - intros Hf. by apply (up_full _ _ _ _ _ _ H2), (up_full _ _ _ _ _ _ H1).
  - apply (counted_trans _ _ _ s1); [apply H1|apply H2].
  - intros Hn. by apply (up_linked _ _ _ _ _ _ H2), (up_linked _ _ _ _ _ _ H1).
Qed.

(** Flushing the TLB does not concern memory. *)
Definition flushed (virt : Z) (s : machine) : machine :=
  set_paging (Paging (kernel_pagemap (paging s)) (cr3 (paging s)) (virt :: invlpg (paging s))) s.

Lemma walk_flushed virt s root p : walk (flushed virt s) root p = walk s root p.
Proof. by apply walk_ext. Qed.

Lemma lookup_flushed virt s root v : lookup (flushed virt s) root v = lookup s root v.
Proof. unfold lookup. by rewrite walk_flushed. Qed.

Lemma flush_updates own tp root virt s :
  fa_inv s -> pt_ok s root -> updates own tp root s (flushed virt s) (lookup s root).
Proof.
  intros Hi Hok. destruct (fa_client s (flushed virt s) Hi) as [Hi' Ho']; [done..|].
  split; try done.
  - apply (pt_ok_same s); try done.
    + intros f. apply Ho'.
    + intros p _. apply walk_flushed.
  - intros f. apply Ho'.
  - intros u Hu Hn. split; [|done]. intros p Hp. rewrite walk_flushed. by apply Hn.
  - intros u _ Hn p Hp. rewrite walk_flushed. by apply Hn.
  - by apply fa_full_same.
  - apply counted_same; [by apply fa_free_same|]. intros p _. apply walk_flushed.
  - apply linked_same; [|done]. intros p _. apply walk_flushed.
Qed.

Definition set_page (v : Z) (virt : Z) (tr : Z -> option Z) (virt' : Z) : option Z :=
  if decide (page_of virt' = page_of virt)
  then (if has v VMM_PRESENT then Some v else None) else tr virt'.

(** Writing the last-level entry of [virt] and flushing it. *)
Lemma leaf_updates own root s virt t v :
  fa_inv s -> pt_ok s root -> walk s root (table_path virt) = Some t ->
  0 <= v < 2 ^ 64 -> (forall u, own u -> client_page s u) ->
  updates own (table_path virt) root s (flushed virt (write_entry t (page_index virt PML1_SHIFT) v s))
    (set_page v virt (lookup s root)).
Proof.
  intros Hi Hok Ht Hv Hown. pose proof (table_path_is_path virt) as Hp.
  pose proof (page_index_idx virt PML1_SHIFT ltac:(done)) as Hx.
  set (s' := write_entry t (page_index virt PML1_SHIFT) v s).
  destruct (leaf_ok s root (table_path virt) t (page_index virt PML1_SHIFT) v
    Hi Hok Hp Ht Hx) as (Hi' & Hok' & Ho'); [done|]. fold s' in Hi', Hok', Ho'.
  apply (updates_trans own _ root s s' _ (set_page v virt (lookup s root))).
  - split; try done.
    + intros f. apply Ho'.
    + intros virt'. by apply (leaf_lookup s root (table_path virt)).
    + intros u Hu Hn. split.
      * intros p Hpp. unfold s'. rewrite (walk_write_leaf s root (table_path virt)) 
          by (done || by apply (prefix_is_path p (table_path virt))).
        by apply Hn.
      * intros a. apply (write_kept s root (table_path virt)); try done; [by apply Hown|].
        intros ->. by apply (Hn (table_path virt)).
    + intros u _ Hn p Hpp. unfold s'. rewrite (walk_write_leaf s root (table_path virt)) by done.
      by apply Hn.
    + by apply (write_low s root (table_path virt)).
    + by apply fa_full_same.
    + apply counted_same; [by apply fa_free_same|]. intros q Hq. by apply (walk_write_leaf s root (table_path virt)).
    + apply linked_same; [intros q Hq; by apply (walk_write_leaf s root (table_path virt))|].
      intros q u j Hq Hu. apply (write_entry_other s root (table_path virt) t _ _ Hok Hp Ht Hx q); try done.
      * by apply (is_path_prefix q [j]).
      * by apply (is_path_snoc q).
      * intros [= -> ->]. destruct Hq as [Hq _]. rewrite length_app in Hq. cbn in Hq. lia.
  - pose proof (flush_updates own (table_path virt) root virt s' Hi' Hok') as Hf.
    split; try apply Hf. intros virt'. rewrite lookup_flushed.
    by apply (leaf_lookup s root (table_path virt)).
Qed.

Lemma is_path_nil : is_path [].
Proof. split; [cbn; lia|by apply Forall_nil]. Qed.

Lemma root_client s root : pt_ok s root -> client_page s root.
Proof. intros Hok. exact (pt_client s root Hok [] root is_path_nil eq_refl). Qed.

Lemma root_not_null s root : fa_inv s -> pt_ok s root -> root <> NULL.
Proof.
  intros Hi Hok. destruct (client_page_bounds s root Hi (root_client s root Hok)) as (_ & _ & _ & ?).
  lia.
Qed.

(** [vmap]: either it runs out of frames on the way and changes no translation (or an
    upper table has an entry that leads nowhere), or it sets the page's entry to
    [phys | flags]. *)
Definition vmap_post (own : Z -> Prop) (root virt phys flags : Z) (s : machine)
    (r : Z) (s' : machine) : Prop :=
  (r = -1 /\ updates own (table_path virt) root s s' (lookup s root) /\
     invlpg (paging s') = invlpg (paging s) /\ (linked s root -> fa_full s'))
  \/ (r = 0 /\ updates own (table_path virt) root s s' (set_page (Z.lor phys flags) virt (lookup s root)) /\
        invlpg (paging s') = virt :: invlpg (paging s)).

Lemma grows_invlpg own tp root s s' :
  grows own tp root s s' -> invlpg (paging s') = invlpg (paging s).
Proof. intros Hg. pose proof (gr_others _ _ _ _ _ Hg) as Ho. unfold others in Ho. congruence. Qed.

Lemma grows_owns own tp root s s' :
  grows own tp root s s' -> (forall u, own u -> client_page s u) ->
  forall u, own u -> client_page s' u.
Proof.
  intros Hg Hown u Hu. apply (client_page_mono s); [apply (others_hhdm s), Hg|apply Hg|by apply Hown].
Qed.

(** One level of [vmap]: the walk gets longer, or the operation gives up. *)
Lemma vmap_level own tp root p i flags s0 s (k : Z -> K Z) (Q : Z -> machine -> Prop) t :
  grows own tp root s0 s -> counted tp root s0 s -> (forall u, own u -> client_page s0 u) ->
  is_path tp -> p ++ [i] `prefix_of` tp -> is_path p -> (length p < 3)%nat -> walk s root p = Some t -> idx i ->
  (forall s', grows own tp root s0 s' -> counted tp root s0 s' -> (linked s0 root -> fa_full s') -> Q (-1) s') ->
  (forall s' t', grows own tp root s0 s' -> counted tp root s0 s' -> walk s' root (p ++ [i]) = Some t' -> t' <> NULL ->
     wp (k t') Q s') ->
  wp (t' <- get_or_alloc_table t i flags ;; if t' =? NULL then ret (-1) else k t') Q s.
Proof.
  intros Hg Hc Hown Htp Hpre Hp Hl Ht Hi Hfail Hk. wp_step.
  eapply wp_mono.
  { apply (get_or_alloc_table_spec own tp root p t i flags s); try done; try apply Hg.
    by apply (grows_owns own tp root s0). }
  intros r s' [[Hg' Hc'] Hr]. pose proof (grows_trans _ _ _ _ _ _ Hg Hg') as Hg2.
  pose proof (counted_trans _ _ _ _ _ Hc Hc') as Hc2.
  destruct (Z.eqb_spec r NULL) as [->|Hn].
  - wp_step. apply Hfail; [done..|]. intros Hlk. destruct Hr as [[_ Hr]|Hw]; [by apply Hr, (gr_linked _ _ _ _ _ Hg)|].
    exfalso. pose proof (pt_client s' root (gr_ok _ _ _ _ _ Hg') _ _ (is_path_snoc_lt p i Hp Hl Hi) Hw) as Hcp.
    destruct (client_page_bounds s' NULL (gr_inv _ _ _ _ _ Hg') Hcp) as (_ & _ & _ & ?). lia.
  - destruct Hr as [[? _]|Hw]; [done|]. by apply Hk.
Qed.

Lemma vmap_spec own root virt phys flags s :
  fa_inv s -> pt_ok s root -> (forall u, own u -> client_page s u) ->
  0 <= phys < 2 ^ 64 -> 0 <= flags < 2 ^ 64 ->
  wp (vmap root virt phys flags) (vmap_post own root virt phys flags s) s.
Proof.
  intros Hi Hok Hown Hph Hfl.
  pose proof (table_path_is_path virt) as Htp. pose proof Htp as [_ Hidx]. unfold table_path in Hidx.
  rewrite !Forall_cons in Hidx. destruct Hidx as (H4 & H3 & H2 & _).
  pose proof (root_not_null s root Hi Hok) as Hrn.
  assert (Hfail : forall s', grows own (table_path virt) root s s' -> counted (table_path virt) root s s' ->
    (linked s root -> fa_full s') -> vmap_post own root virt phys flags s (-1) s').
  { intros s' Hg Hc Hf. left. split; [done|]. split_and!; [by apply grows_updates|by eapply grows_invlpg|done]. }
  unfold vmap. destruct (Z.eqb_spec root NULL); [done|].
  eapply (vmap_level own (table_path virt) root [] _ flags s s);
    [by apply grows_refl|apply counted_refl|done|done|by eexists|apply is_path_nil|cbn; lia|done|done|done|].
  intros s1 pml3 Hg1 Hc1 Hw1 _. cbn [app] in Hw1.
  eapply (vmap_level own (table_path virt) root [page_index virt PML4_SHIFT] _ flags s s1);
    [done|done|done|done|by eexists|split; [cbn; lia|by rewrite Forall_singleton]|cbn; lia|done|done|done|].
  intros s2 pml2 Hg2 Hc2 Hw2 _. cbn [app] in Hw2.
  eapply (vmap_level own (table_path virt) root [page_index virt PML4_SHIFT; page_index virt PML3_SHIFT] _ flags s s2);
    [done|done|done|done|by eexists|split; [cbn; lia|by rewrite Forall_cons, Forall_singleton]|cbn; lia|done|done|done|].
  intros s3 pml1 Hg3 Hc3 Hw3 _. cbn [app] in Hw3.
  unfold write64, invlpg_at. wp_steps. right. split; [done|].
  change (updates own (table_path virt) root s (flushed virt (write_entry pml1 (page_index virt PML1_SHIFT)
      (Z.lor phys flags) s3)) (set_page (Z.lor phys flags) virt (lookup s root)) /\
    virt :: invlpg (paging s3) = virt :: invlpg (paging s)).
  split; [|f_equal; by eapply grows_invlpg].
  apply (updates_trans own (table_path virt) root s s3 _ _ _ (grows_updates _ _ _ _ _ Hg3 Hc3)).
  pose proof (leaf_updates own root s3 virt pml1 (Z.lor phys flags) (gr_inv _ _ _ _ _ Hg3)
    (gr_ok _ _ _ _ _ Hg3) Hw3 (lor_range64 _ _ Hph Hfl) (grows_owns _ _ _ _ _ Hg3 Hown)) as Hu.
  split; try apply Hu. intros virt'. rewrite (up_lookup _ _ _ _ _ _ Hu). unfold set_page.
  case_decide; [done|]. by eapply grows_lookup.
Qed.

(** ** vunmap *)

Lemma absent_lookup s root virt t :
  walk s root (table_path virt) = Some t ->
  has (entry s t (page_index virt PML1_SHIFT)) VMM_PRESENT = false -> lookup s root virt = None.
Proof. unfold lookup. by intros -> ->. Qed.

Lemma set_page_absent root virt s v :
  lookup s root virt = None -> has v VMM_PRESENT = false ->
  forall virt', set_page v virt (lookup s root) virt' = lookup s root virt'.
Proof.
  intros Hn Hv virt'. unfold set_page. case_decide as Hd; [|done].
  by rewrite Hv, (lookup_page s root virt' virt) by done.
Qed.

(** The pure walk that [vunmap] starts with. *)
Lemma walk_tables s root virt :
  walk s root (table_path virt) =
    let pml3 := get_table s root (page_index virt PML4_SHIFT) in
    if pml3 =? NULL then None else
    let pml2 := get_table s pml3 (page_index virt PML3_SHIFT) in
    if pml2 =? NULL then None else
    let pml1 := get_table s pml2 (page_index virt PML2_SHIFT) in
    if pml1 =? NULL then None else Some pml1.
Proof. done. Qed.

Lemma vunmap_walk s root virt :
  root <> NULL -> has virt (PAGE_SIZE - 1) = false ->
  vunmap root virt s =
    match walk s root (table_path virt) with
    | None => Ret 0 s
    | Some t => Ret 0 (flushed virt (write_entry t (page_index virt PML1_SHIFT) 0 s))
    end.
Proof.
  intros Hr Ha. rewrite walk_tables. unfold vunmap. rewrite Ha.
  destruct (Z.eqb_spec root NULL); [done|]. cbn [orb]. unfold bind, get. cbv zeta.
  set (p3 := get_table s root _). destruct (p3 =? NULL); [done|].
  set (p2 := get_table s p3 _). destruct (p2 =? NULL); [done|].
  set (p1 := get_table s p2 _). by destruct (p1 =? NULL).
Qed.

Lemma updates_ext own tp root s s' tr tr' :
  updates own tp root s s' tr -> (forall v, tr v = tr' v) -> updates own tp root s s' tr'.
Proof. intros Hu He. split; try apply Hu. intros v. rewrite <- He. apply Hu. Qed.

Lemma vunmap_spec own root virt s :
  fa_inv s -> pt_ok s root -> (forall u, own u -> client_page s u) ->
  has virt (PAGE_SIZE - 1) = false ->
  wp (vunmap root virt)
    (fun r s' => r = 0 /\ updates own (table_path virt) root s s' (set_page 0 virt (lookup s root))) s.
Proof.
  intros Hi Hok Hown Ha. unfold wp.
  rewrite vunmap_walk by (done || by apply (root_not_null s)).
  destruct (walk s root (table_path virt)) as [t|] eqn:Ht; (split; [done|]).
  - by apply leaf_updates.
  - apply (updates_ext own _ root s s (lookup s root)).
    + apply grows_updates; [by apply grows_refl|apply counted_refl].
    + intros v. symmetry. apply set_page_absent; [|done]. unfold lookup. by rewrite Ht.
Qed.

(** [vunmap] gives no frame back and takes none. *)
Lemma vunmap_owned root virt s :
  fa_inv s -> pt_ok s root -> has virt (PAGE_SIZE - 1) = false ->
  wp (vunmap root virt) (fun _ s' => (forall f, fa_owned s' f <-> fa_owned s f) /\ fa_free s' = fa_free s) s.
Proof.
  intros Hi Hok Ha. unfold wp. rewrite vunmap_walk by (done || by apply (root_not_null s)).
  destruct (walk s root (table_path virt)) as [t|] eqn:Ht; [|done].
  destruct (write_entry_ok s t (page_index virt PML1_SHIFT) 0 Hi) as [Hi' Ho'].
  - by apply (pt_client s root Hok (table_path virt)); [apply table_path_is_path|].
  - by apply page_index_idx.
  - destruct (fa_client _ (flushed virt (write_entry t (page_index virt PML1_SHIFT) 0 s)) Hi')
      as [_ Ho'']; [done..|]. split; [|by apply fa_free_same]. intros f. by rewrite Ho''.
Qed.

(** ** pmnew *)

(** The kernel's half of an address space: the upper 256 entries of the top table. *)
Definition kernel_half (virt : Z) : bool := 256 <=? page_index virt PML4_SHIFT.

Record pmnew_post (s : machine) (r : Z) (s' : machine) : Prop := PmnewPost {
  pn_inv : fa_inv s';
  pn_ok : pt_ok s' r;
  pn_fresh : client_page s' r /\ ~ client_page s r;
  pn_others : others s' = others s;
  pn_lookup : forall virt, lookup s' r virt =
      if kernel_half virt && negb (kernel_pagemap (paging s) =? NULL)
      then lookup s (kernel_pagemap (paging s)) virt else None;
  pn_walk : forall i q, idx i -> walk s' r (i :: q) =
      if (256 <=? i) && negb (kernel_pagemap (paging s) =? NULL)
      then walk s' (kernel_pagemap (paging s)) (i :: q) else None;
  pn_bytes : forall u a, client_page s u -> in_range u PAGE_SIZE a ->
      load8 (mem s') a = load8 (mem s) a;
  pn_kept : forall root virt, pt_ok s root ->
      pt_ok s' root /\ lookup s' root virt = lookup s root virt }.

(** A page map [r] whose entries are empty up to 256, and from there on those of
    the page map [k] (if there is one). *)
Section Copy.
Context (s : machine) (r k : Z).
Hypothesis (Hrn : r <> NULL) (Hlow : forall j, 0 <= j < 256 -> entry s r j = 0)
  (Hup : forall j, 256 <= j < 512 -> entry s r j = if k =? NULL then 0 else entry s k j).

Lemma copy_walk i q :
  idx i -> walk s r (i :: q) = if (256 <=? i) && negb (k =? NULL) then walk s k (i :: q) else None.
Proof.
  intros Hi. unfold idx in Hi. cbn [walk].
  destruct (Z.leb_spec 256 i) as [Hge|Hlt]; cbn [andb].
  - specialize (Hup i ltac:(lia)). destruct (Z.eqb_spec k NULL) as [Hk|Hk]; cbn [negb].
    + rewrite (get_table_absent s r i); [done|]. by rewrite Hup.
    + replace (get_table s r i) with (get_table s k i); [done|]. unfold get_table, entry in *.
      rewrite Hup. by destruct (Z.eqb_spec k NULL), (Z.eqb_spec r NULL).
  - rewrite (get_table_absent s r i); [done|]. by rewrite Hlow by lia.
Qed.

Lemma copy_lookup virt :
  lookup s r virt = if kernel_half virt && negb (k =? NULL) then lookup s k virt else None.
Proof.
  unfold lookup, kernel_half, table_path.
  rewrite copy_walk by by apply page_index_idx. by destruct (_ && _).
Qed.

Lemma copy_ok :
  client_page s r -> (forall p, is_path p -> walk s k p <> Some r) ->
  (k <> NULL -> pt_ok s k) -> pt_ok s r.
Proof.
  intros Hc Hn Hk. split.
  - intros [|i p] t Hp; [by intros [= <-]|].
    pose proof Hp as [_ [Hi _]%Forall_cons]. rewrite copy_walk by done.
    destruct (Z.eqb_spec k NULL) as [|Hkn]; [by rewrite andb_false_r|].
    destruct (256 <=? i); [|done]. intros Ht. by apply (pt_client s k (Hk Hkn) (i :: p)).
  - intros [|i p] [|j q] t Hp Hq; [done|intros [= <-]|intros Hw [= <-]; revert Hw|].
    + pose proof Hq as [_ [Hj _]%Forall_cons]. rewrite copy_walk by done.
      destruct (_ && _); [|done]. intros Hw. by apply Hn in Hw.
    + pose proof Hp as [_ [Hi _]%Forall_cons]. rewrite copy_walk by done.
      destruct (_ && _); [|done]. intros Hw. by apply Hn in Hw.
    + pose proof Hp as [_ [Hi _]%Forall_cons]. pose proof Hq as [_ [Hj _]%Forall_cons].
      rewrite !copy_walk by done. destruct (Z.eqb_spec k NULL) as [|Hkn];
        [by rewrite andb_false_r|].
      destruct (256 <=? i), (256 <=? j); try done. by apply (pt_tree s k (Hk Hkn)).
Qed.
End Copy.

(** Filling the fresh page [n] of [s1] in any way. *)
Lemma fill_fresh s s1 f m :
  fa_inv s1 -> hands_out fa_owned s f s1 -> ~ fa_full s ->
  agree_outside (in_range (page_at s f) PAGE_SIZE) (mem s1) m ->
  fa_inv (set_mem m s1) /\ client_page (set_mem m s1) (page_at s f) /\
  (forall u a, client_page s u -> in_range u PAGE_SIZE a -> load8 m a = load8 (mem s) a) /\
  (forall root, pt_ok s root -> grows (fun _ => False) [] root s (set_mem m s1)).
Proof.
  intros Hi1 Hout Hnf Hm. pose proof (fresh_client s s1 f Hout) as Hc.
  destruct (client_write s1 (page_at s f) m Hi1 Hc Hm) as [Hi2 Ho2].
  pose proof (fresh_hhdm s s1 f Hout) as Hh.
  assert (Hk : forall u a, client_page s u -> in_range u PAGE_SIZE a ->
    load8 m a = load8 (mem s) a).
  { intros u a Hu Ha. rewrite Hm.
    - destruct Hu as (g & Hg & ->). by apply (ho_kept _ _ _ _ Hout g).
    - intros Hin. apply (fresh_not_client s s1 f Hout).
      rewrite <- (client_page_disjoint s1 u (page_at s f) a); [done| |done..].
      apply (client_page_mono s); [done| |done].
      intros g Hg. apply (ho_owned _ _ _ _ Hout). by left. }
  split; [done|]. split; [|split; [done|]].
  - apply (client_page_mono s1); [done|intros g; apply Ho2|done].
  - intros root Hok. apply grows_keep; try done.
    + apply is_path_nil.
    + apply Hout.
    + intros g Hg. apply Ho2, (ho_owned _ _ _ _ Hout). by left.
    + intros a Ha. cbn [mem set_mem]. rewrite Hm; [by apply (ho_low _ _ _ _ Hout)|].
      destruct (client_page_bounds s1 _ Hi1 Hc) as (Hb & _). unfold in_range. lia.
Qed.

(** The contents of the page [pmnew] returns. *)
Definition pmnew_mem (m : memory) (pm kpm : Z) : memory :=
  let m' := memset m pm 0 PAGE_SIZE in
  if kpm =? NULL then m' else memcpy m' (pm + 8 * 256) (kpm + 8 * 256) (256 * 8).

Lemma pmnew_mem_agree m pm kpm :
  (kpm = NULL \/ kpm + PAGE_SIZE <= pm \/ pm + PAGE_SIZE <= kpm) ->
  agree_outside (in_range pm PAGE_SIZE) m (pmnew_mem m pm kpm).
Proof.
  intros Hd. unfold pmnew_mem. destruct (Z.eqb_spec kpm NULL) as [->|Hk];
    [apply memset_agree|].
  destruct Hd as [|Hd]; [contradiction|]. unfold PAGE_SIZE in *. intros a Ha. unfold in_range in Ha.
  rewrite (memcpy_agree (memset m pm 0 4096) (pm + 8 * 256) (kpm + 8 * 256) (256 * 8));
    [|lia|unfold in_range; lia].
  apply memset_agree. exact Ha.
Qed.

Lemma pmnew_mem_low m pm kpm j :
  (kpm = NULL \/ kpm + PAGE_SIZE <= pm \/ pm + PAGE_SIZE <= kpm) -> 0 <= j < 256 ->
  load64 (pmnew_mem m pm kpm) (pm + 8 * j) = 0.
Proof.
  intros Hd Hj. unfold pmnew_mem, PAGE_SIZE in *.
  assert (Hz : load64 (memset m pm 0 4096) (pm + 8 * j) = 0) by (apply memset_zero_load64; lia).
  destruct (Z.eqb_spec kpm NULL) as [->|Hk]; [exact Hz|]. destruct Hd as [|Hd]; [contradiction|].
  etransitivity; [|exact Hz]. apply load64_ext. intros x Hx.
  apply (memcpy_agree (memset m pm 0 4096)); [lia|unfold in_range; lia].
Qed.

Lemma pmnew_mem_up m pm kpm j :
  (kpm = NULL \/ kpm + PAGE_SIZE <= pm \/ pm + PAGE_SIZE <= kpm) -> 256 <= j < 512 ->
  load64 (pmnew_mem m pm kpm) (pm + 8 * j) =
    if kpm =? NULL then 0 else load64 m (kpm + 8 * j).
Proof.
  intros Hd Hj. unfold pmnew_mem, PAGE_SIZE in *. destruct (Z.eqb_spec kpm NULL) as [->|Hk].
  - apply memset_zero_load64; lia.
  - destruct Hd as [|Hd]; [contradiction|]. apply (loadn_shift 8). intros x Hx.
    rewrite memcpy_load by lia.
    destruct (Z.leb_spec (pm + 8 * 256) (pm + 8 * j + x)),
      (Z.ltb_spec (pm + 8 * j + x) (pm + 8 * 256 + 256 * 8)); try lia. cbn [andb].
    rewrite (memset_agree m pm 0 4096) by (unfold in_range; lia). f_equal. lia.
Qed.

(** The new page does not overlap the kernel's page map. *)
Lemma pmnew_apart s s1 f k :
  hands_out fa_owned s f s1 -> (k <> NULL -> pt_ok s k) ->
  k = NULL \/ k + PAGE_SIZE <= page_at s f \/ page_at s f + PAGE_SIZE <= k.
Proof.
  intros Hout Hk. destruct (decide (k = NULL)) as [|Hkn]; [by left|right].
  destruct (root_client s k (Hk Hkn)) as (g & Hg & He). rewrite He.
  assert (g <> f) by (intros ->; by apply (ho_new _ _ _ _ Hout)).
  unfold page_at, PAGE_SIZE. lia.
Qed.

Lemma pmnew_filled s s1 f k :
  fa_inv s -> fa_inv s1 -> hands_out fa_owned s f s1 -> ~ fa_full s -> kernel_pagemap (paging s) = k ->
  (k <> NULL -> pt_ok s k) ->
  pmnew_post s (page_at s f) (set_mem (pmnew_mem (mem s1) (page_at s f) k) s1).
Proof.
  intros Hi Hi1 Hout Hnf Hks Hk. set (n := page_at s f).
  pose proof (pmnew_apart s s1 f k Hout Hk) as Hd. fold n in Hd.
  assert (Hnn : n <> NULL).
  { destruct (client_page_bounds s1 n Hi1 (fresh_client s s1 f Hout)) as (_ & _ & _ & ?). lia. }
  destruct (fill_fresh s s1 f (pmnew_mem (mem s1) n k) Hi1 Hout Hnf (pmnew_mem_agree _ _ _ Hd))
    as (Hi2 & Hc2 & Hkept & Hg).
  set (s' := set_mem (pmnew_mem (mem s1) n k) s1) in *.
  assert (Hlow : forall j, 0 <= j < 256 -> entry s' n j = 0)
    by (intros j Hj; exact (pmnew_mem_low _ _ _ j Hd Hj)).
  assert (Hup : forall j, 256 <= j < 512 -> entry s' n j = if k =? NULL then 0 else entry s' k j).
  { intros j Hj. unfold entry, s'. cbn [mem set_mem]. rewrite (pmnew_mem_up _ _ _ j Hd Hj).
    destruct (Z.eqb_spec k NULL) as [|Hkn]; [done|]. symmetry. apply load64_ext. intros x Hx.
    apply (pmnew_mem_agree _ n k Hd). unfold in_range, PAGE_SIZE in *. lia. }
  assert (Hkok : k <> NULL -> pt_ok s' k) by (intros Hkn; by apply (gr_ok _ _ _ _ _ (Hg k (Hk Hkn)))).
  assert (Hnc : ~ client_page s n) by apply (fresh_not_client s s1 f Hout).
  split; [exact Hi2| |done|apply Hout| | |exact Hkept|].
  - apply (copy_ok s' n k Hnn Hlow Hup Hc2); [|exact Hkok].
    intros p Hp Hw. destruct (decide (k = NULL)) as [Hkn|Hkn].
    + rewrite Hkn in Hw. destruct p as [|i p]; [cbn in Hw; congruence|done].
    + rewrite (walk_kept s s' k p) in Hw; [|by apply Hk|apply (fresh_hhdm s s1 f Hout)|exact Hkept|done].
      apply Hnc. by apply (pt_client s k (Hk Hkn) p).
  - intros virt. rewrite (copy_lookup s' n k Hnn Hlow Hup), Hks.
    destruct (Z.eqb_spec k NULL) as [|Hkn]; [by rewrite andb_false_r|].
    destruct (_ && _); [|done]. by apply (grows_lookup _ _ _ _ _ _ (Hg k (Hk Hkn))).
  - intros i q Hiq. rewrite Hks. exact (copy_walk s' n k Hnn Hlow Hup i q Hiq).
  - intros root virt Hok. split; [apply (Hg root Hok)|]. by apply (grows_lookup _ _ _ _ _ _ (Hg root Hok)).
Qed.

Lemma pmnew_spec s :
  fa_inv s ->
  (kernel_pagemap (paging s) <> NULL -> pt_ok s (kernel_pagemap (paging s))) ->
  match pmnew s with
  | Ret r s' => pmnew_post s r s'
  | Panic s' => fa_palloc 1 true s = Ret NULL s
  | _ => False
  end.
Proof.
  intros Hi Hk. set (k := kernel_pagemap (paging s)) in *.
  destruct (wp_run _ _ _ (fa_palloc_fresh s true Hi)) as (r & s1 & Hrun & [(-> & -> & _)|(f & -> & Hi1 & Hout & Hnf & _)]).
  { unfold pmnew, bind. by rewrite Hrun. }
  change (frame_ptr s true f) with (page_at s f) in Hrun |- *.
  assert (Hp1 : kernel_pagemap (paging s1) = k).
  { pose proof (ho_others _ _ _ _ Hout) as Ho. unfold others in Ho. unfold k. congruence. }
  assert (Hret : pmnew s = Ret (page_at s f) (set_mem (pmnew_mem (mem s1) (page_at s f) k) s1)).
  { destruct (client_page_bounds s1 _ Hi1 (fresh_client s s1 f Hout)) as (_ & _ & _ & ?).
    unfold pmnew, bind. rewrite Hrun. destruct (Z.eqb_spec (page_at s f) NULL); [lia|].
    unfold memset_at, modify, gets, when, pmnew_mem. cbn [paging set_mem]. rewrite Hp1.
    by destruct (k =? NULL). }
  rewrite Hret. by apply pmnew_filled.
Qed.
End Spec.
