(* ===== verification/PagingProps.v ===== *)
(** * Page tables: main theorems *)

From S2P Require Export PagingSpec.

Section Props.
Context {FA : FrameAlloc} {FL : FrameAllocLaws}.

(** C5: [vmap] returns.  Either it ran out of frames for tables (-1), no
    frame is left and no address translates differently, or (0) the page of [virt] has the entry
    [phys | flags], every other page of the address space translates as before,
    and the TLB entry is flushed.  In both cases the page tables stay a tree, and
    no client page off the path to [virt] has a byte changed. *)
Theorem vmap_correct s root virt phys flags :
  fa_inv s -> pt_ok s root -> 0 <= phys < 2 ^ 64 -> 0 <= flags < 2 ^ 64 ->
  wp (vmap root virt phys flags) (vmap_post (client_page s) root virt phys flags s) s.
Proof. intros. by apply vmap_spec. Qed.

Lemma set_page_self v virt tr :
  has v VMM_PRESENT = true -> set_page v virt tr virt = Some v.
Proof. intros Hv. unfold set_page. rewrite decide_True by done. by rewrite Hv. Qed.

Lemma entry_address phys flags :
  0 <= phys < 2 ^ 52 -> phys mod PAGE_SIZE = 0 -> Z.land flags PAGE_MASK = 0 ->
  Z.land (Z.lor phys flags) PAGE_MASK = phys.
Proof.
  intros H1 H2 H3. rewrite Z.land_lor_distr_l, H3, Z.lor_0_r.
  rewrite (aligned_mul phys H2). pose proof (aligned_mul phys H2). unfold PAGE_SIZE in *.
  apply land_page_mask_frame; unfold PAGE_SIZE in *; lia.
Qed.

(** [virt_to_phys] finds what a successful [vmap] put there. *)
Theorem vmap_virt_to_phys s root virt phys flags :
  fa_inv s -> pt_ok s root -> 0 <= phys < 2 ^ 52 -> phys mod PAGE_SIZE = 0 ->
  0 <= flags < 2 ^ 64 -> has flags VMM_PRESENT = true -> Z.land flags PAGE_MASK = 0 ->
  wp (vmap root virt phys flags) (fun r s' =>
    r = 0 -> virt_to_phys s' root virt = phys /\
             forall v, page_of v <> page_of virt ->
               virt_to_phys s' root v = virt_to_phys s root v) s.
Proof.
  intros Hi Hok Hp Ha Hf Hpr Hm.
  eapply wp_mono; [apply (vmap_spec (client_page s)); (done || lia)|].
  intros r s' [(-> & _)|(-> & Hu & _)]; [done|intros _].
  pose proof (root_not_null s root Hi Hok) as Hr. split.
  - rewrite virt_to_phys_lookup by done. rewrite (up_lookup _ _ _ _ _ _ Hu).
    rewrite set_page_self by (rewrite has_lor, Hpr; apply orb_true_r).
    by apply entry_address.
  - intros v Hv. rewrite !virt_to_phys_lookup by done. rewrite (up_lookup _ _ _ _ _ _ Hu).
    unfold set_page. by rewrite decide_False.
Qed.

(** C8: [vunmap] of a page-aligned address always succeeds; it removes the
    translation of that page and of no other. *)
Theorem vunmap_correct s root virt :
  fa_inv s -> pt_ok s root -> virt mod PAGE_SIZE = 0 ->
  wp (vunmap root virt) (fun r s' => r = 0 /\
    updates (client_page s) (table_path virt) root s s' (set_page 0 virt (lookup s root))) s.
Proof.
  intros Hi Hok Ha. apply vunmap_spec; try done. unfold has.
  change (Z.land virt (PAGE_SIZE - 1) =? 0) with (IS_PAGE_ALIGNED virt).
  by rewrite is_page_aligned_mod, Ha.
Qed.

(** unmapping a page that was just mapped, and was not mapped before,
    restores every translation of the address space. *)
Theorem vmap_vunmap_roundtrip s root virt phys flags :
  fa_inv s -> pt_ok s root -> virt mod PAGE_SIZE = 0 -> 0 <= phys < 2 ^ 64 ->
  0 <= flags < 2 ^ 64 -> lookup s root virt = None ->
  wp (vmap root virt phys flags ;;; vunmap root virt)
    (fun _ s' => pt_ok s' root /\ forall v, lookup s' root v = lookup s root v) s.
Proof.
  intros Hi Hok Ha Hp Hf Hn. apply wp_bind.
  eapply wp_mono; [by apply (vmap_spec (client_page s))|].
  intros r s1 Hpost. assert (Hal : has virt (PAGE_SIZE - 1) = false).
  { unfold has. change (Z.land virt (PAGE_SIZE - 1) =? 0) with (IS_PAGE_ALIGNED virt).
    by rewrite is_page_aligned_mod, Ha. }
  assert (exists tr, updates (client_page s) (table_path virt) root s s1 tr /\
    forall v, page_of v <> page_of virt -> tr v = lookup s root v) as (tr & Hu & Htr).
  { destruct Hpost as [(_ & Hu & _)|(_ & Hu & _)]; eexists; (split; [exact Hu|]); [done|].
    intros v Hv. unfold set_page. by rewrite decide_False. }
  eapply wp_mono; [apply (vunmap_spec (fun _ => False)); try done; apply Hu|].
  intros r' s2 [_ Hu2]. split; [apply Hu2|]. intros v. rewrite (up_lookup _ _ _ _ _ _ Hu2).
  unfold set_page. case_decide as Hd; cbn.
  - symmetry. by rewrite (lookup_page s root v virt).
  - rewrite (up_lookup _ _ _ _ _ _ Hu). by apply Htr.
Qed.

(** Two page maps share no table on the way to [virt]. *)
Definition separate (s : machine) (virt root root' : Z) : Prop :=
  forall p q t, p `prefix_of` table_path virt -> is_path q ->
    walk s root p = Some t -> walk s root' q <> Some t.

(** C6: mapping a page in one address space changes nothing in another one that
    shares no table on the way to the page, and leaves the two separate. *)
Theorem vmap_isolates s root root' virt phys flags :
  fa_inv s -> pt_ok s root -> pt_ok s root' -> separate s virt root root' ->
  0 <= phys < 2 ^ 64 -> 0 <= flags < 2 ^ 64 ->
  wp (vmap root virt phys flags) (fun _ s' =>
    pt_ok s' root' /\ separate s' virt root root' /\
    forall v, lookup s' root' v = lookup s root' v) s.
Proof.
  intros Hi Hok Hok' Hsep Hp Hf.
  eapply wp_mono; [by apply (vmap_spec (fun u => exists q, is_path q /\ walk s root' q = Some u));
    try done; intros u (q & Hq & Hw); apply (pt_client s root' Hok' q)|].
  intros r s' Hpost.
  assert (exists tr, updates (fun u => exists q, is_path q /\ walk s root' q = Some u)
    (table_path virt) root s s' tr) as (tr & Hu)
    by (destruct Hpost as [(_ & Hu & _)|(_ & Hu & _)]; eauto).
  assert (Hh : hhdm_offset s' = hhdm_offset s) by (apply globals_hhdm, Hu).
  assert (Hk : forall q u, is_path q -> walk s root' q = Some u ->
    (forall p, p `prefix_of` table_path virt -> walk s' root p <> Some u) /\
    forall a, in_range u PAGE_SIZE a -> load8 (mem s') a = load8 (mem s) a).
  { intros q u Hq Hw. apply (up_kept _ _ _ _ _ _ Hu); [by exists q|].
    intros p Hpp Hwp. by apply (Hsep p q u). }
  assert (Hw : forall q, is_path q -> walk s' root' q = walk s root' q).
  { intros q Hq. apply walk_ext. intros q' t i r' -> Hw'. apply get_table_ext; [done|].
    apply entry_kept; [apply (Hk q'); [by apply is_path_prefix in Hq|done]|].
    destruct Hq as [_ Hq]. apply Forall_app in Hq as [_ Hq]. by apply Forall_cons in Hq as [? _]. }
  split_and!.
  - apply (pt_ok_same s); try done. apply Hu.
  - intros p q t Hpp Hq Ht. rewrite Hw by done. intros Hwq. by apply (Hk q t Hq Hwq) in Ht.
  - intros v. unfold lookup. rewrite Hw by apply table_path_is_path.
    destruct (walk s root' (table_path v)) as [t|] eqn:Ht; [|done].
    rewrite (entry_kept s s' t); [done| |by apply page_index_idx].
    apply (Hk (table_path v)); [apply table_path_is_path|done].
Qed.

(** C7: [pmnew] returns a fresh page map whose lower half is empty and whose
    upper half translates as the kernel's, and disturbs no existing address
    space; it panics exactly when no frame is left. *)
Theorem pmnew_correct s :
  fa_inv s ->
  (kernel_pagemap (paging s) <> NULL -> pt_ok s (kernel_pagemap (paging s))) ->
  match pmnew s with
  | Ret r s' => pmnew_post s r s'
  | Panic s' => fa_palloc 1 true s = Ret NULL s
  | _ => False
  end.
Proof. apply pmnew_spec. Qed.

Lemma pmnew_post_separate s r s' root virt :
  pmnew_post s r s' -> pt_ok s root -> kernel_half virt = false -> separate s' virt r root.
Proof.
  intros Hpost Hok Hv.
  assert (Hroot : forall q, is_path q -> walk s' root q <> Some r).
  { intros q Hq Hw. apply (pn_fresh _ _ _ Hpost).
    rewrite (walk_kept s s' root q) in Hw; [by apply (pt_client s root Hok q)|done| | |done].
    - apply others_hhdm, Hpost.
    - apply Hpost. }
  intros p q t [l Hl] Hq Hp. destruct p as [|i p]; [injection Hp as <-; by apply Hroot|].
  injection Hl as Hi4 _. rewrite (pn_walk _ _ _ Hpost) in Hp.
  - unfold kernel_half in Hv. rewrite <- Hi4, Hv in Hp. done.
  - rewrite <- Hi4. by apply page_index_idx.
Qed.

(** below the kernel's half, a fresh page map shares no table with any page
    map that existed before: with [vmap_isolates], mapping user pages in it
    leaves every other address space as it was. *)
Theorem pmnew_separate s r s' root virt :
  fa_inv s ->
  (kernel_pagemap (paging s) <> NULL -> pt_ok s (kernel_pagemap (paging s))) ->
  pt_ok s root -> kernel_half virt = false -> pmnew s = Ret r s' ->
  separate s' virt r root.
Proof.
  intros Hi Hk Hok Hv Hrun. pose proof (pmnew_spec s Hi Hk) as Hpost. rewrite Hrun in Hpost.
  by apply (pmnew_post_separate s).
Qed.

(** after a successful [vmap_large], [virt_to_phys] ignores the page-size
    bit: for every address of the large page it answers with a quadword of the
    mapped memory itself, read as if it were a page-table entry. *)
Theorem vmap_large_virt_to_phys k s root virt phys flags v :
  fa_inv s -> pt_ok s root -> 0 <= phys < hhdm_offset s -> phys < 2 ^ 52 ->
  phys mod PAGE_SIZE_2M = 0 -> hhdm_offset s + phys < 2 ^ 64 ->
  0 <= flags < 2 ^ 64 -> has flags VMM_PRESENT = true -> Z.land flags PAGE_MASK = 0 ->
  table_path v = table_path virt ->
  wp (vmap_large k root virt phys flags) (fun r s' =>
    r = 0 ->
    let e := load64 (mem s') (hhdm_offset s + phys + 8 * page_index v PML1_SHIFT) in
    virt_to_phys s' root v = if has e VMM_PRESENT then Z.land e PAGE_MASK else 0) s.
Proof.
  intros Hi Hok Hph Hp52 Hpa Hhp Hf Hpr Hm Hv.
  pose proof (table_path_is_path virt) as Htp. pose proof Htp as [_ Hidx].
  unfold table_path in Hidx. rewrite !Forall_cons in Hidx. destruct Hidx as (H4 & H3 & H2 & _).
  pose proof (root_not_null s root Hi Hok) as Hrn.
  unfold vmap_large. destruct (LARGE_PAGES k); [|done]. cbn [negb].
  destruct (_ || _); [done|]. destruct (negb _); [done|].
  eapply (vmap_level (fun _ => False) (table_path virt) root [] _ flags s s);
    [by apply grows_refl|apply counted_refl|done|done|by eexists|apply is_path_nil|cbn; lia|done|done|done|].
  intros s1 pml3 Hg1 Hc1 Hw1 _. cbn [app] in Hw1.
  eapply (vmap_level (fun _ => False) (table_path virt) root [page_index virt PML4_SHIFT] _ flags s s1);
    [done|done|done|done|by eexists|split; [cbn; lia|by rewrite Forall_singleton]|cbn; lia|done|done|done|].
  intros s2 pml2 Hg2 Hc2 Hw2 Hn2. cbn [app] in Hw2.
  unfold write64, invlpg_at. wp_steps. intros _.
  set (w := Z.lor (Z.lor phys flags) VMM_PS).
  change (set_mem (store64 (mem s2) (pml2 + 8 * page_index virt PML2_SHIFT) w) s2)
    with (write_entry pml2 (page_index virt PML2_SHIFT) w s2).
  set (s3 := write_entry pml2 (page_index virt PML2_SHIFT) w s2).
  change (set_paging _ s3) with (flushed virt s3). cbn zeta.
  assert (Hw64 : 0 <= w < 2 ^ 64) by (repeat apply lor_range64; (done || lia)).
  assert (Hwp : has w VMM_PRESENT = true)
    by (unfold w; rewrite !has_lor, Hpr; by rewrite orb_true_r).
  assert (Hwm : Z.land w PAGE_MASK = phys).
  { unfold w. rewrite Z.land_lor_distr_l, (land_page_mask_small VMM_PS), Z.lor_0_r by done.
    apply entry_address; [lia| |done]. unfold PAGE_SIZE, PAGE_SIZE_2M in *.
    pose proof (Z.div_mod phys (2 * 1024 * 1024) ltac:(lia)) as Hd. rewrite Hpa in Hd.
    rewrite Hd. replace (2 * 1024 * 1024 * (phys / (2 * 1024 * 1024)) + 0)
      with (512 * (phys / (2 * 1024 * 1024)) * 4096) by lia. by apply Z.mod_mul. }
  assert (Hh : hhdm_offset s3 = hhdm_offset s) by (apply others_hhdm, Hg2).
  assert (He : entry s3 pml2 (page_index virt PML2_SHIFT) = w) by (by apply entry_write_eq).
  assert (Hgt : get_table s3 pml2 (page_index virt PML2_SHIFT) = hhdm_offset s + phys).
  { rewrite get_table_present; rewrite ?He; try done. rewrite Hwm, Hh.
    apply higher_half_phys; lia. }
  assert (Hw3 : walk s3 root (table_path v) = Some (hhdm_offset s + phys)).
  { rewrite Hv. rewrite <- Hgt.
    apply (walk_snoc s3 root [page_index virt PML4_SHIFT; page_index virt PML3_SHIFT]).
    - apply (walk_write_self s2 root); try done; [apply Hg2|].
      split; [cbn; lia|by rewrite Forall_cons, Forall_singleton].
    - rewrite Hgt. destruct (fa_hhdm s Hi). lia. }
  rewrite virt_to_phys_lookup by done. rewrite lookup_flushed. unfold lookup. rewrite Hw3.
  change (mem (flushed virt s3)) with (mem s3). unfold entry.
  match goal with |- match (if ?b then _ else _) with _ => _ end = _ => by destruct b end.
Qed.
End Props.

(** ** A page map made by mm/pmm.c's frames *)

Lemma m0_inv : pmm_inv m0.
Proof. split; [apply m0_ok|]. vm_compute. discriminate. Qed.

(** Two address spaces, the second made while the first exists. *)
Definition pm0 : machine := state_of (pmnew m0) m0.
Definition root0 : Z := default 0 (result_of (pmnew m0)).
Definition pm1 : machine := state_of (pmnew pm0) pm0.
Definition root1 : Z := default 0 (result_of (pmnew pm0)).

Lemma pm0_kpm : kernel_pagemap (paging m0) = NULL /\ kernel_pagemap (paging pm0) = NULL.
Proof. vm_compute. by split. Qed.

Lemma pm0_run : pmnew m0 = Ret root0 pm0.
Proof.
  unfold root0, pm0. assert (Hr : result_of (pmnew m0) <> None) by (vm_compute; discriminate).
  by destruct (pmnew m0).
Qed.

Lemma pm1_run : pmnew pm0 = Ret root1 pm1.
Proof.
  unfold root1, pm1. assert (Hr : result_of (pmnew pm0) <> None) by (vm_compute; discriminate).
  by destruct (pmnew pm0).
Qed.

Lemma pm0_post : pmnew_post m0 root0 pm0.
Proof.
  pose proof (pmnew_spec m0 m0_inv (fun H => False_ind _ (H (proj1 pm0_kpm)))) as Hp.
  by rewrite pm0_run in Hp.
Qed.

Lemma pm0_inv : pmm_inv pm0.
Proof. exact (pn_inv _ _ _ pm0_post). Qed.

Lemma pm0_ok : pt_ok pm0 root0.
Proof. exact (pn_ok _ _ _ pm0_post). Qed.

Lemma pm0_empty v : lookup pm0 root0 v = None.
Proof. rewrite (pn_lookup _ _ _ pm0_post), (proj1 pm0_kpm). cbn. by rewrite andb_false_r. Qed.

Lemma pm1_post : pmnew_post pm0 root1 pm1.
Proof.
  pose proof (pmnew_spec pm0 pm0_inv (fun H => False_ind _ (H (proj2 pm0_kpm)))) as Hp.
  by rewrite pm1_run in Hp.
Qed.

(** Only [vm_compute] looks inside. *)
#[global] Opaque pm0 root0 pm1 root1.

Lemma vmap_correct_witness :
  pmm_inv pm0 /\ pt_ok pm0 root0 /\
  wp (vmap root0 0x400000 0x9000 7) (vmap_post (client_page pm0) root0 0x400000 0x9000 7 pm0) pm0.
Proof.
  split; [apply pm0_inv|]. split; [apply pm0_ok|].
  apply vmap_correct; [exact pm0_inv|exact pm0_ok|lia|lia].
Defined.

Lemma vmap_virt_to_phys_witness :
  result_of (vmap root0 0x400000 0x9000 7 pm0) = Some 0 /\
  wp (vmap root0 0x400000 0x9000 7) (fun r s' =>
    r = 0 -> virt_to_phys s' root0 0x400000 = 0x9000 /\
             forall v, page_of v <> page_of 0x400000 ->
               virt_to_phys s' root0 v = virt_to_phys pm0 root0 v) pm0.
Proof.
  split; [vm_compute; reflexivity|].
  apply vmap_virt_to_phys; [exact pm0_inv|exact pm0_ok|lia|reflexivity|lia|reflexivity|reflexivity].
Defined.

Lemma vunmap_correct_witness :
  wp (vunmap root0 0x400000) (fun r s' => r = 0 /\
    updates (client_page pm0) (table_path 0x400000) root0 pm0 s'
      (set_page 0 0x400000 (lookup pm0 root0))) pm0.
Proof. apply vunmap_correct; [exact pm0_inv|exact pm0_ok|reflexivity]. Defined.

Lemma vmap_vunmap_roundtrip_witness :
  wp (vmap root0 0x400000 0x9000 7 ;;; vunmap root0 0x400000)
    (fun _ s' => pt_ok s' root0 /\ forall v, lookup s' root0 v = lookup pm0 root0 v) pm0.
Proof.
  apply vmap_vunmap_roundtrip; [exact pm0_inv|exact pm0_ok|reflexivity|lia|lia|apply pm0_empty].
Defined.

Lemma pm1_separate : separate pm1 0x400000 root1 root0.
Proof. exact (pmnew_post_separate pm0 root1 pm1 root0 0x400000 pm1_post pm0_ok eq_refl). Qed.

Lemma vmap_isolates_witness :
  wp (vmap root1 0x400000 0x9000 7) (fun _ s' =>
    pt_ok s' root0 /\ separate s' 0x400000 root1 root0 /\
    forall v, lookup s' root0 v = lookup pm1 root0 v) pm1.
Proof.
  apply vmap_isolates; [apply pm1_post|apply pm1_post| |apply pm1_separate|lia|lia].
  apply (pn_kept _ _ _ pm1_post root0 0 pm0_ok).
Defined.

Lemma pmnew_correct_witness :
  pmm_inv m0 /\ match pmnew m0 with
  | Ret r s' => pmnew_post m0 r s'
  | Panic s' => fa_palloc 1 true m0 = Ret NULL m0
  | _ => False
  end.
Proof.
  split; [exact m0_inv|]. apply pmnew_correct; [exact m0_inv|].
  intros H. destruct (H (proj1 pm0_kpm)).
Defined.

Lemma pmnew_separate_witness : kernel_half 0x400000 = false /\ separate pm1 0x400000 root1 root0.
Proof.
  split; [reflexivity|].
  apply (pmnew_separate pm0 root1 pm1 root0 0x400000); [exact pm0_inv| |exact pm0_ok|reflexivity|exact pm1_run].
  intros H. destruct (H (proj2 pm0_kpm)).
Defined.

Definition large_image : kernel_image :=
  KernelImage true 8 0xffffffff80000000 0x200000 0xffffffff80010000 (0, 0) (0, 0) (0, 0) (0, 0).

(** The frame at 2 MiB is mapped at 4 MiB, yet its translation reads as absent. *)
Lemma vmap_large_virt_to_phys_witness :
  result_of (vmap_large large_image root0 0x400000 0x200000 3 pm0) = Some 0 /\
  wp (vmap_large large_image root0 0x400000 0x200000 3) (fun r s' =>
    r = 0 ->
    let e := load64 (mem s') (hhdm_offset pm0 + 0x200000 + 8 * page_index 0x401000 PML1_SHIFT) in
    virt_to_phys s' root0 0x401000 = if has e VMM_PRESENT then Z.land e PAGE_MASK else 0) pm0.
Proof.
  assert (Hh : hhdm_offset pm0 = HHDM) by (vm_compute; reflexivity).
  split; [vm_compute; reflexivity|].
  apply vmap_large_virt_to_phys;
    [exact pm0_inv|exact pm0_ok|rewrite Hh; unfold HHDM; lia|lia|reflexivity
    |rewrite Hh; unfold HHDM; lia|lia|reflexivity|reflexivity|reflexivity].
Defined.
