(* ===== verification/Vmm.v ===== *)
(** * mm/vmm.h and mm/vmm.c: virtual memory contexts

    A context is a list of regions linked through memory, each in a page of its
    own; field offsets are those of the x86-64 ABI.  A loop over the list takes
    fuel, one unit per node. *)

From S2P Require Export Paging.

(** ** vregion_t and vctx_t *)

Definition sizeof_vregion : Z := 40.
Definition sizeof_vctx : Z := 24.

Definition region_start (m : memory) (r : Z) : Z := load64 m r.
Definition region_pages (m : memory) (r : Z) : Z := load64 m (r + 8).
Definition region_flags (m : memory) (r : Z) : Z := load64 m (r + 16).
Definition region_next (m : memory) (r : Z) : Z := load64 m (r + 24).
Definition region_prev (m : memory) (r : Z) : Z := load64 m (r + 32).

Definition set_region_start (r v : Z) : K unit := write64 r v.
Definition set_region_pages (r v : Z) : K unit := write64 (r + 8) v.
Definition set_region_flags (r v : Z) : K unit := write64 (r + 16) v.
Definition set_region_next (r v : Z) : K unit := write64 (r + 24) v.
Definition set_region_prev (r v : Z) : K unit := write64 (r + 32) v.

Definition ctx_root (m : memory) (c : Z) : Z := load64 m c.
Definition ctx_pagemap (m : memory) (c : Z) : Z := load64 m (c + 8).
Definition ctx_start (m : memory) (c : Z) : Z := load64 m (c + 16).

Definition region_end (m : memory) (r : Z) : Z :=
  w64 (region_start m r + w64 (region_pages m r * PAGE_SIZE)).

(** [while (region) { if (found) break; region = region->next; }] *)
Fixpoint scan_regions (fuel : nat) (found : memory -> Z -> bool) (region : Z) : K Z :=
  match fuel with
  | O => out_of_fuel
  | S fuel' =>
      if region =? NULL then ret NULL else
      s <- get ;;
      if found (mem s) region then ret region
      else scan_regions fuel' found (region_next (mem s) region)
  end.

Section Vmm.
Context {FA : FrameAlloc}.

(** ** vinit and vdestroy *)

Definition vinit (pm start : Z) : K Z :=
  ctx <- fa_palloc 1 true ;;
  if ctx =? NULL then ret NULL else
  memset_at ctx 0 sizeof_vctx ;;;
  root <- fa_palloc 1 true ;;
  write64 ctx root ;;;
  if root =? NULL then fa_pfree ctx 1 ;;; ret NULL else
  write64 (ctx + 8) pm ;;;
  set_region_start root start ;;;
  set_region_pages root 0 ;;;
  ret ctx.

Fixpoint free_regions (fuel : nat) (region : Z) : K unit :=
  match fuel with
  | O => out_of_fuel
  | S fuel' =>
      if region =? NULL then ret tt else
      next <- gets (fun s => region_next (mem s) region) ;;
      fa_pfree region 1 ;;;
      free_regions fuel' next
  end.

Definition vdestroy (fuel : nat) (ctx : Z) : K unit :=
  s <- get ;;
  if (ctx_root (mem s) ctx =? NULL) || (ctx_pagemap (mem s) ctx =? NULL) then ret tt else
  free_regions fuel (ctx_root (mem s) ctx) ;;;
  fa_pfree ctx 1.

(** ** valloc and vallocat *)

Definition unusable (m : memory) (ctx : Z) : bool :=
  (ctx =? NULL) || (ctx_root m ctx =? NULL) || (ctx_pagemap m ctx =? NULL).

(** [valloc]'s test: the last region, or a gap behind the region. *)
Definition gap_after (m : memory) (region : Z) : bool :=
  (region_next m region =? NULL) ||
  (region_end m region <? region_start m (region_next m region)).

(** [vallocat]'s test, which multiplies the number of requested pages. *)
Definition gap_after_at (pages : Z) (m : memory) (region : Z) : bool :=
  (region_next m region =? NULL) ||
  (w64 (region_start m region + w64 (pages * PAGE_SIZE))
     <? region_start m (region_next m region)).

(** Linking a node behind [region]. *)
Definition insert_after (new region pages flags : Z) : K unit :=
  memset_at new 0 sizeof_vregion ;;;
  set_region_pages new pages ;;;
  set_region_flags new (VFLAGS_TO_PFLAGS flags) ;;;
  s <- get ;; set_region_start new (region_end (mem s) region) ;;;
  s <- get ;; set_region_next new (region_next (mem s) region) ;;;
  set_region_prev new region ;;;
  set_region_next region new.

(** The code after the loop, never reached: the last region passes the test. *)
Definition append_after (new last pages flags : Z) : K unit :=
  memset_at new 0 sizeof_vregion ;;;
  set_region_next last new ;;;
  set_region_prev new last ;;;
  s <- get ;; set_region_start new (region_end (mem s) last) ;;;
  set_region_pages new pages ;;;
  set_region_flags new (VFLAGS_TO_PFLAGS flags) ;;;
  set_region_next new NULL.

(** Pages [i .. i + n - 1] of the new region; [page_of_index] allocates or computes
    the physical page.  [false]: a page was 0 and the caller returns NULL. *)
Fixpoint map_pages (n : nat) (i ctx new : Z) (page_of_index : Z -> K Z) : K bool :=
  match n with
  | O => ret true
  | S n' =>
      page <- page_of_index i ;;
      if page =? 0 then ret false else
      s <- get ;;
      vmap (ctx_pagemap (mem s) ctx) (w64 (region_start (mem s) new + w64 (i * PAGE_SIZE)))
        page (region_flags (mem s) new) ;;;
      map_pages n' (i + 1) ctx new page_of_index
  end.

(** The body that [valloc] and [vallocat] share. *)
Definition valloc_with (fuel : nat) (gap : memory -> Z -> bool) (page_of_index : Z -> K Z)
    (ctx pages flags : Z) : K Z :=
  s <- get ;;
  if unusable (mem s) ctx then ret NULL else
  let root := ctx_root (mem s) ctx in
  region <- scan_regions fuel gap root ;;
  new <- fa_palloc 1 true ;;
  if new =? NULL then ret NULL else
  (if region =? NULL then append_after new root pages flags
   else insert_after new region pages flags) ;;;
  ok <- map_pages (Z.to_nat pages) 0 ctx new page_of_index ;;
  if ok : bool then gets (fun s => region_start (mem s) new) else ret NULL.

Definition valloc (fuel : nat) (ctx pages flags : Z) : K Z :=
  valloc_with fuel gap_after (fun _ => fa_palloc 1 false) ctx pages flags.

Definition vallocat (fuel : nat) (ctx pages flags phys : Z) : K Z :=
  let phys := ALIGN_DOWN phys PAGE_SIZE in
  valloc_with fuel (gap_after_at pages)
    (fun i => ret (w64 (phys + w64 (i * PAGE_SIZE)))) ctx pages flags.

(** ** vadd *)

Definition overlaps (vaddr vend : Z) (m : memory) (region : Z) : bool :=
  let rstart := region_start m region in
  let rend := region_end m region in
  ((rstart <=? vaddr) && (vaddr <? rend)) ||
  ((rstart <? vend) && (vend <=? rend)) ||
  ((vaddr <=? rstart) && (rend <=? vend)).

(** Linking a node in front of the list. *)
Definition insert_first (new ctx vaddr pages flags : Z) : K unit :=
  memset_at new 0 sizeof_vregion ;;;
  set_region_start new vaddr ;;;
  set_region_pages new pages ;;;
  set_region_flags new (VFLAGS_TO_PFLAGS flags) ;;;
  s <- get ;; set_region_next new (ctx_root (mem s) ctx) ;;;
  s <- get ;;
  when (negb (ctx_root (mem s) ctx =? NULL)) (set_region_prev (ctx_root (mem s) ctx) new) ;;;
  write64 ctx new.

Definition vadd (fuel : nat) (ctx vaddr paddr pages flags : Z) : K Z :=
  s <- get ;;
  if unusable (mem s) ctx then ret NULL else
  let vaddr := ALIGN_DOWN vaddr PAGE_SIZE in
  let paddr := ALIGN_DOWN paddr PAGE_SIZE in
  let vend := w64 (vaddr + w64 (pages * PAGE_SIZE)) in
  region <- scan_regions fuel (overlaps vaddr vend) (ctx_root (mem s) ctx) ;;
  if negb (region =? NULL) then ret NULL else
  new <- fa_palloc 1 true ;;
  if new =? NULL then ret NULL else
  insert_first new ctx vaddr pages flags ;;;
  for_loop (Z.to_nat pages) 0 1 (fun i =>
    s <- get ;;
    vmap (ctx_pagemap (mem s) ctx) (w64 (vaddr + w64 (i * PAGE_SIZE)))
      (w64 (paddr + w64 (i * PAGE_SIZE))) (region_flags (mem s) new) ;;; ret tt) ;;;
  ret vaddr.

(** ** vfree *)

Definition starts_at (ptr : Z) (m : memory) (region : Z) : bool :=
  region_start m region =? ptr.

(** One page of the region; the translation is looked up in the kernel's page map. *)
Definition vfree_page (ctx region i : Z) : K unit :=
  s <- get ;;
  let virt := w64 (region_start (mem s) region + w64 (i * PAGE_SIZE)) in
  let phys := virt_to_phys s (kernel_pagemap (paging s)) virt in
  when (negb (phys =? 0))
    (fa_pfree phys 1 ;;;
     s <- get ;; vunmap (ctx_pagemap (mem s) ctx) virt ;;; ret tt).

Definition vfree (fuel : nat) (ctx ptr : Z) : K unit :=
  if ctx =? NULL then ret tt else
  s <- get ;;
  region <- scan_regions fuel (starts_at ptr) (ctx_root (mem s) ctx) ;;
  if region =? NULL then ret tt else
  s <- get ;;
  let prev := region_prev (mem s) region in
  let next := region_next (mem s) region in
  for_loop (Z.to_nat (region_pages (mem s) region)) 0 1 (vfree_page ctx region) ;;;
  when (negb (prev =? NULL)) (set_region_next prev next) ;;;
  when (negb (next =? NULL)) (set_region_prev next prev) ;;;
  s <- get ;;
  when (region =? ctx_root (mem s) ctx) (write64 ctx next) ;;;
  fa_pfree region 1.

(** ** vget *)

Definition covers (vaddr : Z) (m : memory) (region : Z) : bool :=
  (region_start m region <=? vaddr) && (vaddr <? region_end m region).

Definition vget (fuel : nat) (ctx vaddr : Z) : K Z :=
  s <- get ;;
  if (ctx =? NULL) || (ctx_root (mem s) ctx =? NULL) then ret NULL else
  scan_regions fuel (covers vaddr) (ctx_root (mem s) ctx).
End Vmm.

(** ** Flags as text *)

Definition vflags_to_str (flags : Z) : string :=
  let out := ((if has flags VALLOC_READ then "R" else "") +:+
    (if has flags VALLOC_WRITE then "W" else "") +:+
    (if has flags VALLOC_EXEC then "X" else "") +:+
    (if has flags VALLOC_USER then "U" else ""))%string in
  if (String.length out =? 0)%nat then "-"%string else out.

Definition vpflags_to_str (flags : Z) : string :=
  let out := ((if has flags VMM_PRESENT then "P" else "") +:+
    (if has flags VMM_WRITE then "W" else "") +:+
    (if negb (has flags VMM_NX) then "X" else "") +:+
    (if has flags VMM_USER then "U" else ""))%string in
  if (String.length out =? 0)%nat then "-"%string else out.
