(* ===== verification/VmmFacts.v ===== *)
(** * Virtual memory contexts as lists of regions

    [vctx_ok s c pm l]: context [c] has page map [pm] and the regions [l], each
    node in a frame of its own that is no page table.  The loops over the list
    become searches in [l]; [map_pages] becomes a list of entries written. *)

From S2P Require Export Vmm PagingSpec.

Record region := Region { rg_node : Z; rg_start : Z; rg_pages : Z; rg_flags : Z }.

Definition rg_end (r : region) : Z := w64 (rg_start r + w64 (rg_pages r * PAGE_SIZE)).

(** The nodes linked from [p], with their fields. *)
Fixpoint chain (m : memory) (p : Z) (l : list region) : Prop :=
  match l with
  | [] => p = NULL
  | r :: l' =>
      p = rg_node r /\ p <> NULL /\ region_start m p = rg_start r /\
      region_pages m p = rg_pages r /\ region_flags m p = rg_flags r /\
      chain m (region_next m p) l'
  end.

(** ** Searching *)

Lemma scan_regions_spec fuel found p l s :
  chain (mem s) p l -> (length l < fuel)%nat ->
  wp (scan_regions fuel found p) (fun r s' => s' = s /\
    ((r = NULL /\ Forall (fun x => found (mem s) (rg_node x) = false) l) \/
     exists l1 x l2, l = l1 ++ x :: l2 /\ r = rg_node x /\ r <> NULL /\
       found (mem s) (rg_node x) = true /\
       Forall (fun y => found (mem s) (rg_node y) = false) l1 /\
       chain (mem s) (region_next (mem s) r) l2)) s.
Proof.
  revert p l. induction fuel as [|fuel IH]; intros p l Hl Hf; [lia|]. cbn [scan_regions].
  destruct l as [|x l].
  - cbn in Hl. subst p. cbn [Z.eqb]. wp_step. split; [done|]. by left.
  - destruct Hl as (-> & Hn & _ & _ & _ & Hl).
    destruct (Z.eqb_spec (rg_node x) NULL); [done|]. wp_step. wp_step. cbv beta.
    destruct (found (mem s) (rg_node x)) eqn:Hx.
    + wp_step. split; [done|]. right. exists [], x, l. split_and!; try done.
    + eapply wp_mono; [apply (IH _ l Hl); cbn in Hf; lia|].
      intros r s' [-> [[-> Hall]|(l1 & y & l2 & -> & -> & Hrn & Hy & Hall & Hch)]];
        (split; [done|]).
      * left. split; [done|]. by apply Forall_cons.
      * right. exists (x :: l1), y, l2. split_and!; try done. by apply Forall_cons.
Qed.

Lemma chain_region m p l1 x l2 :
  chain m p (l1 ++ x :: l2) ->
  rg_node x <> NULL /\ region_start m (rg_node x) = rg_start x /\
  region_pages m (rg_node x) = rg_pages x /\ region_flags m (rg_node x) = rg_flags x /\
  chain m (region_next m (rg_node x)) l2.
Proof.
  revert p. induction l1 as [|y l1 IH]; intros p; cbn [app chain].
  - intros (-> & ? & ? & ? & ? & ?). done.
  - intros (-> & _ & _ & _ & _ & Hl). by eapply IH.
Qed.

Lemma chain_end m p l1 x l2 :
  chain m p (l1 ++ x :: l2) -> region_end m (rg_node x) = rg_end x.
Proof.
  intros (_ & Hs & Hp & _)%chain_region. unfold region_end, rg_end. by rewrite Hs, Hp.
Qed.

(** ** Frames: what the list depends on *)

Definition node_agree (m m' : memory) (u : Z) : Prop :=
  forall a, in_range u PAGE_SIZE a -> load8 m' a = load8 m a.

Lemma node_agree_load64 m m' u k :
  node_agree m m' u -> 0 <= k -> k + 8 <= PAGE_SIZE -> load64 m' (u + k) = load64 m (u + k).
Proof.
  intros Ha H0 H1. apply load64_ext. intros x Hx. apply Ha. unfold in_range. lia.
Qed.

Lemma region_fields_agree m m' u :
  node_agree m m' u ->
  region_start m' u = region_start m u /\ region_pages m' u = region_pages m u /\
  region_flags m' u = region_flags m u /\ region_next m' u = region_next m u /\
  region_prev m' u = region_prev m u.
Proof.
  intros Ha. unfold region_start, region_pages, region_flags, region_next, region_prev.
  rewrite <- (Z.add_0_r u) at 1 2.
  split_and!; apply node_agree_load64; (done || unfold PAGE_SIZE; lia).
Qed.

(** The fields that make the list, without [prev]. *)
Definition fields_agree (m m' : memory) (u : Z) : Prop :=
  region_start m' u = region_start m u /\ region_pages m' u = region_pages m u /\
  region_flags m' u = region_flags m u /\ region_next m' u = region_next m u.

Lemma node_fields_agree m m' u : node_agree m m' u -> fields_agree m m' u.
Proof. intros Ha. destruct (region_fields_agree m m' u Ha) as (? & ? & ? & ? & _). done. Qed.

Lemma chain_fields m m' p l :
  Forall (fields_agree m m') (rg_node <$> l) -> chain m p l -> chain m' p l.
Proof.
  revert p. induction l as [|x l IH]; intros p Hall Hl; [done|].
  cbn [fmap list_fmap] in Hall. apply Forall_cons in Hall as [(E1 & E2 & E3 & E4) Hall].
  destruct Hl as (-> & Hn & Hs & Hp & Hf & Hl).
  cbn [chain]. rewrite E1, E2, E3, E4. split_and!; try done. by apply IH.
Qed.

Lemma chain_agree m m' p l :
  Forall (node_agree m m') (rg_node <$> l) -> chain m p l -> chain m' p l.
Proof.
  intros Hall. apply chain_fields. eapply Forall_impl; [exact Hall|]. apply node_fields_agree.
Qed.

Section Context.
Context {FA : FrameAlloc} {FL : FrameAllocLaws}.

(** The pages of the context: its own and those of its nodes. *)
Definition ctx_nodes (c : Z) (l : list region) : list Z := c :: (rg_node <$> l).

Record vctx_ok (s : machine) (c pm : Z) (l : list region) : Prop := VctxOk {
  vc_inv : fa_inv s;
  vc_pt : pt_ok s pm;
  vc_pm : ctx_pagemap (mem s) c = pm;
  vc_chain : chain (mem s) (ctx_root (mem s) c) l;
  vc_nonempty : l <> [];
  vc_nodup : NoDup (ctx_nodes c l);
  vc_client : Forall (client_page s) (ctx_nodes c l);
  vc_tables : Forall (not_table s pm) (ctx_nodes c l) }.

(** [s'] has the same context: its pages are untouched and still no tables. *)
Lemma vctx_ok_keep s s' c pm l :
  vctx_ok s c pm l -> fa_inv s' -> pt_ok s' pm -> hhdm_offset s' = hhdm_offset s ->
  Forall (client_page s') (ctx_nodes c l) ->
  Forall (fun u => node_agree (mem s) (mem s') u /\ not_table s' pm u) (ctx_nodes c l) ->
  vctx_ok s' c pm l.
Proof.
  intros [Hi Hpt Hpm Hch Hne Hnd Hcl Htb] Hi' Hpt' Hh Hcl' Hall.
  apply Forall_and in Hall as [Hag Htb']. pose proof Hag as [Hc Hn]%Forall_cons.
  assert (E : ctx_root (mem s') c = ctx_root (mem s) c).
  { unfold ctx_root. rewrite <- (Z.add_0_r c). by apply node_agree_load64. }
  split; try done.
  - unfold ctx_pagemap in *. rewrite <- Hpm. apply node_agree_load64; (done || unfold PAGE_SIZE; lia).
  - rewrite E. by apply (chain_agree (mem s)).
Qed.

Lemma ctx_nodes_client s s' c pm l :
  vctx_ok s c pm l -> hhdm_offset s' = hhdm_offset s -> (forall f, fa_owned s f -> fa_owned s' f) ->
  Forall (client_page s') (ctx_nodes c l).
Proof.
  intros Hok Hh Ho. eapply Forall_impl; [apply Hok|]. intros u. by apply client_page_mono.
Qed.

(** A page-table operation on the context's page map leaves the context alone. *)
Lemma vctx_ok_updates s s' c pm l tp tr :
  vctx_ok s c pm l -> is_path tp ->
  updates (fun u => u ∈ ctx_nodes c l) tp pm s s' tr ->
  vctx_ok s' c pm l.
Proof.
  intros Hok Htp Hu. apply (vctx_ok_keep s); try done; try apply Hu.
  - by apply globals_hhdm, Hu.
  - apply (ctx_nodes_client s s' c pm l); [done|by apply globals_hhdm, Hu|apply Hu].
  - apply Forall_forall. intros u Hin.
    pose proof (vc_tables _ _ _ _ Hok) as Ht. rewrite Forall_forall in Ht.
    split; [|by apply (up_tables _ _ _ _ _ _ Hu), Ht].
    destruct (up_kept _ _ _ _ _ _ Hu u Hin) as [_ Hb]; [|exact Hb].
    intros p Hp. apply Ht; [done|]. by apply (prefix_is_path p tp).
Qed.

(** [s'] has more owned frames than [s], whose bytes are the same. *)
Record grown (s s' : machine) : Prop := Grown {
  gw_hhdm : hhdm_offset s' = hhdm_offset s;
  gw_owned : forall g, fa_owned s g -> fa_owned s' g;
  gw_bytes : forall u a, client_page s u -> in_range u PAGE_SIZE a ->
      load8 (mem s') a = load8 (mem s) a }.

Lemma hands_out_grown s s' f : hands_out fa_owned s f s' -> grown s s'.
Proof.
  intros Hout. split; [by apply others_hhdm, Hout| |].
  - intros g Hg. apply (ho_owned _ _ _ _ Hout). by left.
  - intros u a (g & Hg & ->). by apply (ho_kept _ _ _ _ Hout g).
Qed.

Lemma hands_out_run_grown s s' f n : hands_out_run fa_owned s f n s' -> grown s s'.
Proof.
  intros Hout. split; [by apply others_hhdm, Hout| |].
  - intros g Hg. apply (hr_owned _ _ _ _ _ Hout). by left.
  - intros u a (g & Hg & ->). by apply (hr_kept _ _ _ _ _ Hout g).
Qed.

Lemma grown_page s s' pm :
  pt_ok s pm -> grown s s' ->
  pt_ok s' pm /\ (forall u, not_table s pm u -> not_table s' pm u) /\
  (forall virt, lookup s' pm virt = lookup s pm virt).
Proof.
  intros Hpt [Hh Ho Hk].
  assert (Hw : forall p, is_path p -> walk s' pm p = walk s pm p)
    by (intros p Hp; by apply walk_kept).
  split_and!.
  - by apply (pt_ok_same s).
  - intros u Hu p Hp. rewrite Hw by done. by apply Hu.
  - intros virt. unfold lookup. rewrite Hw by apply table_path_is_path.
    destruct (walk s pm (table_path virt)) as [t|] eqn:Ht; [|done].
    rewrite (entry_kept s s' t); [done| |by apply page_index_idx].
    intros a. apply Hk. apply (pt_client s pm Hpt (table_path virt)); [apply table_path_is_path|done].
Qed.

Lemma grown_linked s s' pm : pt_ok s pm -> grown s s' -> linked s pm -> linked s' pm.
Proof.
  intros Hpt [Hh Ho Hk]. apply linked_same; [intros p Hp; by apply walk_kept|].
  intros p t i Hp Ht. apply entry_kept; [|by apply (is_path_snoc p)].
  intros a. apply Hk. apply (pt_client s pm Hpt p); [by apply is_path_prefix in Hp|done].
Qed.

Lemma vctx_ok_grown s s' c pm l :
  vctx_ok s c pm l -> fa_inv s' -> grown s s' -> vctx_ok s' c pm l.
Proof.
  intros Hok Hi' Hg. destruct (grown_page s s' pm (vc_pt _ _ _ _ Hok) Hg) as (Hpt' & Hnt & _).
  pose proof (vc_client _ _ _ _ Hok) as Hc. pose proof (vc_tables _ _ _ _ Hok) as Ht.
  rewrite Forall_forall in Hc, Ht. apply (vctx_ok_keep s); try done; [apply Hg| |].
  - apply (ctx_nodes_client s s' c pm l); [done|apply Hg..].
  - apply Forall_forall. intros u Hu. split; [|by apply Hnt, Ht].
    intros a. by apply (gw_bytes _ _ Hg), Hc.
Qed.

(** A frame from the allocator, beside a page map. *)
Lemma fresh_page s s' pm f :
  pt_ok s pm -> hands_out fa_owned s f s' ->
  pt_ok s' pm /\ client_page s' (page_at s f) /\ not_table s' pm (page_at s f) /\
  (forall u, not_table s pm u -> not_table s' pm u) /\
  (forall virt, lookup s' pm virt = lookup s pm virt).
Proof.
  intros Hpt Hout.
  destruct (grown_page s s' pm Hpt (hands_out_grown _ _ _ Hout)) as (Hpt' & Hnt & Hlk).
  split_and!; try done; [by apply (fresh_client s s')|].
  apply Hnt. intros p Hp Hx. apply (fresh_not_client s s' f Hout).
  by apply (pt_client s pm Hpt p).
Qed.

(** A frame from the allocator is no node and no table of the context. *)
Lemma vctx_ok_fresh s s' c pm l f :
  vctx_ok s c pm l -> fa_inv s' -> hands_out fa_owned s f s' ->
  vctx_ok s' c pm l /\ client_page s' (page_at s f) /\ not_table s' pm (page_at s f) /\
  ~ (page_at s f ∈ ctx_nodes c l) /\ (forall u, not_table s pm u -> not_table s' pm u) /\
  (forall virt, lookup s' pm virt = lookup s pm virt).
Proof.
  intros Hok Hi' Hout.
  destruct (fresh_page s s' pm f (vc_pt _ _ _ _ Hok) Hout) as (_ & Hc' & Hn' & Hnt & Hlk).
  split_and!; try done.
  - by apply (vctx_ok_grown s), (hands_out_grown s s' f).
  - pose proof (vc_client _ _ _ _ Hok) as Hc. rewrite Forall_forall in Hc.
    intros Hin%Hc. by apply (fresh_not_client s s' f).
Qed.

(** ** Linking a node *)

Definition poke (a v : Z) (m : memory) : memory := store64 m a v.

(** The memory after [insert_after]. *)
Definition insert_mem (m : memory) (new x pages flags : Z) : memory :=
  let m := memset m new 0 sizeof_vregion in
  let m := poke (new + 8) pages m in
  let m := poke (new + 16) (VFLAGS_TO_PFLAGS flags) m in
  let m := poke new (region_end m x) m in
  let m := poke (new + 24) (region_next m x) m in
  let m := poke (new + 32) x m in
  poke (x + 24) new m.

Lemma insert_after_run new x pages flags s :
  insert_after new x pages flags s = Ret tt (set_mem (insert_mem (mem s) new x pages flags) s).
Proof. done. Qed.

Lemma poke_out a v m b : b < a \/ a + 8 <= b -> load8 (poke a v m) b = load8 m b.
Proof. apply load8_store64_out. Qed.

Lemma poke_eq a v m : 0 <= v < 2 ^ 64 -> load64 (poke a v m) a = v.
Proof. apply load64_store64_id. Qed.

Lemma poke_ne a v m b : b + 8 <= a \/ a + 8 <= b -> load64 (poke a v m) b = load64 m b.
Proof. apply load64_store64_ne. Qed.

Lemma insert_mem_out m new x pages flags a :
  ~ in_range new PAGE_SIZE a -> ~ in_range (x + 24) 8 a ->
  load8 (insert_mem m new x pages flags) a = load8 m a.
Proof.
  unfold in_range, PAGE_SIZE. intros H1 H2. unfold insert_mem.
  rewrite !poke_out by lia. apply memset_agree. unfold in_range, sizeof_vregion. lia.
Qed.

(** The fields of the new node and the [next] of the old one. *)
Lemma insert_mem_fields m new x pages flags :
  (new + PAGE_SIZE <= x \/ x + PAGE_SIZE <= new) -> 0 <= new < 2 ^ 64 -> 0 <= x < 2 ^ 64 ->
  0 <= pages < 2 ^ 64 ->
  let m' := insert_mem m new x pages flags in
  region_start m' new = region_end m x /\ region_pages m' new = pages /\
  region_flags m' new = VFLAGS_TO_PFLAGS flags /\ region_next m' new = region_next m x /\
  region_next m' x = new /\ region_start m' x = region_start m x /\
  region_pages m' x = region_pages m x /\ region_flags m' x = region_flags m x.
Proof.
  intros Hd Hn Hx Hp m'. unfold PAGE_SIZE in Hd.
  assert (Hf : 0 <= VFLAGS_TO_PFLAGS flags < 2 ^ 64).
  { unfold VFLAGS_TO_PFLAGS. destruct (has _ _), (has _ _), (has _ _); vm_compute; split; congruence. }
  set (m1 := memset m new 0 sizeof_vregion).
  assert (E : forall k, 0 <= k -> k + 8 <= 4096 -> load64 m1 (x + k) = load64 m (x + k)).
  { intros k Hk1 Hk2. apply load64_ext. intros b Hb. apply memset_agree.
    unfold in_range, sizeof_vregion. lia. }
  assert (E0 : load64 m1 x = load64 m x) by (rewrite <- (Z.add_0_r x); apply E; lia).
  set (m2 := poke (new + 8) pages m1).
  set (m3 := poke (new + 16) (VFLAGS_TO_PFLAGS flags) m2).
  assert (Eend : region_end m3 x = region_end m x).
  { unfold region_end, region_start, region_pages, m3, m2.
    rewrite !poke_ne by lia. by rewrite E0, E by lia. }
  set (m4 := poke new (region_end m3 x) m3).
  assert (Enx : region_next m4 x = region_next m x).
  { unfold region_next, m4, m3, m2. rewrite !poke_ne by lia. by rewrite E by lia. }
  set (m5 := poke (new + 24) (region_next m4 x) m4).
  assert (Hm : m' = poke (x + 24) new (poke (new + 32) x m5)) by done.
  assert (Hend : 0 <= region_end m3 x < 2 ^ 64) by apply w64_range.
  assert (Hnx : 0 <= region_next m4 x < 2 ^ 64) by apply load64_range.
  rewrite Hm. unfold region_start, region_pages, region_flags, region_next at 1 3.
  split_and!.
  - rewrite poke_ne, poke_ne by lia. unfold m5. rewrite poke_ne by lia. unfold m4.
    by rewrite poke_eq.
  - rewrite poke_ne, poke_ne by lia. unfold m5, m4, m3. rewrite !poke_ne by lia. by apply poke_eq.
  - rewrite poke_ne, poke_ne by lia. unfold m5, m4. rewrite !poke_ne by lia. by apply poke_eq.
  - rewrite poke_ne, poke_ne by lia. unfold m5. rewrite poke_eq by done. exact Enx.
  - by apply poke_eq.
  - rewrite poke_ne, poke_ne by lia. unfold m5, m4, m3, m2. by rewrite !poke_ne by lia.
  - rewrite poke_ne, poke_ne by lia. unfold m5, m4, m3, m2. rewrite !poke_ne by lia. apply E; lia.
  - rewrite poke_ne, poke_ne by lia. unfold m5, m4, m3, m2. rewrite !poke_ne by lia. apply E; lia.
Qed.

Lemma insert_mem_prev m new x pages flags :
  (new + PAGE_SIZE <= x \/ x + PAGE_SIZE <= new) -> 0 <= x < 2 ^ 64 ->
  region_prev (insert_mem m new x pages flags) new = x.
Proof.
  unfold PAGE_SIZE. intros Hd Hx. unfold region_prev, insert_mem. cbv zeta.
  rewrite poke_ne by lia. by apply poke_eq.
Qed.

Lemma insert_mem_prev_at m new x pages flags :
  (new + PAGE_SIZE <= x \/ x + PAGE_SIZE <= new) ->
  region_prev (insert_mem m new x pages flags) x = region_prev m x.
Proof.
  unfold PAGE_SIZE. intros Hd. apply load64_ext. intros a Ha.
  apply insert_mem_out; unfold in_range, PAGE_SIZE in *; lia.
Qed.

Lemma chain_insert m m' p l1 x l2 y :
  chain m p (l1 ++ x :: l2) ->
  Forall (node_agree m m') (rg_node <$> (l1 ++ l2)) ->
  region_next m' (rg_node x) = rg_node y -> region_next m' (rg_node y) = region_next m (rg_node x) ->
  region_start m' (rg_node x) = region_start m (rg_node x) ->
  region_pages m' (rg_node x) = region_pages m (rg_node x) ->
  region_flags m' (rg_node x) = region_flags m (rg_node x) ->
  rg_node y <> NULL -> region_start m' (rg_node y) = rg_start y ->
  region_pages m' (rg_node y) = rg_pages y -> region_flags m' (rg_node y) = rg_flags y ->
  chain m' p (l1 ++ x :: y :: l2).
Proof.
  intros Hch Hag H1 H2 H3 H4 H5 H6 H7 H8 H9. revert p Hch Hag.
  induction l1 as [|z l1 IH]; intros p Hch Hag; cbn [app chain] in *.
  - destruct Hch as (-> & Hn & E1 & E2 & E3 & Hl). rewrite H3, H4, H5, H1, H2.
    split_and!; try done. by apply (chain_agree m).
  - cbn [fmap list_fmap] in Hag. apply Forall_cons in Hag as [Hz Hag].
    destruct Hch as (-> & Hn & E1 & E2 & E3 & Hl).
    destruct (region_fields_agree m m' (rg_node z) Hz) as (G1 & G2 & G3 & G4 & _).
    rewrite G1, G2, G3, G4. split_and!; try done. by apply IH.
Qed.

(** Writing to clients' pages that are no tables leaves the tables alone. *)
Lemma client_writes_tables s m W pm :
  pt_ok s pm -> Forall (fun u => client_page s u /\ not_table s pm u) W ->
  agree_outside (fun a => exists u, u ∈ W /\ in_range u PAGE_SIZE a) (mem s) m ->
  (forall p t i, is_path p -> walk s pm p = Some t -> idx i -> entry (set_mem m s) t i = entry s t i) /\
  (forall p, is_path p -> walk (set_mem m s) pm p = walk s pm p).
Proof.
  intros Hpt HW Hm. rewrite Forall_forall in HW.
  assert (Hent : forall p t i, is_path p -> walk s pm p = Some t -> idx i ->
    entry (set_mem m s) t i = entry s t i).
  { intros p t i Hp Ht Hx. apply entry_kept; [|done]. intros a Ha. apply Hm.
    intros (u & Hu & Hua). destruct (HW u Hu) as [Hc Hnt]. apply (Hnt p Hp). rewrite Ht. f_equal.
    apply (client_page_disjoint s t u a); try done. by apply (pt_client s pm Hpt p). }
  split; [exact Hent|]. intros p Hp. apply walk_ext. intros q t i r -> Hq. apply get_table_ext; [done|].
  pose proof (is_path_prefix _ _ Hp) as Hq'. apply (Hent q); [done|done|].
  destruct Hp as [_ Hf]. apply Forall_app in Hf as [_ Hf]. by apply Forall_cons in Hf as [? _].
Qed.

Lemma client_writes_linked s m W pm :
  pt_ok s pm -> Forall (fun u => client_page s u /\ not_table s pm u) W ->
  agree_outside (fun a => exists u, u ∈ W /\ in_range u PAGE_SIZE a) (mem s) m ->
  linked s pm -> linked (set_mem m s) pm.
Proof.
  intros Hpt HW Hm. destruct (client_writes_tables s m W pm Hpt HW Hm) as [Hent Hw].
  apply linked_same; [exact Hw|]. intros p t i Hp Ht.
  apply (Hent p); [by apply is_path_prefix in Hp|done|by apply (is_path_snoc p)].
Qed.

(** Writing to client pages that are no tables. *)
Lemma client_writes s m W pm :
  fa_inv s -> pt_ok s pm -> Forall (fun u => client_page s u /\ not_table s pm u) W ->
  agree_outside (fun a => exists u, u ∈ W /\ in_range u PAGE_SIZE a) (mem s) m ->
  fa_inv (set_mem m s) /\ (forall f, fa_owned (set_mem m s) f <-> fa_owned s f) /\
  pt_ok (set_mem m s) pm /\ (forall p, is_path p -> walk (set_mem m s) pm p = walk s pm p) /\
  (forall virt, lookup (set_mem m s) pm virt = lookup s pm virt).
Proof.
  intros Hi Hpt HW Hm.
  destruct (client_writes_tables s m W pm Hpt HW Hm) as [Hent Hw]. rewrite Forall_forall in HW.
  destruct (fa_client s (set_mem m s) Hi) as [Hi' Ho']; [done..| |].
  { intros a _ Hne. destruct (decide (Exists (fun u => in_range u PAGE_SIZE a) W)) as [Hex|Hno].
    - apply Exists_exists in Hex as (u & Hu & Ha). destruct (HW u Hu) as [(f & Hf & ->) _].
      by exists f.
    - exfalso. apply Hne. apply Hm. intros (u & Hu & Ha). apply Hno, Exists_exists. by exists u. }
  split_and!; try done.
  - apply (pt_ok_same s); try done. intros f. apply Ho'.
  - intros virt. unfold lookup. rewrite Hw by apply table_path_is_path.
    destruct (walk s pm (table_path virt)) as [t|] eqn:Ht; [|done].
    rewrite (Hent (table_path virt)); [done|apply table_path_is_path|done|].
    by apply page_index_idx.
Qed.

#[export] Instance in_range_dec lo n a : Decision (in_range lo n a).
Proof. unfold in_range. apply _. Defined.

(** Rewriting the nodes' pages so that they hold another list. *)
Lemma vctx_ok_relink s c pm l l' m :
  vctx_ok s c pm l -> l' <> [] -> NoDup (ctx_nodes c l') ->
  (forall u, u ∈ ctx_nodes c l' -> u ∈ ctx_nodes c l) ->
  agree_outside (fun a => exists u, u ∈ ctx_nodes c l /\ in_range u PAGE_SIZE a) (mem s) m ->
  ctx_pagemap m c = pm -> chain m (ctx_root m c) l' ->
  vctx_ok (set_mem m s) c pm l' /\ (forall f, fa_owned (set_mem m s) f <-> fa_owned s f) /\
  (forall u, not_table s pm u -> not_table (set_mem m s) pm u) /\
  (forall virt, lookup (set_mem m s) pm virt = lookup s pm virt).
Proof.
  intros [Hi Hpt Hpm Hch Hne Hnd Hcl Htb] Hne' Hnd' Hsub Hm Hpm' Hch'.
  destruct (client_writes s m (ctx_nodes c l) pm) as (Hi' & Ho' & Hpt' & Hw' & Hlk'); try done.
  { apply Forall_and. done. }
  assert (Hnt : forall u, not_table s pm u -> not_table (set_mem m s) pm u).
  { intros u Hu p Hp. rewrite Hw' by done. by apply Hu. }
  rewrite Forall_forall in Hcl, Htb.
  split; [|split_and!; done]. split; try done.
  - apply Forall_forall. intros u Hu. apply (client_page_mono s); [done|intros f; apply Ho'|].
    apply Hcl, Hsub, Hu.
  - apply Forall_forall. intros u Hu. apply Hnt, Htb, Hsub, Hu.
Qed.

Lemma ctx_nodes_app c l1 x l2 u :
  u ∈ ctx_nodes c (l1 ++ x :: l2) <->
  u = c \/ u ∈ rg_node <$> l1 \/ u = rg_node x \/ u ∈ rg_node <$> l2.
Proof. unfold ctx_nodes. rewrite fmap_app, fmap_cons, !elem_of_cons, elem_of_app, elem_of_cons. done. Qed.

(** ** The context after [insert_after] *)

Section Insert.
Context (s : machine) (c pm : Z) (l1 l2 : list region) (x : region) (n pages flags : Z).
Hypothesis (Hok : vctx_ok s c pm (l1 ++ x :: l2)).
Hypothesis (Hcn : client_page s n) (Htn : not_table s pm n)
  (Hnin : ~ (n ∈ ctx_nodes c (l1 ++ x :: l2))) (Hp : 0 <= pages < 2 ^ 64).

Let m' := insert_mem (mem s) n (rg_node x) pages flags.
Let y := Region n (rg_end x) pages (VFLAGS_TO_PFLAGS flags).

Lemma insert_at : rg_node x ∈ ctx_nodes c (l1 ++ x :: l2).
Proof. rewrite ctx_nodes_app. tauto. Qed.

Lemma insert_pages : Forall (fun u => client_page s u /\ not_table s pm u) [n; rg_node x].
Proof.
  pose proof Hok as [_ _ _ _ _ _ Hcl Htb]. rewrite Forall_forall in Hcl, Htb.
  rewrite Forall_cons, Forall_singleton. split_and!; try done; [apply Hcl|apply Htb]; apply insert_at.
Qed.

Lemma insert_layout :
  (n + PAGE_SIZE <= rg_node x \/ rg_node x + PAGE_SIZE <= n) /\ 0 < n /\ n + PAGE_SIZE <= 2 ^ 64 /\
  0 < rg_node x /\ rg_node x + PAGE_SIZE <= 2 ^ 64.
Proof.
  pose proof insert_pages as [[Hcn' _] [[Hcx _] _]%Forall_cons]%Forall_cons.
  pose proof (client_page_bounds s n (vc_inv _ _ _ _ Hok) Hcn) as (_ & _ & ? & ?).
  pose proof (client_page_bounds s _ (vc_inv _ _ _ _ Hok) Hcx) as (_ & _ & ? & ?).
  split_and!; try done. apply (client_page_apart s); [done..|].
  intros He. apply Hnin. rewrite He. apply insert_at.
Qed.

Lemma insert_agree :
  agree_outside (fun a => exists u, u ∈ [n; rg_node x] /\ in_range u PAGE_SIZE a) (mem s) m'.
Proof.
  intros a Ha. apply insert_mem_out; intros Hin; apply Ha.
  - exists n. rewrite !elem_of_cons. tauto.
  - exists (rg_node x). rewrite !elem_of_cons. split; [tauto|].
    unfold in_range, PAGE_SIZE in *. lia.
Qed.

Lemma insert_node_agree u :
  u ∈ ctx_nodes c (l1 ++ x :: l2) -> u <> rg_node x -> node_agree (mem s) m' u.
Proof.
  intros Hu Hux a Ha. apply insert_agree. intros (w & Hw & Haw).
  pose proof insert_pages as HW. pose proof (vc_client _ _ _ _ Hok) as Hcl.
  rewrite Forall_forall in HW, Hcl.
  assert (Huw : u = w) by (apply (client_page_disjoint s u w a); try done;
    [by apply Hcl|by apply HW]).
  subst w. apply elem_of_cons in Hw as [-> | ->%list_elem_of_singleton]; done.
Qed.

(** The new list of nodes has no duplicates, and each list of regions has none of the other's. *)
Lemma insert_nodup :
  c <> rg_node x /\ ~ (rg_node x ∈ rg_node <$> l1) /\ ~ (rg_node x ∈ rg_node <$> l2) /\
  NoDup (ctx_nodes c (l1 ++ x :: y :: l2)).
Proof.
  pose proof (vc_nodup _ _ _ _ Hok) as Hnd. rewrite ctx_nodes_app in Hnin.
  unfold ctx_nodes in *. rewrite fmap_app, fmap_cons in Hnd.
  apply NoDup_cons in Hnd as [Hcnin Hnd]. rewrite elem_of_app, elem_of_cons in Hcnin.
  pose proof Hnd as (Hnd1 & Hnd12 & Hnd2)%NoDup_app. apply NoDup_cons in Hnd2 as [Hx2n Hnd2].
  assert (Hx1 : ~ (rg_node x ∈ rg_node <$> l1)).
  { intros Hin. apply (Hnd12 _ Hin). rewrite elem_of_cons. by left. }
  split_and!; [tauto|done..|].
  rewrite fmap_app, !fmap_cons. cbn [rg_node y].
  apply NoDup_cons. rewrite elem_of_app, !elem_of_cons. split.
  { assert (c <> n) by (intros ->; tauto). tauto. }
  apply NoDup_app. split; [done|]. split.
  - intros u Hu. rewrite !elem_of_cons. intros [->|[->|Hu2]]; [done|tauto|].
    apply (Hnd12 u); [done|]. rewrite elem_of_cons. by right.
  - rewrite !NoDup_cons, elem_of_cons. split_and!; [|tauto|done].
    intros [He|?]; [apply Hnin; rewrite <-He; tauto|tauto].
Qed.

Lemma insert_ctx : ctx_root m' c = ctx_root (mem s) c /\ ctx_pagemap m' c = pm.
Proof.
  assert (Hcag : node_agree (mem s) m' c).
  { apply insert_node_agree; [rewrite ctx_nodes_app; tauto|]. apply insert_nodup. }
  rewrite <- (vc_pm _ _ _ _ Hok). unfold ctx_root, ctx_pagemap. rewrite <- (Z.add_0_r c) at 1 2.
  split; (apply node_agree_load64; [done|lia|unfold PAGE_SIZE; lia]).
Qed.

Lemma vctx_ok_insert :
  vctx_ok (set_mem m' s) c pm (l1 ++ x :: y :: l2) /\
  (forall f, fa_owned (set_mem m' s) f <-> fa_owned s f) /\
  (forall u, not_table s pm u -> not_table (set_mem m' s) pm u) /\
  (forall virt, lookup (set_mem m' s) pm virt = lookup s pm virt).
Proof.
  pose proof Hok as [Hi Hpt Hpm Hch Hne Hnd Hcl Htb]. rewrite Forall_forall in Hcl, Htb.
  destruct (client_writes s m' _ pm Hi Hpt insert_pages insert_agree) as (Hi' & Ho' & Hpt' & Hw' & Hlk').
  destruct insert_layout as (Hdis & Hn1 & Hn2 & Hx1 & Hx2). destruct insert_ctx as [Hcr Hcp].
  destruct insert_nodup as (Hcx & Hxl1 & Hxl2 & Hnd').
  destruct (insert_mem_fields (mem s) n (rg_node x) pages flags Hdis ltac:(unfold PAGE_SIZE in *; lia)
    ltac:(unfold PAGE_SIZE in *; lia) Hp) as (F1 & F2 & F3 & F4 & F5 & F6 & F7 & F8).
  assert (Hnodes : forall u, u ∈ ctx_nodes c (l1 ++ x :: y :: l2) ->
    u = n \/ u ∈ ctx_nodes c (l1 ++ x :: l2)).
  { intros u. rewrite !ctx_nodes_app, fmap_cons, elem_of_cons. cbn [rg_node y]. tauto. }
  assert (Hnt' : forall u, not_table s pm u -> not_table (set_mem m' s) pm u)
    by (intros u Hu p Hpp; rewrite Hw' by done; by apply Hu).
  split; [|split_and!; done]. split; try done; cbn [mem set_mem].
  - rewrite Hcr. apply (chain_insert (mem s)); try done.
    + rewrite fmap_app. apply Forall_app. split; apply Forall_forall; intros u Hu;
        (apply insert_node_agree; [rewrite ctx_nodes_app; tauto|by intros ->]).
    + cbn. lia.
    + cbn [rg_node rg_start y]. etransitivity; [exact F1|].
      by apply (chain_end (mem s) (ctx_root (mem s) c) l1 x l2).
  - destruct l1; done.
  - apply Forall_forall. intros u Hu. apply (client_page_mono s); [done|intros f; apply Ho'|].
    destruct (Hnodes u Hu) as [->|Hu']; [done|by apply Hcl].
  - apply Forall_forall. intros u Hu. apply Hnt'. destruct (Hnodes u Hu) as [->|Hu']; [done|by apply Htb].
Qed.
End Insert.
End Context.
