(* ===== verification/VmmSpec.v ===== *)
(** * What the context operations do *)

From S2P Require Export VmmFacts.

(** The page of the [i]-th page of a region. *)
Definition nth_page (start : Z) (i : nat) : Z := start + Z.of_nat i * PAGE_SIZE.

Lemma page_of_nth start i j k :
  0 <= start -> start + Z.of_nat k * PAGE_SIZE <= 2 ^ 48 -> (i < k)%nat -> (j < k)%nat ->
  page_of (nth_page start i) = page_of (nth_page start j) -> i = j.
Proof.
  unfold page_of, nth_page, PAGE_SIZE. intros H0 H1 Hi Hj.
  rewrite !Z.div_add by lia.
  pose proof (Z.div_mod start 4096 ltac:(lia)). pose proof (Z.mod_pos_bound start 4096 ltac:(lia)).
  rewrite !Z.mod_small by lia. lia.
Qed.

Section Spec.
Context {FA : FrameAlloc} {FL : FrameAllocLaws}.

(** From [s] to [s'] the pages from [start] on got the entries [es] ([None]: the
    page was left as it was); no other page translates differently. *)
Record pages_set (s s' : machine) (pm start : Z) (es : list (option Z)) : Prop := PagesSet {
  ps_in : forall i o, es !! i = Some o ->
      lookup s' pm (nth_page start i) =
        match o with Some e => Some e | None => lookup s pm (nth_page start i) end;
  ps_out : forall v,
      (forall i, (i < length es)%nat -> page_of v <> page_of (nth_page start i)) ->
      lookup s' pm v = lookup s pm v }.

Lemma pages_set_nil s s' pm start :
  (forall v, lookup s' pm v = lookup s pm v) -> pages_set s s' pm start [].
Proof. intros H. split; [done|]. intros v _. apply H. Qed.

Lemma pages_set_same s s1 s2 pm start es :
  pages_set s s1 pm start es -> (forall v, lookup s2 pm v = lookup s1 pm v) ->
  pages_set s s2 pm start es.
Proof.
  intros [Hin Hout] H. split; [intros i o Ho|intros v Hv]; rewrite H; auto.
Qed.

(** The next page: left alone, or set to [e]. *)
Lemma pages_set_skip s s1 pm start es k :
  0 <= start -> start + Z.of_nat k * PAGE_SIZE <= 2 ^ 48 -> (length es < k)%nat ->
  pages_set s s1 pm start es -> pages_set s s1 pm start (es ++ [None]).
Proof.
  intros H0 Hb Hk [Hin Hout]. split.
  - intros i o [Ho|[Hge Ho]]%lookup_app_Some; [by apply Hin|].
    apply list_lookup_singleton_Some in Ho as [Hi <-].
    apply Hout. intros j Hj He. apply (page_of_nth start i j k) in He; lia.
  - intros v Hv. apply Hout. intros i Hi. apply Hv. rewrite length_app. cbn. lia.
Qed.

Lemma pages_set_snoc s s1 s2 pm start es e k :
  0 <= start -> start + Z.of_nat k * PAGE_SIZE <= 2 ^ 48 -> (length es < k)%nat ->
  has e VMM_PRESENT = true -> pages_set s s1 pm start es ->
  (forall v, lookup s2 pm v = set_page e (nth_page start (length es)) (lookup s1 pm) v) ->
  pages_set s s2 pm start (es ++ [Some e]).
Proof.
  intros H0 Hb Hk He [Hin Hout] H2. split.
  - intros i o Ho. rewrite H2. unfold set_page.
    apply lookup_app_Some in Ho as [Ho|[Hge Ho]].
    + rewrite decide_False; [by apply Hin|]. apply lookup_lt_Some in Ho.
      intros Hp. apply (page_of_nth start _ _ k) in Hp; lia.
    + apply list_lookup_singleton_Some in Ho as [Hi <-].
      replace i with (length es) by lia. rewrite decide_True by done. by rewrite He.
  - intros v Hv. rewrite H2. unfold set_page. rewrite decide_False.
    + apply Hout. intros i Hi. apply Hv. rewrite length_app. cbn. lia.
    + apply Hv. rewrite length_app. cbn. lia.
Qed.

(** Frames, and pages that are no tables, stay so and keep their bytes; the globals
    and the memory below the direct map stay. *)
Record kept (pm : Z) (s s' : machine) : Prop := Kept {
  k_globals : globals s' = globals s;
  k_owned : forall f, fa_owned s f -> fa_owned s' f;
  k_tables : forall u, client_page s u -> not_table s pm u -> not_table s' pm u;
  k_bytes : forall u, client_page s u -> not_table s pm u -> node_agree (mem s) (mem s') u;
  k_low : forall a, a < hhdm_offset s -> load8 (mem s') a = load8 (mem s) a;
  k_linked : linked s pm -> linked s' pm }.

Lemma k_hhdm pm s s' : kept pm s s' -> hhdm_offset s' = hhdm_offset s.
Proof. intros Hk. by apply globals_hhdm, (k_globals pm). Qed.

Lemma kept_client pm s s' u : kept pm s s' -> client_page s u -> client_page s' u.
Proof. intros Hk. apply client_page_mono; [by apply (k_hhdm pm)|apply Hk]. Qed.

Lemma kept_refl pm s : kept pm s s.
Proof. by split. Qed.

Lemma node_agree_trans m1 m2 m3 u : node_agree m1 m2 u -> node_agree m2 m3 u -> node_agree m1 m3 u.
Proof. intros H1 H2 a Ha. by rewrite H2, H1. Qed.

Lemma kept_trans pm s1 s2 s3 : kept pm s1 s2 -> kept pm s2 s3 -> kept pm s1 s3.
Proof.
  intros Hk Gk. pose proof (k_hhdm _ _ _ Hk) as Hh.
  assert (Hc : forall u, client_page s1 u -> client_page s2 u) by (intros u; by apply (kept_client pm)).
  destruct Hk as [H1 H2 H3 H4 H5 H6], Gk as [G1 G2 G3 G4 G5 G6].
  split; [congruence|auto|auto| | |auto].
  - intros u Hu Hn. apply (node_agree_trans _ (mem s2)); auto.
  - intros a Ha. rewrite G5, H5 by (done || lia). done.
Qed.

Lemma kept_updates pm s s' tp tr :
  is_path tp -> updates (client_page s) tp pm s s' tr -> kept pm s s'.
Proof.
  intros Htp Hu. split; [apply Hu|apply Hu|apply Hu| |apply Hu|apply Hu].
  intros u Hc Hn. destruct (up_kept _ _ _ _ _ _ Hu u Hc) as [_ Hb]; [|exact Hb].
  intros p Hp. apply Hn. by apply (prefix_is_path p tp).
Qed.

Lemma others_globals s s' : others s' = others s -> globals s' = globals s.
Proof. unfold others, globals. congruence. Qed.

Lemma kept_fresh pm s s' f : pt_ok s pm -> hands_out fa_owned s f s' -> kept pm s s'.
Proof.
  intros Hpt Hout. destruct (fresh_page s s' pm f Hpt Hout) as (_ & _ & _ & Hnt & _).
  split; [apply others_globals, Hout| |auto| |apply Hout|by apply grown_linked, (hands_out_grown s s' f)].
  - intros g Hg. apply (ho_owned _ _ _ _ Hout). by left.
  - intros u (g & Hg & ->) _ a. by apply (ho_kept _ _ _ _ Hout g).
Qed.

(** The same for the pages that are none of [nodes]. *)
Record spared (pm : Z) (nodes : list Z) (s s' : machine) : Prop := Spared {
  sp_globals : globals s' = globals s;
  sp_owned : forall f, fa_owned s f -> fa_owned s' f;
  sp_low : forall a, a < hhdm_offset s -> load8 (mem s') a = load8 (mem s) a;
  sp_pages : forall u, client_page s u -> not_table s pm u -> u ∉ nodes ->
      not_table s' pm u /\ node_agree (mem s) (mem s') u;
  sp_linked : linked s pm -> linked s' pm }.

Lemma spared_kept pm nodes s s' : kept pm s s' -> spared pm nodes s s'.
Proof. intros [H1 H2 H3 H4 H5 H6]. split; auto. Qed.

Lemma spared_weaken pm nodes nodes' s s' :
  (forall u, u ∈ nodes -> u ∈ nodes') -> spared pm nodes s s' -> spared pm nodes' s s'.
Proof. intros Hsub [H1 H2 H3 H4 H5]. split; auto. Qed.

Lemma spared_trans pm nodes s1 s2 s3 :
  spared pm nodes s1 s2 -> spared pm nodes s2 s3 -> spared pm nodes s1 s3.
Proof.
  intros [A1 A2 A3 A4 A5] [B1 B2 B3 B4 B5]. pose proof (globals_hhdm _ _ A1) as Hh.
  split; [congruence|auto| | |auto].
  - intros a Ha. rewrite B3, A3 by (done || lia). done.
  - intros u Hu Hn Hx. destruct (A4 u Hu Hn Hx) as [C1 C2].
    destruct (B4 u (client_page_mono s1 s2 u Hh A2 Hu) C1 Hx) as [D1 D2].
    split; [done|by apply (node_agree_trans _ (mem s2))].
Qed.

(** Writing to pages [W]. *)
Lemma spared_writes s pm W m :
  fa_inv s -> pt_ok s pm -> Forall (fun u => client_page s u /\ not_table s pm u) W ->
  agree_outside (fun a => exists u, u ∈ W /\ in_range u PAGE_SIZE a) (mem s) m ->
  spared pm W s (set_mem m s).
Proof.
  intros Hi Hpt HW Hm. pose proof HW as HW'. destruct (client_writes s m W pm Hi Hpt HW Hm) as (_ & Ho & _ & Hw & _).
  rewrite Forall_forall in HW. split; [done|intros f; by apply Ho| | |by apply (client_writes_linked s m W)].
  - intros a Ha. apply Hm. intros (u & Hu & Hin). destruct (HW u Hu) as [Hc _].
    destruct (client_page_bounds s u Hi Hc) as (Hle & _). unfold in_range in Hin. lia.
  - intros u Hu Hn Hx. split.
    + intros p Hp. rewrite Hw by done. by apply Hn.
    + intros a Ha. apply Hm. intros (w & Hwin & Haw). destruct (HW w Hwin) as [Hc _].
      apply Hx. by rewrite (client_page_disjoint s u w a).
Qed.

(** A fresh page is taken, written together with the nodes, and pages are mapped. *)
Lemma spared_fresh pm nodes s s1 s2 s3 f :
  pt_ok s pm -> hands_out fa_owned s f s1 -> spared pm (page_at s f :: nodes) s1 s2 -> kept pm s2 s3 ->
  spared pm nodes s s3.
Proof.
  intros Hpt Hout Hsp2 Hk3.
  pose proof (spared_kept pm (page_at s f :: nodes) _ _ Hk3) as Hsp3.
  pose proof (spared_kept pm (page_at s f :: nodes) _ _ (kept_fresh pm s s1 f Hpt Hout)) as Hsp1.
  destruct (spared_trans _ _ _ _ _ Hsp1 (spared_trans _ _ _ _ _ Hsp2 Hsp3)) as [A1 A2 A3 A4 A5].
  split; [done..| |done]. intros u Hu Hn Hx. apply A4; [done..|].
  rewrite elem_of_cons. intros [->|]; [|done].
  destruct Hu as (g & Hg & He). apply page_at_inj in He. subst g.
  by apply (ho_new _ _ _ _ Hout).
Qed.

Lemma updates_weaken (own own' : Z -> Prop) tp pm s s' tr :
  (forall u, own' u -> own u) -> updates own tp pm s s' tr -> updates own' tp pm s s' tr.
Proof. intros Hsub []. split; auto. Qed.

(** ** Mapping the next page of a run *)

Section PageStep.
Context (s0 : machine) (c pm start : Z) (l : list region) (k : nat).
Hypothesis (Hstart : 0 <= start) (Hbound : start + Z.of_nat k * PAGE_SIZE <= 2 ^ 48).

Lemma nth_page_w64 i : (i < k)%nat ->
  w64 (start + w64 (Z.of_nat i * PAGE_SIZE)) = nth_page start i.
Proof. intros Hi. unfold nth_page, PAGE_SIZE in *. rewrite !w64_id; rewrite ?w64_id; lia. Qed.

(** What [vmap] may do with a page: without 2 MiB pages in the way only exhausted frames
    make it fail. *)
Definition tried (s : machine) (pm page fl : Z) (s' : machine) (o : option Z) : Prop :=
  ((o = None /\ (linked s pm -> fa_full s')) \/ o = Some (Z.lor page fl)) /\
  fa_free s <= fa_free s' + 3.

Lemma vmap_next page fl es s :
  (length es < k)%nat -> vctx_ok s c pm l -> pages_set s0 s pm start es ->
  0 <= page < 2 ^ 64 -> 0 <= fl < 2 ^ 64 -> has fl VMM_PRESENT = true ->
  wp (vmap pm (nth_page start (length es)) page fl) (fun _ s' =>
    vctx_ok s' c pm l /\ (kept pm s s' /\ (fa_full s -> fa_full s')) /\
    exists o, tried s pm page fl s' o /\ pages_set s0 s' pm start (es ++ [o])) s.
Proof.
  intros Hk Hok Hps Hpr Hfr Hfp. set (virt := nth_page start (length es)).
  eapply wp_mono.
  { apply (vmap_spec (client_page s) pm virt page fl s); [apply Hok|apply Hok|done..]. }
  assert (Hnodes : forall u, u ∈ ctx_nodes c l -> client_page s u).
  { intros u Hu. pose proof (vc_client _ _ _ _ Hok) as Hc. rewrite Forall_forall in Hc. by apply Hc. }
  cbv beta. intros r s2 [(_ & Hu & _ & Hfull)|(_ & Hu & _)];
    (split; [exact (vctx_ok_updates _ _ _ _ _ _ _ Hok (table_path_is_path virt)
       (updates_weaken _ _ _ _ _ _ _ Hnodes Hu))|]);
    (split; [split; [exact (kept_updates _ _ _ _ _ (table_path_is_path virt) Hu)|apply Hu]|]).
  - exists None. split; [split; [left; by split|]; by apply (counted_page _ pm _ _ (table_path_is_path virt)), Hu|].
    apply (pages_set_skip s0 s2 pm start es k); try done.
    apply (pages_set_same s0 s); [done|]. apply (up_lookup _ _ _ _ _ _ Hu).
  - exists (Some (Z.lor page fl)).
    split; [split; [by right|]; by apply (counted_page _ pm _ _ (table_path_is_path virt)), Hu|].
    apply (pages_set_snoc s0 s s2 pm start es (Z.lor page fl) k); try done.
    + rewrite has_lor, Hfp. apply orb_true_r.
    + apply (up_lookup _ _ _ _ _ _ Hu).
Qed.
End PageStep.

(** ** map_pages *)

Section MapPages.
Context (s0 : machine) (c pm : Z) (l1 l2 : list region) (y : region).
Context (page_of_index : Z -> K Z) (J : machine -> list (option Z) -> Prop) (F : machine -> Prop).

Let l := l1 ++ y :: l2.

(** What the caller's supply of pages must do: leave the context alone, keep [J]
    whatever [vmap] then does with the page, and have [F] hold when there is no page. *)
Hypothesis (Hgen : forall s es, vctx_ok s c pm l -> J s es ->
  wp (page_of_index (Z.of_nat (length es))) (fun page s' =>
    vctx_ok s' c pm l /\ (forall v, lookup s' pm v = lookup s pm v) /\ kept pm s s' /\
    (page = 0 -> F s' /\ J s' es) /\
    (page <> 0 -> 0 <= page < 2 ^ 64 /\ forall s'' o, kept pm s' s'' ->
       tried s' pm page (rg_flags y) s'' o -> J s'' (es ++ [o]))) s).
Hypothesis (Hstart : 0 <= rg_start y) (Hflags : 0 <= rg_flags y < 2 ^ 64)
  (Hpresent : has (rg_flags y) VMM_PRESENT = true).

Lemma map_pages_spec n k es s :
  rg_start y + Z.of_nat k * PAGE_SIZE <= 2 ^ 48 -> (length es + n <= k)%nat ->
  vctx_ok s c pm l -> pages_set s0 s pm (rg_start y) es -> J s es ->
  wp (map_pages n (Z.of_nat (length es)) c (rg_node y) page_of_index) (fun ok s' =>
    vctx_ok s' c pm l /\ kept pm s s' /\ exists es', pages_set s0 s' pm (rg_start y) es' /\ J s' es' /\
      if ok : bool then length es' = (length es + n)%nat else F s' /\ (length es' < length es + n)%nat) s.
Proof.
  intros Hb. revert es s. induction n as [|n IH]; intros es s Hk Hok Hps HJ.
  { cbn. split; [done|]. split; [apply kept_refl|]. exists es. split_and!; [done..|]. lia. }
  cbn [map_pages]. wp_step. eapply wp_mono; [by apply Hgen|]. cbv beta.
  intros page s1 (Hok1 & Hlk1 & Hk1 & HF & Hpage).
  pose proof (pages_set_same _ _ _ _ _ _ Hps Hlk1) as Hps1.
  destruct (Z.eqb_spec page 0) as [|Hpn].
  { wp_step. split; [done|]. split; [done|]. exists es. destruct (HF e) as [HF' HJ1]. split_and!; auto. lia. }
  destruct (Hpage Hpn) as [Hpr HJ2]. wp_step. wp_step. cbv beta.
  destruct (chain_region _ _ _ _ _ (vc_chain _ _ _ _ Hok1)) as (Hnn & Es & _ & Ef & _).
  rewrite Es, Ef, (vc_pm _ _ _ _ Hok1).
  rewrite (nth_page_w64 (rg_start y) k Hstart Hb) by lia.
  wp_step. eapply wp_mono.
  { by apply (vmap_next s0 c pm (rg_start y) l k Hstart Hb page (rg_flags y) es s1); [lia|..]. }
  cbv beta. intros r s2 (Hok2 & [Hk2 _] & o & Ho & Hps2).
  replace (Z.of_nat (length es) + 1) with (Z.of_nat (length (es ++ [o])))
    by (rewrite length_app; cbn; lia).
  eapply wp_mono; [apply (IH (es ++ [o]) s2)|].
  - rewrite length_app. cbn. lia.
  - done.
  - done.
  - by apply HJ2.
  - intros ok s3 (Hok3 & Hk3 & es' & Hps3 & HJ3 & Hlen). split; [done|].
    split; [eapply kept_trans, kept_trans; [exact Hk1|exact Hk2|exact Hk3]|]. exists es'.
    split_and!; [done..|]. rewrite length_app in Hlen. cbn in Hlen. destruct ok; [lia|]. split; [apply Hlen|lia].
Qed.
End MapPages.

(** ** valloc and vallocat *)

(** What a supply of pages must do, for any list of regions: see [map_pages_spec]. *)
Definition supplies (c pm fl : Z) (page_of_index : Z -> K Z)
    (J : list Z -> machine -> list (option Z) -> Prop) (F : machine -> Prop) : Prop :=
  forall l s es, let nodes := ctx_nodes c l in vctx_ok s c pm l -> J nodes s es ->
  wp (page_of_index (Z.of_nat (length es))) (fun page s' =>
    vctx_ok s' c pm l /\ (forall v, lookup s' pm v = lookup s pm v) /\ kept pm s s' /\
    (page = 0 -> F s' /\ J nodes s' es) /\
    (page <> 0 -> 0 <= page < 2 ^ 64 /\ forall s'' o, kept pm s' s'' ->
       tried s' pm page fl s'' o -> J nodes s'' (es ++ [o]))) s.

(** The first region that passes the test. *)
Definition first_gap (gap : memory -> Z -> bool) (m : memory) (l l1 : list region) (x : region)
    (l2 : list region) : Prop :=
  l = l1 ++ x :: l2 /\ gap m (rg_node x) = true /\
  Forall (fun y => gap m (rg_node y) = false) l1.

Lemma first_gap_unique gap m l l1 x l2 k1 y k2 :
  first_gap gap m l l1 x l2 -> first_gap gap m l k1 y k2 -> l1 = k1 /\ x = y /\ l2 = k2.
Proof.
  intros (-> & Hx & H1) (He & Hy & H2). revert k1 He H2.
  induction H1 as [|z l1 Hz _ IH]; intros k1 He H2.
  - destruct k1 as [|w k1]; [by injection He as <- <-|]. cbn in He. injection He as <- _.
    apply Forall_cons in H2 as [H2 _]. congruence.
  - destruct k1 as [|w k1]; cbn in He; injection He as -> He; [congruence|].
    apply Forall_cons in H2 as [_ H2]. destruct (IH k1 He H2) as (-> & -> & ->). done.
Qed.

Lemma vctx_usable s c pm l : vctx_ok s c pm l -> unusable (mem s) c = false.
Proof.
  intros [Hi Hpt Hpm Hch Hne _ Hcl _]. unfold unusable.
  apply Forall_cons in Hcl as [Hc _].
  destruct (client_page_bounds s c Hi Hc) as (_ & _ & _ & H1).
  destruct (client_page_bounds s pm Hi (root_client s pm Hpt)) as (_ & _ & _ & H2).
  destruct l as [|x l]; [done|]. destruct Hch as (-> & Hn & _). rewrite Hpm.
  destruct (Z.eqb_spec c NULL); [lia|]. destruct (Z.eqb_spec (rg_node x) NULL); [done|].
  by destruct (Z.eqb_spec pm NULL); [lia|].
Qed.

Lemma vflags_range flags :
  0 <= VFLAGS_TO_PFLAGS flags < 2 ^ 64 /\ has (VFLAGS_TO_PFLAGS flags) VMM_PRESENT = true /\
  Z.land (VFLAGS_TO_PFLAGS flags) PAGE_MASK = 0.
Proof.
  unfold VFLAGS_TO_PFLAGS. destruct (has _ _), (has _ _), (has _ _);
    (split; [vm_compute; split; congruence|split; reflexivity]).
Qed.

(** The inserted region. *)
Definition new_region (n : Z) (x : region) (pages flags : Z) : region :=
  Region n (rg_end x) pages (VFLAGS_TO_PFLAGS flags).

Definition valloc_post (gap : memory -> Z -> bool) (J : list Z -> machine -> list (option Z) -> Prop)
    (F : machine -> Prop) (s : machine) (c pm : Z) (l : list region) (pages flags : Z) (r : Z) (s' : machine) : Prop :=
  (r = NULL /\ s' = s /\ fa_full s) \/
  (exists l1 x l2 n es, first_gap gap (mem s) l l1 x l2 /\
     vctx_ok s' c pm (l1 ++ x :: new_region n x pages flags :: l2) /\
     pages_set s s' pm (rg_end x) es /\
     J (ctx_nodes c (l1 ++ x :: new_region n x pages flags :: l2)) s' es /\
     (spared pm (ctx_nodes c l) s s' /\ ~ client_page s n) /\
     (region_prev (mem s') n = rg_node x /\
      region_prev (mem s') (rg_node x) = region_prev (mem s) (rg_node x)) /\
     ((r = NULL /\ F s' /\ (length es < Z.to_nat pages)%nat) \/
      (r = rg_end x /\ length es = Z.to_nat pages))).

(** A fresh page has become the node of the region inserted after [x]. *)
Record inserted (s s2 : machine) (c pm : Z) (l1 : list region) (x : region) (l2 : list region)
    (n pages flags : Z) : Prop := Inserted {
  is_ctx : vctx_ok s2 c pm (l1 ++ x :: new_region n x pages flags :: l2);
  is_lookup : forall v, lookup s2 pm v = lookup s pm v;
  is_owned : forall f, fa_owned s f -> fa_owned s2 f;
  is_prev : region_prev (mem s2) n = rg_node x /\
      region_prev (mem s2) (rg_node x) = region_prev (mem s) (rg_node x);
  is_client : client_page s2 n;
  is_fresh : ~ client_page s n;
  is_table : not_table s2 pm n;
  is_linked : linked s pm -> linked s2 pm;
  is_spared : forall s3, kept pm s2 s3 -> spared pm (ctx_nodes c (l1 ++ x :: l2)) s s3 }.

Lemma insert_spared s c pm l1 x l2 n pages flags :
  vctx_ok s c pm (l1 ++ x :: l2) -> client_page s n -> not_table s pm n ->
  ~ (n ∈ ctx_nodes c (l1 ++ x :: l2)) -> 0 <= pages < 2 ^ 64 ->
  spared pm (n :: ctx_nodes c (l1 ++ x :: l2)) s
    (set_mem (insert_mem (mem s) n (rg_node x) pages flags) s).
Proof.
  intros Hok Hcn Htn Hnin Hp. apply (spared_weaken pm [n; rg_node x]).
  - intros u. rewrite !elem_of_cons, ctx_nodes_app, elem_of_nil. tauto.
  - apply spared_writes; [apply Hok|apply Hok|by apply (insert_pages s c pm l1 l2 x n pages)
      |by apply insert_agree].
Qed.

Lemma insert_fresh s s1 c pm l1 x l2 f pages flags :
  vctx_ok s c pm (l1 ++ x :: l2) -> fa_inv s1 -> hands_out fa_owned s f s1 -> 0 <= pages < 2 ^ 64 ->
  inserted s (set_mem (insert_mem (mem s1) (page_at s f) (rg_node x) pages flags) s1)
    c pm l1 x l2 (page_at s f) pages flags.
Proof.
  intros Hok Hi1 Hout Hp. set (n := page_at s f).
  destruct (vctx_ok_fresh s s1 c pm _ f Hok Hi1 Hout) as (Hok1 & Hcn & Htn & Hnin & _ & Hlk1).
  destruct (vctx_ok_insert s1 c pm l1 l2 x n pages flags Hok1 Hcn Htn Hnin Hp) as (Hok2 & Ho2 & Hnt2 & Hlk2).
  pose proof (insert_spared s1 c pm l1 x l2 n pages flags Hok1 Hcn Htn Hnin Hp) as Hsp2.
  split; [done| | | | | |by apply Hnt2| |].
  - intros v. by rewrite Hlk2.
  - intros g Hg. apply Ho2, (ho_owned _ _ _ _ Hout). by left.
  - destruct (insert_layout s1 c pm l1 l2 x n pages Hok1 Hcn Htn Hnin Hp) as (? & ? & ? & ? & ?).
    split; [apply insert_mem_prev; [done|unfold PAGE_SIZE in *; lia]|].
    etransitivity; [by apply insert_mem_prev_at|].
    assert (Hx : client_page s (rg_node x)).
    { pose proof (vc_client _ _ _ _ Hok) as Hc. rewrite Forall_forall in Hc. apply Hc. rewrite ctx_nodes_app. tauto. }
    apply load64_ext. intros a Ha. destruct Hx as (g & Hg & Hgx). apply (ho_kept _ _ _ _ Hout g); [done|].
    fold (page_at s g). rewrite <-Hgx. unfold in_range, PAGE_SIZE. lia.
  - apply (client_page_mono s1); [done|intros g; apply Ho2|done].
  - intros (g & Hg & He). apply page_at_inj in He. subst g. by apply (ho_new _ _ _ _ Hout).
  - intros Hlk. apply (sp_linked _ _ _ _ Hsp2), (k_linked _ _ _ (kept_fresh pm s s1 f (vc_pt _ _ _ _ Hok) Hout) Hlk).
  - intros s3 Hk3. exact (spared_fresh pm _ s s1 _ s3 f (vc_pt _ _ _ _ Hok) Hout Hsp2 Hk3).
Qed.

(** The walk finds the first gap: the last region passes the test. *)
Lemma scan_gap_spec fuel gap s c pm l :
  vctx_ok s c pm l -> (length l < fuel)%nat ->
  (forall m u, region_next m u = NULL -> gap m u = true) ->
  wp (scan_regions fuel gap (ctx_root (mem s) c)) (fun r s' => s' = s /\
    exists l1 x l2, first_gap gap (mem s) l l1 x l2 /\ r = rg_node x /\ r <> NULL) s.
Proof.
  intros Hok Hf Hlast. eapply wp_mono; [apply (scan_regions_spec fuel gap _ l s); [apply Hok|done]|].
  intros r s_ [-> [[-> Hall]|(l1 & x & l2 & Hl & -> & Hrn & Hgap & Hall & _)]]; (split; [done|]).
  - exfalso. pose proof (vc_nonempty _ _ _ _ Hok) as Hne.
    destruct l as [|z l' _] using rev_ind; [done|].
    apply Forall_app in Hall as [_ Hz]. rewrite Forall_singleton in Hz.
    destruct (chain_region _ _ _ _ _ (vc_chain _ _ _ _ Hok)) as (_ & _ & _ & _ & Hnil).
    cbn in Hnil. by rewrite (Hlast _ _ Hnil) in Hz.
  - by exists l1, x, l2.
Qed.

Lemma valloc_with_spec fuel gap page_of_index J F s c pm l pages flags :
  vctx_ok s c pm l -> (length l < fuel)%nat -> 0 <= pages < 2 ^ 64 ->
  (forall m u, region_next m u = NULL -> gap m u = true) ->
  (forall l1 x l2, first_gap gap (mem s) l l1 x l2 -> rg_end x + pages * PAGE_SIZE <= 2 ^ 48) ->
  supplies c pm (VFLAGS_TO_PFLAGS flags) page_of_index J F ->
  (forall nodes s', (forall f, fa_owned s f -> fa_owned s' f) -> (linked s pm -> linked s' pm) ->
     fa_free s' = fa_free s - 1 -> J nodes s' []) ->
  wp (valloc_with fuel gap page_of_index c pages flags)
    (valloc_post gap J F s c pm l pages flags) s.
Proof.
  intros Hok Hf Hp Hlast Hb Hsup HJ0. unfold valloc_with. wp_step. wp_step. cbv beta.
  rewrite (vctx_usable s c pm l Hok). wp_step.
  eapply wp_mono; [by apply (scan_gap_spec fuel gap s c pm l)|]. cbv beta.
  intros r s_ [-> (l1 & x & l2 & Hfg & -> & Hrn)].
  specialize (Hb l1 x l2 Hfg). pose proof Hfg as [Hl _]. rewrite Hl in Hok.
  wp_step. eapply wp_mono; [apply fa_palloc_fresh; apply Hok|]. cbv beta.
  intros n s1 [(-> & -> & Hfull)|(f & -> & Hi1 & Hout & _ & Hfree)]; [by left|].
  change (frame_ptr s true f) with (page_at s f). set (n := page_at s f).
  pose proof (insert_fresh s s1 c pm l1 x l2 f pages flags Hok Hi1 Hout Hp) as
    [Hok2 Hlk2 Ho2 Hprev2 Hcl2 Hnew Htb2 Hln2 Hsp2].
  fold n in Hok2, Hlk2, Ho2, Hprev2, Hcl2, Hnew, Htb2, Hln2, Hsp2.
  destruct (client_page_bounds _ n (vc_inv _ _ _ _ Hok2) Hcl2) as (_ & _ & _ & Hnpos).
  destruct (Z.eqb_spec n NULL); [lia|]. destruct (Z.eqb_spec (rg_node x) NULL); [done|].
  wp_step. unfold wp at 1. rewrite insert_after_run.
  set (s2 := set_mem _ s1) in *. set (y := new_region n x pages flags) in *.
  wp_step. eapply wp_mono.
  { refine (map_pages_spec s c pm (l1 ++ [x]) l2 y page_of_index
      (J (ctx_nodes c (l1 ++ x :: y :: l2))) F _ _ _ _
      (Z.to_nat pages) (Z.to_nat pages) [] s2 _ _ _ _ _).
    - intros s' es Hok' HJ'. rewrite <- app_assoc in Hok' |- *. by apply Hsup.
    - apply w64_range.
    - apply vflags_range.
    - apply vflags_range.
    - cbn [rg_start y new_region]. unfold PAGE_SIZE in *. lia.
    - done.
    - by rewrite <- app_assoc.
    - by apply pages_set_nil.
    - apply HJ0; [done..|]. rewrite <-Hfree. by apply fa_free_same. }
  cbv beta. intros ok s3 (Hok3 & Hk3 & es & Hps & HJ & Hlen).
  rewrite <- app_assoc in Hok3. cbn [app] in Hok3.
  assert (Hpost : forall r, ((r = NULL /\ F s3 /\ (length es < Z.to_nat pages)%nat) \/ (r = rg_end x /\ length es = Z.to_nat pages)) ->
    valloc_post gap J F s c pm l pages flags r s3).
  { intros r Hr. right. exists l1, x, l2, n, es. split_and!; try done.
    - rewrite Hl. by apply Hsp2.
    - rewrite <- (proj1 Hprev2). by apply (region_fields_agree (mem s2) (mem s3) n), (k_bytes _ _ _ Hk3).
    - rewrite <- (proj2 Hprev2). pose proof (vc_client _ _ _ _ Hok2) as Hc2. pose proof (vc_tables _ _ _ _ Hok2) as Ht2.
      rewrite Forall_forall in Hc2, Ht2.
      assert (Hx2 : rg_node x ∈ ctx_nodes c (l1 ++ x :: y :: l2)) by (rewrite ctx_nodes_app; tauto).
      apply (region_fields_agree (mem s2) (mem s3) (rg_node x)), (k_bytes _ _ _ Hk3); auto. }
  destruct ok; wp_step; apply Hpost; [right|by left]. split; [|exact Hlen].
  destruct (chain_region (mem s3) (ctx_root (mem s3) c) (l1 ++ [x]) y l2) as (_ & Es & _);
    [rewrite <- app_assoc; apply Hok3|exact Es].
Qed.

(** *** Fresh frames, for [valloc] *)

Definition frame_entry (fl : Z) (o : option Z) : option Z :=
  match o with Some f => Some (Z.lor (f * PAGE_SIZE) fl) | None => None end.

(** A frame that the clients of [s0] did not own; its page is neither a page table
    nor among [nodes]. *)
Definition fresh_frame (s0 : machine) (pm : Z) (nodes : list Z) (s : machine) (f : Z) : Prop :=
  fa_owned s f /\ ~ fa_owned s0 f /\ not_table s pm (page_at s f) /\ ~ (page_at s f ∈ nodes).

(** At most four frames were spent on a page (its own and three tables) and one on the node. *)
Definition spent (s0 s : machine) (es : list (option Z)) : Prop :=
  fa_free s0 <= fa_free s + 1 + 4 * Z.of_nat (length es).

(** The entries map distinct such frames.  In linked tables a page without an entry means
    that no frame is left. *)
Definition fresh_frames (fl : Z) (s0 : machine) (pm : Z) (nodes : list Z) (s : machine)
    (es : list (option Z)) : Prop :=
  ((forall f, fa_owned s0 f -> fa_owned s f) /\
   (linked s0 pm -> linked s pm /\ (None ∈ es -> fa_full s))) /\
  exists fs, es = frame_entry fl <$> fs /\ NoDup (omap id fs) /\
    forall f, Some f ∈ fs -> fresh_frame s0 pm nodes s f.

Lemma fresh_frame_mono s0 pm nodes s s' f :
  kept pm s s' -> fresh_frame s0 pm nodes s f -> fresh_frame s0 pm nodes s' f.
Proof.
  intros Hk (H1 & H2 & H3 & H4). unfold fresh_frame, page_at in *. rewrite (k_hhdm _ _ _ Hk).
  destruct Hk as [_ Ho Ht _ _].
  split_and!; auto. apply Ht; [by exists f|done].
Qed.

Lemma omap_snoc_none (fs : list (option Z)) : omap id (fs ++ [None]) = omap id fs.
Proof. rewrite omap_app. cbn. by rewrite app_nil_r. Qed.

Lemma elem_of_omap_id (fs : list (option Z)) f : f ∈ omap id fs <-> Some f ∈ fs.
Proof.
  rewrite list_elem_of_omap. split; [|by exists (Some f)]. intros (o & Hin & He). unfold id in He. by subst o.
Qed.

Lemma valloc_supplies s0 c pm fl :
  supplies c pm fl (fun _ => fa_palloc 1 false)
    (fun nodes s es => fresh_frames fl s0 pm nodes s es /\ spent s0 s es) fa_full.
Proof.
  intros l s es nodes Hok [HJ Hspent]. eapply wp_mono; [apply fa_palloc_fresh; apply Hok|]. cbv beta.
  intros page s' [(-> & -> & Hfull)|(f & -> & Hi' & Hout & Hroom & Hfree)]; [split_and!; try done; apply kept_refl|].
  destruct (vctx_ok_fresh s s' c pm l f Hok Hi' Hout) as (Hok' & _ & Hft & Hfn & _ & Hlk).
  pose proof (kept_fresh pm s s' f (vc_pt _ _ _ _ Hok) Hout) as Hk.
  assert (Hf' : fa_owned s' f) by (apply (ho_owned _ _ _ _ Hout); by right).
  destruct HJ as [[Hm Hnone] (fs & -> & Hnd & Hfs)].
  assert (Hnew : ~ fa_owned s0 f) by (intros H0; apply (ho_new _ _ _ _ Hout); auto).
  destruct (fa_bounds s' f Hi' Hf') as (Hf0 & _ & Hf52 & _).
  assert (Hff : fresh_frame s0 pm nodes s' f).
  { split_and!; try done; unfold page_at; by rewrite (k_hhdm _ _ _ Hk). }
  assert (Hfs' : forall s'' g, kept pm s s'' -> Some g ∈ fs -> fresh_frame s0 pm nodes s'' g).
  { intros s'' g Hks Hg. apply (fresh_frame_mono _ _ _ s); auto. }
  assert (Hall : linked s0 pm -> linked s' pm /\ ~ None ∈ frame_entry fl <$> fs).
  { intros Hl0. destruct (Hnone Hl0) as [Hl1 Hn1]. split; [by apply Hk|]. by intros ?%Hn1. }
  split_and!; [done|done|done|unfold frame_ptr, PAGE_SIZE; lia|].
  intros _. cbn. unfold PAGE_SIZE in *. split; [lia|]. intros s'' o Hk' [Ho Hcost].
  pose proof (kept_trans pm s s' s'' Hk Hk') as Hk2.
  split; [|unfold spent in *; rewrite length_app; cbn [length]; lia].
  split; [split; [intros g Hg; by apply Hk2, Hm|]|].
  - intros Hl0. destruct (Hall Hl0) as [Hl1 Hno]. split; [by apply Hk'|].
    intros [?|Hin%list_elem_of_singleton]%elem_of_app; [done|]. by destruct Ho as [[_ Ho]|Ho]; [apply Ho|subst o].
  - destruct Ho as [[-> _]| ->].
    + exists (fs ++ [None]). rewrite fmap_app, omap_snoc_none. split_and!; try done.
      intros g [Hin|Hin%list_elem_of_singleton]%elem_of_app; [by apply Hfs'|done].
    + exists (fs ++ [Some f]). rewrite fmap_app, omap_app. cbn. split_and!; [done| |].
      * apply NoDup_app. split; [done|]. split; [|apply NoDup_singleton].
        intros g Hg%elem_of_omap_id ->%list_elem_of_singleton.
        apply (ho_new _ _ _ _ Hout). by apply Hfs.
      * intros g [Hin|Hin%list_elem_of_singleton]%elem_of_app; [by apply Hfs'|].
        injection Hin as ->. by apply (fresh_frame_mono _ _ _ s').
Qed.

(** *** Given physical pages, for [vallocat] *)

Definition given_pages (phys fl : Z) (es : list (option Z)) : Prop :=
  forall i o, es !! i = Some o ->
    o = None \/ o = Some (Z.lor (w64 (phys + w64 (Z.of_nat i * PAGE_SIZE))) fl).

Lemma vallocat_supplies c pm phys fl :
  supplies c pm fl (fun i => ret (w64 (phys + w64 (i * PAGE_SIZE)))) (fun _ _ => given_pages phys fl)
    (fun _ => True).
Proof.
  intros l s es nodes Hok HJ. wp_step. split; [done|]. split; [done|]. split; [apply kept_refl|].
  split; [done|]. intros _. split; [apply w64_range|].
  intros s'' o _ [Ho _] i o' [Hi|[Hge Hi]]%lookup_app_Some; [by apply HJ|].
  apply list_lookup_singleton_Some in Hi as [Hi <-].
  replace i with (length es) by lia. destruct Ho as [[-> _]| ->]; [by left|by right].
Qed.

(** ** The tests on the list *)

(** [valloc] looks for a region whose end is below the start of the next one. *)
Definition gap_behind (x : region) (l2 : list region) : Prop :=
  match l2 with [] => True | y :: _ => rg_end x < rg_start y end.

(** [vallocat] adds the size of the request to the start of the region instead. *)
Definition gap_behind_at (pages : Z) (x : region) (l2 : list region) : Prop :=
  match l2 with
  | [] => True
  | y :: _ => w64 (rg_start x + w64 (pages * PAGE_SIZE)) < rg_start y
  end.

Lemma gap_after_list m p l1 x l2 :
  chain m p (l1 ++ x :: l2) -> (gap_after m (rg_node x) = true <-> gap_behind x l2).
Proof.
  intros Hch. pose proof (chain_end _ _ _ _ _ Hch) as He.
  destruct (chain_region _ _ _ _ _ Hch) as (_ & _ & _ & _ & Hl2).
  unfold gap_after. rewrite He. destruct l2 as [|y l2]; cbn [gap_behind].
  - cbn in Hl2. rewrite Hl2. done.
  - destruct Hl2 as (Hn & Hnn & Hs & _). rewrite Hn in *. rewrite Hs.
    destruct (Z.eqb_spec (rg_node y) NULL); [done|]. cbn [orb]. apply Z.ltb_lt.
Qed.

Lemma gap_after_at_list pages m p l1 x l2 :
  chain m p (l1 ++ x :: l2) ->
  (gap_after_at pages m (rg_node x) = true <-> gap_behind_at pages x l2).
Proof.
  intros Hch. destruct (chain_region _ _ _ _ _ Hch) as (_ & Hsx & _ & _ & Hl2).
  unfold gap_after_at. rewrite Hsx. destruct l2 as [|y l2]; cbn [gap_behind_at].
  - cbn in Hl2. rewrite Hl2. done.
  - destruct Hl2 as (Hn & Hnn & Hs & _). rewrite Hn in *. rewrite Hs.
    destruct (Z.eqb_spec (rg_node y) NULL); [done|]. cbn [orb]. apply Z.ltb_lt.
Qed.

(** The first region of [l] with the property. *)
Definition first_such (P : region -> list region -> Prop) (l l1 : list region) (x : region)
    (l2 : list region) : Prop :=
  l = l1 ++ x :: l2 /\ P x l2 /\
  forall k1 y k2, l1 = k1 ++ y :: k2 -> ~ P y (k2 ++ x :: l2).

Lemma first_gap_such gap P m p l l1 x l2 :
  chain m p l ->
  (forall k1 y k2, l = k1 ++ y :: k2 -> (gap m (rg_node y) = true <-> P y k2)) ->
  (first_gap gap m l l1 x l2 <-> first_such P l l1 x l2).
Proof.
  intros Hch HP. unfold first_gap, first_such. split; intros (Hl & Hg & Hall); subst l.
  - split_and!; [done|by apply (HP l1 x l2)|]. intros k1 y k2 -> Hy.
    apply Forall_app in Hall as [_ [Hall _]%Forall_cons].
    apply (HP k1 y (k2 ++ x :: l2)) in Hy; [congruence|]. by rewrite <- app_assoc.
  - split_and!; [done|by apply (HP l1 x l2)|]. apply Forall_forall. intros y Hin.
    apply list_elem_of_split in Hin as (k1 & k2 & ->).
    apply not_true_is_false. intros Hy. apply (Hall k1 y k2 eq_refl).
    apply (HP k1 y (k2 ++ x :: l2)); [|done]. by rewrite <- app_assoc.
Qed.
End Spec.
