(* ===== verification/VmmData.v ===== *)
(** * Data pages: frames of clients that hold no tables and no nodes of a context

    The pages a process or the kernel keeps data in.  Mapping, allocating regions and
    the heap keep them and their bytes. *)

From S2P Require Export VmmSpec.

Section Data.
Context {FA : FrameAlloc} {FL : FrameAllocLaws}.

(** Whoever leaves the memory from the direct map on alone leaves the clients' pages
    alone. *)
Lemma high_grown s s' :
  fa_inv s -> hhdm_offset s' = hhdm_offset s -> pmm s' = pmm s ->
  (forall a, hhdm_offset s <= a -> load8 (mem s') a = load8 (mem s) a) ->
  fa_inv s' /\ (forall f, fa_owned s' f <-> fa_owned s f) /\ grown s s'.
Proof.
  intros Hi Hh Hp Hb.
  destruct (fa_client s s' Hi Hh Hp) as [Hi' Ho']; [intros a Ha Hne; by destruct Hne; apply Hb|].
  split; [done|]. split; [done|]. split; [done|intros g; by apply Ho'|].
  intros u a Hu Ha. apply Hb. destruct (client_page_bounds s u Hi Hu) as (Hle & _).
  unfold in_range in Ha. lia.
Qed.

(** Changing globals that neither the allocator nor the tables look at. *)
Lemma same_memory s s' pm :
  fa_inv s -> pt_ok s pm -> mem s' = mem s -> hhdm_offset s' = hhdm_offset s -> pmm s' = pmm s ->
  fa_inv s' /\ (forall f, fa_owned s' f <-> fa_owned s f) /\ pt_ok s' pm /\
  (forall u, not_table s pm u -> not_table s' pm u) /\ (forall v, lookup s' pm v = lookup s pm v).
Proof.
  intros Hi Hpt Hm Hh Hp. destruct (high_grown s s' Hi Hh Hp) as (Hi' & Ho' & Hg); [by rewrite Hm|].
  destruct (grown_page s s' pm Hpt Hg) as (? & ? & ?). done.
Qed.

Lemma vctx_same_memory s s' c pm l :
  vctx_ok s c pm l -> mem s' = mem s -> hhdm_offset s' = hhdm_offset s -> pmm s' = pmm s ->
  vctx_ok s' c pm l.
Proof.
  intros Hok Hm Hh Hp.
  destruct (high_grown s s' (vc_inv _ _ _ _ Hok) Hh Hp) as (Hi' & _ & Hg); [by rewrite Hm|].
  by apply (vctx_ok_grown s).
Qed.

Definition data_page (s : machine) (c pm : Z) (l : list region) (u : Z) : Prop :=
  client_page s u /\ not_table s pm u /\ u ∉ ctx_nodes c l.

Definition in_data (s : machine) (c pm : Z) (l : list region) (a : Z) : Prop :=
  exists u, data_page s c pm l u /\ in_range u PAGE_SIZE a.

(** Data pages of [s], where the regions are [l], are data pages of [s'], where the
    regions are [l'], and keep their bytes. *)
Record data_kept (c pm : Z) (l l' : list region) (s s' : machine) : Prop := DataKept {
  dk_hhdm : hhdm_offset s' = hhdm_offset s;
  dk_page : forall u, data_page s c pm l u -> data_page s' c pm l' u;
  dk_bytes : forall u, data_page s c pm l u -> node_agree (mem s) (mem s') u }.

Lemma data_kept_refl c pm l s : data_kept c pm l l s s.
Proof. by split. Qed.

Lemma data_kept_trans c pm l1 l2 l3 s1 s2 s3 :
  data_kept c pm l1 l2 s1 s2 -> data_kept c pm l2 l3 s2 s3 -> data_kept c pm l1 l3 s1 s3.
Proof.
  intros [H1 H2 H3] [G1 G2 G3]. split; [congruence|auto|].
  intros u Hu. apply (node_agree_trans _ (mem s2)); auto.
Qed.

Lemma data_kept_load8 c pm l l' s s' a :
  data_kept c pm l l' s s' -> in_data s c pm l a ->
  in_data s' c pm l' a /\ load8 (mem s') a = load8 (mem s) a.
Proof.
  intros [_ H2 H3] (u & Hu & Ha). split; [exists u; auto|by apply H3 in Ha].
Qed.

Lemma data_kept_grown s s' c pm l :
  vctx_ok s c pm l -> grown s s' -> data_kept c pm l l s s'.
Proof.
  intros Hok Hg. destruct (grown_page s s' pm (vc_pt _ _ _ _ Hok) Hg) as (_ & Hnt & _).
  split; [apply Hg| |].
  - intros u (Hc & Ht & Hn). split_and!; auto. by apply (client_page_mono s); try apply Hg.
  - intros u (Hc & _) a. by apply (gw_bytes _ _ Hg).
Qed.

(** Page-table operations keep data pages. *)
Lemma data_kept_kept c pm l s s' : kept pm s s' -> data_kept c pm l l s s'.
Proof.
  intros Hk. split; [by apply (k_hhdm pm)| |].
  - intros u (Hc & Ht & Hn). split_and!; [by apply (kept_client pm s)|by apply Hk|done].
  - intros u (Hc & Ht & _). by apply Hk.
Qed.

(** So does the insertion of a region whose node is a fresh page. *)
Lemma data_kept_spared c pm l l' s s' :
  spared pm (ctx_nodes c l) s s' ->
  (forall u, u ∈ ctx_nodes c l' -> ~ client_page s u \/ u ∈ ctx_nodes c l) ->
  data_kept c pm l l' s s'.
Proof.
  intros [Hg Ho _ Hp] Hl. pose proof (globals_hhdm _ _ Hg) as Hh. split; [done| |].
  - intros u (Hc & Ht & Hn). destruct (Hp u Hc Ht Hn) as [Ht' _].
    split; [by apply (client_page_mono s)|]. split; [done|].
    by intros [?|?]%Hl.
  - intros u (Hc & Ht & Hn). by apply Hp.
Qed.
End Data.
