(* ===== verification/KernelMap.v ===== *)
(** * arch/paging.c: the page map that [paging_init] builds

    The function maps, in this order, the stack, the sections of the kernel's image, the
    first 4 GiB of physical memory and every entry of the memory map, and ignores what
    [vmap] answers.  [kernel_maps] lists these requests; what was mapped is a sublist of
    them, all of them unless the frames ran out, and a later request wins. *)

From S2P Require Export VmmData.

Record mapping := Mapping { mp_virt : Z; mp_phys : Z; mp_flags : Z }.

Definition mp_entry (m : mapping) : Z := Z.lor (mp_phys m) (mp_flags m).
Definition mp_fits (m : mapping) : Prop := 0 <= mp_phys m < 2 ^ 64 /\ 0 <= mp_flags m < 2 ^ 64.

(** The requests of a loop over the addresses from [start] on. *)
Definition loop_map (start : Z) (virt_of phys_of : Z -> Z) (flags : Z) (i : nat) : mapping :=
  let addr := start + Z.of_nat i * PAGE_SIZE in Mapping (virt_of addr) (phys_of addr) flags.
Definition loop_maps (n : nat) (start : Z) (virt_of phys_of : Z -> Z) (flags : Z) : list mapping :=
  loop_map start virt_of phys_of flags <$> seq 0 n.
Definition range_maps (start stop : Z) (phys_of : Z -> Z) (flags : Z) : list mapping :=
  loop_maps (iters start stop PAGE_SIZE) start id phys_of flags.

Definition in_image (k : kernel_image) (addr : Z) : Z := w64 (w64 (addr - kvirt k) + kphys k).
Definition stack_end (k : kernel_image) : Z := ALIGN_UP (kstack_top k) PAGE_SIZE.

Definition stack_maps (k : kernel_image) (hh : Z) : list mapping :=
  range_maps (w64 (stack_end k - 16 * 1024)) (stack_end k) (PHYSICAL hh)
    (Z.lor VMM_PRESENT (Z.lor VMM_WRITE VMM_NX)).
Definition section_maps (k : kernel_image) (section : Z * Z) (flags : Z) : list mapping :=
  range_maps (ALIGN_DOWN (fst section) PAGE_SIZE) (ALIGN_UP (snd section) PAGE_SIZE) (in_image k) flags.
Definition low_maps (hh : Z) : list mapping :=
  loop_maps (iters 0 0x100000000 PAGE_SIZE) 0 (HIGHER_HALF hh) id (Z.lor VMM_PRESENT VMM_WRITE).
Definition entry_maps (hh : Z) (e : limine_memmap_entry) : list mapping :=
  if (e_base e =? 0) || (e_length e =? 0) then [] else
  let base := ALIGN_DOWN (e_base e) PAGE_SIZE in
  let stop := ALIGN_UP (w64 (e_base e + e_length e)) PAGE_SIZE in
  loop_maps (iters base stop PAGE_SIZE) base (HIGHER_HALF hh) id
    (Z.lor VMM_PRESENT (Z.lor VMM_WRITE VMM_NX)).

Definition image_maps (k : kernel_image) : list mapping :=
  section_maps k (limine_requests k) (Z.lor VMM_PRESENT VMM_WRITE) ++
  section_maps k (text k) VMM_PRESENT ++
  section_maps k (rodata k) (Z.lor VMM_PRESENT VMM_NX) ++
  section_maps k (data k) (Z.lor VMM_PRESENT (Z.lor VMM_WRITE VMM_NX)).
Definition kernel_maps (k : kernel_image) (hh : Z) (es : list limine_memmap_entry) : list mapping :=
  stack_maps k hh ++ image_maps k ++ low_maps hh ++ mbind (entry_maps hh) es.

(** ** The loops' addresses *)

Lemma loop_maps_snoc n start virt_of phys_of flags :
  loop_maps (S n) start virt_of phys_of flags =
    loop_maps n start virt_of phys_of flags ++ [loop_map start virt_of phys_of flags n].
Proof. unfold loop_maps. rewrite seq_S, fmap_app. done. Qed.

Lemma loop_maps_cons n start virt_of phys_of flags :
  loop_maps (S n) start virt_of phys_of flags =
    Mapping (virt_of start) (phys_of start) flags ::
    loop_maps n (start + PAGE_SIZE) virt_of phys_of flags.
Proof.
  unfold loop_maps. cbn [seq fmap list_fmap]. f_equal.
  - unfold loop_map. cbn. by rewrite Z.add_0_r.
  - rewrite <-seq_shift, <-list_fmap_compose. apply list_fmap_ext. intros _ i _. cbn.
    unfold loop_map. by replace (start + Z.of_nat (S i) * PAGE_SIZE)
      with (start + PAGE_SIZE + Z.of_nat i * PAGE_SIZE) by lia.
Qed.

Lemma iters_below start stop i :
  (i < iters start stop PAGE_SIZE)%nat -> start + Z.of_nat i * PAGE_SIZE < stop.
Proof.
  unfold iters, PAGE_SIZE. intros Hi.
  pose proof (Z.div_mod (stop - start + 4096 - 1) 4096 ltac:(lia)).
  pose proof (Z.mod_pos_bound (stop - start + 4096 - 1) 4096 ltac:(lia)). lia.
Qed.

Lemma iters_step start stop :
  start < stop -> iters start stop PAGE_SIZE = S (iters (start + PAGE_SIZE) stop PAGE_SIZE).
Proof.
  unfold iters, PAGE_SIZE. intros Hlt.
  replace (stop - start + 4096 - 1) with (stop - start - 1 + 1 * 4096) by lia.
  replace (stop - (start + 4096) + 4096 - 1) with (stop - start - 1) by lia.
  rewrite Z.div_add by lia. pose proof (Z.div_pos (stop - start - 1) 4096 ltac:(lia) ltac:(lia)).
  rewrite Z.add_1_r, Z2Nat.inj_succ by done. done.
Qed.

Lemma iters_none start stop : stop <= start -> iters start stop PAGE_SIZE = 0%nat.
Proof.
  unfold iters, PAGE_SIZE. intros Hle.
  assert ((stop - start + 4096 - 1) / 4096 < 1); [|lia].
  apply Z.div_lt_upper_bound; lia.
Qed.

Lemma in_loop_maps n start virt_of phys_of flags m :
  m ∈ loop_maps n start virt_of phys_of flags <->
  exists i, (i < n)%nat /\ m = loop_map start virt_of phys_of flags i.
Proof.
  unfold loop_maps. rewrite list_elem_of_fmap. split.
  - intros (i & -> & [_ Hi]%elem_of_seq). exists i. split; [lia|done].
  - intros (i & Hi & ->). exists i. split; [done|]. apply elem_of_seq. lia.
Qed.

Lemma loop_maps_fit start stop virt_of phys_of flags :
  0 <= start -> stop <= 2 ^ 64 -> 0 <= flags < 2 ^ 64 ->
  (forall a, 0 <= a < 2 ^ 64 -> 0 <= phys_of a < 2 ^ 64) ->
  Forall mp_fits (loop_maps (iters start stop PAGE_SIZE) start virt_of phys_of flags).
Proof.
  intros H0 H1 Hf Hp. apply Forall_forall. intros m (i & Hi%iters_below & ->)%in_loop_maps.
  split; [|done]. apply Hp. unfold PAGE_SIZE in *. lia.
Qed.

(** [v] lies in a page of the section. *)
Definition in_section (section : Z * Z) (v : Z) : Prop :=
  ALIGN_DOWN (fst section) PAGE_SIZE <= v < ALIGN_UP (snd section) PAGE_SIZE.

Lemma section_page section v :
  in_section section v ->
  exists i, (i < iters (ALIGN_DOWN (fst section) PAGE_SIZE) (ALIGN_UP (snd section) PAGE_SIZE) PAGE_SIZE)%nat /\
    v / PAGE_SIZE * PAGE_SIZE = ALIGN_DOWN (fst section) PAGE_SIZE + Z.of_nat i * PAGE_SIZE.
Proof.
  intros [H0 H1]. set (start := ALIGN_DOWN _ _) in *. set (stop := ALIGN_UP _ _) in *.
  assert (Ha : start mod PAGE_SIZE = 0) by by apply Z.mod_mul. clearbody start stop.
  exists (Z.to_nat (v / PAGE_SIZE - start / PAGE_SIZE)). unfold iters, PAGE_SIZE in *.
  pose proof (Z.div_mod v 4096 ltac:(lia)). pose proof (Z.mod_pos_bound v 4096 ltac:(lia)).
  pose proof (Z.div_mod start 4096 ltac:(lia)).
  pose proof (Z.div_mod (stop - start + 4096 - 1) 4096 ltac:(lia)).
  pose proof (Z.mod_pos_bound (stop - start + 4096 - 1) 4096 ltac:(lia)). split; lia.
Qed.

(** Taking the bitmap's frames out of an entry adds no request. *)
Lemma entry_maps_shrunk hh e e' m : shrunk e e' -> m ∈ entry_maps hh e' -> m ∈ entry_maps hh e.
Proof.
  intros [Hb [Ha Ha'] Hl [He Hw]]. unfold entry_maps. rewrite He.
  destruct (Z.eqb_spec (e_base e') 0), (Z.eqb_spec (e_length e') 0); cbn [orb]; try by intros ?%not_elem_of_nil.
  destruct (Z.eqb_spec (e_base e) 0), (Z.eqb_spec (e_length e) 0); try lia. cbn [orb]. cbv zeta.
  assert (Hd : forall x, 0 <= x < 2 ^ 64 -> x mod PAGE_SIZE = 0 -> ALIGN_DOWN x PAGE_SIZE = x).
  { intros x Hr Hx. unfold ALIGN_DOWN. rewrite !w64_id by (unfold PAGE_SIZE; lia). by rewrite <-aligned_mul. }
  rewrite (Hd (e_base e)), (Hd (e_base e')) by (done || lia).
  rewrite !in_loop_maps. intros (i & Hi & ->).
  pose proof (aligned_mul _ Ha) as Hm. pose proof (aligned_mul _ Ha') as Hm'.
  assert (exists d, 0 <= d /\ e_base e' = e_base e + d * PAGE_SIZE) as (d & Hd0 & Hd').
  { exists (e_base e' / PAGE_SIZE - e_base e / PAGE_SIZE). unfold PAGE_SIZE in *. lia. }
  exists (i + Z.to_nat d)%nat. split.
  - unfold iters, PAGE_SIZE in *.
    replace (_ - e_base e + 4096 - 1) with (ALIGN_UP (w64 (e_base e + e_length e)) 4096 - e_base e' + 4096 - 1 + d * 4096) by lia.
    rewrite Z.div_add by lia. lia.
  - unfold loop_map. cbv zeta. replace (e_base e + _) with (e_base e' + Z.of_nat i * PAGE_SIZE); [done|].
    unfold PAGE_SIZE in *. lia.
Qed.

Lemma kernel_maps_shrunk k hh l e e' r m :
  shrunk e e' -> m ∈ kernel_maps k hh (l ++ e' :: r) -> m ∈ kernel_maps k hh (l ++ e :: r).
Proof.
  intros Hs. unfold kernel_maps. rewrite !elem_of_app, !list_elem_of_bind.
  intros [?|[?|[?|(x & Hm & Hx)]]]; auto. do 3 right.
  rewrite elem_of_app, elem_of_cons in Hx. destruct Hx as [Hx|[-> |Hx]].
  - exists x. split; [done|]. rewrite elem_of_app. by left.
  - exists e. split; [by apply (entry_maps_shrunk _ _ e')|]. rewrite elem_of_app, elem_of_cons. auto.
  - exists x. split; [done|]. rewrite elem_of_app, elem_of_cons. auto.
Qed.

(** The lists are long: nothing looks inside them but the lemmas above. *)
#[local] Opaque iters loop_maps.

(** ** What the requests do to the translations *)

Definition remap (tr : Z -> option Z) (m : mapping) : Z -> option Z := set_page (mp_entry m) (mp_virt m) tr.
Definition remap_all (tr : Z -> option Z) (ms : list mapping) : Z -> option Z := foldl remap tr ms.

Lemma set_page_ext e virt tr tr' v : tr v = tr' v -> set_page e virt tr v = set_page e virt tr' v.
Proof. unfold set_page. by intros ->. Qed.

(** A translation that was not there before comes from a request for that page. *)
Lemma remap_all_some tr ms v e :
  remap_all tr ms v = Some e ->
  tr v = Some e \/ exists m, m ∈ ms /\ page_of v = page_of (mp_virt m) /\ e = mp_entry m.
Proof.
  revert tr. induction ms as [|m ms IH]; intros tr; [by left|]. cbn [remap_all foldl].
  intros [H|(m' & Hin & H)]%IH; [|right; exists m'; rewrite elem_of_cons; tauto].
  unfold remap, set_page in H. case_decide as Hd; [|by left]. right. exists m. rewrite elem_of_cons.
  split; [by left|]. split; [done|]. destruct (has _ _); congruence.
Qed.

(** With all requests made, a page that was asked for is mapped, by the last request. *)
Lemma remap_all_covered tr ms v :
  Forall (fun m => has (mp_entry m) VMM_PRESENT = true) ms ->
  (exists m, m ∈ ms /\ page_of v = page_of (mp_virt m)) ->
  exists m, m ∈ ms /\ page_of v = page_of (mp_virt m) /\ remap_all tr ms v = Some (mp_entry m).
Proof.
  induction ms as [|m ms IH] using rev_ind; intros Hp (m' & Hin & Hv); [by apply not_elem_of_nil in Hin|].
  apply Forall_app in Hp as [Hp Hpm]. apply Forall_cons in Hpm as [Hpm _].
  unfold remap_all in *. rewrite foldl_app. cbn [foldl]. unfold remap at 1, set_page. case_decide as Hd.
  - exists m. split; [apply elem_of_app; right; apply list_elem_of_here|]. by rewrite Hpm.
  - apply elem_of_app in Hin as [Hin| ->%list_elem_of_singleton]; [|done].
    destruct IH as (m2 & Hm2 & Hv2 & He); [done|by exists m'|]. exists m2. split; [apply elem_of_app; by left|done].
Qed.

Section Kernel.
Context {FA : FrameAlloc} {FL : FrameAllocLaws}.

(** [P] contains the paths of all page tables that the requests need. *)
Definition tables_for (P : list (list Z)) (ms : list mapping) : Prop :=
  forall m, m ∈ ms -> has_paths (table_path (mp_virt m)) P.

(** From [s] to [s'] the requests [ms] were made, in this order. *)
Record mapped (s : machine) (root : Z) (ms : list mapping) (s' : machine) : Prop := Mapped {
  ma_inv : fa_inv s';
  ma_pt : pt_ok s' root;
  ma_linked : linked s' root;
  ma_kept : kept root s s';
  ma_lookup : exists done, done `sublist_of` ms /\ (done = ms \/ fa_full s') /\
      forall v, lookup s' root v = remap_all (lookup s root) done v;
  ma_count : forall P, tables_for P ms ->
      fa_free s + tables_in P root s <= fa_free s' + tables_in P root s' }.

Lemma mapped_nil s root : fa_inv s -> pt_ok s root -> linked s root -> mapped s root [] s.
Proof.
  intros Hi Hpt Hl. split; [done|done|done|apply kept_refl| |intros P _; lia].
  exists []. split; [apply sublist_nil_l|]. split; [by left|done].
Qed.

Lemma mapped_pagemap s root ms s' :
  mapped s root ms s' -> kernel_pagemap (paging s') = kernel_pagemap (paging s).
Proof. intros Hm. apply globals_pagemap, (k_globals root), Hm. Qed.

Lemma mapped_vmap s root ms m s' :
  mapped s root ms s' -> mp_fits m ->
  wp (vmap root (mp_virt m) (mp_phys m) (mp_flags m)) (fun _ s'' => mapped s root (ms ++ [m]) s'') s'.
Proof.
  intros [Hi Hpt Hl Hk (ok & Hsub & Hall & Hlk) Hcnt] [Hp Hf].
  eapply wp_mono; [by apply (vmap_spec (client_page s') root (mp_virt m) (mp_phys m) (mp_flags m) s')|].
  intros r s'' Hr.
  assert (exists tr, updates (client_page s') (table_path (mp_virt m)) root s' s'' tr /\
    exists ok', ok' `sublist_of` ms ++ [m] /\ (ok' = ms ++ [m] \/ fa_full s'') /\
      forall v, tr v = remap_all (lookup s root) ok' v) as (tr & Hu & ok' & Hsub' & Hall' & Htr).
  { destruct Hr as [(_ & Hu & _ & Hfull)|(_ & Hu & _)]; eexists; (split; [exact Hu|]).
    - exists ok. split_and!; [by apply sublist_inserts_r|right; auto|done].
    - exists (ok ++ [m]). split_and!; [by apply sublist_app| |].
      + destruct Hall as [->|Hfull]; [by left|right]. by apply (up_full _ _ _ _ _ _ Hu).
      + intros v. unfold remap_all. rewrite foldl_app. cbn. by apply set_page_ext. }
  split; try apply Hu; [done| | |].
  - apply (kept_trans root s s'); [done|]. by eapply kept_updates; [apply table_path_is_path|].
  - exists ok'. split_and!; try done. intros v. by rewrite (up_lookup _ _ _ _ _ _ Hu).
  - intros P HP. specialize (Hcnt P ltac:(intros m' Hm'; apply HP, elem_of_app; by left)).
    pose proof (up_counted _ _ _ _ _ _ Hu P (HP m ltac:(apply elem_of_app; right; apply list_elem_of_here))). lia.
Qed.

(** ** The loops *)

Lemma map_loop_spec s root ms n start virt_of phys_of flags s' :
  mapped s root ms s' -> kernel_pagemap (paging s) = root ->
  Forall mp_fits (loop_maps n start virt_of phys_of flags) ->
  wp (for_loop n start PAGE_SIZE (fun addr =>
        kpm <- gets (fun s => kernel_pagemap (paging s)) ;;
        vmap kpm (virt_of addr) (phys_of addr) flags ;;; ret tt))
     (fun _ s'' => mapped s root (ms ++ loop_maps n start virt_of phys_of flags) s'') s'.
Proof.
  intros Hm Hr Hfit. rewrite Forall_forall in Hfit.
  apply (wp_for_loop n start PAGE_SIZE _ (fun i => mapped s root (ms ++ loop_maps i start virt_of phys_of flags))).
  { by rewrite app_nil_r. }
  intros i s1 Hi Hm1. do 2 wp_step. rewrite (mapped_pagemap _ _ _ _ Hm1), Hr. wp_step.
  set (m := loop_map start virt_of phys_of flags i).
  eapply wp_mono; [apply (mapped_vmap s root _ m s1 Hm1), Hfit, in_loop_maps; eauto|].
  intros r s2 Hm2. wp_step. by rewrite loop_maps_snoc, app_assoc.
Qed.

Lemma map_range_spec s root ms start stop phys_of flags s' :
  mapped s root ms s' -> kernel_pagemap (paging s) = root ->
  0 <= start -> stop <= 2 ^ 64 -> 0 <= flags < 2 ^ 64 ->
  (forall a, 0 <= a < 2 ^ 64 -> 0 <= phys_of a < 2 ^ 64) ->
  wp (map_range start stop phys_of flags)
    (fun _ s'' => mapped s root (ms ++ range_maps start stop phys_of flags) s'') s'.
Proof.
  intros Hm Hr H0 H1 Hf Hp.
  apply (map_loop_spec s root ms _ start id phys_of flags s' Hm Hr). by apply loop_maps_fit.
Qed.

(** One entry of the memory map, in pages of 4 KiB. *)
Lemma map_entry_spec k n s root ms base stop s' :
  LARGE_PAGES k = false -> mapped s root ms s' -> kernel_pagemap (paging s) = root ->
  n = iters base stop PAGE_SIZE -> 0 <= base -> stop <= 2 ^ 64 ->
  wp (map_entry k n base stop) (fun _ s'' =>
    mapped s root (ms ++ loop_maps n base (HIGHER_HALF (hhdm_offset s)) id
      (Z.lor VMM_PRESENT (Z.lor VMM_WRITE VMM_NX))) s'') s'.
Proof.
  intros Hlarge Hm Hr Hn H0 H1. revert base ms s' Hm Hn H0. induction n as [|n IH]; intros base ms s' Hm Hn H0; cbn [map_entry].
  { destruct (Z.ltb_spec base stop) as [Hlt|_]; [by rewrite iters_step in Hn|]. wp_step. by rewrite app_nil_r. }
  destruct (Z.ltb_spec base stop) as [Hlt|Hge]; [|by rewrite iters_none in Hn]. cbn [negb].
  rewrite iters_step in Hn by done. injection Hn as Hn.
  pose proof (globals_hhdm _ _ (k_globals root _ _ (ma_kept _ _ _ _ Hm))) as Hh.
  do 2 wp_step. rewrite (mapped_pagemap _ _ _ _ Hm), Hr, Hh. wp_step.
  apply wp_mono with (P := fun b s1 => b = false /\ s1 = s').
  { unfold vmap_large. rewrite Hlarge. cbn [negb]. by destruct (_ && _). }
  intros b s1 [-> ->]. wp_step. rewrite loop_maps_cons.
  set (m := Mapping (HIGHER_HALF (hhdm_offset s) base) base (Z.lor VMM_PRESENT (Z.lor VMM_WRITE VMM_NX))).
  eapply wp_mono; [apply (mapped_vmap s root ms m s' Hm); split; [cbn [m mp_phys]; lia|done]|].
  intros r s2 Hm2. rewrite cons_middle, app_assoc. apply IH; [done|done|unfold PAGE_SIZE; lia].
Qed.

Lemma map_entries_spec k es s root ms s' :
  LARGE_PAGES k = false -> mapped s root ms s' -> kernel_pagemap (paging s) = root ->
  wp (map_entries k es) (fun _ s'' => mapped s root (ms ++ mbind (entry_maps (hhdm_offset s)) es) s'') s'.
Proof.
  intros Hlarge Hm Hr. revert ms s' Hm. induction es as [|e es IH]; intros ms s' Hm; cbn [map_entries].
  { wp_step. by rewrite app_nil_r. }
  wp_step. apply wp_mono with (P := fun _ s1 => mapped s root (ms ++ entry_maps (hhdm_offset s) e) s1).
  { unfold entry_maps. destruct (_ || _); [wp_step; by rewrite app_nil_r|].
    apply (map_entry_spec k _ s root ms); try done; unfold ALIGN_DOWN, ALIGN_UP.
    - unfold PAGE_SIZE. apply Z.mul_nonneg_nonneg; [|done]. apply Z.div_pos; [apply w64_range|done].
    - match goal with |- w64 ?x <= _ => pose proof (w64_range x) end. lia. }
  intros r s1 Hm1. cbn [mbind list_bind]. rewrite app_assoc. by apply IH.
Qed.

(** ** The fresh page map *)

(** An empty root. *)
Lemma empty_root s root :
  root <> NULL -> client_page s root -> (forall j, idx j -> entry s root j = 0) ->
  pt_ok s root /\ linked s root /\ (forall v, lookup s root v = None) /\
  (forall u, u <> root -> not_table s root u).
Proof.
  intros Hn Hc Hz.
  assert (Hw : forall i q, idx i -> walk s root (i :: q) = None).
  { intros i q Hi. cbn [walk]. by rewrite (get_table_absent s root i) by by rewrite Hz. }
  split_and!.
  - apply (copy_ok s root NULL Hn); try done.
    + intros j Hj. apply Hz. unfold idx. lia.
    + intros j Hj. apply Hz. unfold idx. lia.
    + intros [|i p] _; cbn; [congruence|done].
  - intros [|j p] t i Hp.
    + intros [= <-] He. rewrite (Hz i) in He by by apply (is_path_snoc []). done.
    + destruct Hp as [_ [Hj _]%Forall_cons]. by rewrite Hw.
  - intros v. unfold lookup, table_path. by rewrite Hw by by apply page_index_idx.
  - intros u Hu [|i q] Hq; [by intros [= ->]|]. destruct Hq as [_ [Hi _]%Forall_cons]. by rewrite Hw.
Qed.

(** What [paging_init] leaves: frame [f] is the root of the page map that is loaded, its
    translations are the requests', and whatever others keep in their frames and below the
    direct map is as before. *)
Record paging_post (s : machine) (k : kernel_image) (f : Z) (s' : machine) : Prop := PagingPost {
  pp_inv : fa_inv s';
  pp_pt : pt_ok s' (page_at s f);
  pp_linked : linked s' (page_at s f);
  pp_fresh : ~ fa_owned s f;
  pp_owned : forall g, fa_owned s g -> fa_owned s' g;
  pp_globals : globals s' = (hhdm_offset s, memmap s, kvm_ctx s, page_at s f, f * PAGE_SIZE, heap s, sched s);
  pp_lookup : exists done, done `sublist_of` kernel_maps k (hhdm_offset s) (memmap s) /\
      (done = kernel_maps k (hhdm_offset s) (memmap s) \/ fa_full s') /\
      forall v, lookup s' (page_at s f) v = remap_all (fun _ => None) done v;
  pp_bytes : forall u, client_page s u -> node_agree (mem s) (mem s') u /\ not_table s' (page_at s f) u;
  pp_low : forall a, a < hhdm_offset s -> load8 (mem s') a = load8 (mem s) a;
  (** One frame went into the root and at most one into each further table. *)
  pp_count : forall P, tables_for P (kernel_maps k (hhdm_offset s) (memmap s)) ->
      fa_free s <= fa_free s' + 1 + Z.of_nat (length P) }.

(** The state after the root was taken and cleared. *)
Definition rooted (f : Z) (s s1 : machine) : machine :=
  let s2 := set_kernel_pagemap (page_at s f) s1 in
  set_mem (memset (mem s2) (page_at s f) 0 PAGE_SIZE) s2.

Lemma rooted_ok s s1 f :
  fa_inv s1 -> hands_out fa_owned s f s1 ->
  let r := page_at s f in let s2 := rooted f s s1 in
  fa_inv s2 /\ pt_ok s2 r /\ linked s2 r /\ (forall v, lookup s2 r v = None) /\
  (forall g, fa_owned s g -> fa_owned s2 g) /\
  globals s2 = (hhdm_offset s, memmap s, kvm_ctx s, r, cr3 (paging s), heap s, sched s) /\
  (forall u, client_page s u -> client_page s2 u /\ node_agree (mem s) (mem s2) u /\ not_table s2 r u) /\
  (forall a, a < hhdm_offset s -> load8 (mem s2) a = load8 (mem s) a).
Proof.
  intros Hi1 Hout r s2.
  pose proof (fresh_client s s1 f Hout) as Hc1. fold r in Hc1.
  destruct (client_page_bounds s1 r Hi1 Hc1) as (Hlo & _ & _ & Hpos).
  pose proof (ho_others _ _ _ _ Hout) as Ho. unfold others in Ho.
  destruct (fresh_inv s s1 f Hi1 Hout) as [Hi2' Ho2'].
  destruct (fa_client _ s2 Hi2') as [Hi2 Ho2]; [done|done|by intros a _ []|].
  assert (Hc2 : client_page s2 r).
  { destruct Hc1 as (g & Hg & He). exists g. split; [by apply Ho2, Ho2'|done]. }
  assert (Hown : forall g, fa_owned s g -> fa_owned s2 g).
  { intros g Hg. apply Ho2, Ho2', (ho_owned _ _ _ _ Hout). by left. }
  destruct (empty_root s2 r ltac:(lia) Hc2) as (Hpt & Hlk & Hnone & Hnt).
  { intros j Hj. exact (fresh_zero s s1 f j Hj). }
  assert (Hh : hhdm_offset s1 = hhdm_offset s) by congruence.
  split_and!; try done.
  - unfold globals, s2, rooted. cbn. injection Ho as -> -> -> -> -> ->. done.
  - intros u Hu. split_and!.
    + by apply (client_page_mono s).
    + intros a Ha. exact (fresh_kept s s1 f Hout u a Hu Ha).
    + apply Hnt. intros ->. exact (fresh_not_client s s1 f Hout Hu).
  - intros a Ha. unfold s2, rooted. cbn [mem set_mem set_kernel_pagemap set_paging].
    rewrite (memset_agree (mem s1) r 0 PAGE_SIZE) by (unfold in_range; lia). by apply (ho_low _ _ _ _ Hout).
Qed.

(** ** paging_init *)

Ltac flags_range := vm_compute; split; congruence.

Lemma physical_range hh a : 0 <= a < 2 ^ 64 -> 0 <= PHYSICAL hh a < 2 ^ 64.
Proof. intros Ha. unfold PHYSICAL. destruct (hh <=? a); [apply w64_range|done]. Qed.

Lemma align_range x y : 0 <= ALIGN_UP x y <= 2 ^ 64.
Proof. pose proof (w64_range (DIV_ROUND_UP x y * w64 y)). unfold ALIGN_UP. lia. Qed.

Lemma align_down_nonneg x : 0 <= ALIGN_DOWN x PAGE_SIZE.
Proof.
  unfold ALIGN_DOWN. apply Z.mul_nonneg_nonneg; [|done]. apply Z.div_pos; [apply w64_range|done].
Qed.

Lemma section_spec k section s root ms flags s' :
  mapped s root ms s' -> kernel_pagemap (paging s) = root -> 0 <= flags < 2 ^ 64 ->
  wp (map_range (ALIGN_DOWN (fst section) PAGE_SIZE) (ALIGN_UP (snd section) PAGE_SIZE) (in_image k) flags)
    (fun _ s'' => mapped s root (ms ++ section_maps k section flags) s'') s'.
Proof.
  intros Hm Hr Hf. apply map_range_spec; try done; [apply align_down_nonneg|apply align_range|].
  intros a _. apply w64_range.
Qed.

(** Loading the page map. *)
Lemma load_root s root f ms s' :
  mapped s root ms s' -> root = page_at s f -> client_page s root ->
  wp (pmset root) (fun _ s'' => s'' = load_cr3 (f * PAGE_SIZE) s') s'.
Proof.
  intros [Hi Hpt _ Hk _ _] Hr Hc. pose proof (k_hhdm _ _ _ Hk) as Hh. pose proof Hc as (g & Hg & Hrg).
  rewrite Hr in Hrg. apply page_at_inj in Hrg. subst g.
  destruct (fa_bounds s' f Hi (k_owned _ _ _ Hk f Hg)) as (Hf & _ & _ & Hb).
  destruct (fa_hhdm s' Hi) as [Hh0 _].
  assert (Hph : PHYSICAL (hhdm_offset s') root = f * PAGE_SIZE).
  { rewrite Hr. unfold page_at. rewrite <-Hh. apply physical_higher; unfold PAGE_SIZE in *; lia. }
  unfold pmset. wp_step. wp_step. rewrite Hph, is_page_aligned_mod, Z.mod_mul by done.
  destruct (Z.eqb_spec root NULL) as [He|_]; [|cbn [Z.eqb negb orb]; by wp_step].
  rewrite Hr in He. unfold page_at, PAGE_SIZE in *. lia.
Qed.

Lemma loaded_post s s1 s2 s' k f :
  rooted f s s1 = s2 -> fa_inv s1 -> hands_out fa_owned s f s1 -> fa_free s1 = fa_free s - 1 ->
  mapped s2 (page_at s f) (kernel_maps k (hhdm_offset s) (memmap s)) s' ->
  paging_post s k f (load_cr3 (f * PAGE_SIZE) s').
Proof.
  intros <- Hi1 Hout Hfree [Hi Hpt Hl Hk (done & Hsub & Hall & Hlk) Hcnt].
  destruct (rooted_ok s s1 f Hi1 Hout) as (_ & _ & _ & Hnone & Hown & Hgl & Hpages & Hlow).
  set (s3 := load_cr3 (f * PAGE_SIZE) s').
  destruct (same_memory s' s3 (page_at s f) Hi Hpt eq_refl eq_refl eq_refl) as (Hi3 & Ho3 & Hpt3 & Hnt3 & Hlk3).
  pose proof (k_globals _ _ _ Hk) as Hg. rewrite Hgl in Hg.
  split; try done.
  - apply (linked_same s'); [intros p _; by apply walk_ext|done|done].
  - apply (ho_new _ _ _ _ Hout).
  - intros g Hgo. by apply Ho3, (k_owned _ _ _ Hk), Hown.
  - unfold globals in Hg |- *. cbn. injection Hg as -> -> -> -> _ -> ->. done.
  - exists done. split_and!; [done|destruct Hall; [by left|right; by apply (fa_full_same s')]|].
    intros v. rewrite Hlk3, Hlk. clear -Hnone. revert v. unfold remap_all.
    induction done as [|m ms IH] using rev_ind; intros v; [by apply Hnone|].
    rewrite !foldl_app. cbn. by apply set_page_ext.
  - intros u Hu. destruct (Hpages u Hu) as (Hc & Ha & Hn). split.
    + apply (node_agree_trans _ (mem (rooted f s s1))); [done|]. by apply (k_bytes _ _ _ Hk).
    + by apply Hnt3, (k_tables _ _ _ Hk).
  - intros a Ha. rewrite <-Hlow by done. apply (k_low _ _ _ Hk).
    replace (hhdm_offset (rooted f s s1)) with (hhdm_offset s); [done|]. unfold globals in Hgl. congruence.
  - intros P HP. specialize (Hcnt P HP). pose proof (tables_in_bounds P (page_at s f) (rooted f s s1)).
    pose proof (tables_in_bounds P (page_at s f) s'). rewrite (fa_free_same s' s3 eq_refl).
    rewrite (fa_free_same s1 (rooted f s s1) eq_refl) in Hcnt. lia.
Qed.

Lemma requests_app {A} (a b c d e f g : list A) :
  ((((((([] ++ a) ++ b) ++ c) ++ d) ++ e) ++ f) ++ g) = a ++ (b ++ c ++ d ++ e) ++ f ++ g.
Proof. cbn [app]. by rewrite <-!app_assoc. Qed.

(** The next section of the image. *)
Ltac map_section sec Hm Hr H :=
  wp_step; eapply wp_mono; [apply (section_spec _ sec _ _ _ _ _ Hm Hr); flags_range|]; cbv beta; intros ? ? H.

(** [paging_init]: without a frame for the root it panics; else see [paging_post]. *)
Lemma paging_init_spec k s :
  fa_inv s -> LARGE_PAGES k = false ->
  wpp (paging_init k) (fun _ s' => exists f, paging_post s k f s')
    (fun s' => s' = set_kernel_pagemap NULL s /\ fa_full s) s.
Proof.
  intros Hi Hlarge. unfold paging_init. apply wpp_bind.
  eapply wp_mono; [by apply fa_palloc_fresh|]. intros r s1 [(-> & -> & Hfull)|(f & -> & Hi1 & Hout & _ & Hfree)].
  { by apply wpp_bind. }
  change (frame_ptr s true f) with (page_at s f). apply wpp_bind. wp_step.
  pose proof (fresh_client s s1 f Hout) as Hc1.
  destruct (client_page_bounds s1 _ Hi1 Hc1) as (_ & Hal & _ & Hpos).
  rewrite is_page_aligned_mod, Hal. destruct (Z.eqb_spec (page_at s f) NULL); [lia|]. cbn [Z.eqb negb orb].
  apply wpp_ret. unfold memset_at. do 2 wp_step. fold (rooted f s s1).
  set (s2 := rooted f s s1). set (root := page_at s f).
  destruct (rooted_ok s s1 f Hi1 Hout) as (Hi2 & Hpt2 & Hlk2 & _ & Hown & Hgl & _).
  fold s2 root in Hi2, Hpt2, Hlk2, Hgl.
  assert (Hr2 : kernel_pagemap (paging s2) = root) by (unfold globals in Hgl; congruence).
  assert (Hh2 : hhdm_offset s2 = hhdm_offset s) by (unfold globals in Hgl; congruence).
  assert (He2 : memmap s2 = memmap s) by (unfold globals in Hgl; congruence).
  pose proof (mapped_nil s2 root Hi2 Hpt2 Hlk2) as Hm.
  wp_step. wp_step. cbv zeta. rewrite Hh2. wp_step.
  eapply wp_mono; [apply (map_range_spec s2 root [] _ _ _ _ _ Hm Hr2); [apply w64_range|apply align_range|flags_range|apply physical_range]|].
  cbv beta. intros ? s3 Hm3. map_section (limine_requests k) Hm3 Hr2 Hm4. map_section (text k) Hm4 Hr2 Hm5.
  map_section (rodata k) Hm5 Hr2 Hm6. map_section (data k) Hm6 Hr2 Hm7. wp_step.
  eapply wp_mono; [apply (map_loop_spec _ _ _ (iters 0 0x100000000 PAGE_SIZE) 0 (HIGHER_HALF (hhdm_offset s)) id
    (Z.lor VMM_PRESENT VMM_WRITE) _ Hm7 Hr2); apply loop_maps_fit; [done|done|flags_range|done]|].
  cbv beta. intros ? s8 Hm8. do 2 wp_step. pose proof (k_globals root _ _ (ma_kept _ _ _ _ Hm8)) as Hg8.
  replace (memmap s8) with (memmap s) by (unfold globals in Hg8; congruence).
  wp_step. eapply wp_mono; [exact (map_entries_spec k (memmap s) _ _ _ _ Hlarge Hm8 Hr2)|].
  cbv beta. intros ? s9 Hm9. do 2 wp_step. rewrite (mapped_pagemap _ _ _ _ Hm9), Hr2.
  eapply wp_mono; [apply (load_root s2 root f _ s9 Hm9); [unfold page_at; by rewrite Hh2|by apply root_client]|].
  intros ? s10 ->. exists f. apply (loaded_post s s1 s2 s9 k f eq_refl Hi1 Hout Hfree). rewrite Hh2 in Hm9.
  rewrite requests_app in Hm9. exact Hm9.
Qed.

(** ** The sections of the image *)

Definition kernel_sections (k : kernel_image) : list (Z * Z * Z) :=
  [(limine_requests k, Z.lor VMM_PRESENT VMM_WRITE); (text k, VMM_PRESENT);
   (rodata k, Z.lor VMM_PRESENT VMM_NX); (data k, Z.lor VMM_PRESENT (Z.lor VMM_WRITE VMM_NX))].

(** Two pages of a section that is not larger than an address space differ. *)
Lemma section_page_unique a b start size :
  size <= 2 ^ 48 -> start <= a < start + size -> start <= b < start + size -> start mod PAGE_SIZE = 0 ->
  page_of a = page_of b -> a / PAGE_SIZE = b / PAGE_SIZE.
Proof.
  unfold page_of, PAGE_SIZE. intros Hs Ha Hb Hst Hp.
  assert (Hd : forall x, start <= x < start + size -> start / 4096 <= x / 4096 < start / 4096 + 2 ^ 36).
  { intros x Hx. pose proof (Z.div_mod x 4096 ltac:(lia)). pose proof (Z.mod_pos_bound x 4096 ltac:(lia)).
    pose proof (Z.div_mod start 4096 ltac:(lia)). lia. }
  apply Hd in Ha, Hb. revert Ha Hb Hp. generalize (a / 4096) (b / 4096) (start / 4096). intros x y z Hx Hy Hp.
  pose proof (Z.div_mod x (2 ^ 36) ltac:(lia)). pose proof (Z.div_mod y (2 ^ 36) ltac:(lia)).
  assert (x / 2 ^ 36 - y / 2 ^ 36 = 0); [|lia].
  assert (-1 < x / 2 ^ 36 - y / 2 ^ 36 < 1); [|lia]. rewrite Hp in *. nia.
Qed.

Lemma has_lor_l x y f : has x f = true -> has (Z.lor x y) f = true.
Proof. rewrite has_lor. by intros ->. Qed.
Lemma has_lor_r x y f : has y f = true -> has (Z.lor x y) f = true.
Proof. rewrite has_lor. intros ->. apply orb_true_r. Qed.

Lemma loop_maps_flags n start virt_of phys_of flags m :
  m ∈ loop_maps n start virt_of phys_of flags -> mp_flags m = flags.
Proof. by intros (i & _ & ->)%in_loop_maps. Qed.

Lemma kernel_maps_present k hh es : Forall (fun m => has (mp_entry m) VMM_PRESENT = true) (kernel_maps k hh es).
Proof.
  apply Forall_forall. intros m Hm. apply has_lor_r.
  assert (Hf : exists flags, mp_flags m = Z.lor VMM_PRESENT flags).
  { unfold kernel_maps, image_maps in Hm. rewrite !elem_of_app, list_elem_of_bind in Hm.
    destruct Hm as [Hm|[[Hm|[Hm|[Hm|Hm]]]|[Hm|(e & Hm & _)]]]; try (apply loop_maps_flags in Hm; by eexists).
    - apply loop_maps_flags in Hm. exists 0. by rewrite Z.lor_0_r.
    - unfold entry_maps in Hm. destruct (_ || _); [by apply not_elem_of_nil in Hm|].
      apply loop_maps_flags in Hm. by eexists. }
  destruct Hf as [flags ->]. by apply has_lor_l.
Qed.

(** [v] lies in the section, and no request outside it is for the page of [v]. *)
Record only_in (k : kernel_image) (hh : Z) (es : list limine_memmap_entry) (section : Z * Z) (flags v : Z)
    : Prop := OnlyIn {
  oi_section : (section, flags) ∈ kernel_sections k;
  oi_size : ALIGN_UP (snd section) PAGE_SIZE - ALIGN_DOWN (fst section) PAGE_SIZE <= 2 ^ 48;
  oi_in : in_section section v;
  oi_only : forall m, m ∈ kernel_maps k hh es -> page_of v = page_of (mp_virt m) ->
      m ∈ section_maps k section flags }.

(** Then [v] translates to its place in the image, with the flags of the section. *)
Lemma section_mapped s k f s' section flags v :
  paging_post s k f s' -> only_in k (hhdm_offset s) (memmap s) section flags v ->
  lookup s' (page_at s f) v = Some (Z.lor (in_image k (v / PAGE_SIZE * PAGE_SIZE)) flags) \/
  (lookup s' (page_at s f) v = None /\ fa_full s').
Proof.
  intros Hpost [Hsec Hsize Hv Honly]. destruct (pp_lookup _ _ _ _ Hpost) as (ok & Hsub & Hall & ->).
  assert (Hone : forall m, m ∈ section_maps k section flags -> page_of v = page_of (mp_virt m) ->
    mp_entry m = Z.lor (in_image k (v / PAGE_SIZE * PAGE_SIZE)) flags).
  { intros m (i & Hi & ->)%in_loop_maps Hp. cbn [loop_map mp_virt id] in Hp. unfold mp_entry. cbn.
    do 2 f_equal. apply iters_below in Hi. unfold in_section in Hv.
    assert (Ha : ALIGN_DOWN (fst section) PAGE_SIZE mod PAGE_SIZE = 0) by by apply Z.mod_mul.
    revert Hsize Hv Hi Hp Ha. generalize (ALIGN_DOWN (fst section) PAGE_SIZE) (ALIGN_UP (snd section) PAGE_SIZE).
    intros start stop Hsize Hv Hi Hp Ha.
    rewrite (section_page_unique v (start + Z.of_nat i * PAGE_SIZE) start (stop - start))
      by (done || (unfold PAGE_SIZE in *; lia)).
    unfold PAGE_SIZE in *. rewrite Z.div_add by lia. pose proof (Z.div_mod start 4096 ltac:(lia)). lia. }
  destruct (remap_all (fun _ => None) ok v) as [e|] eqn:He.
  - left. f_equal. apply remap_all_some in He as [|(m & Hm & Hp & ->)]; [done|].
    apply Hone; [|done]. apply Honly; [|done]. by eapply elem_of_submseteq; [|apply sublist_submseteq].
  - destruct Hall as [->|Hfull]; [exfalso|by right].
    destruct (remap_all_covered (fun _ => None) (kernel_maps k (hhdm_offset s) (memmap s)) v)
      as (m & _ & _ & Hs); [apply kernel_maps_present| |congruence].
    destruct (section_page section v Hv) as (i & Hi & Hpg).
    set (m := loop_map (ALIGN_DOWN (fst section) PAGE_SIZE) id (in_image k) flags i).
    exists m. split.
    + unfold kernel_maps, image_maps. rewrite !elem_of_app. right; left.
      assert (Hm : m ∈ section_maps k section flags) by (apply in_loop_maps; by exists i).
      unfold kernel_sections in Hsec. rewrite !elem_of_cons, elem_of_nil in Hsec.
      destruct Hsec as [[= -> ->]|[[= -> ->]|[[= -> ->]|[[= -> ->]|[]]]]]; tauto.
    + unfold m. cbn. rewrite <-Hpg. unfold page_of, PAGE_SIZE. by rewrite Z.div_mul.
Qed.

(** A page that no request names is not mapped. *)
Lemma unrequested s k f s' v :
  paging_post s k f s' ->
  (forall m, m ∈ kernel_maps k (hhdm_offset s) (memmap s) -> page_of v <> page_of (mp_virt m)) ->
  lookup s' (page_at s f) v = None.
Proof.
  intros Hp Hno. destruct (pp_lookup _ _ _ _ Hp) as (ok & Hsub & _ & ->).
  destruct (remap_all (fun _ => None) ok v) as [e|] eqn:He; [exfalso|done].
  apply remap_all_some in He as [|(m & Hm & Hpg & _)]; [done|]. apply (Hno m); [|done].
  by eapply elem_of_submseteq; [|apply sublist_submseteq].
Qed.
End Kernel.
