(* ===== verification/VmmFree.v ===== *)
(** * Making a context and freeing its regions

    [vinit] establishes [vctx_ok]; [vfree] takes a region out of the list, gives
    its frames back and removes its translations. *)

From S2P Require Export VmmSpec.

Section Free.
Context {FA : FrameAlloc} {FL : FrameAllocLaws} {FF : FrameFreeLaws}.

(** ** A frame returned to the allocator *)

Lemma taken_page s s' pm f :
  pt_ok s pm -> takes_back fa_owned s f s' -> not_table s pm (page_at s f) ->
  pt_ok s' pm /\ (forall u, not_table s pm u -> not_table s' pm u) /\
  (forall virt, lookup s' pm virt = lookup s pm virt).
Proof.
  intros Hpt Htb Hnt. pose proof (others_hhdm _ _ (tb_others _ _ _ _ Htb)) as Hh.
  assert (Hk : forall u a, client_page s u -> in_range u PAGE_SIZE a ->
    load8 (mem s') a = load8 (mem s) a).
  { intros u a (g & Hg & ->). by apply (tb_kept _ _ _ _ Htb g). }
  assert (Hw : forall p, is_path p -> walk s' pm p = walk s pm p)
    by (intros p Hp; by apply walk_kept).
  split_and!.
  - split.
    + intros p t Hp Ht. rewrite Hw in Ht by done.
      destruct (pt_client s pm Hpt p t Hp Ht) as (g & Hg & ->).
      exists g. unfold page_at. rewrite Hh. split; [|done].
      apply (tb_owned _ _ _ _ Htb). split; [done|]. intros ->. by apply (Hnt p Hp).
    + intros p q t Hp Hq. rewrite !Hw by done. by apply (pt_tree s pm Hpt).
  - intros u Hu p Hp. rewrite Hw by done. by apply Hu.
  - intros virt. unfold lookup. rewrite Hw by apply table_path_is_path.
    destruct (walk s pm (table_path virt)) as [t|] eqn:Ht; [|done].
    rewrite (entry_kept s s' t); [done| |by apply page_index_idx].
    intros a. apply Hk. apply (pt_client s pm Hpt (table_path virt)); [apply table_path_is_path|done].
Qed.

Lemma taken_client s s' f u :
  takes_back fa_owned s f s' -> client_page s u -> u <> page_at s f -> client_page s' u.
Proof.
  intros Htb (g & Hg & ->) Hne. pose proof (others_hhdm _ _ (tb_others _ _ _ _ Htb)) as Hh.
  exists g. unfold page_at. rewrite Hh. split; [|done]. apply (tb_owned _ _ _ _ Htb).
  split; [done|]. by intros ->.
Qed.

(** Giving back a frame that is no node of the context. *)
Lemma vctx_ok_taken s s' c pm l f :
  vctx_ok s c pm l -> fa_inv s' -> takes_back fa_owned s f s' ->
  not_table s pm (page_at s f) -> ~ (page_at s f ∈ ctx_nodes c l) -> vctx_ok s' c pm l.
Proof.
  intros Hok Hi' Htb Hnt Hnin. pose proof (others_hhdm _ _ (tb_others _ _ _ _ Htb)) as Hh.
  destruct (taken_page s s' pm f (vc_pt _ _ _ _ Hok) Htb Hnt) as (Hpt' & Hnt' & _).
  pose proof (vc_client _ _ _ _ Hok) as Hc. pose proof (vc_tables _ _ _ _ Hok) as Ht.
  rewrite Forall_forall in Hc, Ht. apply (vctx_ok_keep s); try done; apply Forall_forall; intros u Hu.
  - apply (taken_client s s' f); [done|by apply Hc|]. by intros ->.
  - split; [|by apply Hnt', Ht]. destruct (Hc u Hu) as (g & Hg & ->).
    intros a. by apply (tb_kept _ _ _ _ Htb g).
Qed.

(** ** vinit *)

(** The list of a fresh context: one empty region at [start]. *)
Definition first_region (n start : Z) : region := Region n start 0 0.

Record vinit_post (s : machine) (pm start r : Z) (s' : machine) : Prop := VinitPost {
  vi_ctx : exists n, vctx_ok s' r pm [first_region n start] /\ region_prev (mem s') n = NULL;
  vi_fresh : ~ client_page s r;
  vi_owned : forall f, fa_owned s f -> fa_owned s' f;
  vi_lookup : forall virt, lookup s' pm virt = lookup s pm virt;
  vi_globals : globals s' = globals s;
  vi_linked : linked s pm -> linked s' pm;
  vi_free : fa_free s' = fa_free s - 2 }.

(** With fewer than two frames: what was taken is given back. *)
Record vinit_none (s : machine) (pm : Z) (s' : machine) : Prop := VinitNone {
  vn_inv : fa_inv s';
  vn_pt : pt_ok s' pm;
  vn_owned : forall f, fa_owned s' f <-> fa_owned s f;
  vn_lookup : forall virt, lookup s' pm virt = lookup s pm virt;
  vn_few : fa_free s <= 1;
  vn_free : fa_free s' = fa_free s }.

Definition init_mem (m : memory) (c n pm start : Z) : memory :=
  poke (n + 8) 0 (poke n start (poke (c + 8) pm (poke c n m))).

Lemma fresh_zero64 s f s' k :
  hands_out fa_owned s f s' -> 0 <= k -> k + 8 <= PAGE_SIZE ->
  load64 (mem s') (page_at s f + k) = 0.
Proof.
  intros Hout H0 H1. apply load64_zero. intros x Hx. apply (ho_zero _ _ _ _ Hout).
  unfold in_range, page_at in *. lia.
Qed.

(** Writing inside the pages [W]. *)
Definition in_pages (W : list Z) (a : Z) : Prop := exists u, u ∈ W /\ in_range u PAGE_SIZE a.

Lemma in_page c k n a :
  0 <= k -> k + n <= PAGE_SIZE -> in_range (c + k) n a -> in_pages [c] a.
Proof. intros H0 H1 Ha. exists c. rewrite elem_of_cons. split; [by left|]. unfold in_range in *. lia. Qed.

(** The two pages of a fresh context, before it is written. *)
Record ctx_pages (s : machine) (pm c n : Z) : Prop := CtxPages {
  cp_inv : fa_inv s;
  cp_pt : pt_ok s pm;
  cp_client : Forall (fun u => client_page s u /\ not_table s pm u) [c; n];
  cp_apart : n + PAGE_SIZE <= c \/ c + PAGE_SIZE <= n;
  cp_zero : forall k, 16 <= k -> k + 8 <= PAGE_SIZE -> load64 (mem s) (n + k) = 0 }.

(** The fields after the writes. *)
Lemma init_mem_fields s pm start c n :
  ctx_pages s pm c n -> 0 <= start < 2 ^ 64 ->
  let m := init_mem (mem s) c n pm start in
  agree_outside (in_pages [c; n]) (mem s) m /\ ctx_pagemap m c = pm /\ ctx_root m c = n /\
  chain m n [first_region n start] /\ region_prev m n = NULL.
Proof.
  intros [Hi Hpt Hcl Hap Hz] Hst m. rewrite Forall_cons, Forall_singleton in Hcl.
  destruct Hcl as [[Hc _] [Hn _]].
  destruct (client_page_bounds s c Hi Hc) as (_ & _ & Hcu & Hcp).
  destruct (client_page_bounds s n Hi Hn) as (_ & _ & Hnu & Hnp).
  destruct (client_page_bounds s pm Hi (root_client s pm Hpt)) as (_ & _ & Hpu & Hpp).
  unfold PAGE_SIZE in *.
  assert (Hz' : forall k, 16 <= k -> k + 8 <= 4096 -> load64 m (n + k) = 0).
  { intros k Hk1 Hk2. unfold m, init_mem. rewrite !poke_ne by lia. by apply Hz. }
  split_and!.
  - intros a Ha. assert (~ in_range c 4096 a /\ ~ in_range n 4096 a) as [H1 H2].
    { split; intros Hin; apply Ha; [exists c|exists n]; rewrite !elem_of_cons; tauto. }
    unfold m, init_mem, in_range in *. by rewrite !poke_out by lia.
  - unfold ctx_pagemap, m, init_mem. rewrite (poke_ne (n + 8)), (poke_ne n) by lia.
    apply poke_eq. lia.
  - unfold ctx_root, m, init_mem. rewrite !poke_ne by lia. apply poke_eq. lia.
  - cbn [chain first_region rg_node rg_start rg_pages rg_flags].
    unfold region_start, region_pages, region_flags, region_next.
    rewrite (Hz' 16), (Hz' 24) by lia.
    split_and!; try done; try lia; unfold m, init_mem.
    + rewrite poke_ne by lia. by apply poke_eq.
    + by apply poke_eq.
  - apply Hz'; lia.
Qed.

Lemma init_mem_ok s pm start c n :
  ctx_pages s pm c n -> 0 <= start < 2 ^ 64 ->
  let s' := set_mem (init_mem (mem s) c n pm start) s in
  vctx_ok s' c pm [first_region n start] /\ (forall f, fa_owned s' f <-> fa_owned s f) /\
  (forall virt, lookup s' pm virt = lookup s pm virt) /\ (linked s pm -> linked s' pm).
Proof.
  intros Hcp Hst. destruct (init_mem_fields s pm start c n Hcp Hst) as (Hm & Hpm & Hr & Hch & _).
  destruct Hcp as [Hi Hpt Hcl Hap _].
  destruct (client_writes s _ [c; n] pm Hi Hpt Hcl Hm) as (Hi' & Ho' & Hpt' & Hw' & Hlk').
  split; [|by pose proof (client_writes_linked s _ [c; n] pm Hpt Hcl Hm)]. split; try done.
  - cbn [mem set_mem]. by rewrite Hr.
  - unfold ctx_nodes, first_region. cbn. rewrite NoDup_cons, list_elem_of_singleton. split; [|apply NoDup_singleton].
    intros ->. unfold PAGE_SIZE in Hap. lia.
  - eapply Forall_impl; [exact Hcl|]. intros u [Hu _]. apply (client_page_mono s); [done|intros f; apply Ho'|done].
  - eapply Forall_impl; [exact Hcl|]. intros u [_ Hu] p Hp. rewrite Hw' by done. by apply Hu.
Qed.

(** One page written, in passing. *)
Lemma one_page_write s pm c m :
  fa_inv s -> pt_ok s pm -> client_page s c -> not_table s pm c ->
  agree_outside (in_pages [c]) (mem s) m ->
  let s' := set_mem m s in
  fa_inv s' /\ pt_ok s' pm /\ client_page s' c /\ not_table s' pm c /\
  (forall f, fa_owned s' f <-> fa_owned s f) /\ (forall virt, lookup s' pm virt = lookup s pm virt) /\
  (linked s pm -> linked s' pm).
Proof.
  intros Hi Hpt Hc Hn Hm.
  pose proof (client_writes_linked s m [c] pm Hpt ltac:(by rewrite Forall_singleton) Hm) as Hln.
  destruct (client_writes s m [c] pm) as (Hi' & Ho' & Hpt' & Hw' & Hlk'); try done.
  { by rewrite Forall_singleton. }
  split_and!; try done.
  - apply (client_page_mono s); [done|intros g; apply Ho'|done].
  - intros p Hp. rewrite Hw' by done. by apply Hn.
Qed.

(** Giving the context's page back when there is none for the first region. *)
Lemma vinit_fail s pm f :
  fa_inv s -> pt_ok s pm -> fa_owned s f -> not_table s pm (page_at s f) ->
  wp (fa_pfree (page_at s f) 1) (fun _ s' => fa_inv s' /\ pt_ok s' pm /\
    (forall g, fa_owned s' g <-> fa_owned s g /\ g <> f) /\
    (forall virt, lookup s' pm virt = lookup s pm virt) /\ fa_free s' = fa_free s + 1) s.
Proof.
  intros Hi Hpt Hf Hn.
  eapply wp_mono; [exact (wp_and _ _ _ _ (fa_pfree_one s true f Hi Hf) (fa_pfree_count s true f Hi Hf))|].
  cbv beta. intros _ s' [[Hi' Htb] Hcnt]. destruct (taken_page s s' pm f Hpt Htb Hn) as (? & _ & ?).
  split_and!; try done. apply Htb.
Qed.

(** The page of the first region, fresh beside the context's. *)
Lemma vinit_pages s s' pm c g :
  pt_ok s pm -> fa_inv s' -> hands_out fa_owned s g s' -> client_page s c -> not_table s pm c ->
  ctx_pages s' pm c (page_at s g).
Proof.
  intros Hpt Hi' Hout Hc Hn. set (n := page_at s g).
  destruct (fresh_page s s' pm g Hpt Hout) as (Hpt' & Hnc & Hnn & Hnt & _).
  assert (Hc' : client_page s' c).
  { apply (client_page_mono s); [apply others_hhdm, Hout| |done].
    intros h Hh. apply (ho_owned _ _ _ _ Hout). by left. }
  split; try done.
  - rewrite Forall_cons, Forall_singleton. split_and!; try done. by apply Hnt.
  - assert (Hcn : c <> n) by (intros He; apply (fresh_not_client s s' g); [done|]; fold n; by rewrite <- He).
    by apply (client_page_apart s').
  - intros k Hk Hk'. apply (fresh_zero64 s g); [done|lia|done].
Qed.

(** The second half of [vinit], with the page of the context cleared. *)
Lemma vinit_root pm start c f s s2 :
  ~ fa_owned s f -> c = page_at s f -> globals s2 = globals s ->
  (forall g, fa_owned s2 g <-> fa_owned s g \/ g = f) -> (forall v, lookup s2 pm v = lookup s pm v) ->
  (linked s pm -> linked s2 pm) -> fa_free s2 = fa_free s - 1 ->
  fa_inv s2 -> pt_ok s2 pm -> client_page s2 c -> not_table s2 pm c -> 0 <= start < 2 ^ 64 ->
  wp (root <- fa_palloc 1 true ;;
      write64 c root ;;;
      if root =? NULL then fa_pfree c 1 ;;; ret NULL else
      write64 (c + 8) pm ;;;
      set_region_start root start ;;;
      set_region_pages root 0 ;;;
      ret c) (fun r s' =>
    (r = NULL /\ vinit_none s pm s') \/ (r <> NULL /\ vinit_post s pm start r s')) s2.
Proof.
  intros Hnew Hcf Hgl2 Ho2 Hlk2 Hln2 Hfr2 Hi2 Hpt2 Hc2 Hn2 Hst. pose proof (globals_hhdm _ _ Hgl2) as Hh2.
  wp_step. eapply wp_mono; [by apply fa_palloc_fresh|]. cbv beta.
  intros r s3 [(-> & -> & Hfull)|(g & -> & Hi3 & Hout3 & _ & Hfr3)].
  - unfold write64. do 2 (wp_step; cbv beta). change (NULL =? NULL) with true. cbv iota. wp_step.
    destruct (one_page_write s2 pm c (store64 (mem s2) c 0)) as (Hi4 & Hpt4 & Hc4 & Hn4 & Ho4 & Hlk4 & _);
      try done.
    { eapply agree_outside_weaken; [|apply store64_agree]. intros a. rewrite <- (Z.add_0_r c) at 1.
      by apply in_page. }
    set (s4 := set_mem _ s2) in *.
    assert (Hc : page_at s4 f = c) by (rewrite Hcf; unfold page_at; change (hhdm_offset s4) with (hhdm_offset s2); by rewrite Hh2).
    eapply wp_mono; [rewrite <- Hc; apply (vinit_fail s4 pm f); try done|].
    { apply Ho4, Ho2. by right. }
    { by rewrite Hc. }
    cbv beta. intros _ s5 (Hi5 & Hpt5 & Ho5 & Hlk5 & Hfr5). wp_step. left. split; [done|]. split; try done.
    + intros h. rewrite Ho5, (Ho4 h), (Ho2 h). split; [intros [[?|?] ?]; done|].
      intros Hh. split; [by left|]. by intros ->.
    + intros v. by rewrite Hlk5, Hlk4, Hlk2.
    + unfold fa_full in Hfull. lia.
    + rewrite Hfr5, (fa_free_same s2 s4 eq_refl). lia.
  - change (frame_ptr s2 true g) with (page_at s2 g). set (n := page_at s2 g).
    pose proof (vinit_pages s2 s3 pm c g Hpt2 Hi3 Hout3 Hc2 Hn2) as Hpages. fold n in Hpages.
    destruct (fresh_page s2 s3 pm g Hpt2 Hout3) as (_ & Hnc3 & _ & _ & Hlk3).
    destruct (client_page_bounds s3 n Hi3 Hnc3) as (_ & _ & _ & Hnp).
    destruct (client_page_bounds s2 c Hi2 Hc2) as (_ & _ & _ & Hcp).
    wp_step. cbv beta. unfold write64. wp_step. destruct (Z.eqb_spec n NULL) as [|_]; [lia|].
    unfold set_region_start, set_region_pages, write64. wp_steps.
    match goal with |- context [vinit_post s pm start c ?x] =>
      change x with (set_mem (init_mem (mem s3) c n pm start) s3) end.
    right. split; [lia|].
    destruct (init_mem_fields s3 pm start c n Hpages Hst) as (_ & _ & _ & _ & Hprev).
    destruct (init_mem_ok s3 pm start c n Hpages Hst) as (Hok & Ho6 & Hlk6 & Hln6).
    split; [by exists n| | | | | |].
    + rewrite Hcf. intros (h & Hh & He). apply page_at_inj in He. by subst h.
    + intros h Hh. apply Ho6, (ho_owned _ _ _ _ Hout3). left. apply Ho2. by left.
    + intros v. by rewrite Hlk6, Hlk3, Hlk2.
    + rewrite <-Hgl2. exact (others_globals _ _ (ho_others _ _ _ _ Hout3)).
    + intros Hl. by apply Hln6, (k_linked _ _ _ (kept_fresh pm s2 s3 g Hpt2 Hout3)), Hln2.
    + etransitivity; [by apply (fa_free_same s3)|]. lia.
Qed.

Lemma vinit_spec pm start s :
  fa_inv s -> pt_ok s pm -> 0 <= start < 2 ^ 64 ->
  wp (vinit pm start) (fun r s' =>
    (r = NULL /\ vinit_none s pm s') \/ (r <> NULL /\ vinit_post s pm start r s')) s.
Proof.
  intros Hi Hpt Hst. unfold vinit. wp_step. eapply wp_mono; [by apply fa_palloc_fresh|]. cbv beta.
  intros c s1 [(-> & -> & Hfull)|(f & -> & Hi1 & Hout & _ & Hfr1)]; [left; split; [done|]; split; try done; unfold fa_full in Hfull; lia|].
  change (frame_ptr s true f) with (page_at s f).
  destruct (fresh_page s s1 pm f Hpt Hout) as (Hpt1 & Hc1 & Hn1 & _ & Hlk1).
  pose proof (others_hhdm _ _ (ho_others _ _ _ _ Hout)) as Hh1. set (c := page_at s f) in *.
  destruct (client_page_bounds s1 c Hi1 Hc1) as (_ & _ & _ & Hcp).
  destruct (Z.eqb_spec c NULL) as [|_]; [lia|]. wp_step. unfold memset_at. wp_step. cbv beta.
  destruct (one_page_write s1 pm c (memset (mem s1) c 0 sizeof_vctx)) as (Hi2 & Hpt2 & Hc2 & Hn2 & Ho2 & Hlk2 & Hln2);
    try done.
  { eapply agree_outside_weaken; [|apply memset_agree]. intros a. rewrite <- (Z.add_0_r c) at 1.
    by apply in_page. }
  apply (vinit_root pm start c f s); try done.
  - apply (ho_new _ _ _ _ Hout).
  - exact (others_globals _ _ (ho_others _ _ _ _ Hout)).
  - intros g. by rewrite Ho2, (ho_owned _ _ _ _ Hout).
  - intros v. by rewrite Hlk2.
  - intros Hl. by apply Hln2, (k_linked _ _ _ (kept_fresh pm s s1 f Hpt Hout)).
  - etransitivity; [by apply (fa_free_same s1)|done].
Qed.

(** ** Freeing the pages of a region *)

(** Page [i] of the region translates to frame [f], or is absent. *)
Definition page_frame (s : machine) (pm start : Z) (i : nat) (o : option Z) : Prop :=
  match o with
  | Some f => exists e, lookup s pm (nth_page start i) = Some e /\ Z.land e PAGE_MASK = f * PAGE_SIZE
  | None => lookup s pm (nth_page start i) = None
  end.

(** The pages of a region and the frames behind them, which nobody else uses. *)
Record region_frames (s : machine) (pm start : Z) (nodes : list Z) (fs : list (option Z)) : Prop :=
  RegionFrames {
    rf_start : 0 <= start /\ start mod PAGE_SIZE = 0;
    rf_end : start + Z.of_nat (length fs) * PAGE_SIZE <= 2 ^ 48;
    rf_page : forall i o, fs !! i = Some o -> page_frame s pm start i o;
    rf_nodup : NoDup (omap id fs);
    rf_frame : forall f, Some f ∈ fs ->
        fa_owned s f /\ not_table s pm (page_at s f) /\ ~ (page_at s f ∈ nodes) }.

(** After the first [k] pages were freed. *)
Record freed (s s' : machine) (pm start : Z) (fs : list (option Z)) (k : nat) : Prop := Freed {
  fr_globals : globals s' = globals s;
  fr_owned : forall f, fa_owned s' f <-> fa_owned s f /\ ~ (Some f ∈ take k fs);
  fr_tables : forall f, fa_owned s f -> ~ (Some f ∈ take k fs) -> not_table s pm (page_at s f) ->
      not_table s' pm (page_at s f);
  fr_in : forall i, (i < k)%nat -> lookup s' pm (nth_page start i) = None;
  fr_out : forall v, (forall i, (i < k)%nat -> page_of v <> page_of (nth_page start i)) ->
      lookup s' pm v = lookup s pm v;
  fr_free : fa_free s' = fa_free s + Z.of_nat (length (omap id (take k fs))) }.

Lemma nodup_omap_lookup (fs : list (option Z)) i f :
  NoDup (omap id fs) -> fs !! i = Some (Some f) -> ~ (Some f ∈ take i fs).
Proof.
  intros Hnd Hi Hin. rewrite <- (take_drop_middle fs i (Some f) Hi), omap_app in Hnd.
  cbn in Hnd. apply NoDup_app in Hnd as (_ & Hd & _). apply (Hd f).
  - by apply elem_of_omap_id.
  - rewrite elem_of_cons. by left.
Qed.

Lemma nth_page_aligned start i : start mod PAGE_SIZE = 0 -> has (nth_page start i) (PAGE_SIZE - 1) = false.
Proof.
  intros H. unfold nth_page, has. rewrite <- (negb_involutive (_ =? 0)).
  fold (IS_PAGE_ALIGNED (start + Z.of_nat i * PAGE_SIZE)). rewrite is_page_aligned_mod.
  rewrite Z.mod_add by (unfold PAGE_SIZE; lia). by rewrite H.
Qed.

(** One frame given back and its page unmapped. *)
Lemma free_one s c pm l virt f :
  vctx_ok s c pm l -> fa_owned s f -> not_table s pm (page_at s f) ->
  ~ (page_at s f ∈ ctx_nodes c l) -> has virt (PAGE_SIZE - 1) = false ->
  wp (fa_pfree (f * PAGE_SIZE) 1 ;;;
      t <- get ;; vunmap (ctx_pagemap (mem t) c) virt ;;; ret tt) (fun _ s' =>
    vctx_ok s' c pm l /\ globals s' = globals s /\
    (forall g, fa_owned s' g <-> fa_owned s g /\ g <> f) /\
    (forall g, fa_owned s g -> g <> f -> not_table s pm (page_at s g) -> not_table s' pm (page_at s g)) /\
    (forall u, u ∈ ctx_nodes c l -> node_agree (mem s) (mem s') u) /\
    (forall v, lookup s' pm v = set_page 0 virt (lookup s pm) v) /\ fa_free s' = fa_free s + 1) s.
Proof.
  intros Hok Hf Hn Hnin Hv. wp_step.
  eapply wp_mono.
  { exact (wp_and _ _ _ _ (fa_pfree_one s false f (vc_inv _ _ _ _ Hok) Hf)
      (fa_pfree_count s false f (vc_inv _ _ _ _ Hok) Hf)). }
  cbv beta. intros _ s1 [[Hi1 Htb] Hcnt]. pose proof (vctx_ok_taken s s1 c pm l f Hok Hi1 Htb Hn Hnin) as Hok1.
  destruct (taken_page s s1 pm f (vc_pt _ _ _ _ Hok) Htb Hn) as (Hpt1 & Hnt1 & Hlk1).
  pose proof (others_hhdm _ _ (tb_others _ _ _ _ Htb)) as Hh.
  pose proof (vc_client _ _ _ _ Hok) as Hc. pose proof (vc_tables _ _ _ _ Hok1) as Ht1.
  pose proof (vc_client _ _ _ _ Hok1) as Hc1. rewrite Forall_forall in Hc, Hc1, Ht1.
  wp_step. wp_step. cbv beta. rewrite (vc_pm _ _ _ _ Hok1). wp_step.
  eapply wp_mono.
  { apply wp_and; [by apply (vunmap_spec (client_page s1) pm virt s1)|by apply vunmap_owned]. }
  cbv beta. intros r s2 [[_ Hu] [Hou Hfu]]. wp_step.
  split_and!.
  - exact (vctx_ok_updates s1 s2 c pm l _ _ Hok1 (table_path_is_path virt)
      (updates_weaken _ _ _ _ _ _ _ Hc1 Hu)).
  - rewrite (up_globals _ _ _ _ _ _ Hu). pose proof (tb_others _ _ _ _ Htb) as Ho.
    unfold others in Ho. unfold globals. congruence.
  - intros g. rewrite Hou. apply (tb_owned _ _ _ _ Htb).
  - intros g Hg Hne Hng. apply (up_tables _ _ _ _ _ _ Hu); [|by apply Hnt1].
    exists g. split; [by apply (tb_owned _ _ _ _ Htb)|]. unfold page_at. by rewrite Hh.
  - intros u Hin. apply (node_agree_trans _ (mem s1)).
    + destruct (Hc u Hin) as (g & Hg & ->). intros a. by apply (tb_kept _ _ _ _ Htb g).
    + destruct (up_kept _ _ _ _ _ _ Hu u) as [_ Hb]; [by apply Hc1| |exact Hb].
      intros p Hp. apply (Ht1 u Hin). by apply (prefix_is_path p (table_path virt)), table_path_is_path.
  - intros v. rewrite (up_lookup _ _ _ _ _ _ Hu). unfold set_page. by rewrite Hlk1.
  - by rewrite Hfu.
Qed.

Lemma freed_step s s1 s2 pm start fs k o nodes :
  region_frames s pm start nodes fs -> fs !! k = Some o ->
  freed s s1 pm start fs k -> globals s2 = globals s1 ->
  (forall g, fa_owned s2 g <-> fa_owned s1 g /\ o <> Some g) ->
  (forall g, fa_owned s1 g -> o <> Some g -> not_table s1 pm (page_at s1 g) ->
     not_table s2 pm (page_at s1 g)) ->
  (forall v, lookup s2 pm v = set_page 0 (nth_page start k) (lookup s1 pm) v) ->
  fa_free s2 = fa_free s1 + (if o is Some _ then 1 else 0) ->
  freed s s2 pm start fs (S k).
Proof.
  intros Hrf Hk [Hgl Ho Ht Hin Hout Hfr] Hg Ho2 Ht2 Hlk Hfr2. pose proof (globals_hhdm _ _ Hgl) as Hh.
  assert (Hpg : forall g, page_at s1 g = page_at s g) by (intros g; unfold page_at; by rewrite Hh).
  assert (Hnot : forall g, ~ (Some g ∈ take (S k) fs) <-> ~ (Some g ∈ take k fs) /\ o <> Some g).
  { intros g. rewrite (take_S_r fs k o Hk), elem_of_app, list_elem_of_singleton.
    assert (Some g = o <-> o = Some g) by done. tauto. }
  split.
  - congruence.
  - intros g. rewrite Hnot, Ho2, Ho. tauto.
  - intros g Hgo [Hn1 Hn2]%Hnot Hng. rewrite <- Hpg. apply Ht2; [by apply Ho|done|].
    rewrite Hpg. by apply Ht.
  - intros i Hi. rewrite Hlk. unfold set_page. case_decide as Hp; [done|].
    apply Hin. destruct (decide (i = k)) as [->|]; [done|lia].
  - intros v Hv. rewrite Hlk. unfold set_page. rewrite decide_False by (apply Hv; lia).
    apply Hout. intros i Hi. apply Hv. lia.
  - rewrite Hfr2, Hfr, (take_S_r fs k o Hk), omap_app, length_app. destruct o; cbn; lia.
Qed.

Lemma vfree_pages_spec s c pm l1 x l2 fs :
  let l := l1 ++ x :: l2 in
  vctx_ok s c pm l -> kernel_pagemap (paging s) = pm -> Z.of_nat (length fs) = rg_pages x ->
  region_frames s pm (rg_start x) (ctx_nodes c l) fs ->
  wp (for_loop (length fs) 0 1 (vfree_page c (rg_node x))) (fun _ s' =>
    vctx_ok s' c pm l /\ freed s s' pm (rg_start x) fs (length fs) /\
    forall u, u ∈ ctx_nodes c l -> node_agree (mem s) (mem s') u) s.
Proof.
  intros l Hok Hkpm Hlen Hrf.
  apply (wp_for_loop (length fs) 0 1 _ (fun k s' => vctx_ok s' c pm l /\
    freed s s' pm (rg_start x) fs k /\ forall u, u ∈ ctx_nodes c l -> node_agree (mem s) (mem s') u)).
  { split_and!; [done| |done]. split; try done; [|intros; lia|rewrite take_0; cbn; lia]. intros f. cbn [take].
    assert (~ (Some f ∈ ([] : list (option Z)))) by apply not_elem_of_nil. tauto. }
  intros k s1 Hk (Hok1 & Hfr & Hag). destruct Hrf as [[Hs0 Hsa] Hse Hpage Hnd Hfrm].
  destruct (lookup_lt_is_Some_2 fs k Hk) as [o Ho]. pose proof (Hpage k o Ho) as Hpf.
  destruct (chain_region _ _ _ _ _ (vc_chain _ _ _ _ Hok1)) as (_ & Es & _).
  unfold vfree_page. do 2 (wp_step; cbv beta). rewrite Es.
  replace (w64 (rg_start x + w64 ((0 + Z.of_nat k * 1) * PAGE_SIZE))) with (nth_page (rg_start x) k).
  2:{ unfold nth_page, PAGE_SIZE in *. rewrite !w64_id; rewrite ?w64_id; lia. }
  rewrite (globals_pagemap _ _ (fr_globals _ _ _ _ _ _ Hfr)), Hkpm.
  rewrite virt_to_phys_lookup
    by exact (root_not_null s1 pm (vc_inv _ _ _ _ Hok1) (vc_pt _ _ _ _ Hok1)).
  rewrite (fr_out _ _ _ _ _ _ Hfr).
  2:{ intros i Hi He. apply (page_of_nth _ _ _ (length fs)) in He; lia. }
  set (virt := nth_page (rg_start x) k) in *.
  assert (Hrf : region_frames s pm (rg_start x) (ctx_nodes c l) fs) by done.
  destruct o as [f|]; cbn [page_frame] in Hpf; fold virt in Hpf.
  - destruct Hpf as (e & -> & ->). destruct (Hfrm f) as (Hfo & Hft & Hfn).
    { by apply list_elem_of_lookup_2 in Ho. }
    destruct (fa_bounds s f (vc_inv _ _ _ _ Hok) Hfo) as (Hf0 & _).
    destruct (Z.eqb_spec (f * PAGE_SIZE) 0); [unfold PAGE_SIZE in *; lia|].
    pose proof (nodup_omap_lookup fs k f Hnd Ho) as Hnew.
    assert (Hpg : page_at s1 f = page_at s f) by (unfold page_at; by rewrite (globals_hhdm _ _ (fr_globals _ _ _ _ _ _ Hfr))).
    eapply wp_mono.
    { apply (free_one s1 c pm l virt f Hok1); rewrite ?Hpg; try done.
      - by apply (fr_owned _ _ _ _ _ _ Hfr).
      - by apply (fr_tables _ _ _ _ _ _ Hfr).
      - by apply nth_page_aligned. }
    cbv beta. intros _ s2 (Hok2 & Hg2 & Ho2 & Ht2 & Hag2 & Hlk2 & Hfr2). split_and!; [done| |].
    + apply (freed_step s s1 s2 pm _ fs k (Some f) (ctx_nodes c l)); try done.
      * intros g. rewrite Ho2. split; intros [? Hne]; (split; [done|congruence]).
      * intros g Hg Hne. apply Ht2; [done|congruence].
    + intros u Hu. by apply (node_agree_trans _ (mem s1)), Hag2; [apply Hag|].
  - rewrite Hpf. cbn. split_and!; [done| |done].
    apply (freed_step s s1 s1 pm _ fs k None (ctx_nodes c l)); try done; [by intros g; split; [|intros []]| |lia].
    intros v. symmetry. apply set_page_absent; [|done].
    rewrite (fr_out _ _ _ _ _ _ Hfr); [done|].
    intros i Hi He. apply (page_of_nth _ _ _ (length fs)) in He; lia.
Qed.

(** ** Taking a node out of the list *)

(** The memory after the writes of [vfree] that unlink [x]. *)
Definition unlink_mem (m : memory) (c x prev next : Z) : memory :=
  let m := if prev =? NULL then m else poke (prev + 24) next m in
  let m := if next =? NULL then m else poke (next + 32) prev m in
  if x =? ctx_root m c then poke c next m else m.

Lemma unlink_run s c x prev next (k : K unit) Q :
  wp k Q (set_mem (unlink_mem (mem s) c x prev next) s) ->
  wp (when (negb (prev =? NULL)) (set_region_next prev next) ;;;
      when (negb (next =? NULL)) (set_region_prev next prev) ;;;
      t <- get ;; when (x =? ctx_root (mem t) c) (write64 c next) ;;; k) Q s.
Proof.
  intros Hk. assert (Hid : forall t : machine, t = set_mem (mem t) t) by by intros [].
  unfold unlink_mem in Hk. unfold set_region_next, set_region_prev, write64, poke in *.
  destruct (prev =? NULL), (next =? NULL); cbn [negb] in *; wp_steps; try discriminate;
    match goal with H : (x =? _) = _ |- _ => cbn [mem set_mem] in H; rewrite H in Hk end;
    rewrite <- ?Hid in Hk; exact Hk.
Qed.

(** Where [x] is linked from, as its [prev] field says. *)
Definition linked_from (prev : Z) (l1 l2 : list region) : Prop :=
  (l1 = [] /\ prev = NULL /\ l2 <> []) \/ exists k w, l1 = k ++ [w] /\ prev = rg_node w.

Lemma chain_head m p l : chain m p l -> p = NULL \/ p ∈ rg_node <$> l.
Proof.
  destruct l as [|x l]; [by left|]. intros (-> & _). right. cbn. rewrite elem_of_cons. by left.
Qed.

Lemma chain_unlink m m' p k w x l2 :
  chain m p (k ++ w :: x :: l2) ->
  Forall (fields_agree m m') (rg_node <$> (k ++ l2)) ->
  region_start m' (rg_node w) = region_start m (rg_node w) ->
  region_pages m' (rg_node w) = region_pages m (rg_node w) ->
  region_flags m' (rg_node w) = region_flags m (rg_node w) ->
  region_next m' (rg_node w) = region_next m (rg_node x) ->
  chain m' p (k ++ w :: l2).
Proof.
  intros Hch Hag E1 E2 E3 E4. revert p Hch Hag.
  induction k as [|z k IH]; intros p Hch Hag; cbn [app chain fmap list_fmap] in *.
  - destruct Hch as (-> & Hn & F1 & F2 & F3 & Hx & _ & _ & _ & _ & Hl). rewrite E1, E2, E3, E4.
    rewrite Hx in Hl. split_and!; try done. by apply (chain_fields m).
  - apply Forall_cons in Hag as [(G1 & G2 & G3 & G4) Hag].
    destruct Hch as (-> & Hn & F1 & F2 & F3 & Hl). rewrite G1, G2, G3, G4.
    split_and!; try done. by apply IH.
Qed.

Section Unlink.
Context (s : machine) (c pm : Z) (l1 : list region) (x : region) (l2 : list region).
Let l := l1 ++ x :: l2.
Context (Hok : vctx_ok s c pm l).
Let m := mem s.
Let prev := region_prev m (rg_node x).
Let next := region_next m (rg_node x).
Context (Hlink : linked_from prev l1 l2).
Let m' := unlink_mem m c (rg_node x) prev next.

Lemma node_client u : u ∈ ctx_nodes c l -> client_page s u.
Proof. intros Hu. pose proof (vc_client _ _ _ _ Hok) as Hc. rewrite Forall_forall in Hc. by apply Hc. Qed.

Lemma node_bounds u : u ∈ ctx_nodes c l -> 0 < u /\ u + PAGE_SIZE <= 2 ^ 64.
Proof.
  intros Hu. destruct (client_page_bounds s u (vc_inv _ _ _ _ Hok) (node_client u Hu)) as (_ & _ & ? & ?).
  done.
Qed.

Lemma node_apart u v :
  u ∈ ctx_nodes c l -> v ∈ ctx_nodes c l -> u <> v -> u + PAGE_SIZE <= v \/ v + PAGE_SIZE <= u.
Proof. intros Hu Hv. apply (client_page_apart s); by apply node_client. Qed.

Lemma x_in : rg_node x ∈ ctx_nodes c l.
Proof. unfold l. rewrite ctx_nodes_app. tauto. Qed.

Lemma next_in : next = NULL \/ (next ∈ ctx_nodes c l /\ next <> rg_node x).
Proof.
  pose proof (vc_chain _ _ _ _ Hok) as Hch. pose proof (vc_nodup _ _ _ _ Hok) as Hnd.
  destruct (chain_region _ _ _ _ _ Hch) as (_ & _ & _ & _ & Hl2).
  destruct (chain_head _ _ _ Hl2) as [?|Hin]; [by left|right].
  split; [unfold l; rewrite ctx_nodes_app; tauto|]. intros He.
  unfold ctx_nodes, l in Hnd. rewrite fmap_app, fmap_cons in Hnd.
  apply NoDup_cons in Hnd as [_ Hnd]. apply NoDup_app in Hnd as (_ & _ & Hnd).
  apply NoDup_cons in Hnd as [Hnd _]. apply Hnd. by rewrite <- He.
Qed.

Lemma prev_in : prev = NULL \/ prev ∈ ctx_nodes c l.
Proof.
  destruct Hlink as [(_ & ? & _)|(k & w & Hl & ->)]; [by left|right].
  unfold l. rewrite ctx_nodes_app, Hl, fmap_app, elem_of_app. cbn. rewrite elem_of_cons. tauto.
Qed.

(** Only the nodes' pages and the context's are written. *)
Lemma unlink_outside : agree_outside (in_pages (ctx_nodes c l)) m m'.
Proof.
  intros a Ha. assert (Hn : forall u, u ∈ ctx_nodes c l -> ~ in_range u PAGE_SIZE a)
    by (intros u Hu Hin; apply Ha; by exists u).
  assert (Hc : ~ in_range c PAGE_SIZE a) by (apply Hn; unfold ctx_nodes; rewrite elem_of_cons; by left).
  unfold m', unlink_mem, in_range, PAGE_SIZE in *.
  assert (Hp : prev <> NULL -> ~ (prev <= a < prev + 4096)) by (destruct prev_in; [done|auto]).
  assert (Hx : next <> NULL -> ~ (next <= a < next + 4096)) by (destruct next_in as [?|[? _]]; [done|auto]).
  destruct (Z.eqb_spec prev NULL), (Z.eqb_spec next NULL); case_match; rewrite ?poke_out by lia; done.
Qed.

(** A field of one node does not see a write to another field or node. *)
Lemma poke_field m0 u v k j val :
  u ∈ ctx_nodes c l -> v ∈ ctx_nodes c l -> k ∈ [0; 8; 16; 24; 32] -> j ∈ [0; 8; 16; 24; 32] ->
  ~ (u = v /\ k = j) -> load64 (poke (v + j) val m0) (u + k) = load64 m0 (u + k).
Proof.
  intros Hu Hv Hk Hj Hne. rewrite !elem_of_cons, elem_of_nil in Hk, Hj. apply poke_ne.
  destruct (decide (u = v)) as [->|Huv]; [lia|]. pose proof (node_apart u v Hu Hv Huv).
  unfold PAGE_SIZE in *. lia.
Qed.

Lemma c_in : c ∈ ctx_nodes c l.
Proof. unfold ctx_nodes. rewrite elem_of_cons. by left. Qed.

Lemma unlink_load u k :
  u ∈ ctx_nodes c l -> k ∈ [0; 8; 16; 24; 32] ->
  ~ (u = prev /\ k = 24) -> ~ (u = next /\ k = 32) -> ~ (u = c /\ k = 0) ->
  load64 m' (u + k) = load64 m (u + k).
Proof.
  intros Hu Hk H1 H2 H3. unfold m', unlink_mem. rewrite <- (Z.add_0_r c) at 2.
  assert (Hp : prev <> NULL -> prev ∈ ctx_nodes c l) by (destruct prev_in; tauto).
  assert (Hx : next <> NULL -> next ∈ ctx_nodes c l) by (destruct next_in; tauto).
  destruct (Z.eqb_spec prev NULL), (Z.eqb_spec next NULL); case_match; rewrite ?poke_field; auto;
    (apply c_in || (rewrite !elem_of_cons, elem_of_nil; lia)).
Qed.

Lemma unlink_fields u :
  u ∈ rg_node <$> l -> u <> prev -> fields_agree m m' u.
Proof.
  intros Hin Hne. assert (Hu : u ∈ ctx_nodes c l) by (unfold ctx_nodes; rewrite elem_of_cons; tauto).
  assert (Huc : u <> c).
  { intros ->. pose proof (vc_nodup _ _ _ _ Hok) as Hnd. by apply NoDup_cons in Hnd as [Hnd _]. }
  assert (E : forall k, k ∈ [0; 8; 16; 24; 32] -> k <> 32 -> load64 m' (u + k) = load64 m (u + k))
    by (intros k Hk Hk32; apply unlink_load; [done|done|tauto|tauto|tauto]).
  pose proof (E 0) as E0. rewrite Z.add_0_r, !elem_of_cons in E0.
  split_and!; [apply E0; [tauto|done]|apply E; [|done]..]; rewrite ?elem_of_cons, ?elem_of_nil; lia.
Qed.

Lemma node_not_c u : u ∈ rg_node <$> l -> u ∈ ctx_nodes c l /\ u <> c.
Proof.
  intros Hin. split; [unfold ctx_nodes; rewrite elem_of_cons; by right|]. intros ->.
  pose proof (vc_nodup _ _ _ _ Hok) as Hnd. by apply NoDup_cons in Hnd as [Hnd _].
Qed.

Let m2 := let m1 := if prev =? NULL then m else poke (prev + 24) next m in
          if next =? NULL then m1 else poke (next + 32) prev m1.

Lemma unlink_root :
  ctx_root m' c = if rg_node x =? ctx_root m c then next else ctx_root m c.
Proof.
  assert (E : load64 m2 (c + 0) = load64 m (c + 0)).
  { assert (Hp : prev <> NULL -> prev ∈ ctx_nodes c l) by (destruct prev_in; tauto).
    assert (Hx : next <> NULL -> next ∈ ctx_nodes c l) by (destruct next_in; tauto).
    unfold m2. destruct (Z.eqb_spec prev NULL), (Z.eqb_spec next NULL); rewrite ?poke_field; auto;
      (apply c_in || (rewrite !elem_of_cons, elem_of_nil; lia) || lia). }
  rewrite Z.add_0_r in E. change m' with (if rg_node x =? ctx_root m2 c then poke c next m2 else m2).
  unfold ctx_root in *. rewrite E. destruct (rg_node x =? load64 m c); [|exact E].
  apply poke_eq, load64_range.
Qed.

Lemma unlink_next : prev ∈ rg_node <$> l -> load64 m' (prev + 24) = next.
Proof.
  intros Hin. destruct (node_not_c prev Hin) as [Hp Hpc]. destruct (node_bounds prev Hp) as [Hp0 _].
  assert (Hx : next <> NULL -> next ∈ ctx_nodes c l) by (destruct next_in; tauto).
  unfold m', unlink_mem. rewrite <- (Z.add_0_r c) at 2.
  destruct (Z.eqb_spec prev NULL); [lia|].
  destruct (Z.eqb_spec next NULL); case_match; rewrite ?(poke_field _ prev c 24 0), ?(poke_field _ prev next 24 32); auto;
    (apply poke_eq, load64_range) || apply c_in || (rewrite !elem_of_cons, elem_of_nil; lia) || lia.
Qed.

(** The unlinked list. *)
Lemma unlink_chain : chain m' (ctx_root m' c) (l1 ++ l2).
Proof.
  pose proof (vc_chain _ _ _ _ Hok) as Hch. fold m in Hch. pose proof (vc_nodup _ _ _ _ Hok) as Hnd.
  unfold ctx_nodes, l in Hnd. rewrite fmap_app, fmap_cons in Hnd. apply NoDup_cons in Hnd as [_ Hnd].
  apply NoDup_app in Hnd as (Hnd1 & Hnd12 & Hnd2). apply NoDup_cons in Hnd2 as [Hx2 _].
  assert (Hsub : forall u, u ∈ rg_node <$> l1 \/ u ∈ rg_node <$> l2 -> u ∈ rg_node <$> l).
  { intros u. unfold l. rewrite fmap_app, fmap_cons, elem_of_app, elem_of_cons. tauto. }
  rewrite unlink_root. destruct Hlink as [(Hl1 & Hp & Hne)|(k & w & Hl1 & Hp)].
  - unfold l in Hch. rewrite Hl1 in Hch |- *. cbn [app] in *. destruct Hch as (Hrx & Hn & _ & _ & _ & Hl2).
    rewrite Hrx, Z.eqb_refl. apply (chain_fields m); [|by rewrite Hrx in Hl2].
    apply Forall_forall. intros u Hu. assert (Hul : u ∈ rg_node <$> l) by (apply Hsub; by right).
    apply unlink_fields; [done|]. destruct (node_bounds u (proj1 (node_not_c u Hul))). lia.
  - assert (Hw : rg_node w ∈ rg_node <$> l1) by (rewrite Hl1, fmap_app, elem_of_app; right; cbn; rewrite elem_of_cons; by left).
    assert (Hroot : ctx_root m c <> rg_node x).
    { intros He. apply (Hnd12 (rg_node x)); [|rewrite elem_of_cons; by left].
      rewrite Hl1. unfold l in Hch. rewrite Hl1, He in Hch.
      destruct k as [|z k]; destruct Hch as (-> & _); cbn; rewrite elem_of_cons; by left. }
    destruct (Z.eqb_spec (rg_node x) (ctx_root m c)); [congruence|].
    rewrite Hl1, <- app_assoc. cbn [app].
    destruct (node_not_c (rg_node w) (Hsub _ (or_introl Hw))) as [Hwn Hwc].
    assert (Ew : forall j, j ∈ [0; 8; 16] -> load64 m' (rg_node w + j) = load64 m (rg_node w + j)).
    { intros j Hj. rewrite !elem_of_cons, elem_of_nil in Hj.
      apply unlink_load; [done|rewrite !elem_of_cons, elem_of_nil; lia|lia|lia|tauto]. }
    pose proof (Ew 0) as E0. rewrite Z.add_0_r, !elem_of_cons in E0.
    apply (chain_unlink m m' _ k w x l2).
    + unfold l in Hch. rewrite Hl1, <- app_assoc in Hch. exact Hch.
    + rewrite fmap_app, Forall_app. rewrite Hl1, fmap_app in Hnd1. apply NoDup_app in Hnd1 as (_ & Hkw & _).
      split; apply Forall_forall; intros u Hu; apply unlink_fields.
      * apply Hsub. left. rewrite Hl1, fmap_app, elem_of_app. by left.
      * rewrite Hp. intros ->. apply (Hkw (rg_node w) Hu). cbn. rewrite elem_of_cons. by left.
      * apply Hsub. by right.
      * rewrite Hp. intros ->. apply (Hnd12 (rg_node w) Hw). rewrite elem_of_cons. by right.
    + apply E0. rewrite elem_of_nil. lia.
    + apply Ew. rewrite !elem_of_cons, elem_of_nil. lia.
    + apply Ew. rewrite !elem_of_cons, elem_of_nil. lia.
    + unfold region_next. rewrite <- Hp. apply unlink_next. rewrite Hp. apply Hsub. by left.
Qed.
End Unlink.

Lemma ctx_nodes_remove c l1 x l2 :
  NoDup (ctx_nodes c (l1 ++ x :: l2)) ->
  NoDup (ctx_nodes c (l1 ++ l2)) /\ ~ (rg_node x ∈ ctx_nodes c (l1 ++ l2)) /\
  forall u, u ∈ ctx_nodes c (l1 ++ l2) -> u ∈ ctx_nodes c (l1 ++ x :: l2).
Proof.
  unfold ctx_nodes. rewrite !fmap_app, fmap_cons. intros Hnd.
  assert (Hp : NoDup (rg_node x :: c :: (rg_node <$> l1) ++ (rg_node <$> l2))).
  { eapply NoDup_Permutation_proper; [|exact Hnd]. rewrite <- Permutation_middle. apply Permutation_swap. }
  apply NoDup_cons in Hp as [Hx Hp]. split_and!; [done|done|].
  intros u. rewrite !elem_of_cons, !elem_of_app, elem_of_cons. tauto.
Qed.

(** Unlinking, then giving the node's frame back. *)
Lemma unlink_free s c pm l1 x l2 :
  vctx_ok s c pm (l1 ++ x :: l2) -> l1 ++ l2 <> [] ->
  let prev := region_prev (mem s) (rg_node x) in
  let next := region_next (mem s) (rg_node x) in
  linked_from prev l1 l2 ->
  wp (fa_pfree (rg_node x) 1) (fun _ s' =>
    vctx_ok s' c pm (l1 ++ l2) /\ (forall virt, lookup s' pm virt = lookup s pm virt) /\
    (forall f, fa_owned s' f <-> fa_owned s f /\ page_at s f <> rg_node x) /\ globals s' = globals s /\
    fa_free s' = fa_free s + 1)
    (set_mem (unlink_mem (mem s) c (rg_node x) prev next) s).
Proof.
  intros Hok Hne prev next Hlink.
  destruct (ctx_nodes_remove c l1 x l2 (vc_nodup _ _ _ _ Hok)) as (Hnd & Hx & Hsub).
  set (m' := unlink_mem (mem s) c (rg_node x) prev next).
  destruct (vctx_ok_relink s c pm (l1 ++ x :: l2) (l1 ++ l2) m') as (Hok' & Ho' & Hnt' & Hlk'); try done.
  - exact (unlink_outside s c pm l1 x l2 Hok Hlink).
  - pose proof (vc_pm _ _ _ _ Hok) as Hpm. rewrite <- Hpm. unfold ctx_pagemap.
    apply (unlink_load s c pm l1 x l2 Hok Hlink); [apply c_in| | | |]; try lia.
    rewrite !elem_of_cons, elem_of_nil. lia.
  - exact (unlink_chain s c pm l1 x l2 Hok Hlink).
  - set (s1 := set_mem m' s) in *.
    assert (Hxl : rg_node x ∈ ctx_nodes c (l1 ++ x :: l2)) by (rewrite ctx_nodes_app; tauto).
    pose proof (vc_client _ _ _ _ Hok) as Hc. pose proof (vc_tables _ _ _ _ Hok) as Ht.
    rewrite Forall_forall in Hc, Ht. destruct (Hc _ Hxl) as (f & Hf & Hxf).
    assert (Hpg : forall g, page_at s1 g = page_at s g) by done.
    assert (Hf1 : fa_owned s1 f) by by apply Ho'.
    eapply wp_mono.
    { rewrite Hxf. exact (wp_and _ _ _ _ (fa_pfree_one s1 true f (vc_inv _ _ _ _ Hok') Hf1)
        (fa_pfree_count s1 true f (vc_inv _ _ _ _ Hok') Hf1)). }
    cbv beta. intros _ s2 [[Hi2 Htb] Hcnt]. rewrite Hxf in Hx.
    assert (Hnt : not_table s1 pm (page_at s1 f)) by (rewrite Hpg, <- Hxf; by apply Hnt', Ht).
    destruct (taken_page s1 s2 pm f (vc_pt _ _ _ _ Hok') Htb Hnt) as (_ & _ & Hlk2).
    split_and!.
    + by apply (vctx_ok_taken s1 s2 c pm (l1 ++ l2) f).
    + intros v. by rewrite Hlk2, Hlk'.
    + intros g. rewrite (tb_owned _ _ _ _ Htb), Ho', Hxf.
      split; intros [? Hg]; (split; [done|]); [intros He; apply page_at_inj in He; done|by intros ->].
    + exact (others_globals _ _ (tb_others _ _ _ _ Htb)).
    + rewrite Hcnt. by rewrite (fa_free_same s s1 eq_refl).
Qed.

(** [vfree] of the first region that starts at its address: what the loop over the pages
    establishes ([P]), then the node leaves the list. *)
Lemma vfree_after (P : machine -> Prop) fuel s c pm l1 x l2 :
  let l := l1 ++ x :: l2 in
  vctx_ok s c pm l -> (length l < fuel)%nat ->
  (forall y, y ∈ l1 -> rg_start y <> rg_start x) ->
  linked_from (region_prev (mem s) (rg_node x)) l1 l2 ->
  wp (for_loop (Z.to_nat (rg_pages x)) 0 1 (vfree_page c (rg_node x))) (fun _ s1 =>
    vctx_ok s1 c pm l /\ (forall u, u ∈ ctx_nodes c l -> node_agree (mem s) (mem s1) u) /\ P s1) s ->
  wp (vfree fuel c (rg_start x)) (fun _ s' => exists s1, P s1 /\
    vctx_ok s' c pm (l1 ++ l2) /\ (forall v, lookup s' pm v = lookup s1 pm v) /\
    (forall f, fa_owned s' f <-> fa_owned s1 f /\ page_at s1 f <> rg_node x) /\ globals s' = globals s1 /\
    fa_free s' = fa_free s1 + 1) s.
Proof.
  intros l Hok Hfuel Hfirst Hlink Hloop.
  pose proof (node_bounds s c pm l1 x l2 Hok c (c_in c l1 x l2)) as [Hc0 _].
  unfold vfree. destruct (Z.eqb_spec c NULL); [lia|]. do 2 (wp_step; cbv beta).
  wp_step. eapply wp_mono; [apply (scan_regions_spec fuel _ _ l s); [apply Hok|done]|]. cbv beta.
  assert (Hst : forall k1 y k2, l = k1 ++ y :: k2 ->
    starts_at (rg_start x) (mem s) (rg_node y) = (rg_start y =? rg_start x)).
  { intros k1 y k2 He. pose proof (vc_chain _ _ _ _ Hok) as Hch. rewrite He in Hch.
    unfold starts_at. by destruct (chain_region _ _ _ _ _ Hch) as (_ & -> & _). }
  assert (Hfg : first_gap (starts_at (rg_start x)) (mem s) l l1 x l2).
  { split_and!; [done|rewrite (Hst l1 x l2) by done; apply Z.eqb_refl|].
    apply Forall_forall. intros y Hy. pose proof (Hfirst y Hy) as Hne.
    apply list_elem_of_split in Hy as (k1 & k2 & Hl1).
    rewrite (Hst k1 y (k2 ++ x :: l2)); [by apply Z.eqb_neq|]. unfold l. by rewrite Hl1, <- app_assoc. }
  intros r s_ [-> [[-> Hall]|(k1 & y & k2 & Hl & -> & Hrn & Hy & Hall & _)]].
  { exfalso. apply Forall_app in Hall as [_ [Hxx _]%Forall_cons]. destruct Hfg as (_ & Hfg & _). congruence. }
  destruct (first_gap_unique _ _ _ _ _ _ _ _ _ Hfg (conj Hl (conj Hy Hall))) as (<- & <- & <-).
  destruct (Z.eqb_spec (rg_node x) NULL); [done|]. do 2 (wp_step; cbv beta).
  destruct (chain_region _ _ _ _ _ (vc_chain _ _ _ _ Hok)) as (_ & _ & Hpg & _).
  rewrite Hpg. wp_step. eapply wp_mono; [exact Hloop|]. cbv beta.
  intros [] s1 (Hok1 & Hag & HP).
  destruct (region_fields_agree (mem s) (mem s1) (rg_node x)) as (_ & _ & _ & En & Ep).
  { apply Hag. apply (x_in c l1 x l2). }
  rewrite <- Ep in Hlink |- *. rewrite <- En. apply unlink_run.
  assert (Hne : l1 ++ l2 <> []).
  { destruct Hlink as [(_ & _ & Hne)|(k & w & -> & _)]; [|by destruct k]. by destruct l1. }
  eapply wp_mono; [by apply (unlink_free s1 c pm l1 x l2)|]. cbv beta. intros _ s2 H. by exists s1.
Qed.

(** [vfree] of the first region that starts at [ptr]. *)
Lemma vfree_spec fuel s c pm l1 x l2 fs ptr :
  let l := l1 ++ x :: l2 in
  vctx_ok s c pm l -> (length l < fuel)%nat -> kernel_pagemap (paging s) = pm ->
  rg_start x = ptr -> (forall y, y ∈ l1 -> rg_start y <> ptr) ->
  linked_from (region_prev (mem s) (rg_node x)) l1 l2 ->
  Z.of_nat (length fs) = rg_pages x -> region_frames s pm ptr (ctx_nodes c l) fs ->
  wp (vfree fuel c ptr) (fun _ s' => 
    vctx_ok s' c pm (l1 ++ l2) /\
    (forall f, fa_owned s' f <-> fa_owned s f /\ ~ (Some f ∈ fs) /\ page_at s f <> rg_node x) /\
    (forall i, (i < length fs)%nat -> lookup s' pm (nth_page ptr i) = None) /\
    (forall v, (forall i, (i < length fs)%nat -> page_of v <> page_of (nth_page ptr i)) ->
       lookup s' pm v = lookup s pm v) /\ globals s' = globals s /\
    fa_free s' = fa_free s + 1 + Z.of_nat (length (omap id fs))) s.
Proof.
  intros l Hok Hfuel Hk Hptr Hfirst Hlink Hlen Hrf. subst ptr.
  eapply wp_mono.
  { apply (vfree_after (fun s1 => freed s s1 pm (rg_start x) fs (length fs)) fuel s c pm l1 x l2); try done.
    rewrite <-Hlen, Nat2Z.id. eapply wp_mono; [by apply (vfree_pages_spec s c pm l1 x l2 fs)|].
    cbv beta. tauto. }
  cbv beta. intros _ s2 (s1 & Hfr & Hok2 & Hlk2 & Ho2 & Hg2 & Hf2).
  assert (Hpa : forall f, page_at s1 f = page_at s f)
    by (intros f; unfold page_at; by rewrite (globals_hhdm _ _ (fr_globals _ _ _ _ _ _ Hfr))).
  split_and!; [done| | | | |].
  - intros f. rewrite Ho2, (fr_owned _ _ _ _ _ _ Hfr), Hpa, firstn_all. tauto.
  - intros i Hi. rewrite Hlk2. by apply (fr_in _ _ _ _ _ _ Hfr).
  - intros v Hv. rewrite Hlk2. by apply (fr_out _ _ _ _ _ _ Hfr).
  - rewrite Hg2. apply (fr_globals _ _ _ _ _ _ Hfr).
  - rewrite Hf2, (fr_free _ _ _ _ _ _ Hfr), firstn_all. lia.
Qed.

(** [vfree] looks the pages of a region up in [kernel_pagemap]: of a region of another
    page map, whose pages the kernel does not map, only the node goes away. *)
Lemma vfree_elsewhere fuel s c pm l1 x l2 :
  let l := l1 ++ x :: l2 in
  vctx_ok s c pm l -> (length l < fuel)%nat ->
  kernel_pagemap (paging s) <> NULL ->
  0 <= rg_start x /\ rg_start x + rg_pages x * PAGE_SIZE <= 2 ^ 48 ->
  (forall i, (i < Z.to_nat (rg_pages x))%nat ->
     lookup s (kernel_pagemap (paging s)) (nth_page (rg_start x) i) = None) ->
  (forall y, y ∈ l1 -> rg_start y <> rg_start x) ->
  linked_from (region_prev (mem s) (rg_node x)) l1 l2 ->
  wp (vfree fuel c (rg_start x)) (fun _ s' =>
    vctx_ok s' c pm (l1 ++ l2) /\ (forall v, lookup s' pm v = lookup s pm v) /\
    (forall f, fa_owned s' f <-> fa_owned s f /\ page_at s f <> rg_node x) /\
    fa_free s' = fa_free s + 1) s.
Proof.
  intros l Hok Hfuel Hkn [H0 Hb] Hun Hfirst Hlink. eapply wp_mono.
  { apply (vfree_after (fun s1 => s1 = s) fuel s c pm l1 x l2); try done.
    apply (wp_for_loop _ 0 1 _ (fun _ s1 => vctx_ok s1 c pm l /\
      (forall u, u ∈ ctx_nodes c l -> node_agree (mem s) (mem s1) u) /\ s1 = s)); [done|].
    intros k s_ Hkl (_ & _ & ->).
    destruct (chain_region _ _ _ _ _ (vc_chain _ _ _ _ Hok)) as (_ & Es & _).
    unfold vfree_page. do 2 (wp_step; cbv beta). rewrite Es.
    replace (w64 (rg_start x + w64 ((0 + Z.of_nat k * 1) * PAGE_SIZE))) with (nth_page (rg_start x) k).
    2:{ unfold nth_page, PAGE_SIZE in *. rewrite !w64_id; rewrite ?w64_id; lia. }
    rewrite virt_to_phys_lookup by done. rewrite Hun by done. by cbn. }
  cbv beta. intros _ s2 (? & -> & Hok2 & Hlk2 & Ho2 & _ & Hf2). done.
Qed.
End Free.
