(* ===== verification/VmmProps.v ===== *)
(** * Virtual memory contexts: main theorems *)

From S2P Require Export VmmFree PagingProps.

Section Props.
Context {FA : FrameAlloc} {FL : FrameAllocLaws} {FF : FrameFreeLaws}.

Lemma gap_after_such s c pm l l1 x l2 :
  vctx_ok s c pm l ->
  (first_gap gap_after (mem s) l l1 x l2 <-> first_such gap_behind l l1 x l2).
Proof.
  intros Hok. eapply first_gap_such; [apply Hok|]. intros k1 y k2 ->.
  eapply gap_after_list, Hok.
Qed.

Lemma gap_after_at_such pages s c pm l l1 x l2 :
  vctx_ok s c pm l ->
  (first_gap (gap_after_at pages) (mem s) l l1 x l2 <-> first_such (gap_behind_at pages) l l1 x l2).
Proof.
  intros Hok. eapply first_gap_such; [apply Hok|]. intros k1 y k2 ->.
  eapply gap_after_at_list, Hok.
Qed.

Lemma gap_last m u : region_next m u = NULL -> gap_after m u = true.
Proof. unfold gap_after. by intros ->. Qed.

Lemma gap_last_at pages m u : region_next m u = NULL -> gap_after_at pages m u = true.
Proof. unfold gap_after_at. by intros ->. Qed.

(** The contract with the number of frames that it may cost. *)
Definition fresh_spent (fl : Z) (s0 : machine) (pm : Z) (nodes : list Z) (s : machine) (es : list (option Z)) : Prop :=
  fresh_frames fl s0 pm nodes s es /\ spent s0 s es.

Lemma valloc_spent fuel s c pm l pages flags :
  vctx_ok s c pm l -> (length l < fuel)%nat -> 0 <= pages < 2 ^ 64 ->
  (forall x, x ∈ l -> rg_end x + pages * PAGE_SIZE <= 2 ^ 48) ->
  wp (valloc fuel c pages flags)
    (valloc_post gap_after (fresh_spent (VFLAGS_TO_PFLAGS flags) s pm) fa_full s c pm l pages flags) s.
Proof.
  intros Hok Hf Hp Hb. apply valloc_with_spec; try done.
  - exact gap_last.
  - intros l1 x l2 (-> & _). apply Hb. rewrite elem_of_app, elem_of_cons. tauto.
  - apply valloc_supplies.
  - intros nodes s' Hk Hl Hfr. split; [split; [split; [done|]|]|unfold spent; cbn; lia].
    + intros Hl0. split; [by apply Hl|]. by intros ?%not_elem_of_nil.
    + exists []. split_and!; [done|constructor|]. by intros f ?%not_elem_of_nil.
Qed.

Lemma valloc_spec fuel s c pm l pages flags :
  vctx_ok s c pm l -> (length l < fuel)%nat -> 0 <= pages < 2 ^ 64 ->
  (forall x, x ∈ l -> rg_end x + pages * PAGE_SIZE <= 2 ^ 48) ->
  wp (valloc fuel c pages flags)
    (valloc_post gap_after (fresh_frames (VFLAGS_TO_PFLAGS flags) s pm) fa_full s c pm l pages flags) s.
Proof.
  intros Hok Hf Hp Hb. eapply wp_mono; [by apply (valloc_spent fuel s c pm l)|].
  intros r s' [?|(l1 & x & l2 & n & es & ? & ? & ? & [? _] & ?)]; [by left|right].
  by exists l1, x, l2, n, es.
Qed.

(** C13: [valloc] returns.  It links a new region behind the first region [x] that
    is the last one or ends before the next one starts, and returns [x]'s end.
    On success every page of the new region is mapped, with the flags asked for,
    to a frame of its own that no client owned, that is no page table and no node
    (or, in linked tables, no frame is left because [vmap] took the last one and needed
    more), and no other page of the address space changed.  NULL only when no frame is left,
    with nothing changed or with the context well-formed and the new region left in it. *)
Theorem valloc_correct fuel s c pm l pages flags :
  vctx_ok s c pm l -> (length l < fuel)%nat -> 0 <= pages < 2 ^ 64 ->
  (forall x, x ∈ l -> rg_end x + pages * PAGE_SIZE <= 2 ^ 48) ->
  wp (valloc fuel c pages flags) (fun r s' =>
    (r = NULL /\ s' = s /\ fa_full s) \/
    (exists l1 x l2 n es, first_such gap_behind l l1 x l2 /\
       vctx_ok s' c pm (l1 ++ x :: new_region n x pages flags :: l2) /\
       pages_set s s' pm (rg_end x) es /\
       fresh_frames (VFLAGS_TO_PFLAGS flags) s pm
         (ctx_nodes c (l1 ++ x :: new_region n x pages flags :: l2)) s' es /\
       ((r = NULL /\ fa_full s') \/ (r = rg_end x /\ length es = Z.to_nat pages)))) s.
Proof.
  intros Hok Hf Hp Hb. eapply wp_mono; [by apply (valloc_spec fuel s c pm l)|].
  intros r s' [?|(l1 & x & l2 & n & es & Hg & ? & ? & ? & _ & _ & ?)]; [by left|right].
  exists l1, x, l2, n, es. split; [by apply (gap_after_such s c pm)|]. split_and!; try done. tauto.
Qed.

(** [vallocat] links a region behind the first region [x] that is last or for
    which [x]'s START plus the size of the request lies before the next region;
    it maps its pages to the consecutive physical pages from [phys] on. *)
Theorem vallocat_correct fuel s c pm l pages flags phys :
  vctx_ok s c pm l -> (length l < fuel)%nat -> 0 <= pages < 2 ^ 64 ->
  (forall x, x ∈ l -> rg_end x + pages * PAGE_SIZE <= 2 ^ 48) ->
  wp (vallocat fuel c pages flags phys) (fun r s' =>
    (r = NULL /\ s' = s /\ fa_full s) \/
    (exists l1 x l2 n es, first_such (gap_behind_at pages) l l1 x l2 /\
       vctx_ok s' c pm (l1 ++ x :: new_region n x pages flags :: l2) /\
       pages_set s s' pm (rg_end x) es /\
       given_pages (ALIGN_DOWN phys PAGE_SIZE) (VFLAGS_TO_PFLAGS flags) es /\
       (r = NULL \/ (r = rg_end x /\ length es = Z.to_nat pages)))) s.
Proof.
  intros Hok Hf Hp Hb. eapply wp_mono.
  { apply (valloc_with_spec fuel (gap_after_at pages) _
      (fun _ _ => given_pages (ALIGN_DOWN phys PAGE_SIZE) (VFLAGS_TO_PFLAGS flags)) (fun _ => True) s c pm l pages flags);
      try done.
    - apply gap_last_at.
    - intros l1 x l2 (-> & _). apply Hb. rewrite elem_of_app, elem_of_cons. tauto.
    - apply vallocat_supplies. }
  intros r s' [?|(l1 & x & l2 & n & es & Hg & ? & ? & ? & _ & _ & ?)]; [by left|right].
  exists l1, x, l2, n, es. split; [|tauto]. by apply (gap_after_at_such pages s c pm).
Qed.

(** [valloc] takes a gap without asking how large it is: when the first gap is
    smaller than the request, the new region runs over the region behind it,
    which stays in the list. *)
Theorem valloc_overlap fuel s c pm l l1 x y l2 pages flags :
  vctx_ok s c pm l -> (length l < fuel)%nat -> 0 <= pages < 2 ^ 64 ->
  (forall z, z ∈ l -> rg_end z + pages * PAGE_SIZE <= 2 ^ 48) ->
  first_such gap_behind l l1 x (y :: l2) -> rg_start y < rg_end x + pages * PAGE_SIZE ->
  wp (valloc fuel c pages flags) (fun r s' =>
    r <> NULL -> r < rg_start y < r + pages * PAGE_SIZE /\
    exists n, vctx_ok s' c pm (l1 ++ x :: new_region n x pages flags :: y :: l2)) s.
Proof.
  intros Hok Hf Hp Hb Hg Hov. eapply wp_mono; [by apply (valloc_spec fuel s c pm l)|].
  intros r s' [[-> _]|(k1 & x' & k2 & n & es & Hg' & Hok' & _ & _ & _ & _ & Hr)]; [done|intros Hrn].
  apply (gap_after_such s c pm) in Hg; [|done].
  destruct (first_gap_unique _ _ _ _ _ _ _ _ _ Hg Hg') as (<- & <- & <-).
  destruct Hr as [[]|[-> _]]; [done|].
  apply (gap_after_such s c pm) in Hg; [|done]. destruct Hg as (_ & Hlt & _). cbn in Hlt.
  split; [lia|]. by exists n.
Qed.

Lemma vget_spec fuel s c pm l vaddr :
  vctx_ok s c pm l -> (length l < fuel)%nat ->
  wp (vget fuel c vaddr) (fun r s' => s' = s /\
    ((r = NULL /\ forall x, x ∈ l -> ~ (rg_start x <= vaddr < rg_end x)) \/
     (exists l1 x l2, l = l1 ++ x :: l2 /\ r = rg_node x /\ rg_start x <= vaddr < rg_end x /\
        forall y, y ∈ l1 -> ~ (rg_start y <= vaddr < rg_end y)))) s.
Proof.
  intros Hok Hf. pose proof (vctx_usable s c pm l Hok) as Hu. unfold unusable in Hu.
  unfold vget. wp_step. wp_step. cbv beta. apply orb_false_iff in Hu as [-> _].
  assert (Hcov : forall k1 x k2, l = k1 ++ x :: k2 ->
    covers vaddr (mem s) (rg_node x) = (rg_start x <=? vaddr) && (vaddr <? rg_end x)).
  { intros k1 x k2 ->. pose proof (vc_chain _ _ _ _ Hok) as Hch. unfold covers.
    rewrite (chain_end _ _ _ _ _ Hch). by destruct (chain_region _ _ _ _ _ Hch) as (_ & -> & _). }
  eapply wp_mono; [apply (scan_regions_spec fuel _ _ l s); [apply Hok|done]|].
  intros r s' [-> [[-> Hall]|(l1 & x & l2 & Hl & -> & _ & Hx & Hall & _)]]; (split; [done|]).
  - left. split; [done|]. intros x Hin Hc. rewrite Forall_forall in Hall.
    pose proof (Hall x Hin) as Hx. apply list_elem_of_split in Hin as (k1 & k2 & Hl).
    rewrite (Hcov k1 x k2 Hl) in Hx. apply andb_false_iff in Hx. 
    destruct Hx as [Hx|Hx]; bool_simpl; lia.
  - right. exists l1, x, l2. split_and!; try done.
    + rewrite (Hcov l1 x l2 Hl) in Hx. bool_simpl. lia.
    + rewrite (Hcov l1 x l2 Hl) in Hx. bool_simpl. lia.
    + intros y Hin Hc. rewrite Forall_forall in Hall. pose proof (Hall y Hin) as Hy.
      apply list_elem_of_split in Hin as (k1 & k2 & ->). rewrite <- app_assoc in Hl.
      rewrite (Hcov k1 y (k2 ++ x :: l2) Hl) in Hy. apply andb_false_iff in Hy.
      destruct Hy as [Hy|Hy]; bool_simpl; lia.
Qed.

(** [vget] returns the first region that contains the address, or NULL when
    none does; it changes nothing. *)
Theorem vget_correct fuel s c pm l vaddr :
  vctx_ok s c pm l -> (length l < fuel)%nat ->
  wp (vget fuel c vaddr) (fun r s' => s' = s /\
    ((r = NULL /\ forall x, x ∈ l -> ~ (rg_start x <= vaddr < rg_end x)) \/
     (exists l1 x l2, l = l1 ++ x :: l2 /\ r = rg_node x /\ rg_start x <= vaddr < rg_end x /\
        forall y, y ∈ l1 -> ~ (rg_start y <= vaddr < rg_end y)))) s.
Proof. apply vget_spec. Qed.

(** C16: [vinit] either returns NULL with nothing lost (the page map, its
    translations, the set of client frames and the number of free frames are as before),
    which happens only when the allocator had at most one free frame, or it takes exactly
    two frames no client owned and returns a context whose list is one empty region
    at [start]. *)
Theorem vinit_correct pm start s :
  fa_inv s -> pt_ok s pm -> 0 <= start < 2 ^ 64 ->
  wp (vinit pm start) (fun r s' =>
    (r = NULL /\ vinit_none s pm s') \/ (r <> NULL /\ vinit_post s pm start r s')) s.
Proof. apply vinit_spec. Qed.

(** C14: [vfree] of an address at which a region starts, in a context over the kernel's
    own page map ([kernel_pagemap] is the page map of the context; for any other context see
    [vfree_other_context]): the node leaves the list, each of its pages is unmapped and each
    of their frames, and the node's own, goes back to the allocator, which counts them;
    all other frames and translations stay. *)
Theorem vfree_correct fuel s c pm l1 x l2 fs ptr :
  let l := l1 ++ x :: l2 in
  vctx_ok s c pm l -> (length l < fuel)%nat -> kernel_pagemap (paging s) = pm ->
  rg_start x = ptr -> (forall y, y ∈ l1 -> rg_start y <> ptr) ->
  linked_from (region_prev (mem s) (rg_node x)) l1 l2 ->
  Z.of_nat (length fs) = rg_pages x -> region_frames s pm ptr (ctx_nodes c l) fs ->
  wp (vfree fuel c ptr) (fun _ s' =>
    vctx_ok s' c pm (l1 ++ l2) /\
    (forall f, fa_owned s' f <-> fa_owned s f /\ ~ (Some f ∈ fs) /\ page_at s f <> rg_node x) /\
    (forall i, (i < length fs)%nat -> lookup s' pm (nth_page ptr i) = None) /\
    (forall v, (forall i, (i < length fs)%nat -> page_of v <> page_of (nth_page ptr i)) ->
       lookup s' pm v = lookup s pm v) /\ globals s' = globals s /\
    fa_free s' = fa_free s + 1 + Z.of_nat (length (omap id fs))) s.
Proof. apply vfree_spec. Qed.

(** For any other context than the kernel's [vfree] does less: it looks the frames up in
    [kernel_pagemap], so of a region whose pages the kernel does not map it frees the node
    only; the pages stay mapped and their frames allocated. *)
Theorem vfree_other_context fuel s c pm l1 x l2 :
  let l := l1 ++ x :: l2 in
  vctx_ok s c pm l -> (length l < fuel)%nat -> kernel_pagemap (paging s) <> NULL ->
  0 <= rg_start x /\ rg_start x + rg_pages x * PAGE_SIZE <= 2 ^ 48 ->
  (forall i, (i < Z.to_nat (rg_pages x))%nat ->
     lookup s (kernel_pagemap (paging s)) (nth_page (rg_start x) i) = None) ->
  (forall y, y ∈ l1 -> rg_start y <> rg_start x) ->
  linked_from (region_prev (mem s) (rg_node x)) l1 l2 ->
  wp (vfree fuel c (rg_start x)) (fun _ s' =>
    vctx_ok s' c pm (l1 ++ l2) /\ (forall v, lookup s' pm v = lookup s pm v) /\
    (forall f, fa_owned s' f <-> fa_owned s f /\ page_at s f <> rg_node x) /\
    fa_free s' = fa_free s + 1) s.
Proof. apply vfree_elsewhere. Qed.

(** the first region allocated in a fresh context starts where the empty root
    region starts, so [vfree] of it frees the root's node instead: the region
    stays in the list, its pages stay mapped and its frames stay allocated. *)
Theorem vfree_first_allocation fuel s c pm r x l2 :
  let l := r :: x :: l2 in
  vctx_ok s c pm l -> (length l < fuel)%nat -> kernel_pagemap (paging s) = pm ->
  rg_pages r = 0 -> rg_start x = rg_start r -> region_prev (mem s) (rg_node r) = NULL ->
  0 <= rg_start r <= 2 ^ 48 -> rg_start r mod PAGE_SIZE = 0 ->
  wp (vfree fuel c (rg_start x)) (fun _ s' =>
    vctx_ok s' c pm (x :: l2) /\ (forall v, lookup s' pm v = lookup s pm v) /\
    (forall f, fa_owned s' f <-> fa_owned s f /\ page_at s f <> rg_node r) /\ globals s' = globals s /\
    fa_free s' = fa_free s + 1) s.
Proof.
  intros l Hok Hf Hk Hp Hx Hprev Hb Ha. rewrite Hx. eapply wp_mono.
  { apply (vfree_spec fuel s c pm [] r (x :: l2) [] (rg_start r)); try done.
    - by intros y ?%not_elem_of_nil.
    - by left.
    - split; [lia|cbn; lia|done|constructor|]. by intros f ?%not_elem_of_nil. }
  cbv beta. intros _ s' (Hok' & Ho & _ & Hlk & Hgl & Hfr). cbn in Hfr. split_and!; [done| | |done|lia].
  - intros v. apply Hlk. cbn. lia.
  - intros f. rewrite Ho. split; [tauto|]. intros [? ?]. split_and!; try done. apply not_elem_of_nil.
Qed.

(** What [valloc] mapped is what [vfree] expects. *)
Lemma valloc_frames s s' c pm l n x pages flags fs :
  vctx_ok s' c pm l -> pages_set s s' pm (rg_end x) (frame_entry (VFLAGS_TO_PFLAGS flags) <$> fs) ->
  (forall i, (i < length fs)%nat -> lookup s pm (nth_page (rg_end x) i) = None) ->
  NoDup (omap id fs) -> (forall f, Some f ∈ fs -> fresh_frame s pm (ctx_nodes c l) s' f) ->
  rg_end x mod PAGE_SIZE = 0 -> rg_end x + Z.of_nat (length fs) * PAGE_SIZE <= 2 ^ 48 ->
  region_frames s' pm (rg_start (new_region n x pages flags)) (ctx_nodes c l) fs.
Proof.
  intros Hok [Hin _] Hun Hnd Hfr Ha Hb. cbn [rg_start new_region].
  split; try done.
  - split; [apply w64_range|done].
  - intros i o Hi. pose proof (lookup_lt_Some _ _ _ Hi) as Hlt.
    pose proof (Hin i (frame_entry (VFLAGS_TO_PFLAGS flags) o) ltac:(by rewrite list_lookup_fmap, Hi)) as Hl.
    destruct o as [f|]; cbn [page_frame frame_entry] in *; rewrite Hl; [|by apply Hun].
    destruct (Hfr f) as (Hf & _); [by apply list_elem_of_lookup_2 in Hi|].
    destruct (fa_bounds s' f (vc_inv _ _ _ _ Hok) Hf) as (Hf0 & _ & Hf52 & _).
    eexists. split; [done|]. apply entry_address; [unfold PAGE_SIZE in *; lia| |apply vflags_range].
    apply Z.mod_mul. unfold PAGE_SIZE. lia.
  - intros f Hf. destruct (Hfr f Hf) as (? & _ & ? & ?). done.
Qed.

(** [vfree] after a successful [valloc] restores the list of regions and every
    translation, when the pages were unmapped before and no earlier region starts
    at the address returned. *)
Theorem valloc_vfree_roundtrip fuel s c pm l l1 x l2 pages flags :
  vctx_ok s c pm l -> (S (length l) < fuel)%nat -> 0 <= pages < 2 ^ 64 ->
  (forall y, y ∈ l -> rg_end y + pages * PAGE_SIZE <= 2 ^ 48) ->
  kernel_pagemap (paging s) = pm -> first_such gap_behind l l1 x l2 ->
  (forall y, y ∈ l1 ++ [x] -> rg_start y <> rg_end x) -> rg_end x mod PAGE_SIZE = 0 ->
  (forall i, (i < Z.to_nat pages)%nat -> lookup s pm (nth_page (rg_end x) i) = None) ->
  wp (valloc fuel c pages flags) (fun r s1 => r <> NULL ->
    wp (vfree fuel c r) (fun _ s' => vctx_ok s' c pm l /\
      forall v, lookup s' pm v = lookup s pm v) s1) s.
Proof.
  intros Hok Hf Hp Hb Hk Hg Hst Ha Hun.
  eapply wp_mono; [apply (valloc_spec fuel s c pm l pages flags Hok); [lia|done|done]|]. cbv beta.
  intros r s1 [[-> _]|(k1 & x' & k2 & n & es & Hg' & Hok1 & Hps & [_ (fs & -> & Hnd & Hfr)] & [Hsp _] & Hpv & Hr)];
    [done|intros Hrn].
  apply (gap_after_such s c pm) in Hg; [|done].
  destruct (first_gap_unique _ _ _ _ _ _ _ _ _ Hg Hg') as (<- & <- & <-).
  destruct Hr as [[]|[-> Hlen]]; [done|]. rewrite length_fmap in Hlen. destruct Hg as (-> & _ & _).
  assert (Hxb : rg_end x + pages * PAGE_SIZE <= 2 ^ 48)
    by (apply Hb; rewrite elem_of_app, elem_of_cons; tauto).
  set (y := new_region n x pages flags) in *.
  assert (He : forall z, l1 ++ x :: z = (l1 ++ [x]) ++ z) by (intros z; by rewrite <- app_assoc).
  assert (Hrf : region_frames s1 pm (rg_end x) (ctx_nodes c (l1 ++ x :: y :: l2)) fs).
  { apply (valloc_frames s s1 c pm _ n x pages flags fs); try done; [by rewrite Hlen|].
    rewrite Hlen, Z2Nat.id by lia. done. }
  rewrite He in Hok1, Hrf.
  eapply wp_mono; [apply (vfree_spec fuel s1 c pm (l1 ++ [x]) y l2 fs (rg_end x)); try done|].
  - rewrite !length_app in *. cbn in *. lia.
  - by rewrite <- Hk, (globals_pagemap _ _ (sp_globals _ _ _ _ Hsp)).
  - right. exists l1, x. split; [done|apply Hpv].
  - cbn. lia.
  - cbv beta. intros _ s2 (Hok2 & _ & Hin & Hout & _). rewrite He. split; [done|]. intros v.
    destruct Hps as [Hps1 Hps2].
    destruct (decide (Exists (fun i => page_of v = page_of (nth_page (rg_end x) i)) (seq 0 (length fs)))) as [Hv|Hv].
    + apply Exists_exists in Hv as (i & [_ Hi]%elem_of_seq & Hv). cbn in Hi.
      rewrite (lookup_page s2 pm v _ Hv), (lookup_page s pm v _ Hv), Hin, Hun; [done|lia|lia].
    + assert (Hno : forall i, (i < length fs)%nat -> page_of v <> page_of (nth_page (rg_end x) i)).
      { intros i Hi He'. apply Hv, Exists_exists. exists i. split; [|done]. apply elem_of_seq. lia. }
      rewrite Hout by done. apply Hps2. by rewrite length_fmap.
Qed.

(** [vallocat]'s test adds the size of the request to the START of a region.
    With a smaller request than the region [x] and a neighbour [y] right behind it,
    it finds room behind [x], and returns the address at which [y] starts. *)
Theorem vallocat_overlap fuel s c pm l x y l2 pages flags phys :
  vctx_ok s c pm l -> (length l < fuel)%nat -> 0 <= pages < 2 ^ 64 ->
  (forall z, z ∈ l -> rg_end z + pages * PAGE_SIZE <= 2 ^ 48) ->
  l = x :: y :: l2 -> rg_start y = rg_end x ->
  0 <= rg_start x /\ rg_end x = rg_start x + rg_pages x * PAGE_SIZE -> pages < rg_pages x ->
  wp (vallocat fuel c pages flags phys) (fun r s' => r <> NULL -> r = rg_start y /\
    exists n, vctx_ok s' c pm (x :: new_region n x pages flags :: y :: l2)) s.
Proof.
  intros Hok Hf Hp Hb Hl Hy [Hx0 Hxe] Hpg. eapply wp_mono.
  { apply (valloc_with_spec fuel (gap_after_at pages) _
      (fun _ _ => given_pages (ALIGN_DOWN phys PAGE_SIZE) (VFLAGS_TO_PFLAGS flags)) (fun _ => True) s c pm l pages flags);
      try done.
    - apply gap_last_at.
    - intros l1 z k2 (-> & _). apply Hb. rewrite elem_of_app, elem_of_cons. tauto.
    - apply vallocat_supplies. }
  intros r s' [[-> _]|(k1 & x' & k2 & n & es & Hg' & Hok' & _ & _ & _ & _ & Hr)]; [done|intros Hrn].
  assert (Hg : first_such (gap_behind_at pages) l [] x (y :: l2)).
  { split_and!; [done| |by intros [|]]. cbn [gap_behind_at]. rewrite Hy, Hxe.
    pose proof (w64_range (rg_start x + w64 (rg_pages x * PAGE_SIZE))) as Hw. fold (rg_end x) in Hw.
    unfold PAGE_SIZE in *. rewrite !w64_id; rewrite ?w64_id; lia. }
  apply (gap_after_at_such pages s c pm) in Hg; [|done].
  destruct (first_gap_unique _ _ _ _ _ _ _ _ _ Hg Hg') as (<- & <- & <-).
  destruct Hr as [[]|[-> _]]; [done|]. split; [done|]. by exists n.
Qed.
End Props.

(** ** A context in a fresh address space, which is also the kernel's *)

Definition vs0 : machine := set_paging (Paging root0 root0 []) pm0.
Definition ctx0 : Z := default 0 (result_of (vinit root0 0x400000 vs0)).
Definition vs1 : machine := state_of (vinit root0 0x400000 vs0) vs0.
Definition vs2 : machine := state_of (valloc 10 ctx0 2 3 vs1) vs1.
Definition vs3 : machine := state_of (valloc 10 ctx0 1 3 vs2) vs2.

(** The globals of arch/paging.c are nobody's frame. *)
Lemma set_paging_ok p s root :
  pmm_inv s -> pt_ok s root -> pmm_inv (set_paging p s) /\ pt_ok (set_paging p s) root.
Proof.
  intros Hi Hok. destruct (pmm_client s (set_paging p s) Hi) as [Hi' Ho]; [done..|].
  split; [exact Hi'|]. apply (pt_ok_same s); [done|done|intros f; apply Ho|].
  intros q _. by apply walk_ext.
Qed.

Lemma vs0_ok : pmm_inv vs0 /\ pt_ok vs0 root0.
Proof. exact (set_paging_ok _ _ _ pm0_inv pm0_ok). Qed.

Lemma vs1_run : vinit root0 0x400000 vs0 = Ret ctx0 vs1 /\ ctx0 <> NULL.
Proof.
  assert (Hr : result_of (vinit root0 0x400000 vs0) = Some ctx0 /\ ctx0 <> NULL)
    by (vm_compute; split; [reflexivity|discriminate]).
  exact (conj (ran _ vs0 _ (proj1 Hr)) (proj2 Hr)).
Qed.

Lemma lookup_set_paging p s root v : lookup (set_paging p s) root v = lookup s root v.
Proof. unfold lookup. by rewrite (walk_ext s (set_paging p s)). Qed.

Lemma vs0_empty v : lookup vs0 root0 v = None.
Proof. exact (eq_trans (lookup_set_paging _ _ _ _) (pm0_empty v)). Qed.

(** The nodes, in the order of the list. *)
Definition node0 : Z := ctx_root (mem vs1) ctx0.
Definition reg0 : region := first_region node0 0x400000.
Definition node1 : Z := region_next (mem vs2) node0.
Definition reg1 : region := new_region node1 reg0 2 3.
Definition node2 : Z := region_next (mem vs3) node1.
Definition reg2 : region := new_region node2 reg1 1 3.

Lemma chain_cons_node m p x l : chain m p (x :: l) -> rg_node x = p.
Proof. by intros (-> & _). Qed.

Lemma chain_next_node m p x y l : chain m p (x :: y :: l) -> rg_node y = region_next m (rg_node x).
Proof. by intros (-> & _ & _ & _ & _ & -> & _). Qed.

Lemma vs1_ok : vctx_ok vs1 ctx0 root0 [reg0].
Proof.
  destruct vs1_run as [Hr Hn].
  pose proof (wp_result _ _ _ _ _ Hr
    (vinit_spec root0 0x400000 vs0 (proj1 vs0_ok) (proj2 vs0_ok) ltac:(lia))) as H.
  cbv beta in H. destruct H as [[H _]|[_ Hp]]; [destruct (Hn H)|].
  destruct (vi_ctx _ _ _ _ _ Hp) as (n & Hok & _).
  pose proof (chain_cons_node _ _ _ _ (vc_chain _ _ _ _ Hok)) as He. cbn [rg_node first_region] in He.
  unfold reg0, node0. rewrite <- He. exact Hok.
Qed.

Lemma vs2_run : valloc 10 ctx0 2 3 vs1 = Ret 0x400000 vs2.
Proof.
  assert (Hr : result_of (valloc 10 ctx0 2 3 vs1) = Some 0x400000) by (vm_compute; reflexivity).
  exact (ran _ vs1 _ Hr).
Qed.

Lemma vs3_run : valloc 10 ctx0 1 3 vs2 = Ret 0x402000 vs3.
Proof.
  assert (Hr : result_of (valloc 10 ctx0 1 3 vs2) = Some 0x402000) by (vm_compute; reflexivity).
  exact (ran _ vs2 _ Hr).
Qed.

#[global] Opaque vs0 vs1 vs2 vs3 ctx0.

Lemma reg_ends : rg_end reg0 = 0x400000 /\ rg_end reg1 = 0x402000 /\ rg_end reg2 = 0x403000.
Proof. by vm_compute. Qed.

Lemma vs2_ok : vctx_ok vs2 ctx0 root0 [reg0; reg1].
Proof.
  pose proof (wp_result _ _ _ _ _ vs2_run
    (valloc_spec 10 vs1 ctx0 root0 [reg0] 2 3 vs1_ok ltac:(cbn; lia) ltac:(lia)
      ltac:(intros x ->%list_elem_of_singleton; rewrite (proj1 reg_ends); unfold PAGE_SIZE; lia))) as H.
  destruct H as [[H _]|(l1 & x & l2 & n & es & (Hl & _) & Hok & _)]; [discriminate|].
  destruct l1 as [|? []]; [|discriminate..]. injection Hl as <- <-. cbn [app] in Hok.
  pose proof (chain_cons_node _ _ _ _ (vc_chain _ _ _ _ Hok)) as H0.
  pose proof (chain_next_node _ _ _ _ _ (vc_chain _ _ _ _ Hok)) as H1.
  cbn [rg_node new_region reg0 first_region] in H0, H1.
  unfold reg1, node1. rewrite <- H1. exact Hok.
Qed.

(** The third region, with the frame behind its page. *)
Lemma vs3_regions : vctx_ok vs3 ctx0 root0 [reg0; reg1; reg2] /\
  region_prev (mem vs3) node2 = node1 /\
  exists fs, length fs = 1%nat /\
    region_frames vs3 root0 0x402000 (ctx_nodes ctx0 [reg0; reg1; reg2]) fs.
Proof.
  destruct reg_ends as (E0 & E1 & _).
  pose proof (wp_result _ _ _ _ _ vs3_run
    (valloc_spec 10 vs2 ctx0 root0 [reg0; reg1] 1 3 vs2_ok ltac:(cbn; lia) ltac:(lia)
      ltac:(intros x [-> | ->%list_elem_of_singleton]%elem_of_cons; rewrite ?E0, ?E1; unfold PAGE_SIZE; lia))) as H.
  destruct H as [[H _]|(l1 & x & l2 & n & es & Hg & Hok & Hps & Hfr & _ & [Hpv _] & Hr)]; [discriminate H|].
  apply (gap_after_such vs2 ctx0 root0) in Hg; [|exact vs2_ok]. destruct Hg as (Hl & Hg & _).
  assert (Hlen2 : (length l1 < 2)%nat).
  { apply (f_equal length) in Hl. rewrite length_app in Hl. cbn [length] in Hl. lia. }
  destruct l1 as [|a [|b l1]]; [| |cbn [length] in Hlen2; lia]; cbn [app] in Hl.
  { exfalso. injection Hl as <- <-. cbn [gap_behind] in Hg. rewrite E0 in Hg. 
    change (rg_start reg1) with (rg_end reg0) in Hg. rewrite E0 in Hg. lia. }
  injection Hl as <- <- <-. cbn [app] in Hok, Hfr.
  pose proof (chain_cons_node _ _ _ _ (vc_chain _ _ _ _ Hok)) as H0.
  pose proof (vc_chain _ _ _ _ Hok) as (_ & _ & _ & _ & _ & Hch).
  apply chain_next_node in Hch. cbn [rg_node new_region reg1] in H0, Hch.
  assert (Hn : n = node2) by exact Hch. rewrite Hn in Hok, Hfr, Hpv.
  split; [exact Hok|]. split; [exact Hpv|].
  destruct Hfr as [_ (fs & -> & Hnd & Hfs)]. exists fs.
  destruct Hr as [[Hr _]|[_ Hlen]]; [discriminate Hr|]. rewrite length_fmap in Hlen.
  split; [exact Hlen|]. rewrite <- E1.
  refine (valloc_frames vs2 vs3 ctx0 root0 _ node2 reg1 1 3 fs Hok Hps _ Hnd Hfs _ _).
  - rewrite Hlen. intros [|i] Hi; [|cbn in Hi; lia]. rewrite E1. vm_compute. reflexivity.
  - rewrite E1. reflexivity.
  - rewrite E1, Hlen. unfold PAGE_SIZE. cbn. lia.
Qed.

Lemma sample_bound l pages : l ⊆ [reg0; reg1; reg2] -> 0 <= pages <= 16 ->
  forall x, x ∈ l -> rg_end x + pages * PAGE_SIZE <= 2 ^ 48.
Proof.
  destruct reg_ends as (E0 & E1 & E2). intros Hl Hp x Hx%Hl.
  rewrite !elem_of_cons, elem_of_nil in Hx. unfold PAGE_SIZE.
  destruct Hx as [-> |[-> |[-> |[]]]]; rewrite ?E0, ?E1, ?E2; lia.
Qed.

Lemma vinit_correct_witness :
  pmm_inv vs0 /\ pt_ok vs0 root0 /\ vinit_post vs0 root0 0x400000 ctx0 vs1.
Proof.
  split; [apply vs0_ok|]. split; [apply vs0_ok|].
  destruct vs1_run as [Hr Hn].
  pose proof (wp_result _ _ _ _ _ Hr
    (vinit_correct root0 0x400000 vs0 (proj1 vs0_ok) (proj2 vs0_ok) ltac:(lia))) as H.
  cbv beta in H. destruct H as [[H _]|[_ H]]; [destruct (Hn H)|exact H].
Defined.

Lemma vs_pagemaps : kernel_pagemap (paging vs2) = root0 /\ kernel_pagemap (paging vs3) = root0.
Proof. split; vm_compute; reflexivity. Qed.

Lemma vs3_ok : vctx_ok vs3 ctx0 root0 [reg0; reg1; reg2].
Proof. exact (proj1 vs3_regions). Qed.

Lemma valloc_correct_witness :
  vctx_ok vs1 ctx0 root0 [reg0] /\ exists s', valloc 10 ctx0 2 3 vs1 = Ret 0x400000 s' /\
    exists l1 x l2 n es, first_such gap_behind [reg0] l1 x l2 /\
      vctx_ok s' ctx0 root0 (l1 ++ x :: new_region n x 2 3 :: l2) /\
      pages_set vs1 s' root0 (rg_end x) es.
Proof.
  split; [exact vs1_ok|]. exists vs2. split; [exact vs2_run|].
  pose proof (wp_result _ _ _ _ _ vs2_run
    (valloc_correct 10 vs1 ctx0 root0 [reg0] 2 3 vs1_ok ltac:(cbn; lia) ltac:(lia)
      (sample_bound [reg0] 2 ltac:(set_solver) ltac:(lia)))) as H.
  cbv beta in H. destruct H as [[H _]|(l1 & x & l2 & n & es & Hg & Hok & Hps & _)]; [discriminate H|].
  exists l1, x, l2, n, es. exact (conj Hg (conj Hok Hps)).
Defined.

Lemma vallocat_correct_witness :
  wp (vallocat 10 ctx0 1 3 0x9000) (fun r s' =>
    (r = NULL /\ s' = vs2 /\ fa_full vs2) \/
    exists l1 x l2 n es, first_such (gap_behind_at 1) [reg0; reg1] l1 x l2 /\
      vctx_ok s' ctx0 root0 (l1 ++ x :: new_region n x 1 3 :: l2) /\
      pages_set vs2 s' root0 (rg_end x) es /\
      given_pages (ALIGN_DOWN 0x9000 PAGE_SIZE) (VFLAGS_TO_PFLAGS 3) es /\
      (r = NULL \/ (r = rg_end x /\ length es = 1%nat))) vs2.
Proof.
  exact (vallocat_correct 10 vs2 ctx0 root0 [reg0; reg1] 1 3 0x9000 vs2_ok ltac:(cbn; lia) ltac:(lia)
    (sample_bound [reg0; reg1] 1 ltac:(set_solver) ltac:(lia))).
Defined.

Lemma vget_correct_witness :
  result_of (vget 10 ctx0 0x401fff vs2) = Some node1 /\
  wp (vget 10 ctx0 0x401fff) (fun r s' => s' = vs2 /\
    ((r = NULL /\ forall x, x ∈ [reg0; reg1] -> ~ (rg_start x <= 0x401fff < rg_end x)) \/
     (exists l1 x l2, [reg0; reg1] = l1 ++ x :: l2 /\ r = rg_node x /\
        rg_start x <= 0x401fff < rg_end x /\
        forall y, y ∈ l1 -> ~ (rg_start y <= 0x401fff < rg_end y)))) vs2.
Proof.
  split; [vm_compute; reflexivity|].
  exact (vget_correct 10 vs2 ctx0 root0 [reg0; reg1] 0x401fff vs2_ok ltac:(cbn; lia)).
Defined.

(** The third region is freed again. *)
Lemma vfree_correct_witness :
  wp (vfree 10 ctx0 0x402000) (fun _ s' => vctx_ok s' ctx0 root0 [reg0; reg1]) vs3.
Proof.
  destruct vs3_regions as (Hok & Hpv & fs & Hlen & Hrf). destruct reg_ends as (_ & E1 & _).
  eapply wp_mono.
  { apply (vfree_correct 10 vs3 ctx0 root0 [reg0; reg1] reg2 [] fs 0x402000 Hok
      ltac:(cbn; lia) (proj2 vs_pagemaps) E1).
    - intros y [-> | ->%list_elem_of_singleton]%elem_of_cons; vm_compute; discriminate.
    - right. exists [reg0], reg1. exact (conj eq_refl Hpv).
    - rewrite Hlen. reflexivity.
    - exact Hrf. }
  cbv beta. intros _ s' [H _]. exact H.
Defined.

(** The first region is not: the root's node goes instead. *)
Lemma vfree_first_allocation_witness :
  rg_start reg1 = 0x400000 /\
  wp (vfree 10 ctx0 (rg_start reg1)) (fun _ s' =>
    vctx_ok s' ctx0 root0 [reg1; reg2] /\ (forall v, lookup s' root0 v = lookup vs3 root0 v) /\
    (forall f, fa_owned s' f <-> fa_owned vs3 f /\ page_at vs3 f <> rg_node reg0) /\
    globals s' = globals vs3 /\ fa_free s' = fa_free vs3 + 1) vs3.
Proof.
  split; [apply reg_ends|].
  apply (vfree_first_allocation 10 vs3 ctx0 root0 reg0 reg1 [reg2] vs3_ok ltac:(cbn; lia)
    (proj2 vs_pagemaps) eq_refl (proj1 reg_ends)); 
    [vm_compute; reflexivity|change (rg_start reg0) with 0x400000; lia|reflexivity].
Defined.

Lemma valloc_vfree_roundtrip_witness :
  wp (valloc 10 ctx0 1 3) (fun r s1 => r <> NULL ->
    wp (vfree 10 ctx0 r) (fun _ s' => vctx_ok s' ctx0 root0 [reg0; reg1] /\
      forall v, lookup s' root0 v = lookup vs2 root0 v) s1) vs2.
Proof.
  destruct reg_ends as (E0 & E1 & _).
  apply (valloc_vfree_roundtrip 10 vs2 ctx0 root0 [reg0; reg1] [reg0] reg1 [] 1 3 vs2_ok
    ltac:(cbn; lia) ltac:(lia) (sample_bound [reg0; reg1] 1 ltac:(set_solver) ltac:(lia))
    (proj1 vs_pagemaps)).
  - split; [reflexivity|]. split; [exact I|]. intros [|a k1] y k2 Hl; [|destruct k1; discriminate Hl].
    injection Hl as <- <-. cbn [app gap_behind]. rewrite E0. change (rg_start reg1) with (rg_end reg0).
    rewrite E0. lia.
  - intros y [-> | ->%list_elem_of_singleton]%elem_of_cons; rewrite E1.
    + change (rg_start reg0) with 0x400000. lia.
    + change (rg_start reg1) with (rg_end reg0). rewrite E0. lia.
  - rewrite E1. reflexivity.
  - intros [|i] Hi; [|cbn in Hi; lia]. rewrite E1. vm_compute. reflexivity.
Defined.

(** The third region, one page further up: a gap of one page. *)
Definition reg2' : region := Region node2 0x403000 1 (rg_flags reg2).
Definition vs4 : machine := set_mem (poke node2 0x403000 (mem vs3)) vs3.

Lemma vs4_ok : vctx_ok vs4 ctx0 root0 [reg0; reg1; reg2'].
Proof.
  apply (vctx_ok_relink vs3 ctx0 root0 [reg0; reg1; reg2] [reg0; reg1; reg2']
    (poke node2 0x403000 (mem vs3)) vs3_ok).
  - discriminate.
  - exact (vc_nodup _ _ _ _ vs3_ok).
  - intros u Hu. exact Hu.
  - intros a Ha. apply poke_out. destruct (decide (in_range node2 PAGE_SIZE a)) as [Hin|Hin].
    + destruct Ha. exists node2. split; [|exact Hin]. exact (x_in ctx0 [reg0; reg1] reg2 []).
    + unfold in_range, PAGE_SIZE in Hin. lia.
  - vm_compute. reflexivity.
  - vm_compute. split_and!; (reflexivity || discriminate).
Qed.

Lemma valloc_overlap_witness :
  wp (valloc 10 ctx0 2 3) (fun r s' =>
    r <> NULL -> r < 0x403000 < r + 2 * PAGE_SIZE /\
    exists n, vctx_ok s' ctx0 root0 [reg0; reg1; new_region n reg1 2 3; reg2']) vs4.
Proof.
  destruct reg_ends as (E0 & E1 & _).
  apply (valloc_overlap 10 vs4 ctx0 root0 [reg0; reg1; reg2'] [reg0] reg1 reg2' [] 2 3 vs4_ok).
  - cbn. lia.
  - lia.
  - intros z Hz. unfold PAGE_SIZE. rewrite !elem_of_cons, elem_of_nil in Hz.
    destruct Hz as [-> |[-> |[-> |[]]]]; rewrite ?E0, ?E1; try lia.
    change (rg_end reg2') with 0x404000. lia.
  - split; [reflexivity|]. split; [cbn [gap_behind rg_start reg2']; rewrite E1; lia|].
    intros [|a k1] y k2 Hl; [|destruct k1; discriminate Hl].
    injection Hl as <- <-. cbn [app gap_behind]. rewrite E0. change (rg_start reg1) with (rg_end reg0).
    rewrite E0. lia.
  - rewrite E1. change (rg_start reg2') with 0x403000. unfold PAGE_SIZE. lia.
Defined.

(** Once the root's node is gone the list starts with a region that has pages. *)
Definition vs5 : machine := state_of (vfree 10 ctx0 0x400000 vs3) vs3.

Lemma vs5_run : vfree 10 ctx0 0x400000 vs3 = Ret tt vs5.
Proof.
  assert (Hr : result_of (vfree 10 ctx0 0x400000 vs3) = Some tt) by (vm_compute; reflexivity).
  exact (ran _ vs3 _ Hr).
Qed.

#[global] Opaque vs4 vs5.

Lemma vs5_ok : vctx_ok vs5 ctx0 root0 [reg1; reg2].
Proof.
  assert (Hrf : region_frames vs3 root0 0x400000 (ctx_nodes ctx0 [reg0; reg1; reg2]) []).
  { split; [split; [lia|reflexivity]|cbn; lia|done|constructor|].
    intros f Hf. by apply not_elem_of_nil in Hf. }
  pose proof (wp_result _ _ _ _ _ vs5_run
    (vfree_spec 10 vs3 ctx0 root0 [] reg0 [reg1; reg2] [] 0x400000 vs3_ok ltac:(cbn; lia)
      (proj2 vs_pagemaps) eq_refl ltac:(intros y Hy; by apply not_elem_of_nil in Hy)
      ltac:(left; split; [reflexivity|]; split; [vm_compute; reflexivity|discriminate])
      eq_refl Hrf)) as [H _]. exact H.
Qed.

Lemma vallocat_overlap_witness :
  rg_start reg2 = 0x402000 /\
  wp (vallocat 10 ctx0 1 3 0x9000) (fun r s' => r <> NULL -> r = rg_start reg2 /\
    exists n, vctx_ok s' ctx0 root0 [reg1; new_region n reg1 1 3; reg2]) vs5.
Proof.
  destruct reg_ends as (E0 & E1 & _). split; [exact E1|].
  apply (vallocat_overlap 10 vs5 ctx0 root0 [reg1; reg2] reg1 reg2 [] 1 3 0x9000 vs5_ok
    ltac:(cbn; lia) ltac:(lia) (sample_bound [reg1; reg2] 1 ltac:(set_solver) ltac:(lia)) eq_refl eq_refl).
  - change (rg_start reg1) with (rg_end reg0). rewrite E0, E1. unfold PAGE_SIZE. cbn. lia.
  - cbn. lia.
Defined.
