(* ===== verification/KernelMapProps.v ===== *)
(** * arch/paging.c: [paging_init], main theorem *)

From S2P Require Export KernelMap VmmProps.

Section Props.
Context {FA : FrameAlloc} {FL : FrameAllocLaws}.

(** C9: [paging_init] without 2 MiB pages: when no frame is left for the root it panics and has
    changed nothing but the pointer to it.  Otherwise it loads a page map whose root is a
    fresh frame; the frames of others keep their bytes and are no tables of it; every
    translation is what the last successful request for the page says, and all requests
    were successful unless the frames ran out.  So an address that only one section of the
    image covers translates to its place in the image with exactly that section's rights
    (text cannot be written, data cannot be executed), or, with no frame left, not at all. *)
Theorem paging_init_correct k s :
  fa_inv s -> LARGE_PAGES k = false ->
  wpp (paging_init k) (fun _ s' => exists f, paging_post s k f s' /\
      forall section flags v, only_in k (hhdm_offset s) (memmap s) section flags v ->
        lookup s' (page_at s f) v = Some (Z.lor (in_image k (v / PAGE_SIZE * PAGE_SIZE)) flags) \/
        (lookup s' (page_at s f) v = None /\ fa_full s'))
    (fun s' => s' = set_kernel_pagemap NULL s /\ fa_full s) s.
Proof.
  intros Hi Hlarge. pose proof (paging_init_spec k s Hi Hlarge) as H. unfold wpp in *.
  destruct (paging_init k s) as [[] s'| | |]; try done. destruct H as (f & Hp). exists f. split; [done|].
  intros section flags v Ho. by eapply section_mapped.
Qed.
End Props.

(** ** A kernel of four pages in the upper 2 GiB, its stack in the direct map *)

Definition image0 : kernel_image :=
  KernelImage false 0 0xffffffff80000000 0x200000 0xffff8000000f0000
    (0xffffffff80000000, 0xffffffff80000100) (0xffffffff80001000, 0xffffffff80001c00)
    (0xffffffff80002000, 0xffffffff80002800) (0xffffffff80003000, 0xffffffff80003400).

Definition entries0 : list limine_memmap_entry :=
  [MemmapEntry 0x2000 0xfe000 LIMINE_MEMMAP_USABLE; MemmapEntry 0x100000 0x100000 1].

Lemma m0_entries : memmap m0 = entries0 /\ hhdm_offset m0 = HHDM.
Proof. split; vm_compute; reflexivity. Qed.

#[local] Opaque iters loop_maps.

(** A loop below [stop] does not reach the page of [v]. *)
Lemma loop_apart start stop virt_of phys_of flags m v :
  m ∈ loop_maps (iters start stop PAGE_SIZE) start virt_of phys_of flags ->
  (forall a, start <= a < stop -> page_of v <> page_of (virt_of a)) -> page_of v <> page_of (mp_virt m).
Proof.
  intros (i & Hi%iters_below & ->)%in_loop_maps Hne. apply Hne. unfold PAGE_SIZE in *. lia.
Qed.

Definition entry0 : Z := 0xffffffff80001234.

(** Addresses of the direct map, of the stack and of the other sections are not on the
    text's page. *)
Lemma apart_direct a : 0 <= a < 2 ^ 32 -> page_of entry0 <> page_of (HIGHER_HALF HHDM a).
Proof.
  intros Ha. rewrite higher_half_phys by (unfold HHDM; lia). unfold page_of, entry0, HHDM, PAGE_SIZE.
  pose proof (Z.div_mod (0xffff800000000000 + a) 4096 ltac:(lia)).
  pose proof (Z.mod_pos_bound (0xffff800000000000 + a) 4096 ltac:(lia)).
  intros He. change (0xffffffff80001234 / 4096 mod 2 ^ 36) with 68718952449 in He.
  pose proof (Z.div_mod ((0xffff800000000000 + a) / 4096) (2 ^ 36) ltac:(lia)). rewrite <-He in *. lia.
Qed.

Lemma entry_apart v e base stop m :
  m ∈ entry_maps HHDM e -> (forall a, 0 <= a < 2 ^ 32 -> page_of v <> page_of (HIGHER_HALF HHDM a)) ->
  (e_base e =? 0) || (e_length e =? 0) = false /\ ALIGN_DOWN (e_base e) PAGE_SIZE = base /\
  ALIGN_UP (w64 (e_base e + e_length e)) PAGE_SIZE = stop ->
  0 <= base -> stop <= 2 ^ 32 -> page_of v <> page_of (mp_virt m).
Proof.
  unfold entry_maps. cbv zeta. intros Hm Hv (H1 & H2 & H3) Hb Hs. rewrite H1, H2, H3 in Hm.
  eapply loop_apart; [exact Hm|]. intros a Ha. apply Hv. lia.
Qed.

Lemma apart_range lo hi a :
  0xffff800000000000 <= lo -> hi < 2 ^ 64 -> hi <= 0xffffffff80001000 \/ 0xffffffff80002000 <= lo ->
  lo <= a < hi -> page_of entry0 <> page_of a.
Proof.
  intros Hlo Hhi Hap Ha. unfold page_of, entry0, PAGE_SIZE.
  pose proof (Z.div_mod a 4096 ltac:(lia)). pose proof (Z.mod_pos_bound a 4096 ltac:(lia)).
  intros He. change (0xffffffff80001234 / 4096 mod 2 ^ 36) with 68718952449 in He.
  pose proof (Z.div_mod (a / 4096) (2 ^ 36) ltac:(lia)). rewrite <-He in *. lia.
Qed.

Lemma text_only : only_in image0 HHDM entries0 (text image0) VMM_PRESENT entry0.
Proof.
  split.
  - unfold kernel_sections. rewrite !elem_of_cons. tauto.
  - vm_compute. discriminate.
  - split; vm_compute; congruence.
  - intros m Hm Hp. unfold kernel_maps, image_maps in Hm. rewrite !elem_of_app, list_elem_of_bind in Hm.
    destruct Hm as [Hm|[[Hm|[Hm|[Hm|Hm]]]|[Hm|(e & Hm & He)]]]; [| |exact Hm| | | |]; exfalso; revert Hp.
    + eapply loop_apart; [exact Hm|]. intros a. apply apart_range; vm_compute; (congruence || by left).
    + eapply loop_apart; [exact Hm|]. intros a. apply apart_range; vm_compute; (congruence || by left).
    + eapply loop_apart; [exact Hm|]. intros a. apply apart_range; vm_compute; (congruence || by right).
    + eapply loop_apart; [exact Hm|]. intros a. apply apart_range; vm_compute; (congruence || by right).
    + eapply loop_apart; [exact Hm|]. intros a Ha. by apply apart_direct.
    + unfold entries0 in He. apply elem_of_cons in He as [-> | ->%list_elem_of_singleton].
      * apply (entry_apart _ _ 0x2000 0x100000 _ Hm apart_direct); [by vm_compute|lia..].
      * apply (entry_apart _ _ 0x100000 0x200000 _ Hm apart_direct); [by vm_compute|lia..].
Qed.

Lemma paging_init_correct_witness :
  only_in image0 (hhdm_offset m0) (memmap m0) (text image0) VMM_PRESENT entry0 /\
  wpp (paging_init image0) (fun _ s' => exists f, paging_post m0 image0 f s' /\
      forall section flags v, only_in image0 (hhdm_offset m0) (memmap m0) section flags v ->
        lookup s' (page_at m0 f) v = Some (Z.lor (in_image image0 (v / PAGE_SIZE * PAGE_SIZE)) flags) \/
        (lookup s' (page_at m0 f) v = None /\ fa_full s'))
    (fun s' => s' = set_kernel_pagemap NULL m0 /\ fa_full m0) m0.
Proof.
  split; [destruct m0_entries as [-> ->]; exact text_only|].
  exact (paging_init_correct image0 m0 m0_inv eq_refl).
Defined.
