(* ===== verification/VmmDestroy.v ===== *)
(** * mm/vmm.c: [vdestroy], the end of a context

    The nodes of the region list and the context's own page go back to the frame
    allocator.  Nothing is unmapped, and the frames behind the regions stay allocated. *)

From S2P Require Export VmmProps.

Section Destroy.
Context {FA : FrameAlloc} {FL : FrameAllocLaws} {FF : FrameFreeLaws}.

(** From [s] to [s'] exactly the pages [us] were given back; the tables of [pm] stand. *)
Record gives_back (s : machine) (pm : Z) (us : list Z) (s' : machine) : Prop := GivesBack {
  gb_inv : fa_inv s';
  gb_pt : pt_ok s' pm;
  gb_others : others s' = others s;
  gb_owned : forall f, fa_owned s' f <-> fa_owned s f /\ page_at s f ∉ us;
  gb_bytes : forall u, client_page s u -> u ∉ us -> node_agree (mem s) (mem s') u;
  gb_low : forall a, a < hhdm_offset s -> load8 (mem s') a = load8 (mem s) a;
  gb_tables : forall u, not_table s pm u -> not_table s' pm u;
  gb_lookup : forall v, lookup s' pm v = lookup s pm v }.

Lemma gives_back_nil s pm : fa_inv s -> pt_ok s pm -> gives_back s pm [] s.
Proof.
  intros Hi Hpt. split; try done. intros f. split; [|tauto]. split; [done|apply not_elem_of_nil].
Qed.

Lemma gives_back_one s pm f s' :
  fa_inv s' -> pt_ok s pm -> not_table s pm (page_at s f) -> takes_back fa_owned s f s' ->
  gives_back s pm [page_at s f] s'.
Proof.
  intros Hi Hpt Hnt Htb. destruct (taken_page s s' pm f Hpt Htb Hnt) as (Hpt' & Ht' & Hlk').
  split; try done; try apply Htb.
  - intros g. rewrite (tb_owned _ _ _ _ Htb), list_elem_of_singleton.
    split; intros [? Hg]; (split; [done|]); [by intros He%page_at_inj|by intros ->].
  - intros u (g & Hg & ->) _ a. by apply (tb_kept _ _ _ _ Htb g).
Qed.

Lemma gives_back_client s pm us s' u :
  gives_back s pm us s' -> client_page s u -> u ∉ us -> client_page s' u.
Proof.
  intros Hg (f & Hf & ->) Hn. exists f. split; [by apply (gb_owned _ _ _ _ Hg)|].
  unfold page_at. by rewrite (others_hhdm _ _ (gb_others _ _ _ _ Hg)).
Qed.

Lemma gives_back_trans s1 s2 s3 pm us vs :
  gives_back s1 pm us s2 -> gives_back s2 pm vs s3 -> gives_back s1 pm (us ++ vs) s3.
Proof.
  intros H1 H2. pose proof (others_hhdm _ _ (gb_others _ _ _ _ H1)) as Hh.
  assert (Hpg : forall f, page_at s2 f = page_at s1 f) by (intros f; unfold page_at; by rewrite Hh).
  split; try apply H2.
  - rewrite (gb_others _ _ _ _ H2). apply H1.
  - intros f. rewrite (gb_owned _ _ _ _ H2), (gb_owned _ _ _ _ H1), Hpg, not_elem_of_app. tauto.
  - intros u Hu [Hn1 Hn2]%not_elem_of_app. apply (node_agree_trans _ (mem s2)).
    + by apply (gb_bytes _ _ _ _ H1).
    + apply (gb_bytes _ _ _ _ H2); [|done]. by apply (gives_back_client s1 pm us).
  - intros a Ha. rewrite (gb_low _ _ _ _ H2), (gb_low _ _ _ _ H1) by (done || lia). done.
  - intros u Hu. by apply H2, H1.
  - intros v. by rewrite (gb_lookup _ _ _ _ H2), (gb_lookup _ _ _ _ H1).
Qed.

(** [pfree] of a client's page that is no table. *)
Lemma pfree_page s pm u :
  fa_inv s -> pt_ok s pm -> client_page s u -> not_table s pm u ->
  wp (fa_pfree u 1) (fun _ s' => gives_back s pm [u] s') s.
Proof.
  intros Hi Hpt (f & Hf & ->) Hnt. eapply wp_mono; [exact (fa_pfree_one s true f Hi Hf)|].
  intros [] s' [Hi' Htb]. by apply gives_back_one.
Qed.

(** The loop reads [next] before it gives the node back. *)
Lemma free_regions_spec fuel s pm p l :
  fa_inv s -> pt_ok s pm -> chain (mem s) p l -> NoDup (rg_node <$> l) ->
  Forall (fun u => client_page s u /\ not_table s pm u) (rg_node <$> l) -> (length l < fuel)%nat ->
  wp (free_regions fuel p) (fun _ s' => gives_back s pm (rg_node <$> l) s') s.
Proof.
  revert s p l. induction fuel as [|fuel IH]; intros s p l Hi Hpt Hch Hnd Hall Hf; [lia|].
  cbn [free_regions]. destruct l as [|x l].
  { cbn in Hch. subst p. cbn [Z.eqb]. wp_step. by apply gives_back_nil. }
  destruct Hch as (-> & Hn & _ & _ & _ & Hch). rewrite (proj2 (Z.eqb_neq _ _) Hn).
  cbn [fmap list_fmap] in *. apply NoDup_cons in Hnd as [Hx Hnd].
  apply Forall_cons in Hall as [[Hc Ht] Hall]. wp_step. wp_step. wp_step.
  eapply wp_mono; [by apply (pfree_page s pm (rg_node x))|]. cbv beta. intros [] s1 H1.
  assert (Hoth : Forall (fun u => client_page s u /\ u ∉ [rg_node x]) (rg_node <$> l)).
  { eapply Forall_impl; [apply Forall_and; split; [exact Hall|]|].
    - apply Forall_forall. intros u Hu. exact Hu.
    - cbv beta. intros u [[Hu _] Hin]. split; [done|]. intros ->%list_elem_of_singleton. done. }
  eapply wp_mono; [apply (IH s1 _ l (gb_inv _ _ _ _ H1) (gb_pt _ _ _ _ H1))|].
  - apply (chain_agree (mem s)); [|done]. eapply Forall_impl; [exact Hoth|].
    intros u [Hu Hn']. by apply (gb_bytes _ _ _ _ H1).
  - done.
  - rewrite Forall_forall in Hall, Hoth |- *. intros u Hu. destruct (Hoth u Hu) as [Hu1 Hu2].
    split; [by apply (gives_back_client s pm [rg_node x])|]. by apply (gb_tables _ _ _ _ H1), Hall.
  - cbn in Hf. lia.
  - intros [] s2 H2. exact (gives_back_trans s s1 s2 pm [rg_node x] (rg_node <$> l) H1 H2).
Qed.

Lemma vdestroy_spec fuel s c pm l :
  vctx_ok s c pm l -> (length l < fuel)%nat ->
  wp (vdestroy fuel c) (fun _ s' => gives_back s pm ((rg_node <$> l) ++ [c]) s') s.
Proof.
  intros [Hi Hpt Hpm Hch Hne Hnd Hc Ht] Hf. unfold vdestroy. wp_step. wp_step. cbv beta.
  unfold ctx_nodes in Hnd, Hc, Ht. apply NoDup_cons in Hnd as [Hcn Hnd].
  apply Forall_cons in Hc as [Hcc Hc], Ht as [Hct Ht].
  destruct l as [|x l]; [done|]. pose proof Hch as (Hr & Hrn & _).
  rewrite Hpm, (proj2 (Z.eqb_neq _ _) Hrn), (proj2 (Z.eqb_neq pm NULL) (root_not_null s pm Hi Hpt)).
  cbn [orb]. wp_step. eapply wp_mono.
  { apply (free_regions_spec fuel s pm _ (x :: l)); try done. by apply Forall_and. }
  cbv beta. intros [] s1 H1. eapply wp_mono.
  { apply (pfree_page s1 pm c); [apply H1..| |by apply (gb_tables _ _ _ _ H1)].
    by apply (gives_back_client s pm (rg_node <$> x :: l)). }
  cbv beta. intros [] s2 H2. by apply (gives_back_trans s s1).
Qed.
End Destroy.

Section Props.
Context {FA : FrameAlloc} {FL : FrameAllocLaws} {FF : FrameFreeLaws}.

(** C18: [vdestroy] gives back exactly the frames of the region nodes and of the context;
    every translation, every other page of a client and all memory below the direct map
    stay what they are. *)
Theorem vdestroy_correct fuel s c pm l :
  vctx_ok s c pm l -> (length l < fuel)%nat ->
  wp (vdestroy fuel c) (fun _ s' =>
    fa_inv s' /\ pt_ok s' pm /\ others s' = others s /\
    (forall f, fa_owned s' f <-> fa_owned s f /\ page_at s f ∉ ctx_nodes c l) /\
    (forall u, client_page s u -> u ∉ ctx_nodes c l -> node_agree (mem s) (mem s') u) /\
    (forall v, lookup s' pm v = lookup s pm v)) s.
Proof.
  intros Hok Hf. eapply wp_mono; [by apply (vdestroy_spec fuel s c pm l)|].
  assert (Hel : forall u, u ∈ (rg_node <$> l) ++ [c] <-> u ∈ ctx_nodes c l).
  { intros u. unfold ctx_nodes. rewrite elem_of_app, list_elem_of_singleton, elem_of_cons. tauto. }
  intros [] s' [H1 H2 H3 H4 H5 _ _ H8]. split_and!; try done.
  - intros f. by rewrite H4, Hel.
  - intros u. rewrite <-Hel. apply H5.
Qed.
End Props.

Lemma vdestroy_correct_witness :
  wp (vdestroy 10 ctx0) (fun _ s' =>
    fa_inv s' /\ pt_ok s' root0 /\ others s' = others vs2 /\
    (forall f, fa_owned s' f <-> fa_owned vs2 f /\ page_at vs2 f ∉ ctx_nodes ctx0 [reg0; reg1]) /\
    (forall u, client_page vs2 u -> u ∉ ctx_nodes ctx0 [reg0; reg1] -> node_agree (mem vs2) (mem s') u) /\
    (forall v, lookup s' root0 v = lookup vs2 root0 v)) vs2.
Proof. apply (vdestroy_correct 10 vs2 ctx0 root0 [reg0; reg1] vs2_ok). cbn. lia. Defined.
