(* ===== verification/Heap.v ===== *)
(** * mm/heap.h and mm/heap/ff.c, ff.h: the first-fit kernel heap

    The free list is linked through memory; a block is a 16-byte header
    ([size], [next]) followed by its bytes.  Loops over the list take fuel. *)

From S2P Require Export Vmm.

Definition FF_POOL_SIZE : Z := 512.
Definition sizeof_block : Z := 16.

Definition block_size (m : memory) (b : Z) : Z := load64 m b.
Definition block_next (m : memory) (b : Z) : Z := load64 m (b + 8).
Definition set_block_size (b v : Z) : K unit := write64 b v.
Definition set_block_next (b v : Z) : K unit := write64 (b + 8) v.

Definition set_freelist (v : Z) : K unit :=
  modify (fun s => set_heap (Heap (pool (heap s)) v) s).

(** [if (prev) prev->next = v; else freelist = v;] *)
Definition link (prev v : Z) : K unit :=
  if prev =? NULL then set_freelist v else set_block_next prev v.

(** ** kmalloc *)

Fixpoint kmalloc_loop (fuel : nat) (size prev cur : Z) : K Z :=
  match fuel with
  | O => out_of_fuel
  | S fuel' =>
      if cur =? NULL then ret NULL else
      s <- get ;;
      if size <=? block_size (mem s) cur then
        let tot_size := w64 (sizeof_block + size) in
        (if ALIGN_UP (w64 (tot_size + sizeof_block)) 8 <=? block_size (mem s) cur then
           let new_block := w64 (cur + tot_size) in
           set_block_size new_block (w64 (block_size (mem s) cur - tot_size)) ;;;
           s <- get ;; set_block_next new_block (block_next (mem s) cur) ;;;
           set_block_size cur size ;;;
           link prev new_block
         else link prev (block_next (mem s) cur)) ;;;
        ret (w64 (cur + sizeof_block))
      else kmalloc_loop fuel' size cur (block_next (mem s) cur)
  end.

Definition kmalloc (fuel : nat) (size : Z) : K Z :=
  if size =? 0 then ret NULL else
  s <- get ;;
  kmalloc_loop fuel (ALIGN_UP size 8) NULL (freelist (heap s)).

(** ** kfree *)

(** The pointer [cur] of the code points at [freelist] ([None]) or at the [next]
    field of a block ([Some b]). *)
Definition slot := option Z.

Definition slot_get (s : machine) (c : slot) : Z :=
  match c with None => freelist (heap s) | Some b => block_next (mem s) b end.

Definition slot_set (c : slot) (v : Z) : K unit :=
  match c with None => set_freelist v | Some b => set_block_next b v end.

Fixpoint seek_slot (fuel : nat) (c : slot) (block : Z) : K slot :=
  match fuel with
  | O => out_of_fuel
  | S fuel' =>
      s <- get ;;
      if negb (slot_get s c =? NULL) && (slot_get s c <? block)
      then seek_slot fuel' (Some (slot_get s c)) block
      else ret c
  end.

(** [while (prev->next != block) prev = prev->next;] *)
Fixpoint find_prev (fuel : nat) (prev block : Z) : K Z :=
  match fuel with
  | O => out_of_fuel
  | S fuel' =>
      s <- get ;;
      if block_next (mem s) prev =? block then ret prev
      else find_prev fuel' (block_next (mem s) prev) block
  end.

Definition coalesce_next (block : Z) : K unit :=
  s <- get ;;
  let next := block_next (mem s) block in
  when (negb (next =? NULL) &&
        (w64 (block + sizeof_block + block_size (mem s) block) =? next))
    (set_block_size block
       (w64 (block_size (mem s) block + sizeof_block + block_size (mem s) next)) ;;;
     s <- get ;; set_block_next block (block_next (mem s) (block_next (mem s) block))).

Definition coalesce_prev (prev block : Z) : K unit :=
  s <- get ;;
  when (w64 (prev + sizeof_block + block_size (mem s) prev) =? block)
    (set_block_size prev
       (w64 (block_size (mem s) prev + sizeof_block + block_size (mem s) block)) ;;;
     s <- get ;; set_block_next prev (block_next (mem s) block)).

Definition kfree (fuel : nat) (ptr : Z) : K unit :=
  if ptr =? NULL then ret tt else
  let block := ptr - sizeof_block in
  cur <- seek_slot fuel None block ;;
  s <- get ;; set_block_next block (slot_get s cur) ;;;
  slot_set cur block ;;;
  coalesce_next block ;;;
  match cur with
  | None => ret tt
  | Some _ =>
      s <- get ;;
      prev <- find_prev fuel (freelist (heap s)) block ;;
      coalesce_prev prev block
  end.

(** ** heap_init *)

Section HeapInit.
Context {FA : FrameAlloc}.

Definition heap_init (fuel : nat) : K unit :=
  kvm <- gets kvm_ctx ;;
  p <- valloc fuel kvm FF_POOL_SIZE VALLOC_RW ;;
  modify (fun s => set_heap (Heap p (freelist (heap s))) s) ;;;
  if p =? NULL then kpanic else
  set_freelist p ;;;
  set_block_size p (FF_POOL_SIZE * PAGE_SIZE - sizeof_block) ;;;
  set_block_next p NULL.
End HeapInit.
