(* ===== verification/HeapFacts.v ===== *)
(** * The heap's free list as a list of blocks

    [heap_ok s l lo hi]: the free list of [s] is [l], sorted by address, without
    overlaps, inside [lo, hi).  [ff_alloc] and [ff_free] are first-fit allocation
    and coalescing release on such lists; [kmalloc] and [kfree] implement them. *)

From S2P Require Export Heap.

Ltac slia := unfold sizeof_block in *; lia.

(** A block: the address of its header and its size without the header. *)
Abbreviation block := (Z * Z)%type (only parsing).

(** The list from pointer [p] to pointer [q]. *)
Fixpoint seg (m : memory) (p : Z) (l : list block) (q : Z) : Prop :=
  match l with
  | [] => p = q
  | (a, n) :: l' =>
      p = a /\ a <> NULL /\ block_size m a = n /\ seg m (block_next m a) l' q
  end.

Fixpoint spaced (lo : Z) (l : list block) (hi : Z) : Prop :=
  match l with
  | [] => lo <= hi
  | (a, n) :: l' => lo <= a /\ 0 <= n /\ spaced (a + sizeof_block + n) l' hi
  end.

Record heap_ok (s : machine) (l : list block) (lo hi : Z) : Prop := HeapOk {
  hp_bounds : 32 <= lo /\ hi < 2 ^ 64;
  hp_spaced : spaced lo l hi;
  hp_list : seg (mem s) (freelist (heap s)) l NULL }.

Lemma spaced_le lo l hi : spaced lo l hi -> lo <= hi.
Proof.
  revert lo. induction l as [|[a n] l IH]; intros lo; [done|].
  intros (H1 & H2 & H3). apply IH in H3. unfold sizeof_block in *. lia.
Qed.

Lemma spaced_app lo l1 l2 hi :
  spaced lo (l1 ++ l2) hi <-> exists mid, spaced lo l1 mid /\ spaced mid l2 hi.
Proof.
  revert lo. induction l1 as [|[a n] l1 IH]; intros lo; cbn [app spaced].
  - split; [intros H; exists lo; split; [lia|done]|].
    intros (mid & H1 & H2). destruct l2 as [|[a n] l2]; cbn in *; [lia|].
    destruct H2 as (? & ? & ?). split_and!; [lia|done|done].
  - rewrite IH. split.
    + intros (H1 & H2 & mid & H3 & H4). eauto.
    + intros (mid & (H1 & H2 & H3) & H4). eauto.
Qed.

Lemma spaced_weaken lo lo' l hi hi' : lo' <= lo -> hi <= hi' -> spaced lo l hi -> spaced lo' l hi'.
Proof.
  revert lo lo'. induction l as [|[a n] l IH]; intros lo lo' H1 H2; cbn; [lia|].
  intros (H3 & H4 & H5). split_and!; [lia|done|]. by apply (IH (a + sizeof_block + n)).
Qed.

Lemma spaced_in lo l hi a n :
  spaced lo l hi -> (a, n) ∈ l -> lo <= a /\ 0 <= n /\ a + sizeof_block + n <= hi.
Proof.
  revert lo. induction l as [|[b k] l IH]; intros lo; [by intros _ ?%not_elem_of_nil|].
  intros (H1 & H2 & H3) [[= -> ->]|Hin]%elem_of_cons.
  - apply spaced_le in H3. lia.
  - apply (IH _ H3) in Hin. unfold sizeof_block in *. lia.
Qed.

Lemma seg_app m p l1 l2 q : seg m p (l1 ++ l2) q <-> exists r, seg m p l1 r /\ seg m r l2 q.
Proof.
  revert p. induction l1 as [|[a n] l1 IH]; intros p; cbn [app seg].
  - split; [eauto|]. by intros (r & -> & H).
  - rewrite IH. split.
    + intros (H1 & H2 & H3 & r & H4 & H5). eauto 7.
    + intros (r & (H1 & H2 & H3 & H4) & H5). eauto 7.
Qed.

(** A segment only depends on the bytes it spans. *)
Lemma seg_frame m m' p l q lo hi :
  spaced lo l hi -> (forall a, lo <= a < hi -> load8 m' a = load8 m a) ->
  seg m p l q -> seg m' p l q.
Proof.
  revert p lo. induction l as [|[a n] l IH]; intros p lo; [done|].
  intros (H1 & H2 & H3) Hm (-> & Ha & Hs & Hl).
  pose proof (spaced_le _ _ _ H3) as Hle. unfold sizeof_block in *.
  assert (Hx : forall b, a <= b -> b + 8 <= a + 16 -> load64 m' b = load64 m b).
  { intros b Hb1 Hb2. apply load64_ext. intros x Hx. apply Hm. lia. }
  cbn [seg]. split_and!; [done|done| |].
  - unfold block_size in *. by rewrite Hx by lia.
  - unfold block_next in *. rewrite Hx by lia. apply (IH _ (a + 16 + n)); [done| |done].
    intros b Hb. apply Hm. lia.
Qed.

(** The pointer to the last block of the part already walked. *)
Definition last_block (l : list block) : Z := default NULL (fst <$> last l).

Lemma last_block_snoc l a n : last_block (l ++ [(a, n)]) = a.
Proof. unfold last_block. by rewrite last_snoc. Qed.

(** ** The specification *)

Fixpoint ff_alloc (size : Z) (l : list block) : option (block * list block) :=
  match l with
  | [] => None
  | (a, n) :: l' =>
      if size <=? n then
        if size + 2 * sizeof_block <=? n
        then Some ((a, size), (a + sizeof_block + size, n - sizeof_block - size) :: l')
        else Some ((a, n), l')
      else
        match ff_alloc size l' with
        | Some (b, r) => Some (b, (a, n) :: r)
        | None => None
        end
  end.

(** Merging a block with its successor, if they touch. *)
Definition merge (b : block) (l : list block) : list block :=
  match l with
  | [] => [b]
  | (a', n') :: l' =>
      if b.1 + sizeof_block + b.2 =? a' then (b.1, b.2 + sizeof_block + n') :: l'
      else b :: l
  end.

Fixpoint ff_free (b : block) (l : list block) : list block :=
  match l with
  | [] => [b]
  | c :: l' =>
      if c.1 <? b.1 then
        match ff_free b l' with
        | d :: r => if d.1 =? b.1 then merge c (d :: r) else c :: d :: r
        | [] => [c]
        end
      else merge b l
  end.

(** Total of the free bytes, headers included. *)
Fixpoint free_bytes (l : list block) : Z :=
  match l with
  | [] => 0
  | (_, n) :: l' => sizeof_block + n + free_bytes l'
  end.

(** No two neighbours touch. *)
Fixpoint coalesced (l : list block) : Prop :=
  match l with
  | (a, n) :: (((a', _) :: _) as l') => a + sizeof_block + n < a' /\ coalesced l'
  | _ => True
  end.

Definition covered (l : list block) (x : Z) : Prop :=
  exists a n, (a, n) ∈ l /\ a <= x < a + sizeof_block + n.

(** What [ff_alloc] hands out: at least [size] bytes, out of one free block. *)
Lemma ff_alloc_spec lo l hi size a n l' :
  spaced lo l hi -> 0 <= size -> ff_alloc size l = Some ((a, n), l') ->
  size <= n /\ lo <= a /\ a + sizeof_block + n <= hi /\ spaced lo l' hi /\
  free_bytes l = sizeof_block + n + free_bytes l' /\
  (forall x, a <= x < a + sizeof_block + n -> covered l x /\ ~ covered l' x).
Proof.
  revert lo l'. induction l as [|[b k] l IH]; intros lo l'; [done|].
  cbn [ff_alloc spaced free_bytes]. intros (H1 & H2 & H3) Hs.
  pose proof (spaced_le _ _ _ H3) as Hle. unfold sizeof_block in *.
  assert (Hnc : forall x y, x < y -> spaced y l hi -> ~ covered l x).
  { intros x y Hxy Hsp (c & j & Hin & Hx). apply (spaced_in _ _ _ _ _ Hsp) in Hin. slia. }
  destruct (Z.leb_spec size k) as [Hk|Hk].
  - destruct (Z.leb_spec (size + 2 * 16) k); intros [= <- <- <-].
    + cbn [spaced free_bytes]. unfold sizeof_block. split_and!; try slia.
      * apply (spaced_weaken (b + 16 + k) _ l hi hi); [slia|slia|done].
      * intros x Hx. split; [exists b, k; split; [rewrite elem_of_cons; by left|slia]|].
        intros (c & j & [[= -> ->]|Hin]%elem_of_cons & Hc); [slia|].
        apply (spaced_in _ _ _ _ _ H3) in Hin. slia.
    + split_and!; try slia.
      * apply (spaced_weaken (b + 16 + k) _ l hi hi); [slia|slia|done].
      * intros x Hx. split; [exists b, k; split; [rewrite elem_of_cons; by left|slia]|].
        apply (Hnc x (b + 16 + k)); [slia|done].
  - destruct (ff_alloc size l) as [[[c j] r]|] eqn:He; [|done]. intros [= -> -> <-].
    destruct (IH _ _ H3 Hs eq_refl) as (G1 & G2 & G3 & G4 & G5 & G6).
    cbn [spaced free_bytes]. unfold sizeof_block. split_and!; try (done || slia).
    intros x Hx. destruct (G6 x Hx) as [(c & i & Hin & Hc) Hn]. split.
    + exists c, i. split; [rewrite elem_of_cons; by right|done].
    + intros (d & e & [[= -> ->]|Hin']%elem_of_cons & Hd); [slia|]. apply Hn. by exists d, e.
Qed.

(** ** Releasing *)

(** Block [b] overlaps no free block. *)
Definition apart (b : block) (l : list block) : Prop :=
  forall a n, (a, n) ∈ l -> b.1 + sizeof_block + b.2 <= a \/ a + sizeof_block + n <= b.1.

Lemma apart_cons b c l :
  apart b (c :: l) <->
  (b.1 + sizeof_block + b.2 <= c.1 \/ c.1 + sizeof_block + c.2 <= b.1) /\ apart b l.
Proof.
  destruct c as [a n]. split.
  - intros H. split; [apply (H a n); rewrite elem_of_cons; by left|].
    intros a' n' Hin. apply H. rewrite elem_of_cons. by right.
  - intros [H1 H2] a' n' [[= -> ->]|Hin]%elem_of_cons; [done|by apply H2].
Qed.

Lemma merge_spaced lo hi b l :
  lo <= b.1 -> 0 <= b.2 -> spaced (b.1 + sizeof_block + b.2) l hi -> spaced lo (merge b l) hi.
Proof.
  destruct b as [a n]. cbn [fst snd]. intros H1 H2 H3.
  destruct l as [|[c k] l]; cbn [merge spaced fst snd] in *; [done|].
  destruct (Z.eqb_spec (a + sizeof_block + n) c) as [<-|]; cbn [spaced]; [|done].
  destruct H3 as (H4 & H5 & H6). split_and!; [done|slia|].
  by replace (a + sizeof_block + (n + sizeof_block + k))
    with (a + sizeof_block + n + sizeof_block + k) by slia.
Qed.

Lemma merge_bytes b l : free_bytes (merge b l) = sizeof_block + b.2 + free_bytes l.
Proof.
  destruct b as [a n], l as [|[c k] l]; cbn [merge free_bytes fst snd]; [slia|].
  destruct (a + sizeof_block + n =? c); cbn [free_bytes]; slia.
Qed.

Lemma merge_covered b l x :
  0 <= b.2 -> (forall a n, (a, n) ∈ l -> 0 <= n) ->
  covered (merge b l) x <-> b.1 <= x < b.1 + sizeof_block + b.2 \/ covered l x.
Proof.
  intros Hb Hl. destruct b as [a n], l as [|[c k] l]; cbn [merge fst snd] in *.
  - split.
    + intros (a' & n' & [= -> ->]%list_elem_of_singleton & H). by left.
    + intros [H|(a' & n' & Hin & _)]; [|by apply not_elem_of_nil in Hin].
      exists a, n. by rewrite list_elem_of_singleton.
  - assert (0 <= k) by (apply (Hl c); rewrite elem_of_cons; by left).
    destruct (Z.eqb_spec (a + sizeof_block + n) c) as [<-|Hne]; split.
    + intros (a' & n' & [[= -> ->]|Hin]%elem_of_cons & H').
      * destruct (decide (x < a + sizeof_block + n)); [left; slia|right].
        exists (a + sizeof_block + n), k. split; [rewrite elem_of_cons; by left|slia].
      * right. exists a', n'. split; [rewrite elem_of_cons; by right|done].
    + intros [H'|(a' & n' & [[= -> ->]|Hin]%elem_of_cons & H')].
      * exists a, (n + sizeof_block + k). split; [rewrite elem_of_cons; by left|slia].
      * exists a, (n + sizeof_block + k). split; [rewrite elem_of_cons; by left|slia].
      * exists a', n'. split; [rewrite elem_of_cons; by right|done].
    + intros (a' & n' & [[= -> ->]|Hin]%elem_of_cons & H'); [by left|right].
      by exists a', n'.
    + intros [H'|(a' & n' & Hin & H')].
      * exists a, n. split; [rewrite elem_of_cons; by left|done].
      * exists a', n'. split; [rewrite elem_of_cons; by right|done].
Qed.

(** Where the released block ends up: at the head, after the smaller ones. *)
Lemma ff_free_cons b c l :
  ff_free b (c :: l) =
    if c.1 <? b.1 then
      match ff_free b l with
      | d :: r => if d.1 =? b.1 then merge c (d :: r) else c :: d :: r
      | [] => [c]
      end
    else merge b (c :: l).
Proof. done. Qed.

Lemma merge_not_nil b l : merge b l <> [].
Proof. destruct l as [|[c k] l]; cbn; [done|]. by case_match. Qed.

Lemma ff_free_not_nil b l : ff_free b l <> [].
Proof.
  destruct l as [|c l]; [done|]. rewrite ff_free_cons.
  destruct (c.1 <? b.1); [|apply merge_not_nil].
  destruct (ff_free b l) as [|d r]; [done|]. destruct (d.1 =? b.1); [apply merge_not_nil|done].
Qed.

Lemma ff_free_spec lo hi b l :
  spaced lo l hi -> lo <= b.1 -> 0 <= b.2 -> b.1 + sizeof_block + b.2 <= hi -> apart b l ->
  spaced lo (ff_free b l) hi /\
  free_bytes (ff_free b l) = sizeof_block + b.2 + free_bytes l /\
  forall x, covered (ff_free b l) x <-> b.1 <= x < b.1 + sizeof_block + b.2 \/ covered l x.
Proof.
  intros Hsp H1 H2 H3 Hap.
  assert (Hm : forall lo l', spaced lo l' hi -> forall a n, (a, n) ∈ l' -> 0 <= n)
    by (intros ? ? Hs a n Hin; by apply (spaced_in _ _ _ _ _ Hs) in Hin as (_ & ? & _)).
  revert lo Hsp H1 Hap. induction l as [|[a n] l IH]; intros lo Hsp H1 Hap.
  { split_and!; [destruct b; cbn in *; split_and!; slia|destruct b; cbn; slia|].
    intros x. apply (merge_covered b []); [done|]. by intros ? ? ?%not_elem_of_nil. }
  apply apart_cons in Hap as [Ha Hap]. cbn [fst snd] in Ha. destruct Hsp as (G1 & G2 & G3).
  pose proof (spaced_le _ _ _ G3) as Hle. rewrite ff_free_cons. cbn [fst].
  destruct (Z.ltb_spec a b.1) as [Hlt|Hge].
  - destruct (IH (a + sizeof_block + n) G3 ltac:(slia) Hap) as (I1 & I2 & I3).
    pose proof (ff_free_not_nil b l) as Hnn. destruct (ff_free b l) as [|d r]; [done|].
    assert (Hcase : spaced lo (merge (a, n) (d :: r)) hi /\
      free_bytes (merge (a, n) (d :: r)) = sizeof_block + n + free_bytes (d :: r) /\
      forall x, covered (merge (a, n) (d :: r)) x <->
        a <= x < a + sizeof_block + n \/ covered (d :: r) x).
    { split_and!; [by apply merge_spaced|by rewrite merge_bytes|].
      intros x. apply (merge_covered (a, n)); [done|]. by apply (Hm (a + sizeof_block + n)). }
    assert (Hcc : forall l' x, covered ((a, n) :: l') x <->
      a <= x < a + sizeof_block + n \/ covered l' x).
    { intros l' x. split.
      - intros (a' & n' & [[= -> ->]|Hin]%elem_of_cons & H'); [by left|right; by exists a', n'].
      - intros [H'|(a' & n' & Hin & H')]; [exists a, n|exists a', n'];
          (split; [rewrite elem_of_cons; tauto|done]). }
    destruct (d.1 =? b.1).
    + destruct Hcase as (J1 & J2 & J3). split; [done|]. split; [cbn [free_bytes] in *; slia|].
      intros x. rewrite J3, I3, Hcc. tauto.
    + split; [by split_and!|]. split; [cbn [free_bytes] in *; slia|].
      intros x. rewrite Hcc, I3, Hcc. tauto.
  - assert (Hs : spaced (b.1 + sizeof_block + b.2) ((a, n) :: l) hi).
    { cbn. split_and!; [slia|done|done]. }
    split_and!; [by apply merge_spaced|by rewrite merge_bytes|].
    intros x. apply merge_covered; [done|]. by apply (Hm (b.1 + sizeof_block + b.2)).
Qed.

(** A coalesced list is what releasing an allocated block gives back. *)
Lemma coalesced_tail c l : coalesced (c :: l) -> coalesced l.
Proof. destruct c as [a n], l as [|[a' n'] l]; [done|]. by intros [_ ?]. Qed.

Lemma ff_alloc_free lo hi size l b l' :
  spaced lo l hi -> coalesced l -> 0 <= size -> ff_alloc size l = Some (b, l') ->
  ff_free b l' = l.
Proof.
  intros Hsp Hc Hs. revert lo l' Hsp Hc.
  induction l as [|[a n] l IH]; intros lo l' Hsp Hc; cbn [ff_alloc]; [done|].
  destruct Hsp as (H1 & H2 & H3).
  destruct (Z.leb_spec size n) as [Hk|Hk].
  - destruct (Z.leb_spec (size + 2 * sizeof_block) n) as [Hb|Hb]; intros [= <- <-].
    + cbn [ff_free fst]. destruct (Z.ltb_spec (a + sizeof_block + size) a); [slia|].
      cbn [merge fst snd]. rewrite Z.eqb_refl. do 2 f_equal. slia.
    + destruct l as [|[c k] l]; [done|]. cbn [ff_free fst]. destruct Hc as [Hc _].
      destruct (Z.ltb_spec c a); [slia|]. cbn [merge fst snd].
      destruct (Z.eqb_spec (a + sizeof_block + n) c); [slia|done].
  - destruct (ff_alloc size l) as [[b' r]|] eqn:He; [|done]. intros [= <- <-].
    pose proof (IH _ _ H3 (coalesced_tail _ _ Hc) eq_refl) as Hf.
    destruct b' as [a' n'].
    destruct (ff_alloc_spec _ _ _ _ _ _ _ H3 Hs He) as (_ & G1 & _).
    rewrite ff_free_cons. cbn [fst]. destruct (Z.ltb_spec a a'); [|slia].
    rewrite Hf. destruct l as [|[c k] l]; [done|]. cbn [fst].
    destruct (Z.eqb_spec c a'); [|done]. cbn [merge fst snd]. destruct Hc as [Hc _].
    destruct (Z.eqb_spec (a + sizeof_block + n) c); [slia|done].
Qed.

Lemma ff_alloc_length size l b l' : ff_alloc size l = Some (b, l') -> (length l' <= length l)%nat.
Proof.
  revert l'. induction l as [|[a n] l IH]; intros l'; [done|]. cbn [ff_alloc].
  destruct (size <=? n).
  - destruct (size + 2 * sizeof_block <=? n); intros [= _ <-]; cbn; lia.
  - destruct (ff_alloc size l) as [[? r]|]; [|done]. intros [= -> <-]. cbn.
    specialize (IH r eq_refl). lia.
Qed.

Lemma ff_alloc_covered size l b l' x :
  0 <= size -> ff_alloc size l = Some (b, l') -> covered l' x -> covered l x.
Proof.
  intros Hs. revert l'. induction l as [|[a n] l IH]; intros l'; [done|]. cbn [ff_alloc].
  assert (Hcons : forall c r, covered r x -> covered (c :: r) x).
  { intros c r (a' & n' & Hin & Hx). exists a', n'. rewrite elem_of_cons. tauto. }
  destruct (Z.leb_spec size n).
  - destruct (Z.leb_spec (size + 2 * sizeof_block) n); intros [= _ <-]; [|by apply Hcons].
    intros (c & k & [[= -> ->]|Hin]%elem_of_cons & Hx).
    + exists a, n. rewrite elem_of_cons. split; [by left|slia].
    + apply Hcons. by exists c, k.
  - destruct (ff_alloc size l) as [[? r]|]; [|done]. intros [= -> <-].
    intros (c & k & [[= -> ->]|Hin]%elem_of_cons & Hx).
    + exists a, n. rewrite elem_of_cons. split; [by left|done].
    + apply Hcons, (IH r eq_refl). by exists c, k.
Qed.

(** The block handed out overlaps no block that is still free. *)
Lemma ff_alloc_apart lo l hi size b l' :
  spaced lo l hi -> 0 <= size -> ff_alloc size l = Some (b, l') -> apart b l'.
Proof.
  destruct b as [a n]. intros Hsp Hs He c k Hin. cbn [fst snd].
  destruct (ff_alloc_spec lo l hi size a n l' Hsp Hs He) as (G1 & _ & _ & G4 & _ & G6).
  destruct (spaced_in _ _ _ _ _ G4 Hin) as (_ & Hk & _).
  destruct (decide (a + sizeof_block + n <= c \/ c + sizeof_block + k <= a)) as [|Hno]; [done|].
  exfalso. apply (proj2 (G6 (Z.max a c) ltac:(slia))). exists c, k. split; [done|slia].
Qed.

(** ** Neighbours never touch *)

Definition head_addr (l : list block) : option Z := fst <$> head l.

Definition starts_after (x : Z) (l : list block) : Prop :=
  forall a, head_addr l = Some a -> x < a.

Lemma coalesced_cons a n l :
  coalesced ((a, n) :: l) <-> starts_after (a + sizeof_block + n) l /\ coalesced l.
Proof.
  unfold starts_after. destruct l as [|[c k] l]; cbn; [naive_solver|].
  split; intros [H1 H2]; (split; [|done]); [by intros ? [= <-]|by apply H1].
Qed.

Lemma merge_coalesced b l hi :
  spaced (b.1 + sizeof_block + b.2) l hi -> coalesced l -> coalesced (merge b l).
Proof.
  destruct b as [a n]. cbn [fst snd]. destruct l as [|[c k] l]; [done|].
  cbn [merge fst snd]. intros (H1 & _ & _) Hc.
  destruct (Z.eqb_spec (a + sizeof_block + n) c) as [<-|].
  - apply coalesced_cons in Hc as [Hs Hc]. apply coalesced_cons. split; [|done].
    intros d Hd. specialize (Hs d Hd). slia.
  - apply coalesced_cons. split; [|done]. intros d [= <-]. lia.
Qed.

Lemma merge_head b l : head_addr (merge b l) = Some b.1.
Proof. destruct b as [a n], l as [|[c k] l]; cbn; [done|]. by destruct (_ =? c). Qed.

Lemma ff_free_coalesced lo hi b l :
  spaced lo l hi -> lo <= b.1 -> 0 <= b.2 -> b.1 + sizeof_block + b.2 <= hi -> apart b l ->
  coalesced l ->
  coalesced (ff_free b l) /\
  (head_addr (ff_free b l) = head_addr l \/ head_addr (ff_free b l) = Some b.1).
Proof.
  intros Hsp H1 H2 H3. revert lo Hsp H1. induction l as [|[a n] l IH]; intros lo Hsp H1 Hap Hc.
  { destruct b. split; [done|by right]. }
  apply apart_cons in Hap as [Ha Hap]. cbn [fst snd] in Ha. destruct Hsp as (G1 & G2 & G3).
  pose proof (spaced_le _ _ _ G3) as Hle.
  apply coalesced_cons in Hc as [Hs Hc]. rewrite ff_free_cons. cbn [fst].
  destruct (Z.ltb_spec a b.1) as [Hlt|Hge].
  - destruct (IH (a + sizeof_block + n) G3 ltac:(slia) Hap Hc) as [I1 I2].
    destruct (ff_free_spec (a + sizeof_block + n) hi b l G3 ltac:(slia) H2 H3 Hap) as (J1 & _).
    pose proof (ff_free_not_nil b l) as Hnn. destruct (ff_free b l) as [|[d k] r]; [done|].
    cbn [fst]. destruct (Z.eqb_spec d b.1) as [Hd|Hd].
    + split; [by apply (merge_coalesced (a, n) _ hi)|left; by rewrite merge_head].
    + split; [|by left]. apply coalesced_cons. split; [|done].
      intros x [= <-]. destruct I2 as [I2|I2]; [by apply Hs|]. injection I2 as ->. done.
  - split; [|right; by rewrite merge_head]. apply (merge_coalesced b _ hi).
    + cbn. split_and!; [slia|done|done].
    + apply coalesced_cons. by split.
Qed.

Lemma ff_alloc_coalesced lo hi size l b l' :
  spaced lo l hi -> 0 <= size -> coalesced l -> ff_alloc size l = Some (b, l') ->
  coalesced l' /\ forall x, starts_after x l -> starts_after x l'.
Proof.
  intros Hsp Hs. revert lo l' Hsp. induction l as [|[a n] l IH]; intros lo l' Hsp Hc; [done|].
  destruct Hsp as (G1 & G2 & G3). apply coalesced_cons in Hc as [Ha Hc]. cbn [ff_alloc].
  destruct (Z.leb_spec size n).
  - destruct (Z.leb_spec (size + 2 * sizeof_block) n); intros [= <- <-].
    + split.
      * apply coalesced_cons. split; [|done]. intros x Hx. specialize (Ha x Hx). slia.
      * intros x Hx y [= <-]. specialize (Hx a eq_refl). slia.
    + split; [done|]. intros x Hx y Hy. specialize (Ha y Hy). specialize (Hx a eq_refl). slia.
  - destruct (ff_alloc size l) as [[? r]|] eqn:He; [|done]. intros [= -> <-].
    destruct (IH _ r G3 Hc eq_refl) as [I1 I2]. split; [|done].
    apply coalesced_cons. split; [by apply I2|done].
Qed.
