(* ===== verification/HeapSpec.v ===== *)
(** * [kmalloc] and [kfree] implement first-fit allocation with coalescing *)

From S2P Require Export HeapFacts.

(** What a heap operation leaves alone, memory and [freelist] apart. *)
Definition heap_others (s : machine) :=
  (hhdm_offset s, memmap s, kvm_ctx s, pmm s, paging s, pool (heap s), sched s).

Definition wr (a v : Z) (s : machine) : machine := set_mem (store64 (mem s) a v) s.

Lemma wr_out a v s x : x < a \/ a + 8 <= x -> load8 (mem (wr a v s)) x = load8 (mem s) x.
Proof. apply load8_store64_out. Qed.

Lemma wr_same a v s : 0 <= v < 2 ^ 64 -> load64 (mem (wr a v s)) a = v.
Proof. apply load64_store64_id. Qed.

Lemma wr_ne a v s b : b + 8 <= a \/ a + 8 <= b -> load64 (mem (wr a v s)) b = load64 (mem s) b.
Proof. apply load64_store64_ne. Qed.

Lemma w64_add a b : 0 <= a + b < 2 ^ 64 -> w64 (a + b) = a + b.
Proof. apply w64_id. Qed.

Lemma align8_id x : 0 <= x -> x mod 8 = 0 -> x + 8 < 2 ^ 64 -> ALIGN_UP x 8 = x.
Proof.
  intros H0 Hm Hb. destruct (align_up_spec x 8) as [Ha Hc]; [lia..|].
  pose proof (Z.div_mod x 8 ltac:(lia)). pose proof (Z.div_mod (ALIGN_UP x 8) 8 ltac:(lia)). lia.
Qed.

(** ** Linking at the end of the walked part *)

(** The pointer that [link] changes is in the last block of [l]. *)
Lemma link_spec s lo mid l r v (Q : unit -> machine -> Prop) :
  spaced lo l mid -> 0 < lo -> 0 <= v < 2 ^ 64 ->
  seg (mem s) (freelist (heap s)) l r ->
  (forall s', seg (mem s') (freelist (heap s')) l v -> heap_others s' = heap_others s ->
     (forall x, ~ (lo <= x < mid /\ covered l x) -> load8 (mem s') x = load8 (mem s) x) ->
     Q tt s') ->
  wp (link (last_block l) v) Q s.
Proof.
  intros Hsp Hlo Hv Hl HQ. unfold link.
  destruct l as [|[a n] l _] using rev_ind.
  - unfold last_block. cbn. apply wp_modify. by apply HQ.
  - rewrite last_block_snoc. apply spaced_app in Hsp as (m1 & H1 & H2 & H3 & H4).
    pose proof (spaced_le _ _ _ H1). cbn [spaced] in H4. unfold sizeof_block in *.
    destruct (Z.eqb_spec a NULL); [lia|]. unfold set_block_next, write64. apply wp_modify.
    apply seg_app in Hl as (r' & Hl1 & -> & _ & Hn & Hr).
    fold (wr (a + 8) v s). apply HQ; [|done|].
    + apply seg_app. exists a. split.
      * apply (seg_frame (mem s) _ _ _ _ lo m1); [done| |done].
        intros x Hx. apply wr_out. lia.
      * cbn [seg]. split_and!; [done|lia| |].
        -- unfold block_size in *. rewrite wr_ne by lia. done.
        -- unfold block_next. by rewrite wr_same.
    + intros x Hx. apply wr_out. destruct (decide (x < a + 8 \/ a + 8 + 8 <= x)); [done|].
      exfalso. apply Hx. split; [lia|]. exists a, n. unfold sizeof_block.
      split; [|lia]. rewrite elem_of_app, list_elem_of_singleton. by right.
Qed.

(** ** kmalloc *)

Definition kmalloc_post (s : machine) (l : list block) (lo hi size r : Z) (s' : machine) : Prop :=
  match ff_alloc size l with
  | None => r = NULL /\ s' = s
  | Some ((a, n), l') =>
      r = a + sizeof_block /\ heap_ok s' l' lo hi /\ block_size (mem s') a = n /\
      heap_others s' = heap_others s /\ agree_outside (covered l) (mem s) (mem s')
  end.

Lemma ff_alloc_app size l1 l2 :
  Forall (fun b => b.2 < size) l1 ->
  ff_alloc size (l1 ++ l2) =
    match ff_alloc size l2 with Some (b, r) => Some (b, l1 ++ r) | None => None end.
Proof.
  induction 1 as [|[a n] l1 Hn _ IH]; cbn [app ff_alloc].
  - by destruct (ff_alloc size l2) as [[b r]|].
  - cbn [snd] in Hn. destruct (Z.leb_spec size n); [lia|]. rewrite IH.
    by destruct (ff_alloc size l2) as [[b r]|].
Qed.

Lemma covered_app_r l1 l2 x : covered l2 x -> covered (l1 ++ l2) x.
Proof. intros (a & n & Hin & Hx). exists a, n. rewrite elem_of_app. tauto. Qed.

Lemma covered_app_l l1 l2 x : covered l1 x -> covered (l1 ++ l2) x.
Proof. intros (a & n & Hin & Hx). exists a, n. rewrite elem_of_app. tauto. Qed.

Lemma covered_head a n l x : a <= x < a + sizeof_block + n -> covered ((a, n) :: l) x.
Proof. intros H. exists a, n. rewrite elem_of_cons. tauto. Qed.

(** The found block: unlinked or split. *)
Section Take.
Context (s : machine) (l0 l : list block) (a n size lo hi : Z).
Hypothesis (Hok : heap_ok s (l0 ++ (a, n) :: l) lo hi)
  (Hsmall : Forall (fun b => b.2 < size) l0)
  (Hsz : 0 <= size <= n) (Hal : size mod 8 = 0).

Lemma take_facts :
  exists mid, spaced lo l0 mid /\ mid <= a /\ spaced (a + sizeof_block + n) l hi /\
    seg (mem s) (freelist (heap s)) l0 a /\ seg (mem s) (block_next (mem s) a) l NULL /\
    block_size (mem s) a = n /\ 32 <= a /\ a + sizeof_block + n <= hi /\ hi < 2 ^ 64.
Proof.
  destruct Hok as [[Hlo Hhi] Hsp Hl].
  apply spaced_app in Hsp as (mid & H1 & H2 & H3 & H4).
  apply seg_app in Hl as (r & G1 & -> & G2 & G3 & G4).
  exists mid. pose proof (spaced_le _ _ _ H1). pose proof (spaced_le _ _ _ H4).
  split_and!; try done; lia.
Qed.

Lemma next_range : 0 <= block_next (mem s) a < 2 ^ 64.
Proof. apply load64_range. Qed.

Lemma take_whole :
  n < size + 2 * sizeof_block ->
  wp (link (last_block l0) (block_next (mem s) a) ;;; ret (w64 (a + sizeof_block)))
    (kmalloc_post s (l0 ++ (a, n) :: l) lo hi size) s.
Proof.
  intros Hn. destruct take_facts as (mid & H1 & H2 & H3 & G1 & G2 & G3 & Ha & Hh & Hh').
  pose proof (spaced_le _ _ _ H1) as Hlm.
  assert (Hff : ff_alloc size (l0 ++ (a, n) :: l) = Some ((a, n), l0 ++ l)).
  { rewrite ff_alloc_app by done. cbn [ff_alloc]. destruct (Z.leb_spec size n); [|lia].
    by destruct (Z.leb_spec (size + 2 * sizeof_block) n); [lia|]. }
  destruct (ff_alloc_spec lo _ hi size a n _ (hp_spaced _ _ _ _ Hok) ltac:(lia) Hff)
    as (_ & _ & _ & Hsp' & _).
  wp_step. apply (link_spec s lo mid l0 a); [done|destruct (hp_bounds _ _ _ _ Hok); lia
    |apply next_range|done|].
  intros s' Hl Ho Hm. wp_step. unfold kmalloc_post. rewrite Hff.
  unfold sizeof_block in *. rewrite w64_add by lia. split_and!; [done| | |done|].
  - split; [apply Hok|done|]. apply seg_app. exists (block_next (mem s) a). split; [done|].
    apply (seg_frame (mem s) _ _ _ _ (a + 16 + n) hi); [done| |done].
    intros x Hx. apply Hm. lia.
  - rewrite <- G3. unfold block_size. apply load64_ext. intros x Hx. apply Hm. lia.
  - intros x Hx. apply Hm. intros [_ Hc]. apply Hx. by apply covered_app_l.
Qed.

Lemma take_split :
  size + 2 * sizeof_block <= n ->
  let nb := a + sizeof_block + size in
  wp (link (last_block l0) nb ;;; ret (w64 (a + sizeof_block)))
    (kmalloc_post s (l0 ++ (a, n) :: l) lo hi size)
    (wr a size (wr (nb + 8) (block_next (mem s) a) (wr nb (n - sizeof_block - size) s))).
Proof.
  intros Hn nb. destruct take_facts as (mid & H1 & H2 & H3 & G1 & G2 & G3 & Ha & Hh & Hh').
  pose proof (spaced_le _ _ _ H1) as Hlm. pose proof next_range as Hnr.
  assert (Hff : ff_alloc size (l0 ++ (a, n) :: l)
    = Some ((a, size), l0 ++ (nb, n - sizeof_block - size) :: l)).
  { rewrite ff_alloc_app by done. cbn [ff_alloc]. destruct (Z.leb_spec size n); [|lia].
    by destruct (Z.leb_spec (size + 2 * sizeof_block) n); [|lia]. }
  destruct (ff_alloc_spec lo _ hi size a size _ (hp_spaced _ _ _ _ Hok) ltac:(lia) Hff)
    as (_ & _ & _ & Hsp' & _).
  set (s3 := wr a size _).
  assert (Hs3 : forall x, ~ (a <= x < a + sizeof_block + n) -> load8 (mem s3) x = load8 (mem s) x).
  { intros x Hx. unfold s3, nb, sizeof_block in *. rewrite !wr_out; [done|lia..]. }
  unfold sizeof_block in *.
  assert (Hl3 : seg (mem s3) (freelist (heap s3)) l0 a).
  { apply (seg_frame (mem s) _ _ _ _ lo mid); [done| |done]. intros x Hx. apply Hs3. lia. }
  assert (Hr3 : seg (mem s3) (block_next (mem s) a) l NULL).
  { apply (seg_frame (mem s) _ _ _ _ (a + 16 + n) hi); [done| |done]. intros x Hx. apply Hs3. lia. }
  assert (Hnb1 : load64 (mem s3) nb = n - 16 - size).
  { unfold s3. rewrite !wr_ne by (unfold nb; lia). apply wr_same. lia. }
  assert (Hnb2 : load64 (mem s3) (nb + 8) = block_next (mem s) a).
  { unfold s3. rewrite wr_ne by (unfold nb; lia). by apply wr_same. }
  assert (Ha3 : load64 (mem s3) a = size) by (apply wr_same; lia).
  wp_step. apply (link_spec s3 lo mid l0 a); [done|destruct (hp_bounds _ _ _ _ Hok); lia|unfold nb; lia|done|].
  intros s' Hl Ho Hm. wp_step. unfold kmalloc_post. rewrite Hff.
  rewrite w64_add by (unfold sizeof_block; lia). split_and!; [done| | |done|].
  - split; [apply Hok|done|]. apply seg_app. exists nb. split; [done|].
    apply (seg_frame (mem s3) _ _ _ _ a hi).
    + cbn. unfold nb, sizeof_block. split_and!; [lia..|].
      by replace (a + 16 + size + 16 + (n - 16 - size)) with (a + 16 + n) by lia.
    + intros x Hx. apply Hm. lia.
    + cbn [seg]. split_and!; [done|unfold nb; lia|done|]. unfold block_next at 1. by rewrite Hnb2.
  - unfold block_size. rewrite <- Ha3. apply load64_ext. intros x Hx. apply Hm. lia.
  - intros x Hx. rewrite Hm.
    + apply Hs3. intros Hin. apply Hx, covered_app_r, covered_head. done.
    + intros [_ Hc]. apply Hx. by apply covered_app_l.
Qed.
End Take.

Lemma kmalloc_loop_spec fuel size l0 l lo hi s :
  heap_ok s (l0 ++ l) lo hi -> Forall (fun b => b.2 < size) l0 ->
  0 <= size -> size mod 8 = 0 -> (length l < fuel)%nat ->
  forall cur, seg (mem s) (freelist (heap s)) l0 cur ->
  wp (kmalloc_loop fuel size (last_block l0) cur) (kmalloc_post s (l0 ++ l) lo hi size) s.
Proof.
  revert l0 l. induction fuel as [|fuel IH]; intros l0 l Hok Hsm Hs Hal Hf cur Hcur; [lia|].
  cbn [kmalloc_loop].
  pose proof (hp_list _ _ _ _ Hok) as Hl. apply seg_app in Hl as (r & Hl0 & Hl).
  assert (r = cur) as ->.
  { clear -Hcur Hl0. revert Hcur Hl0. generalize (freelist (heap s)) as p.
    induction l0 as [|[a n] l0 IH]; intros p; cbn; [by intros <- <-|].
    intros (_ & _ & _ & H1) (_ & _ & _ & H2). by apply (IH _ H1). }
  destruct l as [|[a n] l].
  - cbn in Hl. subst cur. cbn. unfold kmalloc_post. rewrite ff_alloc_app by done. done.
  - destruct Hl as (-> & Hn0 & Hsz & Hrest). destruct (Z.eqb_spec a NULL); [done|].
    wp_step. wp_step. cbv beta. rewrite Hsz.
    destruct (take_facts s l0 l a n lo hi Hok) as (mid & H1 & H2 & H3 & _ & _ & _ & Ha & Hh & Hh').
    destruct (Z.leb_spec size n) as [Hle|Hgt].
    + unfold sizeof_block. rewrite !(w64_id (16 + size)) by slia.
      rewrite (w64_id (16 + size + 16)) by slia.
      rewrite align8_id; [|slia| |slia].
      2: { replace (16 + size + 16) with (size + 4 * 8) by lia. by rewrite Z.mod_add. }
      destruct (Z.leb_spec (16 + size + 16) n) as [Hsp|Hnsp].
      * unfold set_block_size, set_block_next, write64.
        wp_steps. rewrite !(w64_id (a + (16 + size))) by slia.
        rewrite !(w64_id (n - (16 + size))) by slia.
        assert (Hbn : block_next (mem (set_mem (store64 (mem s) (a + (16 + size))
          (n - (16 + size))) s)) a = block_next (mem s) a).
        { apply load64_store64_ne. slia. }
        rewrite Hbn.
        pose proof (take_split s l0 l a n size lo hi Hok Hsm ltac:(lia) ltac:(slia)) as Ht.
        cbn zeta in Ht. apply wp_bind_inv in Ht. unfold sizeof_block in *.
        replace (n - (16 + size)) with (n - 16 - size) by lia.
        replace (a + (16 + size)) with (a + 16 + size) by lia. exact Ht.
      * wp_steps.
        pose proof (take_whole s l0 l a n size lo hi Hok Hsm ltac:(lia) ltac:(slia)) as Ht.
        by apply wp_bind_inv in Ht.
    + replace (l0 ++ (a, n) :: l) with ((l0 ++ [(a, n)]) ++ l) in * by by rewrite <- app_assoc.
      replace a with (last_block (l0 ++ [(a, n)])) at 1 by apply last_block_snoc.
      apply IH; try done.
      * apply Forall_app. split; [done|]. by apply Forall_singleton.
      * cbn in Hf. lia.
      * apply seg_app. exists a. split; [done|]. by cbn.
Qed.

Lemma kmalloc_spec fuel size l lo hi s :
  heap_ok s l lo hi -> size <> 0 -> ALIGN_UP size 8 mod 8 = 0 -> (length l < fuel)%nat ->
  wp (kmalloc fuel size) (kmalloc_post s l lo hi (ALIGN_UP size 8)) s.
Proof.
  intros Hok Hs Hal Hf. unfold kmalloc. destruct (Z.eqb_spec size 0); [done|].
  wp_step. wp_step. apply (kmalloc_loop_spec fuel (ALIGN_UP size 8) [] l); try done.
  apply w64_range.
Qed.

(** ** kfree *)

Definition slot_of (l : list block) : slot := fst <$> last l.

Lemma slot_get_seg s l r :
  seg (mem s) (freelist (heap s)) l r -> slot_get s (slot_of l) = r.
Proof.
  destruct l as [|[a n] l _] using rev_ind; [done|]. unfold slot_of. rewrite last_snoc.
  intros (r' & _ & -> & _ & _ & Hr)%seg_app. exact Hr.
Qed.

Lemma slot_set_link lo l hi v :
  spaced lo l hi -> 0 < lo -> slot_set (slot_of l) v = link (last_block l) v.
Proof.
  intros Hsp Hlo. unfold slot_of, last_block, link.
  destruct l as [|[a n] l _] using rev_ind; [done|]. rewrite last_snoc. cbn.
  apply spaced_app in Hsp as (m & H1 & H2 & _). apply spaced_le in H1.
  by destruct (Z.eqb_spec a NULL); [lia|].
Qed.

Lemma seek_slot_spec fuel l1 l2 block s :
  seg (mem s) (freelist (heap s)) (l1 ++ l2) NULL -> Forall (fun b => b.1 < block) l1 ->
  (length l2 < fuel)%nat ->
  wp (seek_slot fuel (slot_of l1) block) (fun c s' => s' = s /\
    exists m1 m2, l1 ++ l2 = m1 ++ m2 /\ c = slot_of m1 /\ Forall (fun b => b.1 < block) m1 /\
      forall b r, m2 = b :: r -> block <= b.1) s.
Proof.
  revert l1 l2. induction fuel as [|fuel IH]; intros l1 l2 Hl Hlt Hf; [lia|].
  cbn [seek_slot]. wp_step. wp_step. cbv beta.
  pose proof Hl as (r & H1 & H2)%seg_app. rewrite (slot_get_seg s l1 r) by done.
  destruct l2 as [|[a n] l2].
  - cbn in H2. subst r. cbn [Z.eqb negb andb]. wp_step. split; [done|].
    exists l1, []. split_and!; try done.
  - destruct H2 as (-> & Hn & _). destruct (Z.eqb_spec a NULL); [done|]. cbn [negb andb].
    destruct (Z.ltb_spec a block).
    + replace (Some a) with (slot_of (l1 ++ [(a, n)])) by (unfold slot_of; by rewrite last_snoc).
      replace (l1 ++ (a, n) :: l2) with ((l1 ++ [(a, n)]) ++ l2) in * by by rewrite <- app_assoc.
      apply IH; [done| |cbn in Hf; lia]. apply Forall_app. split; [done|]. by apply Forall_singleton.
    + wp_step. split; [done|]. exists l1, ((a, n) :: l2). split_and!; try done.
      by intros b r [= <- <-].
Qed.

Lemma find_prev_spec fuel l p k q block s :
  seg (mem s) q (l ++ [(p, k)]) block -> Forall (fun b => b.1 < block) (l ++ [(p, k)]) ->
  (length l < fuel)%nat -> wp (find_prev fuel q block) (fun r s' => r = p /\ s' = s) s.
Proof.
  revert q l. induction fuel as [|fuel IH]; intros q l Hl Hlt Hf; [lia|].
  cbn [find_prev]. wp_step. wp_step. cbv beta. destruct l as [|[a n] l].
  - cbn in Hl. destruct Hl as (-> & _ & _ & Hr). rewrite Hr, Z.eqb_refl. by wp_step.
  - cbn [app seg] in Hl. destruct Hl as (-> & _ & _ & Hr). cbn [app] in Hlt.
    apply Forall_cons in Hlt as [_ Hlt].
    assert (Hne : block_next (mem s) a <> block).
    { destruct l as [|[c j] l]; cbn [app seg] in Hr; destruct Hr as (-> & _);
        apply Forall_cons in Hlt as [Hlt _]; cbn in Hlt; lia. }
    destruct (Z.eqb_spec (block_next (mem s) a) block); [done|].
    apply (IH _ l); [done|done|cbn in Hf; lia].
Qed.

(** Merging a block of the list with the next one; [coalesce_prev prev block] is the
    same operation on [prev]. *)
Lemma coalesce_spec s l1 a n l2 lo hi :
  heap_ok s (l1 ++ (a, n) :: l2) lo hi ->
  wp (coalesce_next a) (fun _ s' => heap_ok s' (l1 ++ merge (a, n) l2) lo hi /\
    heap_others s' = heap_others s /\
    agree_outside (in_range a sizeof_block) (mem s) (mem s')) s.
Proof.
  intros Hok. pose proof Hok as [[Hlo Hhi] Hsp Hl].
  apply spaced_app in Hsp as (mid & H1 & H2 & H3 & H4).
  apply seg_app in Hl as (r & G1 & -> & G2 & G3 & G4).
  pose proof (spaced_le _ _ _ H1). pose proof (spaced_le _ _ _ H4).
  unfold coalesce_next. wp_step. wp_step. cbv beta. rewrite G3.
  rewrite w64_id by slia. apply wp_when; intros Hc; bool_simpl.
  - destruct l2 as [|[c k] l2]; [by cbn in G4|]. destruct G4 as (Hc' & G5 & G6 & G7).
    rewrite Hc' in *. cbn [merge fst snd]. destruct H4 as (K5 & K6 & K7).
    pose proof (spaced_le _ _ _ K7). unfold sizeof_block in *. rewrite G6.
    rewrite w64_id by lia. unfold set_block_size, set_block_next, write64. wp_steps.
    fold (wr a (n + 16 + k) s). set (s1 := wr a (n + 16 + k) s).
    assert (E1 : block_next (mem s1) a = c).
    { unfold block_next, s1. rewrite wr_ne by lia. exact Hc'. }
    assert (E2 : block_next (mem s1) c = block_next (mem s) c).
    { unfold block_next, s1. by rewrite wr_ne by lia. }
    rewrite E1, E2. fold (wr (a + 8) (block_next (mem s) c) s1).
    set (s2 := wr (a + 8) (block_next (mem s) c) s1).
    assert (Hs2 : forall x, ~ (a <= x < a + 16) -> load8 (mem s2) x = load8 (mem s) x).
    { intros x Hx. unfold s2, s1. rewrite !wr_out; [done|lia..]. }
    destruct (Z.eqb_spec (a + 16 + n) c) as [He|]; [|done].
    split_and!; [|done|intros x Hx; apply Hs2; unfold in_range in Hx; lia].
    split; [done| |].
    + apply spaced_app. exists mid. split; [done|]. cbn [spaced]. unfold sizeof_block.
      split_and!; [lia|lia|]. by replace (a + 16 + (n + 16 + k)) with (c + 16 + k) by lia.
    + apply seg_app. exists a. split.
      * apply (seg_frame (mem s) _ _ _ _ lo mid); [done| |done]. intros x Hx. apply Hs2. lia.
      * cbn [seg]. split_and!; [done|done| |].
        -- unfold block_size, s2. rewrite wr_ne by lia. apply wr_same. lia.
        -- unfold block_next at 1, s2. rewrite wr_same by apply load64_range. fold s2.
           apply (seg_frame (mem s) _ _ _ _ (c + 16 + k) hi); [done| |done].
           intros x Hx. apply Hs2. lia.
  - assert (merge (a, n) l2 = (a, n) :: l2) as ->.
    { destruct l2 as [|[c k] l2]; [done|]. destruct G4 as (Hc' & G5 & _). cbn [merge fst snd].
      destruct (Z.eqb_spec (a + sizeof_block + n) c); [|done]. rewrite Hc' in Hc.
      destruct Hc as [Hc|Hc]; bool_simpl; [by rewrite Hc in G5|done]. }
    split_and!; [done|done|apply agree_outside_refl].
Qed.

Lemma coalesce_prev_next s prev block :
  block_next (mem s) prev = block -> block <> NULL ->
  coalesce_prev prev block s = coalesce_next prev s.
Proof.
  intros Hn Hb. unfold coalesce_prev, coalesce_next, bind, get. rewrite Hn.
  destruct (Z.eqb_spec block NULL); [done|]. cbn [negb andb].
  destruct (Z.eqb_spec (w64 (prev + sizeof_block + block_size (mem s) prev)) block) as [He|];
    [|done].
  unfold when, set_block_size, set_block_next, write64, modify, bind, get. do 2 f_equal.
  (* the [next] field of [prev] survives the write of its size *)
  unfold set_mem at 1 4. cbn [mem set_mem hhdm_offset memmap kvm_ctx pmm paging heap sched].
  assert (Hx : forall v, block_next (store64 (mem s) prev v) prev = block).
  { intros v. unfold block_next. rewrite load64_store64_ne by lia. exact Hn. }
  by rewrite !Hx.
Qed.

Lemma ff_free_before b l1 l2 :
  Forall (fun c => c.1 < b.1) l1 -> (forall c r, l2 = c :: r -> b.1 <= c.1) ->
  ff_free b (l1 ++ l2) =
    match last l1 with
    | None => merge b l2
    | Some c => removelast l1 ++ merge c (merge b l2)
    end.
Proof.
  intros Hlt Hge.
  assert (Hm : exists n r, merge b l2 = (b.1, n) :: r).
  { destruct b as [a n], l2 as [|[c k] l2]; cbn; [eauto|]. case_match; eauto. }
  assert (H0 : ff_free b l2 = merge b l2).
  { destruct l2 as [|c l2]; [done|]. rewrite ff_free_cons. specialize (Hge c l2 eq_refl).
    by destruct (Z.ltb_spec c.1 b.1); [lia|]. }
  destruct Hm as (n & r & Hm).
  induction Hlt as [|c l1 Hc Hlt IH]; [done|].
  cbn [app]. rewrite ff_free_cons. destruct (Z.ltb_spec c.1 b.1); [|lia]. rewrite IH.
  destruct l1 as [|d l1].
  - cbn [last removelast app]. rewrite Hm. cbn [fst]. by rewrite Z.eqb_refl.
  - apply Forall_cons in Hlt as [Hd Hlt].
    change (last (c :: d :: l1)) with (last (d :: l1)).
    change (removelast (c :: d :: l1)) with (c :: removelast (d :: l1)).
    destruct (last (d :: l1)) as [e|] eqn:He; [|by apply last_None in He].
    destruct l1 as [|f l1].
    + cbn in He. injection He as <-. cbn [removelast app]. rewrite Hm.
      destruct d as [da dn]. cbn [merge fst snd] in *. destruct (da + sizeof_block + dn =? b.1);
        cbn [fst]; destruct (Z.eqb_spec da b.1); (done || lia).
    + change (removelast (d :: f :: l1)) with (d :: removelast (f :: l1)). cbn [app].
      destruct (Z.eqb_spec d.1 b.1); [lia|done].
Qed.

(** An allocated block fits between the parts of the list below and above it. *)
Lemma block_fits l1 l2 a n lo hi :
  spaced lo (l1 ++ l2) hi -> Forall (fun b => b.1 < a) l1 ->
  (forall c r, l2 = c :: r -> a <= c.1) -> 0 <= n -> lo <= a -> a + sizeof_block + n <= hi ->
  apart (a, n) (l1 ++ l2) -> spaced lo l1 a /\ spaced (a + sizeof_block + n) l2 hi.
Proof.
  intros Hsp Hlt Hge Hn Hlo Hhi Hap. apply spaced_app in Hsp as (mid & H1 & H2). split.
  - destruct l1 as [|[c k] l1 _] using rev_ind; [done|].
    apply spaced_app in H1 as (m & J1 & J2 & J3 & J4). apply spaced_app. exists m.
    split; [done|]. cbn [spaced]. split_and!; [done|done|].
    apply Forall_app in Hlt as [_ Hlt]. rewrite Forall_singleton in Hlt. cbn in Hlt.
    assert (Hin : (c, k) ∈ (l1 ++ [(c, k)]) ++ l2)
      by (rewrite !elem_of_app, list_elem_of_singleton; tauto).
    destruct (Hap c k Hin) as [Hd|Hd]; cbn in Hd; slia.
  - destruct l2 as [|[c k] l2]; [done|]. specialize (Hge (c, k) l2 eq_refl). cbn in Hge.
    destruct H2 as (J1 & J2 & J3). cbn [spaced]. split_and!; [|done|done].
    assert (Hin : (c, k) ∈ l1 ++ (c, k) :: l2) by (rewrite elem_of_app, elem_of_cons; tauto).
    destruct (Hap c k Hin) as [Hd|Hd]; cbn in Hd; slia.
Qed.

(** Inserting the block, before any merging. *)
Lemma insert_spec s l1 l2 a n lo hi :
  heap_ok s (l1 ++ l2) lo hi -> Forall (fun b => b.1 < a) l1 ->
  (forall c r, l2 = c :: r -> a <= c.1) -> block_size (mem s) a = n -> 0 <= n ->
  lo <= a -> a + sizeof_block + n <= hi -> apart (a, n) (l1 ++ l2) ->
  wp (s <- get ;; set_block_next a (slot_get s (slot_of l1)) ;;; slot_set (slot_of l1) a)
    (fun _ s' => heap_ok s' (l1 ++ (a, n) :: l2) lo hi /\ heap_others s' = heap_others s /\
       agree_outside (fun x => in_range a sizeof_block x \/ covered (l1 ++ l2) x)
         (mem s) (mem s')) s.
Proof.
  intros Hok Hlt Hge Hsz Hn Hlo Hhi Hap. pose proof Hok as [[Hlo' Hhi'] Hsp Hl].
  apply seg_app in Hl as (r & G1 & G2).
  destruct (block_fits l1 l2 a n lo hi Hsp Hlt Hge Hn Hlo Hhi Hap) as [H1' H2'].
  pose proof (spaced_le _ _ _ H1'). pose proof (spaced_le _ _ _ H2').
  unfold sizeof_block in *.
  wp_step. wp_step. cbv beta. rewrite (slot_get_seg s l1 r) by done.
  unfold set_block_next, write64. wp_step. wp_step. fold (wr (a + 8) r s).
  rewrite (slot_set_link lo l1 a) by (done || lia).
  assert (Hr : 0 <= r < 2 ^ 64).
  { destruct l2 as [|[c k] l2]; cbn in G2; [lia|]. destruct G2 as (-> & _).
    destruct H2' as (? & ? & ?%spaced_le). unfold sizeof_block in *. lia. }
  set (s1 := wr (a + 8) r s).
  assert (Hs1 : forall x, x < a \/ a + 16 <= x -> load8 (mem s1) x = load8 (mem s) x).
  { intros x Hx. apply wr_out. lia. }
  apply (link_spec s1 lo a l1 r); [done|lia|lia| |].
  { apply (seg_frame (mem s) _ _ _ _ lo a); [done| |done]. intros x Hx. apply Hs1. lia. }
  intros s2 Hl2 Ho2 Hm2.
  assert (Hs2 : forall x, a <= x -> load8 (mem s2) x = load8 (mem s1) x)
    by (intros x Hx; apply Hm2; lia).
  split_and!; [|done|].
  - split; [done| |].
    + apply spaced_app. exists a. split; [done|]. cbn [spaced]. unfold sizeof_block.
      split_and!; [lia|done|done].
    + apply seg_app. exists a. split; [done|]. cbn [seg]. split_and!; [done|lia| |].
      * rewrite <- Hsz. unfold block_size. apply load64_ext. intros x Hx.
        rewrite Hs2 by lia. apply wr_out. lia.
      * assert (Hnx : block_next (mem s2) a = r).
        { unfold block_next. rewrite <- (wr_same (a + 8) r s Hr). apply load64_ext.
          intros x Hx. apply Hs2. lia. }
        rewrite Hnx. apply (seg_frame (mem s) _ _ _ _ (a + 16 + n) hi); [done| |done].
        intros x Hx. rewrite Hs2 by lia. apply Hs1. lia.
  - intros x Hx. rewrite Hm2; [apply wr_out|].
    + unfold in_range in Hx. destruct (decide (a <= x < a + 16)); [exfalso; apply Hx; by left|lia].
    + intros [_ Hc]. apply Hx. right. by apply covered_app_l.
Qed.

Definition kfree_post (s : machine) (l : list block) (b : block) (lo hi : Z) (s' : machine) : Prop :=
  heap_ok s' (ff_free b l) lo hi /\ heap_others s' = heap_others s /\
  agree_outside (fun x => b.1 <= x < b.1 + sizeof_block + b.2 \/ covered l x) (mem s) (mem s').

(** The second merge, with the block in front. *)
Lemma merge_prev_spec fuel s3 l1 p k a n l2 lo hi :
  heap_ok s3 (l1 ++ (p, k) :: merge (a, n) l2) lo hi -> Forall (fun b => b.1 < a) (l1 ++ [(p, k)]) ->
  (length l1 < fuel)%nat ->
  wp (s <- get ;; prev <- find_prev fuel (freelist (heap s)) a ;; coalesce_prev prev a)
    (fun _ s' => heap_ok s' (l1 ++ merge (p, k) (merge (a, n) l2)) lo hi /\
       heap_others s' = heap_others s3 /\
       agree_outside (in_range p sizeof_block) (mem s3) (mem s')) s3.
Proof.
  intros Hok3 Hlt Hf.
  assert (Hm' : exists n' r, merge (a, n) l2 = (a, n') :: r).
  { destruct l2 as [|[c j] l2]; cbn; [eauto|]. case_match; eauto. }
  destruct Hm' as (n' & r & Hme).
  pose proof (hp_list _ _ _ _ Hok3) as Hl3. rewrite Hme in Hl3.
  apply seg_app in Hl3 as (q & Hl3 & -> & Hp0 & Hpk & Hnx & Hna & Hna').
  wp_step. wp_step. cbv beta. wp_step. eapply wp_mono.
  { apply (find_prev_spec fuel l1 p k _ a); [|done|done].
    apply seg_app. exists p. split; [done|]. cbn [seg]. by rewrite Hnx. }
  intros pr s4 [-> ->]. unfold wp. rewrite coalesce_prev_next by done.
  exact (coalesce_spec s3 l1 p k (merge (a, n) l2) lo hi Hok3).
Qed.

Lemma kfree_spec fuel s l a n lo hi :
  heap_ok s l lo hi -> block_size (mem s) a = n -> 0 <= n -> lo <= a ->
  a + sizeof_block + n <= hi -> apart (a, n) l -> (length l < fuel)%nat ->
  wp (kfree fuel (a + sizeof_block)) (fun _ s' => kfree_post s l (a, n) lo hi s') s.
Proof.
  intros Hok Hsz Hn Hlo Hhi Hap Hf. pose proof (hp_bounds _ _ _ _ Hok) as [Hlo' Hhi'].
  unfold kfree. unfold sizeof_block at 1. destruct (Z.eqb_spec (a + 16) NULL); [lia|].
  replace (a + sizeof_block - sizeof_block) with a by lia. cbn zeta.
  wp_step. eapply wp_mono.
  { change None with (slot_of []). apply (seek_slot_spec fuel [] l a s); [apply Hok|done|done]. }
  intros c s0 (-> & l1 & l2 & Hsplit & -> & Hlt & Hge). cbn [app] in Hsplit. subst l.
  pose proof (insert_spec s l1 l2 a n lo hi Hok Hlt Hge Hsz Hn Hlo Hhi Hap) as Hins.
  apply wp_bind_inv in Hins. wp_step. eapply wp_mono; [exact Hins|]. cbv beta.
  intros s0 s0' Hins'. apply wp_bind_inv in Hins'. wp_step.
  eapply wp_mono; [exact Hins'|]. cbv beta. intros [] s1 Hs1. wp_step.
  eapply wp_mono; [exact Hs1|]. cbv beta. intros [] s2 (Hok2 & Ho2 & Hm2). wp_step.
  eapply wp_mono; [by apply (coalesce_spec s2 l1 a n l2 lo hi)|]. cbv beta.
  intros [] s3 (Hok3 & Ho3 & Hm3).
  assert (Hm : agree_outside (fun x => a <= x < a + sizeof_block + n \/ covered (l1 ++ l2) x)
    (mem s) (mem s3)).
  { intros x Hx. rewrite Hm3, Hm2; [done| |]; intros Hc; apply Hx; unfold in_range in *.
    - destruct Hc as [Hc|Hc]; [left; slia|by right].
    - left. slia. }
  unfold kfree_post. cbn [fst snd]. rewrite (ff_free_before (a, n) l1 l2) by done.
  unfold slot_of. destruct l1 as [|[p k] l1 _] using rev_ind.
  - cbn. split_and!; [done|congruence|done].
  - rewrite last_snoc. cbn [fmap option_fmap option_map fst].
    replace (removelast (l1 ++ [(p, k)])) with l1 by (by rewrite removelast_last).
    rewrite <- app_assoc in Hok3. cbn [app] in Hok3.
    eapply wp_mono; [apply (merge_prev_spec fuel s3 l1 p k a n l2 lo hi Hok3 Hlt)|].
    { rewrite !length_app in Hf. cbn in Hf. lia. }
    cbv beta. intros [] s5 (Hok5 & Ho5 & Hm5). split_and!; [done|congruence|].
    intros x Hx. rewrite Hm5; [by apply Hm|]. intros Hin. apply Hx. right.
    exists p, k. split; [rewrite !elem_of_app, list_elem_of_singleton; tauto|].
    pose proof (hp_spaced _ _ _ _ Hok) as Hsp.
    apply (spaced_in _ _ _ p k) in Hsp; [unfold in_range in Hin; slia|].
    rewrite !elem_of_app, list_elem_of_singleton. tauto.
Qed.
