(* ===== verification/HeapProps.v ===== *)
(** * The kernel heap: main theorems *)

From S2P Require Export HeapSpec PagingProps.

Lemma align_up_mod8 x : ALIGN_UP x 8 mod 8 = 0.
Proof.
  unfold ALIGN_UP, w64. rewrite (Z.mod_small 8) by lia.
  change (2 ^ 64) with (2 ^ 61 * 8). rewrite Z.mul_mod_distr_r by lia. by apply Z.mod_mul.
Qed.

Lemma ff_alloc_none size l a n : ff_alloc size l = None -> (a, n) ∈ l -> n < size.
Proof.
  induction l as [|[b k] l IH]; [by intros _ ?%not_elem_of_nil|]. cbn [ff_alloc].
  destruct (Z.leb_spec size k).
  - by destruct (_ <=? k).
  - destruct (ff_alloc size l) as [[? ?]|]; [done|]. intros _ [[= -> ->]|Hin]%elem_of_cons;
      [lia|by apply IH].
Qed.

Lemma kmalloc_block_spec fuel size l lo hi s :
  heap_ok s l lo hi -> 0 < size -> size + 8 < 2 ^ 64 -> (length l < fuel)%nat ->
  wp (kmalloc fuel size) (fun r s' =>
    (r = NULL /\ s' = s /\ forall a n, (a, n) ∈ l -> n < ALIGN_UP size 8) \/
    (exists a n l', r = a + sizeof_block /\ size <= n /\ block_size (mem s') a = n /\
       heap_ok s' l' lo hi /\ lo <= a /\ a + sizeof_block + n <= hi /\ apart (a, n) l' /\
       (forall x, a <= x < a + sizeof_block + n -> covered l x) /\
       free_bytes l = sizeof_block + n + free_bytes l' /\ (coalesced l -> coalesced l') /\
       heap_others s' = heap_others s /\ agree_outside (covered l) (mem s) (mem s') /\
       (length l' <= length l)%nat)) s.
Proof.
  intros Hok Hs Hb Hf.
  destruct (align_up_spec size 8) as [_ Hal]; [lia..|].
  eapply wp_mono.
  { apply (kmalloc_spec fuel size l lo hi s); [done|lia|apply align_up_mod8|done]. }
  intros r s'. unfold kmalloc_post.
  destruct (ff_alloc (ALIGN_UP size 8) l) as [[[a n] l']|] eqn:He.
  - intros (-> & Hok' & Hn & Ho & Hm). right. exists a, n, l'.
    destruct (ff_alloc_spec lo l hi (ALIGN_UP size 8) a n l' (hp_spaced _ _ _ _ Hok) ltac:(lia) He)
      as (G1 & G2 & G3 & G4 & G5 & G6).
    split_and!; try done; [lia| |by intros x Hx; apply G6| |by apply (ff_alloc_length _ _ _ _ He)].
    + apply (ff_alloc_apart lo l hi (ALIGN_UP size 8)); [apply Hok|lia|done].
    + intros Hc. apply (ff_alloc_coalesced lo hi (ALIGN_UP size 8) l (a, n));
        [apply Hok|lia|done|done].
  - intros [-> ->]. left. split_and!; [done..|]. intros a n. by apply ff_alloc_none.
Qed.

(** C10: [kmalloc] on a well-formed heap: NULL when no free block is large enough,
    and then nothing has changed; otherwise a block of at least [size] bytes that
    was free and overlaps no block that still is.  No byte is lost (headers
    included), the heap stays well-formed, and nothing outside the free blocks is
    written. *)
Theorem kmalloc_correct fuel size l lo hi s :
  heap_ok s l lo hi -> 0 < size -> size + 8 < 2 ^ 64 -> (length l < fuel)%nat ->
  wp (kmalloc fuel size) (fun r s' =>
    (r = NULL /\ s' = s /\ forall a n, (a, n) ∈ l -> n < ALIGN_UP size 8) \/
    (exists a n l', r = a + sizeof_block /\ size <= n /\ block_size (mem s') a = n /\
       heap_ok s' l' lo hi /\ lo <= a /\ a + sizeof_block + n <= hi /\ apart (a, n) l' /\
       (forall x, a <= x < a + sizeof_block + n -> covered l x) /\
       free_bytes l = sizeof_block + n + free_bytes l' /\ (coalesced l -> coalesced l') /\
       heap_others s' = heap_others s /\ agree_outside (covered l) (mem s) (mem s'))) s.
Proof.
  intros Hok Hs Hb Hf. eapply wp_mono; [by apply kmalloc_block_spec|].
  intros r s' [?|(a & n & l' & H1 & H2 & H3 & H4 & H5 & H6 & H7 & H8 & H9 & H10 & H11 & H12 & _)];
    [by left|right; by exists a, n, l'].
Qed.

(** C11: [kfree] of an allocated block (given by its header [a], disjoint from the
    free ones) makes exactly its bytes free, merges it with touching neighbours,
    keeps the heap well-formed and writes only to free memory. *)
Theorem kfree_correct fuel s l a n lo hi :
  heap_ok s l lo hi -> block_size (mem s) a = n -> 0 <= n -> lo <= a ->
  a + sizeof_block + n <= hi -> apart (a, n) l -> (length l < fuel)%nat ->
  wp (kfree fuel (a + sizeof_block)) (fun _ s' => exists l',
    heap_ok s' l' lo hi /\ free_bytes l' = sizeof_block + n + free_bytes l /\
    (coalesced l -> coalesced l') /\
    (forall x, covered l' x <-> a <= x < a + sizeof_block + n \/ covered l x) /\
    heap_others s' = heap_others s /\
    agree_outside (fun x => a <= x < a + sizeof_block + n \/ covered l x) (mem s) (mem s')) s.
Proof.
  intros Hok Hsz Hn Hlo Hhi Hap Hf. eapply wp_mono; [by apply (kfree_spec fuel s l a n lo hi)|].
  intros [] s' (Hok' & Ho & Hm). exists (ff_free (a, n) l).
  destruct (ff_free_spec lo hi (a, n) l (hp_spaced _ _ _ _ Hok) Hlo Hn Hhi Hap) as (_ & G2 & G3).
  split_and!; try done. intros Hc.
  by apply (ff_free_coalesced lo hi (a, n) l (hp_spaced _ _ _ _ Hok) Hlo Hn Hhi Hap).
Qed.

(** C12: freeing what [kmalloc] just returned restores the free list, block for
    block, provided no two free blocks touch (which [kfree] maintains). *)
Theorem kmalloc_kfree_roundtrip fuel size l lo hi s :
  heap_ok s l lo hi -> coalesced l -> 0 < size -> size + 8 < 2 ^ 64 -> (length l < fuel)%nat ->
  wp (p <- kmalloc fuel size ;; kfree fuel p)
    (fun _ s' => heap_ok s' l lo hi /\ heap_others s' = heap_others s /\
       agree_outside (covered l) (mem s) (mem s')) s.
Proof.
  intros Hok Hc Hs Hb Hf. destruct (align_up_spec size 8) as [_ Hal]; [lia..|].
  wp_step. eapply wp_mono.
  { apply (kmalloc_spec fuel size l lo hi s); [done|lia|apply align_up_mod8|done]. }
  intros r s'. unfold kmalloc_post.
  destruct (ff_alloc (ALIGN_UP size 8) l) as [[[a n] l']|] eqn:He.
  - intros (-> & Hok' & Hn & Ho & Hm).
    destruct (ff_alloc_spec lo l hi (ALIGN_UP size 8) a n l' (hp_spaced _ _ _ _ Hok) ltac:(lia) He)
      as (G1 & G2 & G3 & G4 & G5 & G6).
    pose proof (ff_alloc_length _ _ _ _ He) as Hlen.
    pose proof (ff_alloc_apart lo l hi (ALIGN_UP size 8) _ _ (hp_spaced _ _ _ _ Hok) ltac:(lia) He) as Hap.
    eapply wp_mono; [apply (kfree_spec fuel s' l' a n lo hi); (done || lia)|].
    intros [] s2 (Hok2 & Ho2 & Hm2).
    rewrite (ff_alloc_free lo hi (ALIGN_UP size 8) l (a, n) l' (hp_spaced _ _ _ _ Hok) Hc ltac:(lia) He) in Hok2.
    split_and!; [done|congruence|]. intros x Hx. rewrite Hm2, Hm; [done|done|].
    intros [Hin|Hin]; apply Hx; [by apply G6|].
    by apply (ff_alloc_covered (ALIGN_UP size 8) _ _ _ x ltac:(lia) He).
  - intros [-> ->]. cbn. split_and!; [done..|apply agree_outside_refl].
Qed.

(** [kmalloc] of a size in the last seven bytes of [size_t] does not fail: the
    size wraps to zero, and the first free block is split into a block of no bytes
    at all, which is returned. *)
Theorem kmalloc_overflow fuel size a n l lo hi s :
  heap_ok s ((a, n) :: l) lo hi -> 2 ^ 64 - 8 < size < 2 ^ 64 -> 2 * sizeof_block <= n ->
  (S (length l) < fuel)%nat ->
  wp (kmalloc fuel size) (fun r s' => r = a + sizeof_block /\ block_size (mem s') a = 0) s.
Proof.
  intros Hok Hs Hn Hf.
  assert (Hz : ALIGN_UP size 8 = 0).
  { unfold ALIGN_UP, DIV_ROUND_UP. rewrite (w64_id size), (w64_id 8), (w64_id (8 - 1)) by lia.
    replace (w64 (size + (8 - 1))) with (size + 7 - 2 ^ 64).
    - by rewrite (Z.div_small (size + 7 - 2 ^ 64)) by lia.
    - unfold w64. apply Z.mod_unique with 1; lia. }
  eapply wp_mono.
  { apply (kmalloc_spec fuel size ((a, n) :: l) lo hi s); [done|lia|apply align_up_mod8|done]. }
  intros r s'. unfold kmalloc_post. rewrite Hz. cbn [ff_alloc].
  destruct (hp_spaced _ _ _ _ Hok) as (_ & Hn0 & _).
  destruct (Z.leb_spec 0 n); [|lia]. destruct (Z.leb_spec (0 + 2 * sizeof_block) n); [|lia].
  by intros (-> & _ & -> & _).
Qed.

(** ** A heap of one page with one free block, and an allocated block behind it *)

Definition heap0 : machine :=
  set_heap (Heap 0x1000 0x1000)
    (wr 0x2000 48 (wr 0x1000 4080 (wr 0x1008 NULL boot0))).

Lemma heap0_ok : heap_ok heap0 [(0x1000, 4080)] 0x1000 0x3000.
Proof.
  split.
  - lia.
  - cbn. unfold sizeof_block. lia.
  - cbn [seg]. split_and!; [reflexivity|lia|vm_compute; reflexivity|vm_compute; reflexivity].
Qed.

Lemma heap0_apart : apart (0x2000, 48) [(0x1000, 4080)].
Proof. intros a n [= -> ->]%list_elem_of_singleton. right. unfold sizeof_block. cbn. lia. Qed.

Lemma kmalloc_correct_witness :
  heap_ok heap0 [(0x1000, 4080)] 0x1000 0x3000 /\
  wp (kmalloc 2 100) (fun r s' =>
    (r = NULL /\ s' = heap0 /\ forall a n, (a, n) ∈ [(0x1000, 4080)] -> n < ALIGN_UP 100 8) \/
    (exists a n l', r = a + sizeof_block /\ 100 <= n /\ block_size (mem s') a = n /\
       heap_ok s' l' 0x1000 0x3000 /\ 0x1000 <= a /\ a + sizeof_block + n <= 0x3000 /\
       apart (a, n) l' /\
       (forall x, a <= x < a + sizeof_block + n -> covered [(0x1000, 4080)] x) /\
       free_bytes [(0x1000, 4080)] = sizeof_block + n + free_bytes l' /\
       (coalesced [(0x1000, 4080)] -> coalesced l') /\
       heap_others s' = heap_others heap0 /\
       agree_outside (covered [(0x1000, 4080)]) (mem heap0) (mem s'))) heap0.
Proof.
  split; [exact heap0_ok|]. apply kmalloc_correct; [exact heap0_ok|lia|lia|cbn; lia].
Defined.

Lemma kfree_correct_witness :
  apart (0x2000, 48) [(0x1000, 4080)] /\
  wp (kfree 2 (0x2000 + sizeof_block)) (fun _ s' => exists l',
    heap_ok s' l' 0x1000 0x3000 /\ free_bytes l' = sizeof_block + 48 + free_bytes [(0x1000, 4080)] /\
    (coalesced [(0x1000, 4080)] -> coalesced l') /\
    (forall x, covered l' x <-> 0x2000 <= x < 0x2000 + sizeof_block + 48 \/
       covered [(0x1000, 4080)] x) /\
    heap_others s' = heap_others heap0 /\
    agree_outside (fun x => 0x2000 <= x < 0x2000 + sizeof_block + 48 \/
       covered [(0x1000, 4080)] x) (mem heap0) (mem s')) heap0.
Proof.
  split; [exact heap0_apart|].
  apply kfree_correct; [exact heap0_ok|vm_compute; reflexivity|lia|lia|unfold sizeof_block; lia
    |exact heap0_apart|cbn; lia].
Defined.

Lemma kmalloc_kfree_roundtrip_witness :
  result_of (kmalloc 2 100 heap0) = Some 0x1010 /\
  wp (p <- kmalloc 2 100 ;; kfree 2 p)
    (fun _ s' => heap_ok s' [(0x1000, 4080)] 0x1000 0x3000 /\
       heap_others s' = heap_others heap0 /\
       agree_outside (covered [(0x1000, 4080)]) (mem heap0) (mem s')) heap0.
Proof.
  split; [vm_compute; reflexivity|].
  apply kmalloc_kfree_roundtrip; [exact heap0_ok|exact I|lia|lia|cbn; lia].
Defined.

Lemma kmalloc_overflow_witness :
  wp (kmalloc 3 (2 ^ 64 - 1)) (fun r s' =>
    r = 0x1000 + sizeof_block /\ block_size (mem s') 0x1000 = 0) heap0.
Proof.
  apply (kmalloc_overflow 3 (2 ^ 64 - 1) 0x1000 4080 [] 0x1000 0x3000);
    [exact heap0_ok|lia|unfold sizeof_block; lia|cbn; lia].
Defined.
