(* ===== verification/Sched.v ===== *)
(** * sys/sched.h and sys/sched.c: the per-CPU round-robin scheduler

    Each CPU has an array of [PROC_MAX_PROCS_PER_CPU] pointers to process control
    blocks, the first [count] of them in use.  The blocks come from [kmalloc]; the
    model keeps their contents in [pcbs], by address.  [fuel] bounds the loops over
    region lists and the free list of the heap. *)

From S2P Require Export Heap.

Definition PROC_DEFAULT_TIME : Z := 1.
Definition PROC_MAX_PROCS_PER_CPU : Z := 512.
Definition sizeof_pcb : Z := 272.
Definition sizeof_ptr : Z := 8.

(** ** State *)

Definition no_sched : cpu_sched_t := CpuSched NULL [] 0 0 0.

Definition sched_at (i : Z) (s : machine) : cpu_sched_t :=
  default no_sched (cpu_schedulers (sched s) !! Z.to_nat i).

Definition set_sched_at (i : Z) (c : cpu_sched_t) (s : machine) : machine :=
  let d := sched s in
  set_sched (Sched (<[Z.to_nat i := c]> (cpu_schedulers d)) (pcbs d)
               (global_pid_counter d) (cpu_index d)) s.

Definition set_pcbs (p : gmap Z pcb_t) (s : machine) : machine :=
  let d := sched s in
  set_sched (Sched (cpu_schedulers d) p (global_pid_counter d) (cpu_index d)) s.

(** [get_cpu_local()->cpu_index]. *)
Definition this_cpu (s : machine) : Z := cpu_index (sched s).

Definition pcb_at (s : machine) (p : Z) : pcb_t := default zero_pcb (pcbs (sched s) !! p).

Definition update_pcb (p : Z) (f : pcb_t -> pcb_t) : K unit :=
  modify (fun s => set_pcbs (<[p := f (pcb_at s p)]> (pcbs (sched s))) s).

Definition update_sched (i : Z) (f : cpu_sched_t -> cpu_sched_t) : K unit :=
  modify (fun s => set_sched_at i (f (sched_at i s)) s).

Definition with_procs (l : list Z) (c : cpu_sched_t) : cpu_sched_t :=
  CpuSched (procs_at c) l (count c) (current_pid c) (s_lock c).
Definition with_count (n : Z) (c : cpu_sched_t) : cpu_sched_t :=
  CpuSched (procs_at c) (procs c) n (current_pid c) (s_lock c).
Definition with_current (n : Z) (c : cpu_sched_t) : cpu_sched_t :=
  CpuSched (procs_at c) (procs c) (count c) n (s_lock c).
Definition with_lock (l : spinlock_t) (c : cpu_sched_t) : cpu_sched_t :=
  CpuSched (procs_at c) (procs c) (count c) (current_pid c) l.

Definition with_state (st : proc_state_t) (p : pcb_t) : pcb_t :=
  Pcb (p_pid p) st (p_timeslice p) (p_pagemap p) (p_vctx p) (p_ctx p) (p_exit_code p)
    (p_errno p) (p_user p).
Definition with_timeslice (t : Z) (p : pcb_t) : pcb_t :=
  Pcb (p_pid p) (p_state p) t (p_pagemap p) (p_vctx p) (p_ctx p) (p_exit_code p)
    (p_errno p) (p_user p).
Definition with_ctx (c : register_ctx) (p : pcb_t) : pcb_t :=
  Pcb (p_pid p) (p_state p) (p_timeslice p) (p_pagemap p) (p_vctx p) c (p_exit_code p)
    (p_errno p) (p_user p).
Definition with_exit_code (c : Z) (p : pcb_t) : pcb_t :=
  Pcb (p_pid p) (p_state p) (p_timeslice p) (p_pagemap p) (p_vctx p) (p_ctx p) c
    (p_errno p) (p_user p).
Definition with_errno (e : Z) (p : pcb_t) : pcb_t :=
  Pcb (p_pid p) (p_state p) (p_timeslice p) (p_pagemap p) (p_vctx p) (p_ctx p)
    (p_exit_code p) e (p_user p).

(** [procs[i]], NULL for an index past the array. *)
Definition proc_get (c : cpu_sched_t) (i : Z) : Z := default NULL (procs c !! Z.to_nat i).
Definition proc_set (i v : Z) (c : cpu_sched_t) : cpu_sched_t :=
  with_procs (<[Z.to_nat i := v]> (procs c)) c.

Definition sched_acquire (i : Z) : K unit :=
  acquire (fun s => s_lock (sched_at i s))
    (fun l s => set_sched_at i (with_lock l (sched_at i s)) s).
Definition sched_release (i : Z) : K unit :=
  release (fun s => s_lock (sched_at i s))
    (fun l s => set_sched_at i (with_lock l (sched_at i s)) s).

(** [lock xadd]: the counter is incremented, its old value returned. *)
Definition atomic_inc_fetch : K Z := fun s =>
  let d := sched s in
  Ret (global_pid_counter d)
    (set_sched (Sched (cpu_schedulers d) (pcbs d) (w32 (global_pid_counter d + 1))
                  (cpu_index d)) s).

Section Sched.
Context {FA : FrameAlloc}.

(** ** Sharing mappings *)

Definition map_range_to_pagemap (dest_pagemap src_pagemap start size flags : Z) : K unit :=
  for_loop (iters 0 size PAGE_SIZE) 0 PAGE_SIZE (fun offset =>
    s <- get ;;
    let phys := virt_to_phys s src_pagemap (w64 (start + offset)) in
    when (negb (phys =? 0)) (vmap dest_pagemap (w64 (start + offset)) phys flags ;;; ret tt)).

(** The loop of [sched_spawn] over the regions of the kernel's context. *)
Fixpoint map_kernel_regions (fuel : nat) (pagemap region flags : Z) : K unit :=
  match fuel with
  | O => out_of_fuel
  | S fuel' =>
      if region =? NULL then ret tt else
      s <- get ;;
      map_range_to_pagemap pagemap (kernel_pagemap (paging s)) (region_start (mem s) region)
        (w64 (region_pages (mem s) region * PAGE_SIZE)) flags ;;;
      s <- get ;;
      map_kernel_regions fuel' pagemap (region_next (mem s) region) flags
  end.

(** ** sched_init *)

Definition sched_init (fuel : nat) : K unit :=
  i <- gets this_cpu ;;
  p <- kmalloc fuel (sizeof_ptr * PROC_MAX_PROCS_PER_CPU) ;;
  update_sched i (fun c => CpuSched p (procs c) (count c) (current_pid c) (s_lock c)) ;;;
  if p =? NULL then kpanic else
  update_sched i (fun _ =>
    CpuSched p (replicate (Z.to_nat PROC_MAX_PROCS_PER_CPU) NULL) 0 0 spinlock_init).

(** ** sched_spawn *)

(** The process control block as [sched_spawn] fills it in before the stack. *)
Definition new_pcb (user : bool) (entry pid pagemap vctx : Z) : pcb_t :=
  let c := zero_ctx in
  let cs := if user then 0x1B else 0x08 in
  let ss := if user then 0x23 else 0x10 in
  Pcb pid PROC_READY 0 pagemap vctx
    (RegisterCtx (r_es c) (r_ds c) (r_cr4 c) (r_cr3 c) (r_cr2 c) (r_cr0 c)
       (r_r15 c) (r_r14 c) (r_r13 c) (r_r12 c) (r_r11 c) (r_r10 c) (r_r9 c) (r_r8 c)
       (r_rsi c) (r_rdi c) (r_rbp c) (r_rdx c) (r_rcx c) (r_rbx c) (r_rax c)
       (r_vector c) (r_err c) entry cs (r_rflags c) (r_rsp c) ss) 0 0 user.

Definition with_stack (rsp rflags : Z) (p : pcb_t) : pcb_t :=
  let c := p_ctx p in
  with_ctx (RegisterCtx (r_es c) (r_ds c) (r_cr4 c) (r_cr3 c) (r_cr2 c) (r_cr0 c)
       (r_r15 c) (r_r14 c) (r_r13 c) (r_r12 c) (r_r11 c) (r_r10 c) (r_r9 c) (r_r8 c)
       (r_rsi c) (r_rdi c) (r_rbp c) (r_rdx c) (r_rcx c) (r_rbx c) (r_rax c)
       (r_vector c) (r_err c) (r_rip c) (r_cs c) rflags rsp (r_ss c)) p.

Definition sched_spawn (fuel : nat) (user : bool) (entry pagemap vctx : Z) : K Z :=
  i <- gets this_cpu ;;
  sched_acquire i ;;;
  s <- get ;;
  if PROC_MAX_PROCS_PER_CPU <=? count (sched_at i s) then sched_release i ;;; kpanic else
  proc <- kmalloc fuel sizeof_pcb ;;
  if proc =? NULL then sched_release i ;;; kpanic else
  pid <- atomic_inc_fetch ;;
  s <- get ;;
  let pagemap := if pagemap =? NULL then kernel_pagemap (paging s) else pagemap in
  vctx <- (if vctx =? NULL then vinit pagemap 0x10000 else ret vctx) ;;
  let stack_size := 4 in
  let map_flags := Z.lor (Z.lor VMM_PRESENT VMM_WRITE) (if user then VMM_USER else 0) in
  update_pcb proc (fun _ => new_pcb user entry pid pagemap vctx) ;;;
  stack <- valloc fuel vctx stack_size map_flags ;;
  if stack =? NULL then
    kfree fuel proc ;;;
    modify (fun s => set_pcbs (delete proc (pcbs (sched s))) s) ;;;
    update_sched i (fun c => with_count (w32 (count c - 1)) c) ;;;
    sched_release i ;;; kpanic
  else
  update_pcb proc (with_stack (w64 (stack + PAGE_SIZE * stack_size)) 0x202) ;;;
  s <- get ;;
  vmap pagemap proc (virt_to_phys s (kernel_pagemap (paging s)) proc) map_flags ;;;
  s <- get ;;
  map_range_to_pagemap pagemap (kernel_pagemap (paging s)) (procs_at (sched_at i s))
    (sizeof_ptr * PROC_MAX_PROCS_PER_CPU) map_flags ;;;
  s <- get ;;
  map_kernel_regions fuel pagemap (ctx_root (mem s) (kvm_ctx s)) map_flags ;;;
  update_pcb proc (with_timeslice PROC_DEFAULT_TIME) ;;;
  update_sched i (fun c => with_count (w32 (count c + 1)) (proc_set (count c) proc c)) ;;;
  sched_release i ;;;
  gets (fun s => p_pid (pcb_at s proc)).

(** ** sched_tick *)

(** [for (i = current_pid; i < count - 1; i++) procs[i] = procs[i + 1];] *)
Definition shift_down (c : cpu_sched_t) : cpu_sched_t :=
  for_pure (Z.to_nat (w32 (count c - 1) - current_pid c)) (current_pid c) 1
    (fun k c => proc_set k (proc_get c (k + 1)) c) c.

(** Destroying a terminated process and closing the gap it leaves. *)
Definition reap (fuel : nat) (i proc : Z) : K unit :=
  s <- get ;;
  vdestroy fuel (p_vctx (pcb_at s proc)) ;;;
  vunmap (p_pagemap (pcb_at s proc)) proc ;;;
  kfree fuel proc ;;;
  modify (fun s => set_pcbs (delete proc (pcbs (sched s))) s) ;;;
  update_sched i shift_down ;;;
  update_sched i (fun c => proc_set (w32 (count c - 1)) NULL c) ;;;
  update_sched i (fun c => with_count (w32 (count c - 1)) c).

(** The [do ... while] that looks for the next process. *)
Fixpoint tick_search (rounds fuel : nat) (i start_pid : Z) : K Z :=
  match rounds with
  | O => out_of_fuel
  | S rounds' =>
      update_sched i (fun c =>
        with_current (w32 (current_pid c + 1) mod PROC_MAX_PROCS_PER_CPU) c) ;;;
      s <- get ;;
      let next_proc := proc_get (sched_at i s) (current_pid (sched_at i s)) in
      next_proc <-
        (if negb (next_proc =? NULL) && bool_decide (p_state (pcb_at s next_proc) = PROC_TERMINATED)
         then reap fuel i next_proc ;;; ret NULL
         else ret next_proc) ;;
      s <- get ;;
      if (next_proc =? NULL) && negb (current_pid (sched_at i s) =? start_pid)
         && (0 <? count (sched_at i s))
      then tick_search rounds' fuel i start_pid
      else ret next_proc
  end.

(** The running process has used up a tick. *)
Definition charge (proc : Z) (ctx : register_ctx) : K unit :=
  update_pcb proc (with_ctx ctx) ;;;
  update_pcb proc (fun p => with_timeslice (w64 (p_timeslice p - 1)) p) ;;;
  s <- get ;;
  when (p_timeslice (pcb_at s proc) =? 0)
    (update_pcb proc (with_state PROC_READY) ;;;
     update_pcb proc (with_timeslice PROC_DEFAULT_TIME)).

(** [ctx] is the register frame of the interrupt, [None] for a null pointer; the
    result is the frame that the interrupt returns to. *)
Definition sched_tick (fuel : nat) (ctx : option register_ctx) : K (option register_ctx) :=
  match ctx with
  | None => ret None
  | Some regs =>
      i <- gets this_cpu ;;
      sched_acquire i ;;;
      s <- get ;;
      if count (sched_at i s) =? 0 then
        sched_release i ;;; pmset (kernel_pagemap (paging s)) ;;; ret (Some regs)
      else
      let current := proc_get (sched_at i s) (current_pid (sched_at i s)) in
      when (negb (current =? NULL) && bool_decide (p_state (pcb_at s current) = PROC_RUNNING))
        (charge current regs) ;;;
      next_proc <- tick_search (Z.to_nat PROC_MAX_PROCS_PER_CPU) fuel i
        (current_pid (sched_at i s)) ;;
      s <- get ;;
      next_proc <-
        (if (next_proc =? NULL) && (0 <? count (sched_at i s)) then
           update_sched i (with_current 0) ;;; ret (proc_get (sched_at i s) 0)
         else ret next_proc) ;;
      s <- get ;;
      if negb (next_proc =? NULL) && bool_decide (p_state (pcb_at s next_proc) = PROC_READY) then
        update_pcb next_proc (with_state PROC_RUNNING) ;;;
        pmset (p_pagemap (pcb_at s next_proc)) ;;;
        sched_release i ;;;
        ret (Some (p_ctx (pcb_at s next_proc)))
      else if count (sched_at i s) =? 0 then
        sched_release i ;;; pmset (kernel_pagemap (paging s)) ;;; hang
      else sched_release i ;;; ret (Some regs)
  end.

(** ** Ending a process *)

(** The index of the first process in use with the PID. *)
Fixpoint find_pid (n : nat) (k : Z) (c : cpu_sched_t) (pcb : Z -> pcb_t) (pid : Z) : option Z :=
  match n with
  | O => None
  | S n' =>
      if negb (proc_get c k =? NULL) && (p_pid (pcb (proc_get c k)) =? pid) then Some k
      else find_pid n' (k + 1) c pcb pid
  end.

(** [dummy_ctx] is uninitialised in the code, an argument here. *)
Definition sched_terminate (fuel : nat) (dummy_ctx : register_ctx) (pid : Z) : K unit :=
  i <- gets this_cpu ;;
  sched_acquire i ;;;
  s <- get ;;
  match find_pid (Z.to_nat (count (sched_at i s))) 0 (sched_at i s) (pcb_at s) pid with
  | Some k =>
      update_pcb (proc_get (sched_at i s) k) (with_state PROC_TERMINATED) ;;;
      when (k =? current_pid (sched_at i s))
        (sched_tick fuel (Some dummy_ctx) ;;; ret tt)
  | None => ret tt
  end ;;;
  sched_release i.

Definition proc_exit (fuel : nat) (dummy_ctx : register_ctx) (code : Z) : K unit :=
  i <- gets this_cpu ;;
  sched_acquire i ;;;
  s <- get ;;
  let current := proc_get (sched_at i s) (current_pid (sched_at i s)) in
  when (negb (current =? NULL))
    (update_pcb current (with_exit_code code) ;;;
     sched_release i ;;;
     s <- get ;;
     sched_terminate fuel dummy_ctx (p_pid (pcb_at s current))) ;;;
  sched_release i.
End Sched.

(** ** Looking processes up *)

Definition sched_get_current (s : machine) : Z :=
  let i := this_cpu s in
  if MAX_CPUS <=? i then NULL else
  let c := sched_at i s in
  if count c =? 0 then NULL
  else if count c <=? current_pid c then NULL
  else proc_get c (current_pid c).

(** The loop over the CPUs, from CPU [i] on; each lock is taken and released. *)
Fixpoint find_pcb_from (n : nat) (i pid : Z) : K Z :=
  match n with
  | O => ret NULL
  | S n' =>
      sched_acquire i ;;;
      s <- get ;;
      let c := sched_at i s in
      match find_pid (Z.to_nat (count c)) 0 c (pcb_at s) pid with
      | Some k => sched_release i ;;; ret (proc_get c k)
      | None => sched_release i ;;; find_pcb_from n' (i + 1) pid
      end
  end.

Definition sched_find_pcb (pid : Z) : K Z := find_pcb_from (Z.to_nat MAX_CPUS) 0 pid.
