(* ===== verification/SchedSpec.v ===== *)
(** * The scheduler as a round robin

    [rr] is the abstract scheduler: the processes in order, the one that runs, and
    the registers of the others.  [rr_rel] relates it to the state of a CPU's
    scheduler; a tick of sys/sched.c is a step of [rr] ([sched_tick_spec]). *)

From S2P Require Export Sched.

Record rr := RR {
  rr_procs : list Z;
  rr_cur : nat;
  rr_saved : gmap Z register_ctx }.

Definition rr_current (a : rr) : Z := default NULL (rr_procs a !! rr_cur a).
Definition rr_next (a : rr) : nat := (S (rr_cur a) mod length (rr_procs a))%nat.

(** The current process's registers are saved, the next one's restored. *)
Definition rr_tick (regs : register_ctx) (a : rr) : register_ctx * rr :=
  let saved := <[rr_current a := regs]> (rr_saved a) in
  let a' := RR (rr_procs a) (rr_next a) saved in
  (default zero_ctx (saved !! rr_current a'), a').

Section CpuState.
Context (i : Z).

(** CPU [i] is among the [MAX_CPUS] schedulers. *)
Definition cpu_known (s : machine) : Prop := (Z.to_nat i < length (cpu_schedulers (sched s)))%nat.

Lemma sched_at_set c s : cpu_known s -> sched_at i (set_sched_at i c s) = c.
Proof. intros H. unfold sched_at. cbn. by rewrite list_lookup_insert_eq. Qed.

Lemma cpu_known_set c s : cpu_known (set_sched_at i c s) <-> cpu_known s.
Proof. unfold cpu_known. cbn. by rewrite length_insert. Qed.

Lemma set_sched_at_twice c c' s :
  set_sched_at i c' (set_sched_at i c s) = set_sched_at i c' s.
Proof. unfold set_sched_at. cbn. by rewrite list_insert_insert_eq. Qed.

Lemma pcb_at_set_sched c p s : pcb_at (set_sched_at i c s) p = pcb_at s p.
Proof. done. Qed.

Lemma sched_at_set_pcbs x s : sched_at i (set_pcbs x s) = sched_at i s.
Proof. done. Qed.

Lemma cpu_known_set_pcbs x s : cpu_known (set_pcbs x s) <-> cpu_known s.
Proof. done. Qed.
End CpuState.

Lemma pcb_at_insert_eq s p v : pcb_at (set_pcbs (<[p := v]> (pcbs (sched s))) s) p = v.
Proof. unfold pcb_at. cbn. by rewrite lookup_insert_eq. Qed.

Lemma pcb_at_insert_ne s p q v :
  p <> q -> pcb_at (set_pcbs (<[p := v]> (pcbs (sched s))) s) q = pcb_at s q.
Proof. intros H. unfold pcb_at. cbn. by rewrite lookup_insert_ne. Qed.

Lemma set_sched_at_self i s : cpu_known i s -> set_sched_at i (sched_at i s) s = s.
Proof.
  unfold cpu_known, set_sched_at, sched_at. intros H.
  destruct (lookup_lt_is_Some_2 _ _ H) as [c Hc]. rewrite Hc. cbn [default id].
  rewrite list_insert_id by done. by destruct s as [? ? ? ? ? ? ? []].
Qed.

(** The state while the lock is held. *)
Definition locked (i : Z) (s : machine) : machine :=
  set_sched_at i (with_lock 1 (sched_at i s)) s.

Lemma sched_at_locked i s : cpu_known i s -> sched_at i (locked i s) = with_lock 1 (sched_at i s).
Proof. apply sched_at_set. Qed.

Lemma sched_acquire_run i s : s_lock (sched_at i s) = 0 -> sched_acquire i s = Ret tt (locked i s).
Proof. intros H. by apply acquire_free. Qed.

Lemma sched_acquire_held i s : s_lock (sched_at i s) <> 0 -> sched_acquire i s = Hang s.
Proof. intros H. by apply acquire_held. Qed.

Lemma sched_release_locked i s :
  cpu_known i s -> s_lock (sched_at i s) = 0 -> sched_release i (locked i s) = Ret tt s.
Proof.
  intros Hk Hl. unfold sched_release, release, modify. f_equal.
  rewrite sched_at_locked by done. unfold locked. rewrite set_sched_at_twice.
  etransitivity; [|exact (set_sched_at_self i s Hk)]. f_equal.
  destruct (sched_at i s). cbn in Hl. subst. done.
Qed.

Lemma bind_run {A B} (m : K A) (f : A -> K B) s a s' :
  m s = Ret a s' -> bind m f s = f a s'.
Proof. unfold bind. by intros ->. Qed.

(** ** The relation *)

(** A page map that [pmset] accepts. *)
Definition pagemap_ok (s : machine) (pm : Z) : Prop :=
  pm <> NULL /\ IS_PAGE_ALIGNED (PHYSICAL (hhdm_offset s) pm) = true.

(** The array holds [l] and then null pointers. *)
Record queue (c : cpu_sched_t) (l : list Z) : Prop := Queue {
  q_procs : procs c = l ++ replicate (Z.to_nat PROC_MAX_PROCS_PER_CPU - length l) NULL;
  q_count : count c = Z.of_nat (length l);
  q_room : (length l <= Z.to_nat PROC_MAX_PROCS_PER_CPU)%nat;
  q_nodup : NoDup l;
  q_null : ~ (NULL ∈ l) }.

(** The process at position [k] of the queue, when position [cur] runs. *)
Definition proc_state_ok (cur k : nat) (p : pcb_t) : Prop :=
  p_state p = (if decide (k = cur) then PROC_RUNNING else PROC_READY) /\
  p_timeslice p = PROC_DEFAULT_TIME.

Record rr_rel (i : Z) (s : machine) (a : rr) : Prop := RrRel {
  rel_cpu : this_cpu s = i;
  rel_known : cpu_known i s;
  rel_lock : s_lock (sched_at i s) = 0;
  rel_queue : queue (sched_at i s) (rr_procs a);
  rel_cur : current_pid (sched_at i s) = Z.of_nat (rr_cur a);
  rel_bound : (rr_cur a < length (rr_procs a))%nat;
  rel_state : forall k p, rr_procs a !! k = Some p -> proc_state_ok (rr_cur a) k (pcb_at s p);
  rel_saved : forall k p, rr_procs a !! k = Some p -> k <> rr_cur a ->
      rr_saved a !! p = Some (p_ctx (pcb_at s p));
  rel_pagemap : forall k p, rr_procs a !! k = Some p -> pagemap_ok s (p_pagemap (pcb_at s p)) }.

Lemma proc_get_in c l k p : queue c l -> l !! k = Some p -> proc_get c (Z.of_nat k) = p.
Proof.
  intros Hq Hk. unfold proc_get. rewrite Nat2Z.id, (q_procs c l Hq), lookup_app_l, Hk; [done|].
  by apply lookup_lt_Some in Hk.
Qed.

Lemma proc_get_out c l k : queue c l -> (length l <= k)%nat -> proc_get c (Z.of_nat k) = NULL.
Proof.
  intros Hq Hk. unfold proc_get. rewrite Nat2Z.id, (q_procs c l Hq), lookup_app_r by done.
  destruct (replicate _ _ !! _) as [x|] eqn:E; [|done]. by apply lookup_replicate in E as [-> _].
Qed.

Lemma queue_not_null c l k p : queue c l -> l !! k = Some p -> p <> NULL.
Proof. intros Hq Hk ->. apply (q_null c l Hq). by apply list_elem_of_lookup_2 in Hk. Qed.

Lemma queue_with_current c l n : queue c l -> queue (with_current n c) l.
Proof. intros []. by split. Qed.

Lemma queue_with_lock c l n : queue c l -> queue (with_lock n c) l.
Proof. intros []. by split. Qed.

(** ** The search *)

(** The state with another process of CPU [i] current. *)
Definition at_current (i k : Z) (s : machine) : machine :=
  set_sched_at i (with_current k (sched_at i s)) s.

Lemma at_current_twice i k k' s :
  cpu_known i s -> at_current i k' (at_current i k s) = at_current i k' s.
Proof.
  intros H. unfold at_current. rewrite sched_at_set by done. by rewrite set_sched_at_twice.
Qed.

Definition next_index (k : Z) : Z := w32 (k + 1) mod PROC_MAX_PROCS_PER_CPU.

Section Search.
Context {FA : FrameAlloc}.
Context (fuel : nat) (i : Z) (l : list Z).

Lemma tick_search_step rounds start s :
  cpu_known i s -> queue (sched_at i s) l ->
  let k := next_index (current_pid (sched_at i s)) in
  let p := proc_get (sched_at i s) k in
  (p <> NULL -> p_state (pcb_at s p) <> PROC_TERMINATED) -> 0 < count (sched_at i s) ->
  tick_search (S rounds) fuel i start s =
    if (p =? NULL) && negb (k =? start) then tick_search rounds fuel i start (at_current i k s)
    else Ret p (at_current i k s).
Proof.
  intros Hk Hq k p Hp Hc. cbn [tick_search]. unfold update_sched, bind, modify, get.
  fold (next_index (current_pid (sched_at i s))). fold k. fold (at_current i k s).
  assert (E : sched_at i (at_current i k s) = with_current k (sched_at i s))
    by (by apply sched_at_set).
  rewrite E. cbn [current_pid count with_current procs].
  change (proc_get (with_current k (sched_at i s)) k) with p.
  change (pcb_at (at_current i k s) p) with (pcb_at s p).
  destruct (Z.eqb_spec p NULL) as [Hn|Hn]; cbn [negb andb].
  - cbn [ret]. unfold ret. rewrite E. cbn [current_pid count with_current].
    destruct (Z.ltb_spec 0 (count (sched_at i s))); [|lia].
    rewrite Hn. cbn [Z.eqb andb]. rewrite andb_true_r. by destruct (negb _).
  - rewrite bool_decide_eq_false_2 by (by apply Hp). unfold ret.
    destruct (Z.eqb_spec p NULL); [done|]. done.
Qed.

Lemma next_index_lt k : 0 <= k -> k + 1 < PROC_MAX_PROCS_PER_CPU -> next_index k = k + 1.
Proof.
  intros H0 H1. unfold next_index, PROC_MAX_PROCS_PER_CPU in *. rewrite w32_id by lia.
  apply Z.mod_small. lia.
Qed.

Lemma next_index_last : next_index (PROC_MAX_PROCS_PER_CPU - 1) = 0.
Proof. reflexivity. Qed.

(** From a position at or past the last process the search runs over the empty
    slots and wraps around to the first process. *)
Lemma tick_search_wrap rounds start s p :
  cpu_known i s -> queue (sched_at i s) l -> l !! 0%nat = Some p ->
  p_state (pcb_at s p) <> PROC_TERMINATED -> 0 <= start < Z.of_nat (length l) ->
  let k := current_pid (sched_at i s) in
  Z.of_nat (length l) - 1 <= k < PROC_MAX_PROCS_PER_CPU ->
  (Z.to_nat (PROC_MAX_PROCS_PER_CPU - k) <= rounds)%nat ->
  tick_search rounds fuel i start s = Ret p (at_current i 0 s).
Proof.
  revert s. induction rounds as [|rounds IH]; intros s Hk Hq H0 Hst Hs k Hkb Hr; [lia|].
  pose proof (lookup_lt_Some _ _ _ H0) as Hlen. pose proof (q_room _ _ Hq) as Hroom.
  assert (Hc : 0 < count (sched_at i s)) by (rewrite (q_count _ _ Hq); lia).
  destruct (decide (k = PROC_MAX_PROCS_PER_CPU - 1)) as [Hl|Hl].
  - pose proof (proc_get_in _ _ 0 p Hq H0) as Hp.
    rewrite tick_search_step; try done; fold k; rewrite Hl, next_index_last;
      change (Z.of_nat 0) with 0 in Hp; rewrite Hp.
    + destruct (Z.eqb_spec p NULL) as [Hn|]; [|done].
      by destruct (queue_not_null _ _ _ _ Hq H0).
    + done.
  - assert (Hn : next_index k = k + 1) by (apply next_index_lt; lia).
    assert (Hp : proc_get (sched_at i s) (k + 1) = NULL).
    { replace (k + 1) with (Z.of_nat (Z.to_nat (k + 1))) by lia.
      apply (proc_get_out _ l); [done|lia]. }
    rewrite tick_search_step; try done; fold k; rewrite Hn, Hp; [|done].
    cbn [Z.eqb]. destruct (Z.eqb_spec (k + 1) start); [lia|]. cbn [negb andb].
    assert (E : sched_at i (at_current i (k + 1) s) = with_current (k + 1) (sched_at i s))
      by (by apply sched_at_set).
    rewrite IH; try done.
    + f_equal. by apply at_current_twice.
    + by apply cpu_known_set.
    + rewrite E. by apply queue_with_current.
    + rewrite E. cbn [current_pid with_current]. lia.
    + rewrite E. cbn [current_pid with_current]. lia.
Qed.

(** The search ends at the next process of the queue. *)
Lemma tick_search_next s k p :
  cpu_known i s -> queue (sched_at i s) l -> current_pid (sched_at i s) = Z.of_nat k ->
  (k < length l)%nat -> l !! (S k mod length l)%nat = Some p ->
  p_state (pcb_at s p) <> PROC_TERMINATED ->
  tick_search (Z.to_nat PROC_MAX_PROCS_PER_CPU) fuel i (Z.of_nat k) s
    = Ret p (at_current i (Z.of_nat (S k mod length l)) s).
Proof.
  intros Hkn Hq Hcur Hk Hp Hst. pose proof (q_room _ _ Hq) as Hroom.
  destruct (decide (S k = length l)) as [He|He].
  - rewrite He, Nat.Div0.mod_same in Hp |- *.
    apply tick_search_wrap; try done; rewrite ?Hcur; lia.
  - rewrite Nat.mod_small in Hp |- * by lia.
    change (Z.to_nat PROC_MAX_PROCS_PER_CPU) with (S 511).
    assert (Hn : next_index (Z.of_nat k) = Z.of_nat (S k)) by (rewrite next_index_lt; lia).
    rewrite (tick_search_step _ _ s Hkn Hq); rewrite ?Hcur, ?Hn, ?(proc_get_in _ l _ p) by done.
    + destruct (Z.eqb_spec p NULL) as [E|]; [|done].
      by destruct (queue_not_null _ _ _ _ Hq Hp).
    + done.
    + rewrite (q_count _ _ Hq). lia.
Qed.
End Search.

(** ** One tick *)

(** The block of the running process after it was charged for its last tick. *)
Definition charged (regs : register_ctx) (p : pcb_t) : pcb_t :=
  with_timeslice PROC_DEFAULT_TIME (with_state PROC_READY (with_ctx regs p)).

Lemma charge_run p regs s :
  p_timeslice (pcb_at s p) = PROC_DEFAULT_TIME ->
  charge p regs s = Ret tt (set_pcbs (<[p := charged regs (pcb_at s p)]> (pcbs (sched s))) s).
Proof.
  intros Ht. unfold charge, update_pcb, bind, modify, get, when.
  set (s1 := set_pcbs (<[p := with_ctx regs (pcb_at s p)]> (pcbs (sched s))) s).
  assert (E1 : pcb_at s1 p = with_ctx regs (pcb_at s p)) by apply pcb_at_insert_eq.
  set (v2 := with_timeslice _ (pcb_at s1 p)). set (s2 := set_pcbs (<[p := v2]> (pcbs (sched s1))) s1).
  assert (E2 : pcb_at s2 p = v2) by apply pcb_at_insert_eq.
  assert (Ez : (p_timeslice (pcb_at s2 p) =? 0) = true).
  { rewrite E2. unfold v2. rewrite E1. cbn [p_timeslice with_timeslice with_ctx]. by rewrite Ht. }
  rewrite Ez. set (v3 := with_state _ (pcb_at s2 p)).
  set (s3 := set_pcbs (<[p := v3]> (pcbs (sched s2))) s2).
  assert (Ev : with_timeslice PROC_DEFAULT_TIME v3 = charged regs (pcb_at s p)).
  { unfold v3. rewrite E2. unfold v2. by rewrite E1. }
  assert (E3 : pcb_at s3 p = v3) by apply pcb_at_insert_eq. rewrite E3, Ev.
  unfold s3, s2, s1, set_pcbs. cbn [sched pcbs set_sched cpu_schedulers
    global_pid_counter cpu_index mem hhdm_offset memmap kvm_ctx pmm paging heap].
  by rewrite !insert_insert_eq.
Qed.

(** What the frame and the state become. *)
Definition ticked (i : Z) (regs : register_ctx) (cu nx : Z) (k : nat) (s : machine) : machine :=
  let s1 := set_pcbs (<[cu := charged regs (pcb_at s cu)]> (pcbs (sched s))) s in
  let s2 := at_current i (Z.of_nat k) s1 in
  let pm := PHYSICAL (hhdm_offset s) (p_pagemap (pcb_at s1 nx)) in
  load_cr3 pm (set_pcbs (<[nx := with_state PROC_RUNNING (pcb_at s1 nx)]> (pcbs (sched s1))) s2).

Lemma pmset_ok pm s :
  pagemap_ok s pm -> pmset pm s = Ret tt (load_cr3 (PHYSICAL (hhdm_offset s) pm) s).
Proof.
  intros [Hn Ha]. unfold pmset, bind, get. rewrite Ha. destruct (Z.eqb_spec pm NULL); done.
Qed.

(** ** Resuming the process that the search found *)

Definition resumed (i p : Z) (s : machine) : machine :=
  let pm := PHYSICAL (hhdm_offset s) (p_pagemap (pcb_at s p)) in
  set_sched_at i (with_lock 0 (sched_at i s))
    (load_cr3 pm (set_pcbs (<[p := with_state PROC_RUNNING (pcb_at s p)]> (pcbs (sched s))) s)).

Lemma resume_run i p s (regs : register_ctx) :
  p <> NULL -> p_state (pcb_at s p) = PROC_READY -> pagemap_ok s (p_pagemap (pcb_at s p)) ->
  (s <- get ;;
   if negb (p =? NULL) && bool_decide (p_state (pcb_at s p) = PROC_READY) then
     update_pcb p (with_state PROC_RUNNING) ;;;
     pmset (p_pagemap (pcb_at s p)) ;;;
     sched_release i ;;;
     ret (Some (p_ctx (pcb_at s p)))
   else if count (sched_at i s) =? 0 then
     sched_release i ;;; pmset (kernel_pagemap (paging s)) ;;; hang
   else sched_release i ;;; ret (Some regs)) s = Ret (Some (p_ctx (pcb_at s p))) (resumed i p s).
Proof.
  intros Hn Hst Hpm. rewrite (bind_run _ _ s s s) by done.
  rewrite (proj2 (Z.eqb_neq _ _) Hn), bool_decide_eq_true_2 by done. cbn [negb andb].
  set (s1 := set_pcbs (<[p := with_state PROC_RUNNING (pcb_at s p)]> (pcbs (sched s))) s).
  rewrite (bind_run _ _ s tt s1) by done.
  rewrite (bind_run _ _ s1 tt _ (pmset_ok (p_pagemap (pcb_at s p)) s1 Hpm)). done.
Qed.

(** The state in which the search begins: locked, the running process [cu] charged. *)
Definition searched (i cu : Z) (regs : register_ctx) (s : machine) : machine :=
  set_pcbs (<[cu := charged regs (pcb_at s cu)]> (pcbs (sched (locked i s)))) (locked i s).

Section Tick.
Context {FA : FrameAlloc}.

Lemma rr_next_lookup i s a : rr_rel i s a -> exists p, rr_procs a !! rr_next a = Some p.
Proof.
  intros H. apply lookup_lt_is_Some_2. apply Nat.mod_upper_bound.
  pose proof (rel_bound _ _ _ H). lia.
Qed.

(** A tick that charges the running process and finds one to resume. *)
Lemma tick_found fuel i s l cur cu regs p s3 :
  this_cpu s = i -> cpu_known i s -> s_lock (sched_at i s) = 0 -> queue (sched_at i s) l ->
  current_pid (sched_at i s) = Z.of_nat cur -> l !! cur = Some cu ->
  p_state (pcb_at s cu) = PROC_RUNNING -> p_timeslice (pcb_at s cu) = PROC_DEFAULT_TIME ->
  tick_search (Z.to_nat PROC_MAX_PROCS_PER_CPU) fuel i (Z.of_nat cur) (searched i cu regs s) = Ret p s3 ->
  p <> NULL -> p_state (pcb_at s3 p) = PROC_READY -> pagemap_ok s3 (p_pagemap (pcb_at s3 p)) ->
  sched_tick fuel (Some regs) s = Ret (Some (p_ctx (pcb_at s3 p))) (resumed i p s3).
Proof.
  intros Hcpu Hk Hlk Hq Hcp Hcu Hrun Hts Hsr Hn Hr Hpm. pose proof (lookup_lt_Some _ _ _ Hcu) as Hlt.
  unfold sched_tick. rewrite (bind_run _ _ s i s) by (by rewrite <- Hcpu).
  rewrite (bind_run _ _ s tt (locked i s)) by (by apply sched_acquire_run).
  rewrite (bind_run _ _ _ (locked i s) (locked i s)), (sched_at_locked i s Hk) by done.
  cbn [count current_pid with_lock]. rewrite (q_count _ _ Hq), (proj2 (Z.eqb_neq _ _)) by lia.
  change (proc_get (with_lock 1 (sched_at i s))) with (proc_get (sched_at i s)).
  rewrite Hcp, (proc_get_in _ _ _ _ Hq Hcu). change (pcb_at (locked i s) cu) with (pcb_at s cu).
  rewrite bool_decide_eq_true_2, (proj2 (Z.eqb_neq cu NULL) (queue_not_null _ _ _ _ Hq Hcu)) by done.
  cbn [negb andb when]. rewrite (bind_run _ _ (locked i s) tt (searched i cu regs s)) by (by apply charge_run).
  rewrite (bind_run _ _ _ p s3 Hsr), (bind_run _ _ s3 s3 s3) by done.
  rewrite (proj2 (Z.eqb_neq _ _) Hn). cbn [negb andb]. rewrite (bind_run _ _ s3 p s3) by done.
  by apply resume_run.
Qed.

Lemma searched_pcb i cu regs s p :
  pcb_at (searched i cu regs s) p = if decide (p = cu) then charged regs (pcb_at s cu) else pcb_at s p.
Proof.
  unfold searched. case_decide as Hp; [subst p; apply (pcb_at_insert_eq (locked i s))|].
  apply (pcb_at_insert_ne (locked i s)). congruence.
Qed.

Lemma searched_sched i cu regs s :
  cpu_known i s -> sched_at i (searched i cu regs s) = with_lock 1 (sched_at i s).
Proof. apply sched_at_locked. Qed.

(** The search leaves [ticked] behind. *)
Lemma resumed_ticked i cu nx regs k s :
  cpu_known i s -> s_lock (sched_at i s) = 0 ->
  resumed i nx (at_current i (Z.of_nat k) (searched i cu regs s)) = ticked i regs cu nx k s.
Proof.
  intros Hk Hl. set (s1 := searched i cu regs s). set (s2 := at_current i (Z.of_nat k) s1).
  assert (E2 : sched_at i s2 = with_current (Z.of_nat k) (with_lock 1 (sched_at i s))).
  { unfold s2, at_current. rewrite sched_at_set by (by apply cpu_known_set).
    f_equal. by apply searched_sched. }
  assert (Ep : pcb_at s2 nx = pcb_at (set_pcbs (<[cu := charged regs (pcb_at s cu)]> (pcbs (sched s))) s) nx) by done.
  unfold resumed. rewrite E2, Ep. unfold ticked.
  set (t1 := set_pcbs (<[cu := charged regs (pcb_at s cu)]> (pcbs (sched s))) s).
  assert (El : with_lock 0 (with_current (Z.of_nat k) (with_lock 1 (sched_at i s))) =
    with_current (Z.of_nat k) (sched_at i s)) by (unfold with_lock, with_current; cbn; by rewrite Hl).
  rewrite El. unfold s2, at_current. change (sched_at i t1) with (sched_at i s).
  unfold s1, searched, t1, locked, set_sched_at, load_cr3, set_pcbs, set_paging, set_sched. cbn.
  by rewrite !list_insert_insert_eq.
Qed.

Lemma ticked_sched i regs cu nx k s :
  cpu_known i s -> sched_at i (ticked i regs cu nx k s) = with_current (Z.of_nat k) (sched_at i s).
Proof.
  intros Hk. unfold ticked.
  set (s1 := set_pcbs (<[cu := charged regs (pcb_at s cu)]> (pcbs (sched s))) s).
  change (sched_at i (load_cr3 ?p (set_pcbs ?x ?t))) with (sched_at i t).
  unfold at_current. rewrite sched_at_set by done. done.
Qed.

Lemma ticked_pcb i regs cu nx k s p :
  let q := if decide (p = cu) then charged regs (pcb_at s cu) else pcb_at s p in
  pcb_at (ticked i regs cu nx k s) p = if decide (p = nx) then with_state PROC_RUNNING q else q.
Proof.
  set (s1 := set_pcbs (<[cu := charged regs (pcb_at s cu)]> (pcbs (sched s))) s).
  assert (E1 : forall r, pcb_at s1 r = if decide (r = cu) then charged regs (pcb_at s cu) else pcb_at s r).
  { intros r. case_decide as Hr; [subst r; apply pcb_at_insert_eq|].
    apply pcb_at_insert_ne. congruence. }
  cbv zeta. rewrite <- (E1 p). unfold ticked. fold s1.
  set (v := with_state PROC_RUNNING (pcb_at s1 nx)).
  change (pcb_at (load_cr3 ?pm (set_pcbs ?x ?t)) p) with (default zero_pcb (x !! p)).
  case_decide as Hp.
  - subst p. by rewrite lookup_insert_eq.
  - rewrite lookup_insert_ne by congruence. done.
Qed.

Lemma sched_tick_run fuel i s a regs cu nx :
  rr_rel i s a -> rr_procs a !! rr_cur a = Some cu -> rr_procs a !! rr_next a = Some nx ->
  let s' := ticked i regs cu nx (rr_next a) s in
  sched_tick fuel (Some regs) s = Ret (Some (p_ctx (pcb_at s' nx))) s'.
Proof.
  intros [Hcpu Hk Hlk Hq Hcur Hb Hst Hsv Hpm] Hcu Hnx s'. set (s1 := searched i cu regs s).
  destruct (Hst _ _ Hcu) as [Hrun Hts]. rewrite decide_True in Hrun by done.
  assert (Hnt : p_state (pcb_at s1 nx) = PROC_READY /\ p_pagemap (pcb_at s1 nx) = p_pagemap (pcb_at s nx)).
  { unfold s1. rewrite searched_pcb. destruct (decide (nx = cu)) as [-> |Hne]; [done|].
    destruct (Hst _ _ Hnx) as [Hr _]. rewrite decide_False in Hr; [done|]. intros He. congruence. }
  destruct Hnt as [Hnr Hnp]. set (s2 := at_current i (Z.of_nat (rr_next a)) s1).
  rewrite (tick_found fuel i s (rr_procs a) (rr_cur a) cu regs nx s2); try done.
  - unfold s2, s1, s'. rewrite resumed_ticked by done. do 2 f_equal.
    change (pcb_at (at_current i ?k ?t) nx) with (pcb_at t nx).
    rewrite searched_pcb, ticked_pcb. by rewrite (decide_True (P := nx = nx)) by done.
  - unfold s2, s1. apply (tick_search_next fuel i (rr_procs a)); try done.
    + by apply cpu_known_set.
    + rewrite searched_sched by done. by apply queue_with_lock.
    + by rewrite searched_sched.
    + fold s1. by rewrite Hnr.
  - by apply (queue_not_null _ _ _ _ Hq Hnx).
  - change (pcb_at s2 nx) with (pcb_at s1 nx). rewrite Hnp. exact (Hpm _ _ Hnx).
Qed.
Lemma ticked_rel i s a regs cu nx :
  rr_rel i s a -> rr_procs a !! rr_cur a = Some cu -> rr_procs a !! rr_next a = Some nx ->
  let s' := ticked i regs cu nx (rr_next a) s in
  rr_rel i s' (rr_tick regs a).2 /\ p_ctx (pcb_at s' nx) = (rr_tick regs a).1.
Proof.
  intros [Hcpu Hk Hlk Hq Hcur Hb Hst Hsv Hpm] Hcu Hnx s'.
  assert (Hcurr : rr_current a = cu) by (unfold rr_current; by rewrite Hcu).
  assert (Huniq : forall k p, rr_procs a !! k = Some p -> (p = cu <-> k = rr_cur a) /\ (p = nx <-> k = rr_next a)).
  { intros k p Hp. pose proof (q_nodup _ _ Hq) as Hnd. split; split; intros ->;
      try (by eapply NoDup_lookup); congruence. }
  assert (Hpc : forall p, p_pagemap (pcb_at s' p) = p_pagemap (pcb_at s p) /\
    p_ctx (pcb_at s' p) = if decide (p = cu) then regs else p_ctx (pcb_at s p)).
  { intros p. unfold s'. rewrite ticked_pcb. repeat case_decide; subst; done. }
  split.
  - split; cbn [rr_tick snd rr_procs rr_cur rr_saved].
    + done.
    + unfold s', ticked. apply cpu_known_set. by apply cpu_known_set_pcbs.
    + unfold s'. by rewrite ticked_sched.
    + unfold s'. rewrite ticked_sched by done. by apply queue_with_current.
    + unfold s'. by rewrite ticked_sched.
    + apply lookup_lt_Some in Hnx. done.
    + intros k p Hp. destruct (Huniq k p Hp) as [Hc Hn]. destruct (Hst k p Hp) as [Hs Ht].
      unfold proc_state_ok, s'. rewrite ticked_pcb, (decide_ext (k = rr_next a) (p = nx)) by tauto.
      rewrite (decide_ext (k = rr_cur a) (p = cu)) in Hs by tauto.
      destruct (decide (p = nx)), (decide (p = cu)); done.
    + intros k p Hp Hkn. destruct (Huniq k p Hp) as [Hc Hn]. rewrite (proj2 (Hpc p)), Hcurr.
      case_decide as Hpc'; [subst p; by rewrite lookup_insert_eq|].
      rewrite lookup_insert_ne by congruence. apply (Hsv k); [done|tauto].
    + intros k p Hp. unfold pagemap_ok. rewrite (proj1 (Hpc p)). exact (Hpm k p Hp).
  - rewrite (proj2 (Hpc nx)). cbn [rr_tick fst]. unfold rr_current at 1. cbn [rr_procs rr_cur].
    rewrite Hnx. cbn [default id]. rewrite Hcurr. change (id nx) with nx. case_decide as E.
    + subst nx. by rewrite lookup_insert_eq.
    + rewrite lookup_insert_ne by congruence. destruct (Huniq _ _ Hnx) as [[_ H1] _].
      by rewrite (Hsv _ _ Hnx) by tauto.
Qed.
End Tick.
