(* ===== verification/SchedProps.v ===== *)
(** * The scheduler: main theorems *)

From S2P Require Export SchedSpec.

(** ** Runs of ticks *)

Fixpoint rr_run (frames : list register_ctx) (a : rr) : list register_ctx * rr :=
  match frames with
  | [] => ([], a)
  | f :: fs => let t := rr_tick f a in let r := rr_run fs t.2 in (t.1 :: r.1, r.2)
  end.

Fixpoint ticks {FA : FrameAlloc} (fuel : nat) (frames : list register_ctx)
    : K (list (option register_ctx)) :=
  match frames with
  | [] => ret []
  | f :: fs =>
      r <- sched_tick fuel (Some f) ;;
      rs <- ticks fuel fs ;;
      ret (r :: rs)
  end.

Lemma rr_run_procs frames a : rr_procs (rr_run frames a).2 = rr_procs a.
Proof. revert a. induction frames as [|f fs IH]; intros a; [done|]. cbn. by rewrite IH. Qed.

(** Position [m] steps ahead of the running process. *)
Definition ahead (a : rr) (m : nat) : nat := ((rr_cur a + m) mod length (rr_procs a))%nat.

(** What the process [m] steps ahead resumes with: its saved registers, or, after a
    full round, the frame with which the round began. *)
Definition resumes (a : rr) (first : register_ctx) (m : nat) : register_ctx :=
  if decide (m = length (rr_procs a)) then first
  else default zero_ctx (rr_saved a !! default NULL (rr_procs a !! ahead a m)).

Lemma ahead_tick f a m :
  (rr_cur a < length (rr_procs a))%nat -> ahead (rr_tick f a).2 m = ahead a (S m).
Proof.
  intros H. unfold ahead. cbn [rr_tick snd rr_procs rr_cur]. unfold rr_next.
  rewrite Nat.Div0.add_mod_idemp_l. f_equal. lia.
Qed.

Lemma ahead_inj a m m' :
  (rr_cur a < length (rr_procs a))%nat -> (m < length (rr_procs a))%nat ->
  (m' < length (rr_procs a))%nat -> ahead a m = ahead a m' -> m = m'.
Proof.
  unfold ahead. set (n := length _). set (c := rr_cur a). intros Hc Hm Hm' He.
  assert (Hw : forall x, (x < n)%nat -> ((c + x) mod n = if decide (c + x < n) then c + x else c + x - n)%nat).
  { intros x Hx. case_decide; [by apply Nat.mod_small|].
    replace (c + x)%nat with (c + x - n + 1 * n)%nat at 1 by lia.
    rewrite Nat.Div0.mod_add. apply Nat.mod_small. lia. }
  rewrite !Hw in He by done. repeat case_decide; lia.
Qed.

(** Registers are kept for the processes that were not reached yet. *)
Lemma saved_ahead f a m :
  NoDup (rr_procs a) -> (rr_cur a < length (rr_procs a))%nat -> (0 < m < length (rr_procs a))%nat ->
  rr_saved (rr_tick f a).2 !! default NULL (rr_procs a !! ahead a m) =
  rr_saved a !! default NULL (rr_procs a !! ahead a m).
Proof.
  intros Hnd Hc Hm. cbn [rr_tick snd rr_saved]. apply lookup_insert_ne.
  unfold rr_current. destruct (lookup_lt_is_Some_2 _ _ Hc) as [p Hp]. rewrite Hp.
  assert (Ha : (ahead a m < length (rr_procs a))%nat) by (apply Nat.mod_upper_bound; lia).
  destruct (lookup_lt_is_Some_2 _ _ Ha) as [q Hq]. rewrite Hq. cbn. intros ->.
  pose proof (NoDup_lookup _ _ _ _ Hnd Hp Hq) as He.
  assert (H0 : ahead a 0 = rr_cur a) by (unfold ahead; rewrite Nat.add_0_r; by apply Nat.mod_small).
  rewrite <- H0 in He. apply ahead_inj in He; lia.
Qed.

(** The [k]-th of a row of ticks, when the current registers of the first were [f0]
    and the first [j] ticks are already over. *)
Lemma rr_run_resumes frames a f0 j k r :
  NoDup (rr_procs a) -> (rr_cur a < length (rr_procs a))%nat ->
  (rr_run frames a).1 !! k = Some r -> (j + k < length (rr_procs a))%nat ->
  (j = 0%nat -> frames !! 0%nat = Some f0) ->
  (0 < j -> rr_saved a !! default NULL (rr_procs a !! ahead a (length (rr_procs a) - j)) = Some f0)%nat ->
  r = if decide (j + S k = length (rr_procs a))%nat then f0
      else default zero_ctx (rr_saved a !! default NULL (rr_procs a !! ahead a (S k))).
Proof.
  revert a j k. induction frames as [|f fs IH]; intros a j k Hnd Hc Hr Hjk Hf0 Hj0; [done|].
  assert (H0 : ahead a 0 = rr_cur a) by (unfold ahead; rewrite Nat.add_0_r; by apply Nat.mod_small).
  destruct k as [|k].
  - cbn [rr_run fst lookup list_lookup] in Hr. injection Hr as <-. cbn [rr_tick fst].
    unfold rr_current at 1. cbn [rr_procs rr_cur].
    assert (Hn : rr_next a = ahead a 1) by (unfold rr_next, ahead; f_equal; lia). rewrite Hn.
    case_decide as Hd.
    + destruct j as [|j].
      * assert (H1 : ahead a 1 = rr_cur a).
        { unfold ahead. replace (length (rr_procs a)) with 1%nat by lia. rewrite Nat.mod_1_r. lia. }
        rewrite H1. fold (rr_current a). rewrite lookup_insert_eq. specialize (Hf0 eq_refl). by injection Hf0.
      * replace (length (rr_procs a) - S j)%nat with 1%nat in Hj0 by lia.
        pose proof (saved_ahead f a 1 Hnd Hc ltac:(lia)) as Hs. cbn [rr_tick snd rr_saved] in Hs.
        rewrite Hs, Hj0 by lia. done.
    + pose proof (saved_ahead f a 1 Hnd Hc ltac:(lia)) as Hs. cbn [rr_tick snd rr_saved] in Hs.
      by rewrite Hs.
  - cbn [rr_run fst lookup list_lookup] in Hr. set (a' := (rr_tick f a).2) in *.
    assert (Hp : rr_procs a' = rr_procs a) by done.
    assert (Hc' : (rr_cur a' < length (rr_procs a'))%nat) by (rewrite Hp; apply Nat.mod_upper_bound; lia).
    assert (Hah : forall m, ahead a' m = ahead a (S m)) by (intros m; by apply ahead_tick).
    assert (Hsv : forall m, (0 < m < length (rr_procs a))%nat ->
      rr_saved a' !! default NULL (rr_procs a !! ahead a m) =
      rr_saved a !! default NULL (rr_procs a !! ahead a m)) by (intros m Hm; by apply saved_ahead).
    rewrite (IH a' (S j) k); try done.
    + rewrite Hp. replace (S j + S k)%nat with (j + S (S k))%nat by lia. case_decide; [done|].
      by rewrite Hah, Hsv by lia.
    + rewrite Hp. lia.
    + intros _. rewrite Hp, Hah.
      replace (S (length (rr_procs a) - S j)) with (length (rr_procs a) - j)%nat by lia.
      destruct j as [|j].
      * assert (He : ahead a (length (rr_procs a) - 0) = rr_cur a).
        { unfold ahead. rewrite Nat.sub_0_r. replace (rr_cur a + length (rr_procs a))%nat
            with (rr_cur a + 1 * length (rr_procs a))%nat by lia.
          rewrite Nat.Div0.mod_add. by apply Nat.mod_small. }
        rewrite He. fold (rr_current a). unfold a'. cbn. rewrite lookup_insert_eq. by apply Hf0.
      * rewrite Hsv by lia. apply Hj0. lia.
Qed.

Section Props.
Context {FA : FrameAlloc}.

(** C20: a timer tick implements one step of the abstract round robin: the frame of
    the interrupt is saved for the running process, the next process of the queue
    becomes the running one, its saved frame is what the interrupt returns to and
    its page map is loaded; memory is not touched, the lock is free again. *)
Theorem sched_tick_refines fuel i s a regs :
  rr_rel i s a ->
  wp (sched_tick fuel (Some regs)) (fun r s' =>
    r = Some (rr_tick regs a).1 /\ rr_rel i s' (rr_tick regs a).2 /\
    cr3 (paging s') =
      PHYSICAL (hhdm_offset s) (p_pagemap (pcb_at s (default NULL (rr_procs a !! rr_next a)))) /\
    mem s' = mem s) s.
Proof.
  intros H. destruct (rr_next_lookup _ _ _ H) as [nx Hnx].
  destruct (lookup_lt_is_Some_2 _ _ (rel_bound _ _ _ H)) as [cu Hcu].
  unfold wp. rewrite (sched_tick_run fuel i s a regs cu nx H Hcu Hnx).
  destruct (ticked_rel i s a regs cu nx H Hcu Hnx) as [Hrel Hctx]. rewrite Hctx, Hnx.
  split_and!; try done. cbn [default id]. unfold ticked.
  set (s1 := set_pcbs (<[cu := charged regs (pcb_at s cu)]> (pcbs (sched s))) s).
  change (cr3 (paging (load_cr3 ?p ?t))) with p. f_equal.
  destruct (decide (nx = cu)) as [-> |Hne]; unfold s1.
  - by rewrite pcb_at_insert_eq.
  - by rewrite pcb_at_insert_ne by congruence.
Qed.

Lemma ticks_spec fuel i frames s a :
  rr_rel i s a ->
  wp (ticks fuel frames) (fun rs s' =>
    rs = Some <$> (rr_run frames a).1 /\ rr_rel i s' (rr_run frames a).2) s.
Proof.
  revert s a. induction frames as [|f fs IH]; intros s a H; [done|]. cbn [ticks rr_run].
  destruct (rr_next_lookup _ _ _ H) as [nx Hnx].
  destruct (lookup_lt_is_Some_2 _ _ (rel_bound _ _ _ H)) as [cu Hcu].
  destruct (ticked_rel i s a f cu nx H Hcu Hnx) as [Hrel Hctx].
  wp_step. unfold wp at 1. rewrite (sched_tick_run fuel i s a f cu nx H Hcu Hnx), Hctx.
  wp_step. eapply wp_mono; [by apply IH|]. cbv beta. intros rs s2 [-> Hrel2]. wp_step. done.
Qed.

(** C22: no process waits for more than one round.  In as many ticks as there are
    processes, each of them is resumed, the one [S k] positions ahead by tick [k];
    it gets exactly the registers saved for it, the process that ran first those it
    was interrupted with; the first process then runs again. *)
Theorem sched_fair fuel i frames f0 s a :
  rr_rel i s a -> length frames = length (rr_procs a) -> frames !! 0%nat = Some f0 ->
  wp (ticks fuel frames) (fun rs s' =>
    (forall k, (k < length frames)%nat -> rs !! k = Some (Some (resumes a f0 (S k)))) /\
    (exists a', rr_rel i s' a' /\ rr_procs a' = rr_procs a) /\
    length rs = length frames) s.
Proof.
  intros H Hlen Hf0. eapply wp_mono; [by apply ticks_spec|]. cbv beta. intros rs s' [-> Hrel].
  assert (Hl : length (rr_run frames a).1 = length frames).
  { clear. revert a. induction frames as [|f fs IH]; intros a; [done|]. cbn. by rewrite IH. }
  split_and!.
  - intros k Hk. rewrite list_lookup_fmap.
    destruct (lookup_lt_is_Some_2 (rr_run frames a).1 k) as [r Hr]; [by rewrite Hl|].
    rewrite Hr. cbn. do 2 f_equal. unfold resumes.
    rewrite (rr_run_resumes frames a f0 0 k r); try done; [..|lia|lia].
    + apply (q_nodup _ _ (rel_queue _ _ _ H)).
    + apply (rel_bound _ _ _ H).
  - eexists. split; [exact Hrel|]. apply rr_run_procs.
  - by rewrite length_fmap.
Qed.

(** without processes a tick only loads the kernel's page map. *)
Theorem sched_tick_idle fuel i s regs :
  this_cpu s = i -> cpu_known i s -> s_lock (sched_at i s) = 0 -> count (sched_at i s) = 0 ->
  pagemap_ok s (kernel_pagemap (paging s)) ->
  wp (sched_tick fuel (Some regs)) (fun r s' => r = Some regs /\
    s' = load_cr3 (PHYSICAL (hhdm_offset s) (kernel_pagemap (paging s))) s) s.
Proof.
  intros Hcpu Hk Hl Hc Hpm.
  unfold wp, sched_tick. rewrite (bind_run _ _ s i s) by (by rewrite <- Hcpu).
  rewrite (bind_run _ _ s tt (locked i s)) by (by apply sched_acquire_run).
  rewrite (bind_run _ _ _ (locked i s) (locked i s)) by done.
  rewrite sched_at_locked by done. cbn [count with_lock]. rewrite Hc. cbn [Z.eqb].
  rewrite (bind_run _ _ _ tt s) by (by apply sched_release_locked).
  rewrite (bind_run _ _ s tt _ (pmset_ok _ s Hpm)). done.
Qed.

(** ** Looking up and ending processes *)

Definition has_pid (s : machine) (c : cpu_sched_t) (pid k : Z) : Prop :=
  proc_get c k <> NULL /\ p_pid (pcb_at s (proc_get c k)) = pid.

Lemma find_pid_spec n k c s pid :
  match find_pid n k c (pcb_at s) pid with
  | Some j => k <= j < k + Z.of_nat n /\ has_pid s c pid j /\ forall j', k <= j' < j -> ~ has_pid s c pid j'
  | None => forall j, k <= j < k + Z.of_nat n -> ~ has_pid s c pid j
  end.
Proof.
  revert k. induction n as [|n IH]; intros k; [cbn; lia|]. cbn [find_pid].
  destruct (Z.eqb_spec (proc_get c k) NULL) as [Hn|Hn]; cbn [negb andb];
    [|destruct (Z.eqb_spec (p_pid (pcb_at s (proc_get c k))) pid) as [Hp|Hp]].
  2:{ split; [lia|]. split; [done|]. intros; lia. }
  all: specialize (IH (k + 1)); destruct (find_pid n (k + 1) c (pcb_at s) pid) as [j|].
  all: assert (Hk : ~ has_pid s c pid k) by (intros [H1 H2]; done).
  1,3: destruct IH as (Hb & Hj & Hf); split; [lia|]; split; [done|]; intros j' Hj';
    destruct (decide (j' = k)) as [-> |]; [done|]; apply Hf; lia.
  all: intros j Hj; destruct (decide (j = k)) as [-> |]; [done|]; apply IH; lia.
Qed.

Lemma find_pid_lock n k l c f pid : find_pid n k (with_lock l c) f pid = find_pid n k c f pid.
Proof. revert k. induction n as [|n IH]; intros k; [done|]. cbn [find_pid]. by rewrite IH. Qed.

(** CPU [i] has a process with the PID in use. *)
Definition cpu_has_pid (s : machine) (pid i k : Z) : Prop :=
  0 <= k < count (sched_at i s) /\ has_pid s (sched_at i s) pid k.

Lemma find_pcb_from_spec n i s pid :
  (forall j, 0 <= j < i + Z.of_nat n -> cpu_known j s /\ s_lock (sched_at j s) = 0) -> 0 <= i ->
  wp (find_pcb_from n i pid) (fun r s' => s' = s /\
    ((r = NULL /\ forall j k, i <= j < i + Z.of_nat n -> ~ cpu_has_pid s pid j k) \/
     exists j k, i <= j < i + Z.of_nat n /\ cpu_has_pid s pid j k /\ r = proc_get (sched_at j s) k)) s.
Proof.
  revert i. induction n as [|n IH]; intros i Hall Hi.
  { cbn. split; [done|]. left. split; [done|]. lia. }
  destruct (Hall i ltac:(lia)) as [Hk Hl]. unfold wp. cbn [find_pcb_from].
  rewrite (bind_run _ _ s tt (locked i s)) by (by apply sched_acquire_run).
  rewrite (bind_run _ _ _ (locked i s) (locked i s)) by done. cbv zeta.
  rewrite sched_at_locked by done. cbn [count with_lock].
  change (pcb_at (locked i s)) with (pcb_at s). rewrite find_pid_lock.
  pose proof (find_pid_spec (Z.to_nat (count (sched_at i s))) 0 (sched_at i s) s pid) as Hf.
  destruct (find_pid _ 0 _ _ _) as [k|]; rewrite (bind_run _ _ _ tt s) by (by apply sched_release_locked).
  - split; [done|]. right. exists i, k. destruct Hf as (Hb & Hp & _).
    split; [lia|]. split; [split; [lia|done]|done].
  - eapply wp_mono; [apply IH; [intros j Hj; apply Hall; lia|lia]|]. cbv beta.
    intros r s' [-> [[-> Hn]|(j & k & Hj & Hp & ->)]]; (split; [done|]).
    + left. split; [done|]. intros j k Hj [Hb Hp]. destruct (decide (j = i)) as [-> |].
      * by apply (Hf k); [lia|].
      * by apply (Hn j k); [lia|].
    + right. exists j, k. split; [lia|done].
Qed.

(** [sched_find_pcb], when no scheduler lock is held, returns the block of a
    process in use with the PID, on whichever CPU, or NULL when there is none; it
    changes nothing and leaves every lock free. *)
Theorem sched_find_pcb_correct s pid :
  (forall j, 0 <= j < MAX_CPUS -> cpu_known j s /\ s_lock (sched_at j s) = 0) ->
  wp (sched_find_pcb pid) (fun r s' => s' = s /\
    ((r = NULL /\ forall j k, 0 <= j < MAX_CPUS -> ~ cpu_has_pid s pid j k) \/
     exists j k, 0 <= j < MAX_CPUS /\ cpu_has_pid s pid j k /\ r = proc_get (sched_at j s) k)) s.
Proof.
  intros H. eapply wp_mono; [apply (find_pcb_from_spec (Z.to_nat MAX_CPUS) 0 s pid); [exact H|lia]|].
  cbv beta. done.
Qed.

(** ** The running process ends itself *)

(** [k] is the position of the running process, and of no other with its PID. *)
Record running (i : Z) (s : machine) (k p : Z) : Prop := Running {
  run_cpu : this_cpu s = i;
  run_known : cpu_known i s;
  run_lock : s_lock (sched_at i s) = 0;
  run_current : current_pid (sched_at i s) = k;
  run_bound : 0 <= k < count (sched_at i s);
  run_proc : proc_get (sched_at i s) k = p;
  run_null : p <> NULL;
  run_first : forall j, 0 <= j < k -> ~ has_pid s (sched_at i s) (p_pid (pcb_at s p)) j }.

Lemma find_pid_running i s k p :
  running i s k p ->
  find_pid (Z.to_nat (count (sched_at i s))) 0 (sched_at i s) (pcb_at s) (p_pid (pcb_at s p)) = Some k.
Proof.
  intros [_ _ _ _ Hb Hp Hn Hf].
  pose proof (find_pid_spec (Z.to_nat (count (sched_at i s))) 0 (sched_at i s) s (p_pid (pcb_at s p))) as H.
  assert (Hk : has_pid s (sched_at i s) (p_pid (pcb_at s p)) k) by (split; by rewrite Hp).
  destruct (find_pid _ _ _ _ _) as [j|]; [|by destruct (H k ltac:(lia))].
  destruct H as (Hj & Hpj & Hfj). f_equal.
  destruct (Z.lt_trichotomy j k) as [Hlt|[He|Hlt]]; [|done|].
  - destruct (Hf j ltac:(lia) Hpj).
  - destruct (Hfj k ltac:(lia) Hk).
Qed.

(** [sched_terminate] of the running process calls [sched_tick] with the lock held. *)
Lemma sched_terminate_running fuel dummy i s k p :
  running i s k p ->
  sched_terminate fuel dummy (p_pid (pcb_at s p)) s
    = Hang (locked i (set_pcbs (<[p := with_state PROC_TERMINATED (pcb_at s p)]> (pcbs (sched s))) s)).
Proof.
  intros H. pose proof (find_pid_running i s k p H) as Hfp. destruct H as [Hcpu Hk Hl Hc Hb Hp Hn Hf].
  unfold sched_terminate. rewrite (bind_run _ _ s i s) by (by rewrite <- Hcpu).
  rewrite (bind_run _ _ s tt (locked i s)) by (by apply sched_acquire_run).
  rewrite (bind_run _ _ _ (locked i s) (locked i s)) by done.
  rewrite sched_at_locked by done. cbn [count current_pid with_lock].
  change (pcb_at (locked i s)) with (pcb_at s). rewrite find_pid_lock, Hfp.
  change (proc_get (with_lock 1 (sched_at i s)) k) with (proc_get (sched_at i s) k).
  rewrite Hp, Hc, Z.eqb_refl. cbn [when].
  set (s1 := locked i (set_pcbs _ s)).
  assert (Hu : update_pcb p (with_state PROC_TERMINATED) (locked i s) = Ret tt s1) by done.
  assert (Ht : sched_tick fuel (Some dummy) s1 = Hang s1).
  { unfold sched_tick. rewrite (bind_run _ _ s1 i s1) by (by rewrite <- Hcpu).
    unfold bind at 1. rewrite sched_acquire_held; [done|]. unfold s1. by rewrite sched_at_locked. }
  unfold bind. rewrite Hu, Ht. done.
Qed.

Lemma proc_exit_hangs fuel dummy code i s k p :
  running i s k p -> exists s', proc_exit fuel dummy code s = Hang s'.
Proof.
  intros H. pose proof H as [Hcpu Hk Hl Hc Hb Hp Hn Hf].
  set (s1 := set_pcbs (<[p := with_exit_code code (pcb_at s p)]> (pcbs (sched s))) s).
  assert (Hpid : forall q, p_pid (pcb_at s1 q) = p_pid (pcb_at s q)).
  { intros q. destruct (decide (q = p)) as [-> |]; unfold s1.
    - by rewrite pcb_at_insert_eq.
    - by rewrite pcb_at_insert_ne by congruence. }
  assert (H1 : running i s1 k p).
  { split; try done. intros j Hj [Ha Hb']. rewrite !Hpid in Hb'. by apply (Hf j Hj). }
  eexists. unfold proc_exit. rewrite (bind_run _ _ s i s) by (by rewrite <- Hcpu).
  rewrite (bind_run _ _ s tt (locked i s)) by (by apply sched_acquire_run).
  rewrite (bind_run _ _ _ (locked i s) (locked i s)) by done.
  rewrite sched_at_locked by done. cbn [current_pid with_lock].
  change (proc_get (with_lock 1 (sched_at i s))) with (proc_get (sched_at i s)).
  rewrite Hc, Hp, (proj2 (Z.eqb_neq p NULL) Hn). cbn [negb when].
  unfold bind at 1. rewrite (bind_run _ _ _ tt (locked i s1)) by done.
  rewrite (bind_run _ _ _ tt s1) by (by apply sched_release_locked).
  rewrite (bind_run _ _ s1 s1 s1) by done. by rewrite (sched_terminate_running _ _ i s1 k p H1).
Qed.
End Props.

(** ** Two processes on CPU 0 *)

Definition proc_a : Z := 0x7000.
Definition proc_b : Z := 0x7200.

Definition regs_at (rip : Z) : register_ctx :=
  RegisterCtx 0 0 0 0 0 0 0 0 0 0 0 0 0 0 0 0 0 0 0 0 0 0 0 rip 8 0x202 0 0x10.

Definition sample_pcb (pid : Z) (st : proc_state_t) (rip : Z) : pcb_t :=
  Pcb pid st PROC_DEFAULT_TIME (HHDM + 0x3000) 0 (regs_at rip) 0 0 false.

Definition two_procs : machine :=
  set_sched
    (Sched
       (CpuSched 0x6000 ([proc_a; proc_b] ++ replicate 510 NULL) 2 0 0 :: replicate 63 no_sched)
       {[proc_a := sample_pcb 7 PROC_RUNNING 0x100; proc_b := sample_pcb 9 PROC_READY 0x200]} 10 0)
    boot0.

Definition two_rr : rr := RR [proc_a; proc_b] 0 {[proc_b := regs_at 0x200]}.

Lemma two_rel : rr_rel 0 two_procs two_rr.
Proof.
  refine (RrRel 0 two_procs two_rr eq_refl _ eq_refl _ eq_refl _ _ _ _).
  - unfold cpu_known. cbn. lia.
  - split; [reflexivity|reflexivity|..].
    + apply Nat.leb_le. reflexivity.
    + cbn. rewrite NoDup_cons, list_elem_of_singleton. split; [discriminate|apply NoDup_singleton].
    + cbn. rewrite !elem_of_cons, elem_of_nil. intros [?|[?|[]]]; discriminate.
  - cbn. lia.
  - intros [|[|k]] p Hp; [| |discriminate Hp]; injection Hp as <-; split; reflexivity.
  - intros [|[|k]] p Hp; [| |discriminate Hp]; injection Hp as <-; intros Hk; [|reflexivity].
    destruct (Hk eq_refl).
  - intros [|[|k]] p Hp; [| |discriminate Hp]; injection Hp as <-; (split; [discriminate|reflexivity]).
Qed.

Lemma two_running : running 0 two_procs 0 proc_a.
Proof.
  refine (Running 0 two_procs 0 proc_a eq_refl _ eq_refl eq_refl _ eq_refl _ _).
  - unfold cpu_known. cbn. lia.
  - change (count (sched_at 0 two_procs)) with 2. lia.
  - discriminate.
  - intros j Hj. lia.
Qed.

Lemma sched_tick_refines_witness :
  wp (sched_tick 10 (Some (regs_at 0x104))) (fun r s' =>
    r = Some (regs_at 0x200) /\ rr_rel 0 s' (rr_tick (regs_at 0x104) two_rr).2 /\
    cr3 (paging s') = 0x3000 /\ mem s' = mem two_procs) two_procs.
Proof. exact (sched_tick_refines 10 0 two_procs two_rr (regs_at 0x104) two_rel). Defined.

Lemma sched_fair_witness :
  wp (ticks 10 [regs_at 0x104; regs_at 0x204]) (fun rs s' =>
    (forall k, (k < 2)%nat -> rs !! k = Some (Some (resumes two_rr (regs_at 0x104) (S k)))) /\
    (exists a', rr_rel 0 s' a' /\ rr_procs a' = [proc_a; proc_b]) /\ length rs = 2%nat) two_procs.
Proof.
  exact (sched_fair 10 0 [regs_at 0x104; regs_at 0x204] (regs_at 0x104) two_procs two_rr two_rel
    eq_refl eq_refl).
Defined.

(** CPU 1 has no process. *)
Definition on_cpu1 : machine :=
  set_paging (Paging (HHDM + 0x2000) 0x2000 [])
    (set_sched (Sched (cpu_schedulers (sched two_procs)) (pcbs (sched two_procs)) 10 1) two_procs).

Lemma sched_tick_idle_witness :
  wp (sched_tick 10 (Some (regs_at 0x104))) (fun r s' => r = Some (regs_at 0x104) /\
    s' = load_cr3 (PHYSICAL (hhdm_offset on_cpu1) (kernel_pagemap (paging on_cpu1))) on_cpu1) on_cpu1.
Proof.
  apply (sched_tick_idle 10 1 on_cpu1 (regs_at 0x104) eq_refl).
  - unfold cpu_known. cbn. lia.
  - reflexivity.
  - reflexivity.
  - split; [discriminate|reflexivity].
Defined.

Lemma sched_find_pcb_correct_witness :
  result_of (sched_find_pcb 9 two_procs) = Some proc_b /\
  wp (sched_find_pcb 9) (fun r s' => s' = two_procs /\
    ((r = NULL /\ forall j k, 0 <= j < MAX_CPUS -> ~ cpu_has_pid two_procs 9 j k) \/
     exists j k, 0 <= j < MAX_CPUS /\ cpu_has_pid two_procs 9 j k /\
       r = proc_get (sched_at j two_procs) k)) two_procs.
Proof.
  split; [vm_compute; reflexivity|]. apply sched_find_pcb_correct. intros j Hj.
  unfold MAX_CPUS in Hj. split.
  - unfold cpu_known. change (length (cpu_schedulers (sched two_procs))) with 64%nat. lia.
  - unfold sched_at. cbn [two_procs sched set_sched cpu_schedulers].
    destruct (Z.to_nat j) as [|k]; [reflexivity|]. cbn [lookup list_lookup].
    destruct (replicate 63 no_sched !! k) as [c|] eqn:E; [|reflexivity].
    by apply lookup_replicate in E as [-> _].
Defined.

(** [sched_spawn] hands page flags to [valloc], which takes allocation flags: the stack
    of a user process gets no user pages. *)
Lemma spawn_stack_not_user :
  has (VFLAGS_TO_PFLAGS (Z.lor (Z.lor VMM_PRESENT VMM_WRITE) VMM_USER)) VMM_USER = false.
Proof. reflexivity. Qed.
