(* ===== verification/Reap.v ===== *)
(** * sys/sched.c: the end of a process

    [sched_terminate] marks a process; the next tick that comes across it destroys its
    context, gives its control block back to the heap and takes it out of the queue.
    The theorem composes the scheduler with the heap, the contexts and the frames. *)

From S2P Require Export SchedProps HeapProps VmmDestroy VmmData.

(** ** Closing the gap in the array *)

Definition shift_step (k : Z) (c : cpu_sched_t) : cpu_sched_t := proc_set k (proc_get c (k + 1)) c.

Lemma shift_loop l2 : forall l1 t c pad,
  procs c = l1 ++ t :: l2 ++ pad ->
  exists x, for_pure (length l2) (Z.of_nat (length l1)) 1 shift_step c = with_procs (l1 ++ l2 ++ x :: pad) c.
Proof.
  induction l2 as [|y l2 IH]; intros l1 t c pad Hc; cbn [length for_pure].
  - exists t. unfold with_procs. cbn [app] in *. rewrite <-Hc. by destruct c.
  - cbn [app] in Hc. set (k := Z.of_nat (length l1)).
    assert (Hy : proc_get c (k + 1) = y).
    { unfold proc_get. rewrite Hc, lookup_app_r by lia.
      replace (Z.to_nat (k + 1) - length l1)%nat with 1%nat by lia. done. }
    set (c' := shift_step k c).
    assert (Hc' : procs c' = (l1 ++ [y]) ++ y :: l2 ++ pad).
    { unfold c', shift_step. rewrite Hy. unfold proc_set, with_procs. cbn [procs]. rewrite Hc.
      unfold k. rewrite Nat2Z.id, insert_app_r_alt by lia.
      replace (length l1 - length l1)%nat with 0%nat by lia. by rewrite <-app_assoc. }
    destruct (IH (l1 ++ [y]) y c' pad Hc') as [x Hx]. exists x.
    replace (k + 1) with (Z.of_nat (length (l1 ++ [y]))) by (rewrite length_app; cbn; lia).
    rewrite Hx, <-app_assoc. done.
Qed.

(** The scheduler of a CPU after the process behind [l1] was taken out. *)
Definition removed (l : list Z) (c : cpu_sched_t) : cpu_sched_t :=
  with_count (Z.of_nat (length l))
    (with_procs (l ++ replicate (Z.to_nat PROC_MAX_PROCS_PER_CPU - length l) NULL) c).

Lemma queue_removed c l1 t l2 :
  queue c (l1 ++ t :: l2) -> queue (removed (l1 ++ l2) c) (l1 ++ l2).
Proof.
  intros [_ _ Hr Hnd Hn]. rewrite length_app in Hr. cbn [length] in Hr.
  split; [done|done|rewrite length_app; lia| |].
  - apply NoDup_app in Hnd as (H1 & H2 & [_ H3]%NoDup_cons). apply NoDup_app. split_and!; [done| |done].
    intros x Hx Hx2. apply (H2 x Hx), elem_of_cons. by right.
  - intros Hin. apply Hn. rewrite elem_of_app, elem_of_cons. rewrite elem_of_app in Hin. tauto.
Qed.

Lemma close_gap c l1 t l2 :
  queue c (l1 ++ t :: l2) -> current_pid c = Z.of_nat (length l1) ->
  let c1 := shift_down c in
  let c2 := proc_set (w32 (count c1 - 1)) NULL c1 in
  with_count (w32 (count c2 - 1)) c2 = removed (l1 ++ l2) c.
Proof.
  intros [Hp Hc Hr _ _] Hk. set (pad := replicate _ _) in Hp.
  assert (Hlen : length (l1 ++ t :: l2) = (length l1 + S (length l2))%nat) by (by rewrite length_app).
  unfold PROC_MAX_PROCS_PER_CPU in *.
  assert (Hw : w32 (count c - 1) = Z.of_nat (length l1 + length l2)) by (rewrite w32_id; lia).
  assert (Hs : exists x, shift_down c = with_procs (l1 ++ l2 ++ x :: pad) c).
  { unfold shift_down. rewrite Hk, Hw.
    replace (Z.to_nat (Z.of_nat (length l1 + length l2) - Z.of_nat (length l1))) with (length l2) by lia.
    apply (shift_loop l2 l1 t). rewrite Hp, <-app_assoc. done. }
  destruct Hs as [x Hs]. cbv zeta. rewrite Hs. cbn [count with_procs proc_set]. rewrite Hw.
  unfold removed, proc_set, with_count, with_procs. cbn [procs procs_at current_pid s_lock].
  rewrite length_app. f_equal. rewrite Nat2Z.id, app_assoc, insert_app_r_alt by (rewrite length_app; lia).
  rewrite length_app. replace (length l1 + length l2 - (length l1 + length l2))%nat with 0%nat by lia.
  cbn [list_insert]. f_equal. unfold pad. rewrite Hlen.
  replace (Z.to_nat PROC_MAX_PROCS_PER_CPU - (length l1 + length l2))%nat
    with (S (Z.to_nat 512 - (length l1 + S (length l2)))) by (unfold PROC_MAX_PROCS_PER_CPU; lia).
  done.
Qed.

(** ** What is destroyed *)

Section Reap.
Context {FA : FrameAlloc} {FL : FrameAllocLaws} {FF : FrameFreeLaws}.

(** What process [t] owns: the context [c] of the page map [pm] with its regions, and the
    block of the heap that holds its control block. *)
Record process_owns (s : machine) (t c pm : Z) (regs : list region) (fl : list (Z * Z)) (lo hi n : Z) : Prop :=
  ProcessOwns {
    po_ctx : vctx_ok s c pm regs;
    po_heap : heap_ok s fl lo hi;
    po_low : hi <= hhdm_offset s;
    po_block : block_size (mem s) (t - sizeof_block) = n /\ 0 <= n;
    po_inside : lo <= t - sizeof_block /\ t + n <= hi;
    po_apart : apart (t - sizeof_block, n) fl }.

Lemma process_owns_same s s' t c pm regs fl lo hi n :
  process_owns s t c pm regs fl lo hi n -> mem s' = mem s -> hhdm_offset s' = hhdm_offset s ->
  pmm s' = pmm s -> heap s' = heap s -> process_owns s' t c pm regs fl lo hi n.
Proof.
  intros [H1 [G1 G2 G3] H3 H4 H5 H6] Hm Hh Hp Hhp.
  split; rewrite ?Hm, ?Hh; try done; [by apply (vctx_same_memory s)|].
  split; rewrite ?Hm, ?Hhp; done.
Qed.

(** The heap lies below the direct map, where the page tables and contexts do not write. *)
Lemma heap_kept s s' fl lo hi a :
  heap_ok s fl lo hi -> lo <= a -> a + sizeof_block <= hi ->
  heap s' = heap s -> (forall x, x < hi -> load8 (mem s') x = load8 (mem s) x) ->
  heap_ok s' fl lo hi /\ block_size (mem s') a = block_size (mem s) a.
Proof.
  intros [H1 H2 H3] Ha Hb Hh Hm. split.
  - split; [done|done|]. rewrite Hh. apply (seg_frame (mem s) _ _ _ _ lo hi); [done| |done].
    intros x Hx. apply Hm. lia.
  - apply load64_ext. intros x Hx. apply Hm. unfold sizeof_block in Hb. lia.
Qed.

(** [vunmap] refuses an address inside a page. *)
Definition unmapped (pm t : Z) (tr : Z -> option Z) : Z -> option Z :=
  if has t (PAGE_SIZE - 1) then tr else set_page 0 t tr.

Lemma vunmap_any s pm t :
  fa_inv s -> pt_ok s pm ->
  wp (vunmap pm t) (fun _ s' =>
    fa_inv s' /\ pt_ok s' pm /\ (forall f, fa_owned s' f <-> fa_owned s f) /\
    (forall v, lookup s' pm v = unmapped pm t (lookup s pm) v) /\ kept pm s s') s.
Proof.
  intros Hi Hpt. unfold unmapped. destruct (has t (PAGE_SIZE - 1)) eqn:Ht.
  - unfold wp, vunmap. rewrite Ht, orb_true_r. split_and!; try done.
  - eapply wp_mono; [apply (wp_and (vunmap pm t) _ _ s (vunmap_spec (client_page s) pm t s Hi Hpt ltac:(done) Ht) (vunmap_owned pm t s Hi Hpt Ht))|].
    intros r s' [[_ Hu] [Ho _]]. split_and!; try apply Hu; [done|].
    exact (kept_updates pm s s' _ _ (table_path_is_path t) Hu).
Qed.

(** [kfree] in a heap below the direct map is none of the frame allocator's business. *)
Lemma kfree_below fuel s pm fl t lo hi n :
  fa_inv s -> pt_ok s pm -> heap_ok s fl lo hi -> hi <= hhdm_offset s ->
  block_size (mem s) (t - sizeof_block) = n -> 0 <= n -> lo <= t - sizeof_block -> t + n <= hi ->
  apart (t - sizeof_block, n) fl -> (length fl < fuel)%nat ->
  wp (kfree fuel t) (fun _ s' =>
    heap_ok s' (ff_free (t - sizeof_block, n) fl) lo hi /\ heap_others s' = heap_others s /\
    fa_inv s' /\ pt_ok s' pm /\ (forall f, fa_owned s' f <-> fa_owned s f) /\
    (forall v, lookup s' pm v = lookup s pm v) /\
    forall u, client_page s u -> node_agree (mem s) (mem s') u) s.
Proof.
  intros Hi Hpt Hheap Hlow Hbs Hn Hlo Hhi Hap Hf.
  assert (Ht : t = t - sizeof_block + sizeof_block) by lia. rewrite Ht at 1.
  eapply wp_mono.
  { apply (kfree_spec fuel s fl (t - sizeof_block) n lo hi Hheap Hbs Hn);
      [done|unfold sizeof_block; lia|exact Hap|exact Hf]. }
  intros [] s' (Hheap' & Ho & Hm).
  assert (Hb : forall a, hhdm_offset s <= a -> load8 (mem s') a = load8 (mem s) a).
  { intros a Ha. apply Hm. cbn [fst snd]. unfold sizeof_block in *. intros [?|(b & k & Hb & ?)]; [lia|].
    pose proof (spaced_in _ _ _ _ _ (hp_spaced _ _ _ _ Hheap) Hb). unfold sizeof_block in *. lia. }
  destruct (high_grown s s' Hi) as (Hi' & Hown & Hg); [unfold heap_others in Ho; congruence..|done|].
  destruct (grown_page s s' pm Hpt Hg) as (Hpt' & _ & Hlk). split_and!; try done.
  intros u Hu a. by apply (gw_bytes _ _ Hg).
Qed.

(** [kmalloc] in such a heap, as far as its callers see it. *)
Lemma kmalloc_below fuel s fl lo hi size :
  heap_ok s fl lo hi -> hi <= hhdm_offset s -> 0 < size -> size + 8 < 2 ^ 64 -> (length fl < fuel)%nat ->
  wp (kmalloc fuel size) (fun r s' =>
    (r = NULL /\ s' = s /\ forall a n, (a, n) ∈ fl -> n < ALIGN_UP size 8) \/
    (exists n fl', heap_ok s' fl' lo hi /\ size <= n /\ block_size (mem s') (r - sizeof_block) = n /\
       lo <= r - sizeof_block /\ r + n <= hi /\ apart (r - sizeof_block, n) fl' /\
       covered fl r /\ (length fl' <= length fl)%nat /\ heap_others s' = heap_others s /\
       forall a, hhdm_offset s <= a -> load8 (mem s') a = load8 (mem s) a)) s.
Proof.
  intros Hheap Hlow Hs Hb Hf. eapply wp_mono; [by apply (kmalloc_block_spec fuel size fl lo hi s)|].
  intros r s' [(-> & -> & Hno)|(a & n & fl' & -> & Hsz & Hbs & Hheap' & Hlo & Hhi & Hap & Hcov & _ & _ & Ho & Hm & Hlen)];
    [by left|right]. exists n, fl'.
  replace (a + sizeof_block - sizeof_block) with a by lia. split_and!; try done.
  - apply Hcov. unfold sizeof_block. lia.
  - intros x Hx. apply Hm. intros (b & k & Hin & ?).
    pose proof (spaced_in _ _ _ _ _ (hp_spaced _ _ _ _ Hheap) Hin). lia.
Qed.

(** From [s] to [s'] the process [t] of CPU [i] is gone, [l'] are the others. *)
Record reaped (i : Z) (s : machine) (t c pm : Z) (regs : list region) (fl : list (Z * Z)) (lo hi n : Z)
    (l' : list Z) (s' : machine) : Prop := Reaped {
  rp_inv : fa_inv s';
  rp_pt : pt_ok s' pm;
  rp_heap : heap_ok s' (ff_free (t - sizeof_block, n) fl) lo hi;
  rp_owned : forall f, fa_owned s' f <-> fa_owned s f /\ page_at s f ∉ ctx_nodes c regs;
  rp_lookup : forall v, lookup s' pm v = unmapped pm t (lookup s pm) v;
  rp_bytes : forall u, client_page s u -> not_table s pm u -> u ∉ ctx_nodes c regs ->
      node_agree (mem s) (mem s') u;
  rp_hhdm : hhdm_offset s' = hhdm_offset s;
  rp_sched : sched s' = sched (set_sched_at i (removed l' (sched_at i s))
               (set_pcbs (delete t (pcbs (sched s))) s)) }.

(** The three calls that destroy the process. *)
Lemma destroy_spec fuel s t c pm regs fl lo hi n :
  process_owns s t c pm regs fl lo hi n -> p_vctx (pcb_at s t) = c -> p_pagemap (pcb_at s t) = pm ->
  (length regs < fuel)%nat -> (length fl < fuel)%nat ->
  wp (vdestroy fuel c ;;; vunmap pm t ;;; kfree fuel t) (fun _ s' =>
    fa_inv s' /\ pt_ok s' pm /\ heap_ok s' (ff_free (t - sizeof_block, n) fl) lo hi /\
    (forall f, fa_owned s' f <-> fa_owned s f /\ page_at s f ∉ ctx_nodes c regs) /\
    (forall v, lookup s' pm v = unmapped pm t (lookup s pm) v) /\
    (forall u, client_page s u -> not_table s pm u -> u ∉ ctx_nodes c regs ->
      node_agree (mem s) (mem s') u) /\
    hhdm_offset s' = hhdm_offset s /\ sched s' = sched s) s.
Proof.
  intros [Hctx Hheap Hlow [Hbs Hn] Hin Hap] Hc Hpm Hf1 Hf2.
  pose proof (hp_bounds _ _ _ _ Hheap) as [Hlo Hhi]. unfold sizeof_block in Hin.
  wp_step. eapply wp_mono; [by apply (vdestroy_spec fuel s c pm regs)|]. cbv beta. intros [] s1 H1.
  pose proof (gb_others _ _ _ _ H1) as Ho1. pose proof (others_hhdm _ _ Ho1) as Hh1.
  wp_step. eapply wp_mono; [apply (vunmap_any s1 pm t (gb_inv _ _ _ _ H1) (gb_pt _ _ _ _ H1))|]. cbv beta.
  intros r s2 (Hi2 & Hpt2 & Hown2 & Hlk2 & Hk2).
  pose proof (k_globals _ _ _ Hk2) as Hg2.
  assert (Hm2 : forall x, x < hi -> load8 (mem s2) x = load8 (mem s) x).
  { intros x Hx. rewrite (k_low _ _ _ Hk2) by lia. apply (gb_low _ _ _ _ H1). lia. }
  destruct (heap_kept s s2 fl lo hi (t - sizeof_block) Hheap) as [Hheap2 Hbs2];
    [unfold sizeof_block; lia..|unfold globals, others in *; congruence|done|].
  assert (Hh2 : hhdm_offset s2 = hhdm_offset s) by (rewrite (globals_hhdm _ _ Hg2); done).
  eapply wp_mono; [apply (kfree_below fuel s2 pm fl t lo hi n); try done; unfold sizeof_block in *; try lia; by rewrite Hbs2|].
  cbv beta. intros [] s3 (Hheap3 & Ho3 & Hi3 & Hpt3 & Hown3 & Hlk3 & Hu3).
  assert (Hel : forall u, u ∈ (rg_node <$> regs) ++ [c] <-> u ∈ ctx_nodes c regs).
  { intros u. unfold ctx_nodes. rewrite elem_of_app, list_elem_of_singleton, elem_of_cons. tauto. }
  split_and!; try done.
  - intros f. by rewrite Hown3, Hown2, (gb_owned _ _ _ _ H1), Hel.
  - intros v. rewrite Hlk3, Hlk2. unfold unmapped, set_page.
    destruct (has t _); [|case_decide; [done|]]; by rewrite (gb_lookup _ _ _ _ H1).
  - intros u Hu Hnt Hnin. rewrite <-Hel in Hnin.
    assert (Hu1 : client_page s1 u) by (by apply (gives_back_client s pm _ s1 u H1)).
    assert (Hnt1 : not_table s1 pm u) by (by apply (gb_tables _ _ _ _ H1)).
    apply (node_agree_trans _ (mem s1)); [by apply (gb_bytes _ _ _ _ H1)|].
    apply (node_agree_trans _ (mem s2)); [by apply (k_bytes _ _ _ Hk2)|]. apply Hu3.
    by apply (kept_client pm s1).
  - unfold heap_others in Ho3. congruence.
  - unfold heap_others, globals, others in *. congruence.
Qed.

Lemma wp_tail {A B C D} (m1 : K A) (m2 : K B) (m3 : K C) (k : K D) Q s :
  wp (m1 ;;; m2 ;;; m3) (fun _ s' => wp k Q s') s -> wp (m1 ;;; m2 ;;; m3 ;;; k) Q s.
Proof.
  unfold wp, bind. destruct (m1 s) as [? s1| | |]; try done.
  destruct (m2 s1) as [? s2| | |]; try done. by destruct (m3 s2).
Qed.

Lemma reap_spec fuel i s t c pm regs fl lo hi n l1 l2 :
  process_owns s t c pm regs fl lo hi n -> p_vctx (pcb_at s t) = c -> p_pagemap (pcb_at s t) = pm ->
  (length regs < fuel)%nat -> (length fl < fuel)%nat -> cpu_known i s ->
  queue (sched_at i s) (l1 ++ t :: l2) -> current_pid (sched_at i s) = Z.of_nat (length l1) ->
  wp (reap fuel i t) (fun _ s' => reaped i s t c pm regs fl lo hi n (l1 ++ l2) s') s.
Proof.
  intros Hpo Hc Hpm Hf1 Hf2 Hk Hq Hcur. unfold reap. wp_step. wp_step. cbv beta. rewrite Hc, Hpm.
  apply wp_tail. eapply wp_mono; [by apply (destroy_spec fuel s t c pm regs fl lo hi n)|]. cbv beta.
  intros [] s3 (H1 & H2 & H3 & H4 & H5 & H6 & H7 & H8). wp_steps. unfold update_sched. wp_steps.
  set (s4 := set_pcbs _ s3).
  assert (Es : sched s4 = sched (set_pcbs (delete t (pcbs (sched s))) s)) by (unfold s4, set_pcbs; cbn; by rewrite H8).
  assert (Hk4 : cpu_known i s4) by (unfold cpu_known; rewrite Es; exact Hk).
  assert (Ec : sched_at i s4 = sched_at i s) by (unfold sched_at; rewrite Es; done).
  rewrite !sched_at_set, !set_sched_at_twice by (by rewrite ?cpu_known_set).
  rewrite Ec, (close_gap (sched_at i s) l1 t l2 Hq Hcur).
  assert (Em : mem (set_sched_at i (removed (l1 ++ l2) (sched_at i s)) s4) = mem s3) by done.
  set (s5 := set_sched_at i (removed (l1 ++ l2) (sched_at i s)) s4) in *.
  destruct (same_memory s3 s5 pm H1 H2 Em eq_refl eq_refl) as (Hi5 & Ho5 & Hpt5 & _ & Hlk5).
  split; [done|done|by destruct H3; split|intros f; by rewrite Ho5|intros v; by rewrite Hlk5|done|done|].
  unfold s5, set_sched_at. cbn [sched set_sched]. by rewrite Es.
Qed.
End Reap.
