(* ===== verification/ReapProps.v ===== *)
(** * sys/sched.c: terminating a process, and the tick that reaps it

    The abstract round robin ([rr]) loses the process; the tick resumes not the process
    behind it but the one after that, because the array has moved up by one slot while the
    search goes on ([rr_reap]). *)

From S2P Require Export Reap.

(** The process behind the running one is taken out. *)
Definition reap_index (k len : nat) : nat := if decide (S k < len)%nat then S k else 0%nat.

Definition rr_reap (regs : register_ctx) (a : rr) : register_ctx * rr :=
  let procs := delete (rr_next a) (rr_procs a) in
  let k := reap_index (rr_next a) (length procs) in
  let saved := <[rr_current a := regs]> (rr_saved a) in
  (default zero_ctx (saved !! default NULL (procs !! k)), RR procs k saved).

(** ** sched_terminate of a process that does not run *)

Definition terminated (t : Z) (s : machine) : machine :=
  set_pcbs (<[t := with_state PROC_TERMINATED (pcb_at s t)]> (pcbs (sched s))) s.

Section Terminate.
Context {FA : FrameAlloc}.

Lemma find_pid_first s c k p :
  0 <= k < count c -> proc_get c k = p -> p <> NULL ->
  (forall j, 0 <= j < count c -> has_pid s c (p_pid (pcb_at s p)) j -> j = k) ->
  find_pid (Z.to_nat (count c)) 0 c (pcb_at s) (p_pid (pcb_at s p)) = Some k.
Proof.
  intros Hb Hp Hn Hf.
  pose proof (find_pid_spec (Z.to_nat (count c)) 0 c s (p_pid (pcb_at s p))) as H.
  destruct (find_pid _ _ _ _ _) as [j|].
  - destruct H as (Hj & Hpj & _). f_equal. apply Hf; [lia|done].
  - destruct (H k ltac:(lia)). split; by rewrite Hp.
Qed.

Lemma sched_terminate_other fuel dummy i s l k t :
  this_cpu s = i -> cpu_known i s -> s_lock (sched_at i s) = 0 -> queue (sched_at i s) l ->
  l !! k = Some t -> current_pid (sched_at i s) <> Z.of_nat k ->
  (forall j q, l !! j = Some q -> p_pid (pcb_at s q) = p_pid (pcb_at s t) -> j = k) ->
  sched_terminate fuel dummy (p_pid (pcb_at s t)) s = Ret tt (terminated t s).
Proof.
  intros Hcpu Hk Hl Hq Hkt Hcur Huniq. pose proof (proc_get_in _ _ _ _ Hq Hkt) as Hp.
  pose proof (lookup_lt_Some _ _ _ Hkt) as Hlt.
  assert (Hfp : find_pid (Z.to_nat (count (sched_at i s))) 0 (sched_at i s) (pcb_at s)
    (p_pid (pcb_at s t)) = Some (Z.of_nat k)).
  { apply find_pid_first; [rewrite (q_count _ _ Hq); lia|done|by apply (queue_not_null _ _ _ _ Hq Hkt)|].
    intros j Hj [_ Hpj]. rewrite (q_count _ _ Hq) in Hj.
    destruct (lookup_lt_is_Some_2 l (Z.to_nat j) ltac:(lia)) as [q Hjq].
    pose proof (proc_get_in _ _ _ _ Hq Hjq) as Hg. rewrite Z2Nat.id in Hg by lia. rewrite Hg in Hpj.
    rewrite <-(Huniq _ _ Hjq Hpj). lia. }
  unfold sched_terminate. rewrite (bind_run _ _ s i s) by (by rewrite <- Hcpu).
  rewrite (bind_run _ _ s tt (locked i s)) by (by apply sched_acquire_run).
  rewrite (bind_run _ _ _ (locked i s) (locked i s)) by done.
  rewrite sched_at_locked by done. cbn [count current_pid with_lock].
  change (pcb_at (locked i s)) with (pcb_at s). rewrite find_pid_lock, Hfp.
  change (proc_get (with_lock 1 (sched_at i s))) with (proc_get (sched_at i s)). rewrite Hp.
  rewrite (proj2 (Z.eqb_neq (Z.of_nat k) _)) by congruence. cbn [when].
  assert (Hu : update_pcb t (with_state PROC_TERMINATED) (locked i s) = Ret tt (locked i (terminated t s))) by done.
  unfold bind. rewrite Hu. unfold ret. by rewrite sched_release_locked.
Qed.
End Terminate.

(** ** The search *)

Section Search.
Context {FA : FrameAlloc} {FL : FrameAllocLaws} {FF : FrameFreeLaws}.

(** After the removal: the search is at slot [k], the processes are [l]. *)
Lemma search_after fuel i s l k start p :
  cpu_known i s -> queue (sched_at i s) l -> current_pid (sched_at i s) = Z.of_nat k ->
  (forall j q, l !! j = Some q -> p_state (pcb_at s q) <> PROC_TERMINATED) ->
  (length l < Z.to_nat PROC_MAX_PROCS_PER_CPU)%nat -> (0 < k <= length l)%nat ->
  (start < length l)%nat -> l !! reap_index k (length l) = Some p ->
  tick_search 511 fuel i (Z.of_nat start) s = Ret p (at_current i (Z.of_nat (reap_index k (length l))) s).
Proof.
  intros Hkn Hq Hcur Hst Hroom Hkl Hstart Hp.
  assert (Hc : 0 < count (sched_at i s)) by (rewrite (q_count _ _ Hq); lia).
  unfold PROC_MAX_PROCS_PER_CPU in Hroom. unfold reap_index in *. case_decide as Hd.
  - change 511%nat with (S 510).
    assert (Hn : next_index (Z.of_nat k) = Z.of_nat (S k))
      by (rewrite next_index_lt; unfold PROC_MAX_PROCS_PER_CPU; lia).
    rewrite (tick_search_step fuel i l _ _ s Hkn Hq); rewrite ?Hcur, ?Hn, ?(proc_get_in _ l _ p) by done;
      [|by intros _; apply (Hst _ _ Hp)|done].
    by rewrite (proj2 (Z.eqb_neq p NULL) (queue_not_null _ _ _ _ Hq Hp)).
  - apply (tick_search_wrap fuel i l); try done; [by apply (Hst _ _ Hp)|lia|..];
      rewrite Hcur; unfold PROC_MAX_PROCS_PER_CPU; lia.
Qed.

Lemma reaped_sched i s t c pm regs fl lo hi n l s' :
  cpu_known i s -> reaped i s t c pm regs fl lo hi n l s' ->
  cpu_known i s' /\ sched_at i s' = removed l (sched_at i s) /\ this_cpu s' = this_cpu s /\
  forall q, q <> t -> pcb_at s' q = pcb_at s q.
Proof.
  intros Hk H. pose proof (rp_sched _ _ _ _ _ _ _ _ _ _ _ _ H) as E. split_and!.
  - unfold cpu_known. rewrite E. by apply cpu_known_set.
  - unfold sched_at at 1. rewrite E. by apply sched_at_set.
  - unfold this_cpu. rewrite E. done.
  - intros q Hq. unfold pcb_at. rewrite E. cbn. by rewrite lookup_delete_ne.
Qed.

Context (fuel : nat) (i : Z) (s : machine) (t c pm : Z) (regs : list region) (fl : list (Z * Z)) (lo hi n : Z).
Context (l1 l2 : list Z) (cur : nat) (p : Z).
Let l' := l1 ++ l2.
Let k := length l1.
Hypothesis (Hk : cpu_known i s) (Hq : queue (sched_at i s) (l1 ++ t :: l2)).
Hypothesis (Hcur : current_pid (sched_at i s) = Z.of_nat cur).
Hypothesis (Hnext : k = S cur).
Hypothesis (Hpo : process_owns s t c pm regs fl lo hi n).
Hypothesis (Hc : p_vctx (pcb_at s t) = c) (Hpm : p_pagemap (pcb_at s t) = pm).
Hypothesis (Hf1 : (length regs < fuel)%nat) (Hf2 : (length fl < fuel)%nat).
Hypothesis (Hdead : p_state (pcb_at s t) = PROC_TERMINATED).
Hypothesis (Hlive : forall j q, l' !! j = Some q -> p_state (pcb_at s q) <> PROC_TERMINATED).
Hypothesis (Hp : l' !! reap_index k (length l') = Some p).

Lemma search_places :
  (length l' < Z.to_nat PROC_MAX_PROCS_PER_CPU)%nat /\ (0 < k <= length l')%nat /\
  (cur < length l')%nat /\ next_index (Z.of_nat cur) = Z.of_nat k.
Proof.
  pose proof (q_room _ _ Hq) as Hr. unfold l', k, PROC_MAX_PROCS_PER_CPU in *.
  rewrite !length_app in *. cbn [length] in *. split_and!; try lia.
  rewrite next_index_lt; unfold PROC_MAX_PROCS_PER_CPU; lia.
Qed.

(** The search reaps [t] and ends one slot behind the process that moved up. *)
Lemma search_reaps :
  wp (tick_search (Z.to_nat PROC_MAX_PROCS_PER_CPU) fuel i (Z.of_nat cur)) (fun r s' =>
    r = p /\ exists s2, reaped i (at_current i (Z.of_nat k) s) t c pm regs fl lo hi n l' s2 /\
      s' = at_current i (Z.of_nat (reap_index k (length l'))) s2) s.
Proof.
  destruct search_places as (Hroom & Hkl & Hcl & Hn). set (sk := at_current i (Z.of_nat k) s).
  assert (Ek : sched_at i sk = with_current (Z.of_nat k) (sched_at i s)) by (by apply sched_at_set).
  assert (Hkk : cpu_known i sk) by (by apply cpu_known_set).
  assert (Hqk : queue (sched_at i sk) (l1 ++ t :: l2)) by (rewrite Ek; by apply queue_with_current).
  assert (Htk : (l1 ++ t :: l2) !! k = Some t) by (unfold k; by rewrite list_lookup_middle).
  assert (Hpk : process_owns sk t c pm regs fl lo hi n) by (by apply (process_owns_same s)).
  change (Z.to_nat PROC_MAX_PROCS_PER_CPU) with (S 511). remember 511%nat as rounds eqn:Hrounds.
  cbn [tick_search].
  unfold update_sched. wp_step. wp_step. fold (next_index (current_pid (sched_at i s))). rewrite Hcur, Hn.
  fold (at_current i (Z.of_nat k) s). fold sk. wp_step. wp_step. cbv beta.
  assert (Hgt : proc_get (sched_at i sk) (current_pid (sched_at i sk)) = t)
    by (rewrite Ek at 2; by apply (proc_get_in _ _ _ _ Hqk)).
  rewrite Hgt. change (pcb_at sk t) with (pcb_at s t).
  rewrite (proj2 (Z.eqb_neq t NULL) (queue_not_null _ _ _ _ Hqk Htk)), bool_decide_eq_true_2 by done.
  cbn [negb andb]. wp_step. wp_step. eapply wp_mono.
  { apply (reap_spec fuel i sk t c pm regs fl lo hi n l1 l2); try done. by rewrite Ek. }
  cbv beta. intros [] s2 H2. destruct (reaped_sched _ _ _ _ _ _ _ _ _ _ _ _ Hkk H2) as (Hk2 & E2 & _ & Hpcb).
  pose proof (queue_removed _ _ _ _ Hqk) as Hq2. rewrite <-E2 in Hq2. fold l' in Hq2, E2.
  wp_step. wp_step. wp_step. cbv beta. rewrite Z.eqb_refl.
  assert (Ec : current_pid (sched_at i s2) = Z.of_nat k) by (rewrite E2, Ek; done).
  rewrite (q_count _ _ Hq2), Ec, (proj2 (Z.eqb_neq _ _)) by lia.
  rewrite (proj2 (Z.ltb_lt _ _)) by lia. cbn [negb andb]. unfold wp.
  rewrite Hrounds, (search_after fuel i s2 l' k cur p Hk2 Hq2 Ec); try done; [split; [done|]; by exists s2|].
  intros j q Hj. rewrite Hpcb; [by apply (Hlive j)|]. intros ->.
  pose proof (q_nodup _ _ Hqk) as Hnd. apply list_elem_of_lookup_2 in Hj. unfold l' in Hj.
  apply NoDup_app in Hnd as (_ & Hd & [Hd2 _]%NoDup_cons). apply elem_of_app in Hj as [Hj|Hj]; [|done].
  apply (Hd t Hj), elem_of_cons. by left.
Qed.
End Search.

(** ** The tick *)

Section Tick.
Context {FA : FrameAlloc} {FL : FrameAllocLaws} {FF : FrameFreeLaws}.

(** What is left of process [t] in [s']: its frames are the allocator's again, its block
    is in the free list, its control block is no longer mapped where its address could be
    unmapped; the pages of other clients keep their bytes. *)
Record process_freed (s : machine) (t c pm : Z) (regs : list region) (fl : list (Z * Z)) (lo hi n : Z)
    (s' : machine) : Prop := ProcessFreed {
  pf_inv : fa_inv s';
  pf_pt : pt_ok s' pm;
  pf_heap : heap_ok s' (ff_free (t - sizeof_block, n) fl) lo hi;
  pf_owned : forall f, fa_owned s' f <-> fa_owned s f /\ page_at s f ∉ ctx_nodes c regs;
  pf_lookup : forall v, lookup s' pm v = unmapped pm t (lookup s pm) v;
  pf_bytes : forall u, client_page s u -> not_table s pm u -> u ∉ ctx_nodes c regs ->
      node_agree (mem s) (mem s') u }.

(** The scheduler's state around the reaping does not matter for it. *)
Lemma reaped_freed i s sk s2 s' t c pm regs fl lo hi n l' :
  vctx_ok s c pm regs -> mem sk = mem s -> hhdm_offset sk = hhdm_offset s -> pmm sk = pmm s ->
  reaped i sk t c pm regs fl lo hi n l' s2 ->
  mem s' = mem s2 -> hhdm_offset s' = hhdm_offset s2 -> pmm s' = pmm s2 -> heap s' = heap s2 ->
  process_freed s t c pm regs fl lo hi n s'.
Proof.
  intros Hctx Em Eh Ep [H1 H2 H3 H4 H5 H6 H7 _] Fm Fh Fp Fhp.
  destruct (same_memory s sk pm (vc_inv _ _ _ _ Hctx) (vc_pt _ _ _ _ Hctx) Em Eh Ep)
    as (_ & Ho & _ & Hnt & Hlk).
  destruct (same_memory s2 s' pm H1 H2 Fm Fh Fp) as (Hi' & Ho' & Hpt' & _ & Hlk').
  assert (Hpg : forall f, page_at sk f = page_at s f) by (intros f; unfold page_at; by rewrite Eh).
  split; [done|done| | | |].
  - destruct H3 as [G1 G2 G3]. split; [done|done|]. by rewrite Fm, Fhp.
  - intros f. by rewrite Ho', H4, Ho, Hpg.
  - intros v. rewrite Hlk', H5. unfold unmapped, set_page.
    destruct (has t _); [|case_decide; [done|]]; by rewrite Hlk.
  - intros u Hu Htb Hn. rewrite Fm, <-Em. apply H6; [|by apply Hnt|done].
    apply (client_page_mono s); [done|intros f; apply Ho|done].
Qed.

Context (fuel : nat) (i : Z) (s : machine) (a : rr) (regs0 : register_ctx).
Context (t c pm : Z) (regs : list region) (fl : list (Z * Z)) (lo hi n : Z) (l1 l2 : list Z).
Let l' := l1 ++ l2.
Let k := length l1.
Hypothesis (Hrel : rr_rel i s a) (Hprocs : rr_procs a = l1 ++ t :: l2) (Hnext : k = S (rr_cur a)).
Hypothesis (Hpo : process_owns s t c pm regs fl lo hi n).
Hypothesis (Hc : p_vctx (pcb_at s t) = c) (Hpm : p_pagemap (pcb_at s t) = pm).
Hypothesis (Hf1 : (length regs < fuel)%nat) (Hf2 : (length fl < fuel)%nat).

Let st := terminated t s.

(** The state in which the search begins: locked, the running process charged. *)
Definition searching (cu : Z) : machine :=
  set_pcbs (<[cu := charged regs0 (pcb_at s cu)]> (pcbs (sched (locked i st)))) (locked i st).

Lemma queue_places :
  exists cu p, l' !! rr_cur a = Some cu /\ rr_current a = cu /\ cu <> t /\
    l' !! reap_index k (length l') = Some p /\ p <> t /\ delete (rr_next a) (rr_procs a) = l' /\
    rr_next a = k /\ (forall j q, l' !! j = Some q -> q <> t).
Proof.
  pose proof (rel_queue _ _ _ Hrel) as Hq. pose proof (q_nodup _ _ Hq) as Hnd. rewrite Hprocs in Hnd.
  assert (Ht : forall j q, l' !! j = Some q -> q <> t).
  { intros j q Hj ->. apply list_elem_of_lookup_2 in Hj. unfold l' in Hj.
    apply NoDup_app in Hnd as (_ & Hd & [Hd2 _]%NoDup_cons). apply elem_of_app in Hj as [Hj|Hj]; [|done].
    apply (Hd t Hj), elem_of_cons. by left. }
  assert (Hlt : (rr_cur a < length l1)%nat) by (unfold k in Hnext; lia).
  destruct (lookup_lt_is_Some_2 l1 _ Hlt) as [cu Hcu].
  assert (Hcu' : l' !! rr_cur a = Some cu) by (by apply lookup_app_l_Some).
  assert (Hidx : (reap_index k (length l') < length l')%nat).
  { unfold reap_index. case_decide; [done|]. unfold l'. rewrite length_app. lia. }
  destruct (lookup_lt_is_Some_2 l' _ Hidx) as [p Hp].
  assert (Hn : rr_next a = k).
  { unfold rr_next. rewrite <-Hnext, Hprocs, length_app. cbn [length]. apply Nat.mod_small. unfold k. lia. }
  exists cu, p. split; [done|]. split; [|split; [by apply (Ht _ _ Hcu')|split; [done|split; [by apply (Ht _ _ Hp)|split; [|done]]]]].
  - unfold rr_current. rewrite Hprocs, lookup_app_l, Hcu by done. done.
  - rewrite Hn, Hprocs. unfold k, l'. rewrite delete_middle. done.
Qed.

Lemma searching_pcb cu q : cu <> t ->
  pcb_at (searching cu) q =
    if decide (q = cu) then charged regs0 (pcb_at s cu)
    else if decide (q = t) then with_state PROC_TERMINATED (pcb_at s t) else pcb_at s q.
Proof.
  intros Hne. unfold searching. case_decide as H1.
  - subst q. by rewrite (pcb_at_insert_eq (locked i st)).
  - rewrite (pcb_at_insert_ne (locked i st)) by congruence. change (pcb_at (locked i st) q) with (pcb_at st q).
    unfold st, terminated. case_decide as H2; [subst q; apply pcb_at_insert_eq|].
    apply pcb_at_insert_ne. congruence.
Qed.

Lemma searching_sched cu : sched_at i (searching cu) = with_lock 1 (sched_at i s).
Proof.
  change (sched_at i (searching cu)) with (sched_at i (locked i st)).
  rewrite sched_at_locked; [done|]. apply (rel_known _ _ _ Hrel).
Qed.

(** A process that stays is ready when the search comes by. *)
Lemma searching_ready cu j q :
  l' !! rr_cur a = Some cu -> rr_current a = cu -> cu <> t -> l' !! j = Some q -> q <> t ->
  p_state (pcb_at (searching cu) q) = PROC_READY /\
  p_timeslice (pcb_at (searching cu) q) = PROC_DEFAULT_TIME /\
  pagemap_ok s (p_pagemap (pcb_at (searching cu) q)) /\
  <[rr_current a := regs0]> (rr_saved a) !! q = Some (p_ctx (pcb_at (searching cu) q)).
Proof.
  intros Hcu Hcur Hct Hj Hqt. rewrite searching_pcb by done.
  assert (Hin : exists j', rr_procs a !! j' = Some q).
  { apply list_elem_of_lookup_1. rewrite Hprocs, elem_of_app, elem_of_cons.
    apply list_elem_of_lookup_2 in Hj. unfold l' in Hj. rewrite elem_of_app in Hj. tauto. }
  destruct Hin as [j' Hj'].
  assert (Hcj : rr_procs a !! rr_cur a = Some cu).
  { unfold rr_current in Hcur. destruct (lookup_lt_is_Some_2 _ _ (rel_bound _ _ _ Hrel)) as [x Hx].
    rewrite Hx in *. cbn in Hcur. by subst x. }
  pose proof (rel_state _ _ _ Hrel _ _ Hj') as [Hs Hts]. pose proof (rel_pagemap _ _ _ Hrel _ _ Hj') as Hpmo.
  rewrite Hcur. destruct (decide (q = cu)) as [Hd|Hd].
  - subst q. rewrite lookup_insert_eq. split_and!; done.
  - rewrite decide_False in Hs.
    + rewrite (decide_False (P := q = t)), lookup_insert_ne by congruence.
      split_and!; try done. apply (rel_saved _ _ _ Hrel j' q Hj'). intros ->. congruence.
    + intros ->. congruence.
Qed.

(** The search and what follows it, from the state in which it begins. *)
Lemma search_resumes cu p :
  l' !! rr_cur a = Some cu -> rr_current a = cu -> cu <> t ->
  l' !! reap_index k (length l') = Some p -> (forall j q, l' !! j = Some q -> q <> t) ->
  wp (tick_search (Z.to_nat PROC_MAX_PROCS_PER_CPU) fuel i (Z.of_nat (rr_cur a))) (fun r s3 =>
    r = p /\ p <> NULL /\ p_state (pcb_at s3 p) = PROC_READY /\ pagemap_ok s3 (p_pagemap (pcb_at s3 p)) /\
    p_ctx (pcb_at s3 p) = p_ctx (pcb_at (searching cu) p) /\
    exists s2, reaped i (at_current i (Z.of_nat k) (searching cu)) t c pm regs fl lo hi n l' s2 /\
      s3 = at_current i (Z.of_nat (reap_index k (length l'))) s2) (searching cu).
Proof.
  intros Hcu Hcur Hct Hp Hnt. pose proof Hrel as [Hcpu Hk Hlk Hq Hcp Hb _ _ _].
  assert (Hks : cpu_known i (searching cu)) by (by apply cpu_known_set).
  assert (Hqs : queue (sched_at i (searching cu)) (l1 ++ t :: l2))
    by (rewrite searching_sched, <-Hprocs; by apply queue_with_lock).
  assert (Et : pcb_at (searching cu) t = with_state PROC_TERMINATED (pcb_at s t))
    by (by rewrite searching_pcb, decide_False, decide_True by congruence).
  assert (Hpo' : process_owns (searching cu) t c pm regs fl lo hi n) by (by apply (process_owns_same s)).
  eapply wp_mono.
  { apply (search_reaps fuel i (searching cu) t c pm regs fl lo hi n l1 l2 (rr_cur a) p); try done.
    - by rewrite searching_sched.
    - by rewrite Et.
    - by rewrite Et.
    - by rewrite Et.
    - intros j q Hj. by destruct (searching_ready cu j q Hcu Hcur Hct Hj (Hnt _ _ Hj)) as (-> & _). }
  intros r s3 [-> (s2 & H2 & ->)]. fold l' in H2 |- *. fold k in H2 |- *.
  assert (Hkk : cpu_known i (at_current i (Z.of_nat k) (searching cu))) by (by apply cpu_known_set).
  destruct (reaped_sched _ _ _ _ _ _ _ _ _ _ _ _ Hkk H2) as (_ & _ & _ & Hpcb).
  destruct (searching_ready cu _ p Hcu Hcur Hct Hp (Hnt _ _ Hp)) as (Hr & _ & Hpmo & _).
  assert (Ep : pcb_at (at_current i (Z.of_nat (reap_index k (length l'))) s2) p = pcb_at (searching cu) p)
    by exact (Hpcb p (Hnt _ _ Hp)).
  rewrite Ep. split_and!; try done.
  - intros ->. apply (q_null _ _ Hqs). apply list_elem_of_lookup_2 in Hp. unfold l' in Hp.
    rewrite elem_of_app in *. rewrite elem_of_cons. tauto.
  - unfold pagemap_ok in *. change (hhdm_offset (at_current i ?x s2)) with (hhdm_offset s2).
    by rewrite (rp_hhdm _ _ _ _ _ _ _ _ _ _ _ _ H2).
  - by exists s2.
Qed.

(** The state after the tick, [s2] being the one after the reaping. *)
Lemma tick_reaps_run cu p :
  l' !! rr_cur a = Some cu -> rr_current a = cu -> cu <> t ->
  l' !! reap_index k (length l') = Some p -> (forall j q, l' !! j = Some q -> q <> t) ->
  wp (sched_tick fuel (Some regs0)) (fun r s' => exists s2,
    reaped i (at_current i (Z.of_nat k) (searching cu)) t c pm regs fl lo hi n l' s2 /\
    let s3 := at_current i (Z.of_nat (reap_index k (length l'))) s2 in
    r = Some (p_ctx (pcb_at (searching cu) p)) /\ s' = resumed i p s3) st.
Proof.
  intros Hcu Hcur Hct Hp Hnt. pose proof Hrel as [Hcpu Hk Hlk Hq Hcp Hb Hst Hsv Hpmo].
  assert (Hkt : cpu_known i st) by exact Hk.
  assert (Hcj : rr_procs a !! rr_cur a = Some cu).
  { unfold rr_current in Hcur. destruct (lookup_lt_is_Some_2 _ _ Hb) as [x Hx].
    rewrite Hx in *. cbn in Hcur. by subst x. }
  assert (Ecu : pcb_at st cu = pcb_at s cu) by (apply (pcb_at_insert_ne s); congruence).
  destruct (Hst _ _ Hcj) as [Hrun Hts]. rewrite decide_True in Hrun by done.
  assert (Es : searched i cu regs0 st = searching cu) by (unfold searched; by rewrite Ecu).
  destruct (wp_run _ _ _ (search_resumes cu p Hcu Hcur Hct Hp Hnt))
    as (r & s3 & Hsr & -> & Hn & Hr & Hpm3 & Ec & s2 & H2 & E3).
  unfold wp. rewrite (tick_found fuel i st (rr_procs a) (rr_cur a) cu regs0 p s3); try done;
    rewrite ?Ecu, ?Es; try done.
  exists s2. split; [done|]. rewrite Ec, <-E3. done.
Qed.

Lemma resumed_pcb p s3 q :
  pcb_at (resumed i p s3) q = if decide (q = p) then with_state PROC_RUNNING (pcb_at s3 p) else pcb_at s3 q.
Proof.
  set (v := with_state PROC_RUNNING (pcb_at s3 p)).
  change (pcb_at (resumed i p s3) q) with (pcb_at (set_pcbs (<[p := v]> (pcbs (sched s3))) s3) q).
  case_decide as Hd; [subst q; apply pcb_at_insert_eq|apply pcb_at_insert_ne; congruence].
Qed.

Lemma reaped_rel cu p s2 :
  l' !! rr_cur a = Some cu -> rr_current a = cu -> cu <> t ->
  l' !! reap_index k (length l') = Some p -> (forall j q, l' !! j = Some q -> q <> t) ->
  delete (rr_next a) (rr_procs a) = l' -> rr_next a = k ->
  reaped i (at_current i (Z.of_nat k) (searching cu)) t c pm regs fl lo hi n l' s2 ->
  let s' := resumed i p (at_current i (Z.of_nat (reap_index k (length l'))) s2) in
  rr_rel i s' (rr_reap regs0 a).2 /\ p_ctx (pcb_at (searching cu) p) = (rr_reap regs0 a).1.
Proof.
  intros Hcu Hcur Hct Hp Hnt Hdel Hnx H2 s'. pose proof Hrel as [Hcpu Hk Hlk Hq Hcp Hb _ _ _].
  assert (Hkk : cpu_known i (at_current i (Z.of_nat k) (searching cu))) by (by apply cpu_known_set, cpu_known_set).
  destruct (reaped_sched _ _ _ _ _ _ _ _ _ _ _ _ Hkk H2) as (Hk2 & E2 & Hcpu2 & Hpcb).
  assert (Hq2 : queue (sched_at i s2) l').
  { rewrite E2. apply queue_removed with t. unfold at_current.
    rewrite sched_at_set by (by apply cpu_known_set). rewrite searching_sched, <-Hprocs.
    by apply queue_with_current, queue_with_lock. }
  assert (E' : sched_at i s' = with_lock 0 (with_current (Z.of_nat (reap_index k (length l'))) (sched_at i s2))).
  { unfold s', resumed. rewrite sched_at_set by (by apply cpu_known_set). f_equal. by apply sched_at_set. }
  assert (Epcb : forall j q, l' !! j = Some q -> pcb_at s' q =
    if decide (q = p) then with_state PROC_RUNNING (pcb_at (searching cu) p) else pcb_at (searching cu) q).
  { intros j q Hj. unfold s'. rewrite resumed_pcb.
    case_decide; exact (f_equal _ (Hpcb _ (Hnt _ _ Hp))) || exact (Hpcb q (Hnt _ _ Hj)). }
  unfold rr_reap. rewrite Hdel, Hnx. cbn [fst snd]. split.
  - split; cbn [rr_procs rr_cur rr_saved].
    + change (this_cpu s') with (this_cpu s2). by rewrite Hcpu2.
    + unfold s', resumed. by apply cpu_known_set, cpu_known_set.
    + by rewrite E'.
    + rewrite E'. by apply queue_with_lock, queue_with_current.
    + by rewrite E'.
    + by apply lookup_lt_Some in Hp.
    + intros j q Hj. rewrite (Epcb j q Hj).
      destruct (searching_ready cu j q Hcu Hcur Hct Hj (Hnt _ _ Hj)) as (Hr & Ht & _).
      unfold proc_state_ok. rewrite (decide_ext (j = reap_index k (length l')) (q = p)).
      * case_decide as Hd; [subst q|]; done.
      * split; [intros ->; congruence|intros ->; exact (NoDup_lookup _ _ _ _ (q_nodup _ _ Hq2) Hj Hp)].
    + intros j q Hj Hne. rewrite (Epcb j q Hj). rewrite decide_False.
      * by destruct (searching_ready cu j q Hcu Hcur Hct Hj (Hnt _ _ Hj)) as (_ & _ & _ & ?).
      * intros ->. apply Hne. exact (NoDup_lookup _ _ _ _ (q_nodup _ _ Hq2) Hj Hp).
    + intros j q Hj. rewrite (Epcb j q Hj).
      destruct (searching_ready cu j q Hcu Hcur Hct Hj (Hnt _ _ Hj)) as (_ & _ & Hpmo & _).
      unfold pagemap_ok in *. change (hhdm_offset s') with (hhdm_offset s2).
      rewrite (rp_hhdm _ _ _ _ _ _ _ _ _ _ _ _ H2). case_decide as Hd; [subst q|]; done.
  - rewrite Hp. cbn [default id].
    destruct (searching_ready cu _ p Hcu Hcur Hct Hp (Hnt _ _ Hp)) as (_ & _ & _ & ->). done.
Qed.

(** A tick that comes across the terminated process. *)
Lemma sched_tick_reaps_spec :
  wp (sched_tick fuel (Some regs0)) (fun r s' =>
    r = Some (rr_reap regs0 a).1 /\ rr_rel i s' (rr_reap regs0 a).2 /\
    process_freed s t c pm regs fl lo hi n s') st.
Proof.
  destruct queue_places as (cu & p & Hcu & Hcur & Hct & Hp & _ & Hdel & Hnx & Hnt).
  eapply wp_mono; [by apply (tick_reaps_run cu p)|].
  intros r s' (s2 & H2 & -> & ->).
  destruct (reaped_rel cu p s2 Hcu Hcur Hct Hp Hnt Hdel Hnx H2) as [Hrel' ->].
  split; [done|]. split; [done|].
  by apply (reaped_freed i s (at_current i (Z.of_nat k) (searching cu)) s2 _ t c pm regs fl lo hi n l'
    (po_ctx _ _ _ _ _ _ _ _ _ Hpo)).
Qed.
End Tick.

Section Props.
Context {FA : FrameAlloc} {FL : FrameAllocLaws} {FF : FrameFreeLaws}.

(** C21: terminating the process in the slot behind the running one, and then ticking:
    the queue loses exactly that process, its region nodes and context page go back to
    the frame allocator and its control block to the heap; the others keep their order
    and registers, and the process one slot further than the one that moved up resumes
    with exactly its saved registers (the first one when there is none). *)
Theorem terminate_reaps fuel dummy i s a frame t c pm regs fl lo hi n l1 l2 :
  rr_rel i s a -> rr_procs a = l1 ++ t :: l2 -> length l1 = S (rr_cur a) ->
  (forall j q, rr_procs a !! j = Some q -> p_pid (pcb_at s q) = p_pid (pcb_at s t) -> j = length l1) ->
  process_owns s t c pm regs fl lo hi n -> p_vctx (pcb_at s t) = c -> p_pagemap (pcb_at s t) = pm ->
  (length regs < fuel)%nat -> (length fl < fuel)%nat ->
  wp (sched_terminate fuel dummy (p_pid (pcb_at s t)) ;;; sched_tick fuel (Some frame)) (fun r s' =>
    r = Some (rr_reap frame a).1 /\ rr_rel i s' (rr_reap frame a).2 /\
    process_freed s t c pm regs fl lo hi n s') s.
Proof.
  intros Hrel Hprocs Hnext Hpid Hpo Hc Hpm Hf1 Hf2.
  wp_step. unfold wp at 1. rewrite (sched_terminate_other fuel dummy i s (rr_procs a) (length l1) t).
  - by apply (sched_tick_reaps_spec fuel i s a frame t c pm regs fl lo hi n l1 l2).
  - apply Hrel.
  - apply Hrel.
  - apply Hrel.
  - apply Hrel.
  - by rewrite Hprocs, list_lookup_middle.
  - rewrite (rel_cur _ _ _ Hrel). lia.
  - done.
Qed.
End Props.

(** Three processes, the second terminated: the first runs on and the third, though
    ready, is passed over. *)
Lemma reap_skips_successor frame x t y saved :
  (rr_reap frame (RR [x; t; y] 0 saved)).2 = RR [x; y] 0 (<[x := frame]> saved).
Proof. reflexivity. Qed.

(** ** A process that runs and one to terminate, in any state with a context *)

Definition dying_pcb (c pm : Z) : pcb_t :=
  Pcb 9 PROC_READY PROC_DEFAULT_TIME pm c (regs_at 0x200) 0 0 true.
Definition runner_pcb (pm : Z) : pcb_t :=
  Pcb 7 PROC_RUNNING PROC_DEFAULT_TIME pm 0 (regs_at 0x100) 0 0 true.

(** The block of the second process is the only one of a heap at 0x5000. *)
Definition dying (s : machine) (c pm : Z) : machine :=
  set_sched
    (Sched (CpuSched 0x6000 ([0x7000; 0x5010] ++ replicate 510 NULL) 2 0 0 :: replicate 63 no_sched)
       {[0x7000 := runner_pcb pm; 0x5010 := dying_pcb c pm]} 10 0)
    (set_heap (Heap 0x5000 NULL) (set_mem (store64 (mem s) 0x5000 0x110) s)).

Definition dying_rr : rr := RR [0x7000; 0x5010] 0 {[0x5010 := regs_at 0x200]}.

Lemma dying_rel s c pm : pagemap_ok s pm -> rr_rel 0 (dying s c pm) dying_rr.
Proof.
  intros Hpm. refine (RrRel 0 (dying s c pm) dying_rr eq_refl _ eq_refl _ eq_refl _ _ _ _).
  - unfold cpu_known. cbn. lia.
  - split; [reflexivity|reflexivity|..].
    + apply Nat.leb_le. reflexivity.
    + cbn. rewrite NoDup_cons, list_elem_of_singleton. split; [discriminate|apply NoDup_singleton].
    + cbn. rewrite !elem_of_cons, elem_of_nil. intros [?|[?|[]]]; discriminate.
  - cbn. lia.
  - intros [|[|k]] p Hp; [| |discriminate Hp]; injection Hp as <-; split; reflexivity.
  - intros [|[|k]] p Hp; [| |discriminate Hp]; injection Hp as <-; intros Hk; [|reflexivity].
    destruct (Hk eq_refl).
  - intros [|[|k]] p Hp; [| |discriminate Hp]; injection Hp as <-; exact Hpm.
Qed.

Section Dying.
Context {FA : FrameAlloc} {FL : FrameAllocLaws}.

Lemma dying_owns s c pm l :
  vctx_ok s c pm l -> 0x6000 <= hhdm_offset s ->
  process_owns (dying s c pm) 0x5010 c pm l [] 0x5000 0x6000 0x110.
Proof.
  intros Hok Hh. set (s1 := set_mem (store64 (mem s) 0x5000 0x110) s).
  assert (Hm : forall a, hhdm_offset s <= a -> load8 (mem s1) a = load8 (mem s) a).
  { intros a Ha. apply load8_store64_out. lia. }
  assert (Hok1 : vctx_ok s1 c pm l).
  { pose proof (vc_inv _ _ _ _ Hok) as Hi.
    destruct (fa_client s s1 Hi eq_refl eq_refl) as [Hi1 Ho1].
    { intros a Ha Hne. by destruct Hne; apply Hm. }
    apply (vctx_ok_grown s); [done..|]. split; [done|intros g; apply Ho1|].
    intros u a Hu Ha. apply Hm. destruct (client_page_bounds s u Hi Hu) as (Hle & _).
    unfold in_range in Ha. lia. }
  split.
  - by apply (vctx_same_memory s1).
  - split; [split; [discriminate|reflexivity]|cbn; discriminate|reflexivity].
  - exact Hh.
  - split; [|discriminate]. apply load64_store64_id. lia.
  - unfold sizeof_block. lia.
  - intros a k Hin. by apply not_elem_of_nil in Hin.
Qed.
End Dying.

Lemma vs2_root : pagemap_ok vs2 root0 /\ 0x6000 <= hhdm_offset vs2.
Proof.
  assert (H : negb (root0 =? NULL) && IS_PAGE_ALIGNED (PHYSICAL (hhdm_offset vs2) root0)
    && (0x6000 <=? hhdm_offset vs2) = true) by (vm_compute; reflexivity).
  apply andb_true_iff in H as [H H3]. apply andb_true_iff in H as [H1 H2].
  apply negb_true_iff in H1.
  exact (conj (conj (proj1 (Z.eqb_neq _ _) H1) H2) (proj1 (Z.leb_le _ _) H3)).
Qed.

Lemma dying_pcbs s c pm j q :
  rr_procs dying_rr !! j = Some q -> p_pid (pcb_at (dying s c pm) q) = p_pid (pcb_at (dying s c pm) 0x5010) ->
  j = 1%nat.
Proof.
  destruct j as [|[|j]]; intros Hq; [injection Hq as <-; discriminate|reflexivity|discriminate Hq].
Qed.

Lemma dying_pcb_at s c pm : pcb_at (dying s c pm) 0x5010 = dying_pcb c pm.
Proof. reflexivity. Qed.

Lemma terminate_reaps_witness :
  rr_reap (regs_at 0x104) dying_rr =
    (regs_at 0x104, RR [0x7000] 0 (<[0x7000 := regs_at 0x104]> {[0x5010 := regs_at 0x200]})) /\
  wp (sched_terminate 10 zero_ctx (p_pid (pcb_at (dying vs2 ctx0 root0) 0x5010)) ;;;
      sched_tick 10 (Some (regs_at 0x104))) (fun r s' =>
    r = Some (rr_reap (regs_at 0x104) dying_rr).1 /\ rr_rel 0 s' (rr_reap (regs_at 0x104) dying_rr).2 /\
    process_freed (dying vs2 ctx0 root0) 0x5010 ctx0 root0 [reg0; reg1] [] 0x5000 0x6000 0x110 s')
    (dying vs2 ctx0 root0).
Proof.
  split; [reflexivity|]. destruct vs2_root as [Hpm Hh].
  apply (terminate_reaps 10 zero_ctx 0 (dying vs2 ctx0 root0) dying_rr (regs_at 0x104) 0x5010
    ctx0 root0 [reg0; reg1] [] 0x5000 0x6000 0x110 [0x7000] [] (dying_rel vs2 ctx0 root0 Hpm)
    eq_refl eq_refl (dying_pcbs vs2 ctx0 root0) (dying_owns vs2 ctx0 root0 [reg0; reg1] vs2_ok Hh)
    (f_equal p_vctx (dying_pcb_at vs2 ctx0 root0)) (f_equal p_pagemap (dying_pcb_at vs2 ctx0 root0))).
  - cbn. lia.
  - cbn. lia.
Defined.
