(* ===== verification/Spawn.v ===== *)
(** * sys/sched.c: the start of a process

    [sched_spawn] takes a control block from the heap, allocates a stack in the
    process's context, shares the kernel's mappings with the process and appends it to
    the queue of the CPU. *)

From S2P Require Export VmmData Reap.

(** ** The kernel's translations *)

(** The tables of the page map [kpm] on the way to [w] lie in pages of [D]. *)
Definition reads (s : machine) (D : Z -> Prop) (kpm w : Z) : Prop :=
  forall p t, p `prefix_of` table_path w -> walk s kpm p = Some t -> D t.

Lemma reads_walk s s' (D : Z -> Prop) kpm w p :
  reads s D kpm w -> hhdm_offset s' = hhdm_offset s ->
  (forall u, D u -> node_agree (mem s) (mem s') u) -> p `prefix_of` table_path w ->
  walk s' kpm p = walk s kpm p.
Proof.
  intros Hr Hh Hm Hp. apply walk_ext. intros q t i r -> Hq. apply get_table_ext; [done|].
  apply entry_kept; [|by apply prefix_is_path in Hp as [_ [_ [? _]%Forall_cons]%Forall_app]; [|apply table_path_is_path]].
  intros a Ha. apply (Hm t); [|done]. apply (Hr q); [|done]. etransitivity; [|exact Hp]. by eexists.
Qed.

Lemma reads_kept s s' (D : Z -> Prop) kpm w :
  reads s D kpm w -> hhdm_offset s' = hhdm_offset s ->
  (forall u, D u -> node_agree (mem s) (mem s') u) ->
  reads s' D kpm w /\ virt_to_phys s' kpm w = virt_to_phys s kpm w.
Proof.
  intros Hr Hh Hm.
  assert (Hw : forall p, p `prefix_of` table_path w -> walk s' kpm p = walk s kpm p)
    by (intros p; by apply (reads_walk s s' D)).
  split; [intros p t Hp; rewrite Hw by done; by apply Hr|].
  destruct (decide (kpm = NULL)) as [->|Hn]; [done|]. rewrite !virt_to_phys_lookup by done.
  unfold lookup. rewrite Hw by done. destruct (walk s kpm (table_path w)) as [t|] eqn:Ht; [|done].
  rewrite (entry_kept s s' t); [done| |by apply page_index_idx].
  apply Hm. by apply (Hr (table_path w)).
Qed.

Lemma virt_to_phys_range s kpm w : 0 <= virt_to_phys s kpm w < 2 ^ 64.
Proof.
  destruct (decide (kpm = NULL)) as [->|Hn]; [done|]. rewrite virt_to_phys_lookup by done.
  destruct (lookup s kpm w) as [e|]; [|done]. rewrite land_page_mask. unfold PAGE_SIZE.
  pose proof (Z.mod_pos_bound (e / 4096) (2 ^ 40)). lia.
Qed.

(** The pages that a call of [map_range_to_pagemap] goes through. *)
Definition page_run (start size w : Z) : Prop :=
  exists k : nat, (k < iters 0 size PAGE_SIZE)%nat /\ w = w64 (start + Z.of_nat k * PAGE_SIZE).

(** ** Sharing mappings *)

Section Share.
Context {FA : FrameAlloc} {FL : FrameAllocLaws}.
Context (s0 : machine) (c pm : Z) (l : list region) (kpm flags : Z) (P : Z -> Prop).
Hypothesis (Hflags : 0 <= flags < 2 ^ 64) (Hpresent : has flags VMM_PRESENT = true).

(** Pages of [P] may translate as in the kernel's page map, with [flags]; all else is as
    in [s0]. *)
Record shared (s : machine) : Prop := Shared {
  sh_ctx : vctx_ok s c pm l;
  sh_kept : kept pm s0 s;
  sh_lookup : forall v, lookup s pm v = lookup s0 pm v \/
      exists w, P w /\ page_of v = page_of w /\
        lookup s pm v = Some (Z.lor (virt_to_phys s0 kpm w) flags) }.

Let D (u : Z) : Prop := client_page s0 u /\ not_table s0 pm u.

Lemma shared_reads s w :
  shared s -> reads s0 D kpm w -> virt_to_phys s kpm w = virt_to_phys s0 kpm w.
Proof.
  intros [_ Hk _] Hr. apply (reads_kept s0 s D); [done|by apply (k_hhdm pm)|].
  intros u [Hc Ht]. by apply Hk.
Qed.

Lemma share_page s w :
  shared s -> P w ->
  wp (vmap pm w (virt_to_phys s0 kpm w) flags) (fun _ s' => shared s') s.
Proof.
  intros [Hok Hk Hl] HP. eapply wp_mono.
  { apply (vmap_spec (client_page s)); [apply Hok|apply Hok|done|apply virt_to_phys_range|done]. }
  assert (Hnodes : forall u, u ∈ ctx_nodes c l -> client_page s u).
  { intros u Hu. pose proof (vc_client _ _ _ _ Hok) as Hc. rewrite Forall_forall in Hc. by apply Hc. }
  assert (Hup : forall s' tr, updates (client_page s) (table_path w) pm s s' tr ->
    vctx_ok s' c pm l /\ kept pm s0 s').
  { intros s' tr Hu. split.
    - exact (vctx_ok_updates _ _ _ _ _ _ _ Hok (table_path_is_path w) (updates_weaken _ _ _ _ _ _ _ Hnodes Hu)).
    - apply (kept_trans pm s0 s); [done|]. exact (kept_updates _ _ _ _ _ (table_path_is_path w) Hu). }
  cbv beta. intros r s' [(_ & Hu & _)|(_ & Hu & _)]; destruct (Hup s' _ Hu) as [Hok' Hk'];
    (split; [done|done|]); intros v; rewrite (up_lookup _ _ _ _ _ _ Hu); [apply Hl|].
  unfold set_page. destruct (decide (page_of v = page_of w)) as [Hv|]; [|apply Hl].
  right. exists w. rewrite has_lor, Hpresent, orb_true_r. done.
Qed.

Lemma share_range s start size :
  shared s ->
  (forall w, page_run start size w -> reads s0 D kpm w /\ (virt_to_phys s0 kpm w <> 0 -> P w)) ->
  wp (map_range_to_pagemap pm kpm start size flags) (fun _ s' => shared s') s.
Proof.
  intros Hs Hrun. unfold map_range_to_pagemap.
  apply (wp_for_loop _ 0 PAGE_SIZE _ (fun _ s' => shared s') s Hs). intros k s' Hk Hs'.
  destruct (Hrun (w64 (start + (0 + Z.of_nat k * PAGE_SIZE)))) as [Hr HP]; [by exists k|].
  wp_step. wp_step. cbv beta. rewrite (shared_reads s' _ Hs' Hr). wp_step.
  - wp_step. eapply wp_mono; [apply share_page; [done|]|by intros; apply wp_ret].
    apply HP. by apply Z.eqb_neq, negb_true_iff.
  - done.
Qed.

Lemma shared_chain s p kl :
  shared s -> chain (mem s0) p kl -> Forall D (rg_node <$> kl) -> chain (mem s) p kl.
Proof.
  intros [_ Hk _] Hch HD. apply (chain_agree (mem s0)); [|done].
  apply (Forall_impl _ _ _ HD). intros u [Hc Ht]. by apply Hk.
Qed.

(** The walk over the regions of the kernel's context, whose nodes are such pages. *)
Lemma share_regions fuel : forall kl s p,
  shared s -> chain (mem s0) p kl -> (length kl < fuel)%nat -> kernel_pagemap (paging s0) = kpm ->
  Forall D (rg_node <$> kl) ->
  (forall x w, x ∈ kl -> page_run (rg_start x) (w64 (rg_pages x * PAGE_SIZE)) w ->
     reads s0 D kpm w /\ (virt_to_phys s0 kpm w <> 0 -> P w)) ->
  wp (map_kernel_regions fuel pm p flags) (fun _ s' => shared s') s.
Proof.
  induction fuel as [|fuel IH]; intros kl s p Hs Hch Hf Hkp HD Hrun; [lia|].
  cbn [map_kernel_regions]. destruct kl as [|x kl].
  { cbn in Hch. subst p. by apply wp_ret. }
  pose proof (shared_chain s p _ Hs Hch HD) as (-> & Hn & Es & Ep & _).
  destruct (Z.eqb_spec (rg_node x) NULL); [done|].
  wp_step. wp_step. cbv beta. rewrite Es, Ep, (globals_pagemap _ _ (k_globals _ _ _ (sh_kept s Hs))), Hkp.
  wp_step. eapply wp_mono; [apply share_range; [done|]|].
  { intros w. apply Hrun, elem_of_cons. by left. }
  cbv beta. intros [] s1 Hs1. wp_step. wp_step. cbv beta.
  assert (Hnext : region_next (mem s1) (rg_node x) = region_next (mem s0) (rg_node x)).
  { apply Forall_cons in HD as [[Hc Ht] _].
    apply (region_fields_agree (mem s0) (mem s1)), (k_bytes pm s0 s1); [apply Hs1|done|done]. }
  rewrite Hnext. destruct Hch as (_ & _ & _ & _ & _ & Hch). cbn [length] in Hf.
  apply (IH kl); [done|done|lia|done|by apply Forall_cons in HD as [_ ?]|].
  intros y w Hy. apply Hrun, elem_of_cons. by right.
Qed.
End Share.

(** ** The process *)

Definition spawn_flags (user : bool) : Z :=
  Z.lor (Z.lor VMM_PRESENT VMM_WRITE) (if user then VMM_USER else 0).

Lemma spawn_flags_ok user :
  0 <= spawn_flags user < 2 ^ 64 /\ has (spawn_flags user) VMM_PRESENT = true.
Proof. by destruct user. Qed.

(** The control block of a process that is ready to run [entry] on a stack that ends at
    [top]. *)
Definition ready_pcb (user : bool) (entry pid pm c top : Z) : pcb_t :=
  with_timeslice PROC_DEFAULT_TIME (with_stack top 0x202 (new_pcb user entry pid pm c)).

(** The scheduler with one more process. *)
Definition appended (proc : Z) (c : cpu_sched_t) : cpu_sched_t :=
  with_count (count c + 1) (proc_set (count c) proc c).

Lemma queue_appended c l proc :
  queue c l -> (length l < Z.to_nat PROC_MAX_PROCS_PER_CPU)%nat -> proc ∉ l -> proc <> NULL ->
  queue (appended proc c) (l ++ [proc]).
Proof.
  intros [Hp Hc Hr Hnd Hn] Hlen Hin Hpn. split; cbn [procs count appended with_count proc_set with_procs].
  - rewrite Hc, Nat2Z.id, Hp, length_app. cbn [length].
    replace (Z.to_nat PROC_MAX_PROCS_PER_CPU - length l)%nat
      with (S (Z.to_nat PROC_MAX_PROCS_PER_CPU - (length l + 1))) by lia.
    cbn [replicate]. by rewrite insert_app_r_alt, Nat.sub_diag, <-app_assoc by lia.
  - rewrite length_app. cbn. lia.
  - rewrite length_app. cbn. lia.
  - apply NoDup_app. split_and!; [done| |apply NoDup_singleton].
    by intros x Hx ->%list_elem_of_singleton.
  - by intros [?|?%list_elem_of_singleton]%elem_of_app.
Qed.

(** ** sched_spawn *)

(** The pages that every process shares with the kernel. *)
Definition kernel_page (s : machine) (i : Z) (kl : list region) (w : Z) : Prop :=
  page_run (procs_at (sched_at i s)) (sizeof_ptr * PROC_MAX_PROCS_PER_CPU) w \/
  exists x, x ∈ kl /\ page_run (rg_start x) (w64 (rg_pages x * PAGE_SIZE)) w.

Section Spawn.
Context {FA : FrameAlloc} {FL : FrameAllocLaws}.

(** From [s] to [s'] only the scheduler, the free list and memory below the direct map
    may have changed. *)
Definition low_only (s s' : machine) : Prop :=
  (hhdm_offset s', memmap s', kvm_ctx s', pmm s', paging s') =
  (hhdm_offset s, memmap s, kvm_ctx s, pmm s, paging s) /\
  forall a, hhdm_offset s <= a -> load8 (mem s') a = load8 (mem s) a.

Lemma low_only_ctx s s' c pm l :
  low_only s s' -> vctx_ok s c pm l ->
  vctx_ok s' c pm l /\ data_kept c pm l l s s' /\ (forall f, fa_owned s' f <-> fa_owned s f) /\
  (forall v, lookup s' pm v = lookup s pm v).
Proof.
  intros [Hg Hm] Hok.
  destruct (high_grown s s' (vc_inv _ _ _ _ Hok)) as (Hi' & Ho & Hgr); [congruence..|done|].
  destruct (grown_page s s' pm (vc_pt _ _ _ _ Hok) Hgr) as (_ & _ & Hlk).
  split_and!; [by apply (vctx_ok_grown s)|by apply data_kept_grown|done|done].
Qed.

Lemma low_only_linked s s' c pm l : low_only s s' -> vctx_ok s c pm l -> linked s pm -> linked s' pm.
Proof.
  intros [Hg Hm] Hok.
  destruct (high_grown s s' (vc_inv _ _ _ _ Hok)) as (_ & _ & Hgr); [congruence..|done|].
  apply grown_linked; [apply Hok|done].
Qed.

(** Before [sched_spawn] on CPU [i] for the context [c] of the page map [pm]: the
    kernel's heap lies below the direct map, and the kernel's context and the tables that
    map what is shared with the process lie in data pages. *)
Record spawn_ready (s : machine) (i c pm : Z) (regs : list region) (fl : list (Z * Z)) (lo hi : Z)
    (l : list Z) (kl : list region) : Prop := SpawnReady {
  sr_cpu : this_cpu s = i;
  sr_known : cpu_known i s;
  sr_lock : s_lock (sched_at i s) = 0;
  sr_queue : queue (sched_at i s) l;
  sr_procs : forall p, p ∈ l -> ~ covered fl p;
  sr_heap : heap_ok s fl lo hi;
  sr_low : hi <= hhdm_offset s;
  sr_ctx : vctx_ok s c pm regs;
  sr_room : forall x, x ∈ regs -> rg_end x + 4 * PAGE_SIZE <= 2 ^ 48;
  sr_chain : chain (mem s) (ctx_root (mem s) (kvm_ctx s)) kl;
  sr_nodes : Forall (data_page s c pm regs) (ctx_nodes (kvm_ctx s) kl);
  sr_reads : forall w, lo <= w < hi \/ kernel_page s i kl w ->
      reads s (data_page s c pm regs) (kernel_pagemap (paging s)) w }.

(** The control block is there, the lock is held. *)
Record begun (s : machine) (i : Z) (fl : list (Z * Z)) (lo hi proc n : Z) (fl' : list (Z * Z))
    (v : pcb_t) (s' : machine) : Prop := Begun {
  bg_low : low_only s s';
  bg_heap : heap_ok s' fl' lo hi;
  bg_block : block_size (mem s') (proc - sizeof_block) = n;
  bg_inside : lo <= proc - sizeof_block /\ proc + n <= hi;
  bg_apart : apart (proc - sizeof_block, n) fl';
  bg_size : sizeof_pcb <= n;
  bg_free : covered fl proc;
  bg_length : (length fl' <= length fl)%nat;
  bg_sched : sched s' = Sched (<[Z.to_nat i := with_lock 1 (sched_at i s)]> (cpu_schedulers (sched s)))
    (<[proc := v]> (pcbs (sched s))) (w32 (global_pid_counter (sched s) + 1)) (cpu_index (sched s)) }.

Lemma begun_sched s i fl lo hi proc n fl' v s' s1 :
  begun s i fl lo hi proc n fl' v s' -> cpu_known i s -> sched s1 = sched s' ->
  cpu_known i s1 /\ sched_at i s1 = with_lock 1 (sched_at i s) /\ pcb_at s1 proc = v.
Proof.
  intros Hb Hk E. rewrite (bg_sched _ _ _ _ _ _ _ _ _ _ Hb) in E.
  unfold cpu_known, sched_at, pcb_at. rewrite E. cbn. rewrite length_insert, lookup_insert_eq.
  split; [done|]. by rewrite list_lookup_insert_eq.
Qed.

Section Steps.
Context (fuel : nat) (s : machine) (i c pm : Z) (regs : list region) (fl : list (Z * Z)) (lo hi : Z).
Context (l : list Z) (kl : list region) (user : bool) (entry : Z).
Hypothesis (Hready : spawn_ready s i c pm regs fl lo hi l kl).
Hypothesis (Hf1 : (length regs < fuel)%nat) (Hf2 : (length fl < fuel)%nat) (Hf3 : (length kl < fuel)%nat).

Let kpm := kernel_pagemap (paging s).
Let pid := global_pid_counter (sched s).
Let flags := spawn_flags user.

(** Why [sched_spawn] gives up: the queue is full, no free block holds a control block,
    no frame is left, or the stack would start at address 0. *)
Definition spawn_reason (s' : machine) : Prop :=
  (Z.to_nat PROC_MAX_PROCS_PER_CPU <= length l)%nat \/
  (forall a k, (a, k) ∈ fl -> k < ALIGN_UP sizeof_pcb 8) \/ fa_full s' \/
  (exists x, x ∈ regs /\ rg_end x = NULL).

Lemma spawn_reason_same s1 s2 : pmm s2 = pmm s1 -> spawn_reason s1 -> spawn_reason s2.
Proof.
  intros Hp [?|[?|[Hw|?]]]; [by left|by right; left| |by right; right; right].
  right; right; left. by apply (fa_full_same s1).
Qed.

(** The panics of [sched_spawn] release the lock and leave the queue's array alone. *)
Definition spawn_panic (s' : machine) : Prop :=
  s_lock (sched_at i s') = 0 /\ procs (sched_at i s') = procs (sched_at i s) /\ spawn_reason s'.

Lemma panic_release {A} s1 (Q : A -> machine -> Prop) :
  cpu_known i s1 -> procs (sched_at i s1) = procs (sched_at i s) -> spawn_reason s1 ->
  wpp (sched_release i ;;; kpanic) Q spawn_panic s1.
Proof.
  intros Hk Hp Hw. apply wpp_bind, wp_release, wpp_panic. unfold spawn_panic. rewrite sched_at_set by done.
  split; [done|]. split; [done|]. by apply (spawn_reason_same s1).
Qed.

(** The block from [kmalloc], numbered and filled in. *)
Lemma begin_spec r n fl' s1 v :
  heap_ok s1 fl' lo hi -> sizeof_pcb <= n -> block_size (mem s1) (r - sizeof_block) = n ->
  lo <= r - sizeof_block -> r + n <= hi -> apart (r - sizeof_block, n) fl' -> covered fl r ->
  (length fl' <= length fl)%nat -> heap_others s1 = heap_others (locked i s) ->
  (forall a, hhdm_offset s <= a -> load8 (mem s1) a = load8 (mem s) a) ->
  let s2 := set_sched (Sched (cpu_schedulers (sched s1)) (pcbs (sched s1)) (w32 (pid + 1))
              (cpu_index (sched s1))) s1 in
  begun s i fl lo hi r n fl' v (set_pcbs (<[r := v]> (pcbs (sched s2))) s2).
Proof.
  intros [G1 G2 G3] Hn Hbs Hlo Hhi Hap Hcov Hlen Ho Hm s2.
  assert (Es : sched s1 = sched (locked i s)) by (unfold heap_others in Ho; congruence).
  split; try done.
  - split; [|done]. unfold heap_others, locked, set_sched_at in Ho. cbn in Ho |- *. congruence.
  - unfold s2. cbn. by rewrite Es.
Qed.

(** The data pages at the beginning are data pages of the new list of regions. *)
Definition stack_regions (l1 : list region) (x : region) (l2 : list region) (node : Z) : list region :=
  l1 ++ x :: new_region node x 4 flags :: l2.

Lemma stack_data s3 s4 l1 x l2 node :
  low_only s s3 -> spared pm (ctx_nodes c regs) s3 s4 -> ~ client_page s3 node -> regs = l1 ++ x :: l2 ->
  data_kept c pm regs (stack_regions l1 x l2 node) s s4.
Proof.
  intros Hlow Hsp Hn Hl. destruct (low_only_ctx s s3 c pm regs Hlow) as (_ & Hk & _); [apply Hready|].
  apply (data_kept_trans _ _ _ regs _ _ s3); [done|]. apply data_kept_spared; [done|].
  intros u. unfold stack_regions. rewrite Hl, !ctx_nodes_app. cbn [fmap list_fmap]. rewrite elem_of_cons.
  cbn [rg_node new_region]. intros [->|[?|[->|[->|?]]]]; tauto.
Qed.

(** The pages whose translations are shared. *)
Definition shared_page (proc w : Z) : Prop :=
  w = proc \/ (virt_to_phys s kpm w <> 0 /\ kernel_page s i kl w).

Lemma share_reads s5 regs' w :
  data_kept c pm regs regs' s s5 -> lo <= w < hi \/ kernel_page s i kl w ->
  reads s5 (fun u => client_page s5 u /\ not_table s5 pm u) kpm w /\
  virt_to_phys s5 kpm w = virt_to_phys s kpm w.
Proof.
  intros Hk Hw. pose proof (sr_reads _ _ _ _ _ _ _ _ _ _ Hready w Hw) as Hr.
  destruct (reads_kept s s5 _ kpm w Hr (dk_hhdm _ _ _ _ _ _ Hk)) as [Hr5 He]; [apply Hk|].
  split; [|done]. intros p t Hp Ht. destruct (dk_page _ _ _ _ _ _ Hk t (Hr5 p t Hp Ht)) as (? & ? & _). done.
Qed.

Lemma share_kernel s5 regs' :
  data_kept c pm regs regs' s s5 -> kvm_ctx s5 = kvm_ctx s ->
  ctx_root (mem s5) (kvm_ctx s5) = ctx_root (mem s) (kvm_ctx s) /\
  chain (mem s5) (ctx_root (mem s) (kvm_ctx s)) kl /\
  Forall (fun u => client_page s5 u /\ not_table s5 pm u) (rg_node <$> kl).
Proof.
  intros Hk Hv. pose proof (sr_nodes _ _ _ _ _ _ _ _ _ _ Hready) as [Hc Hn]%Forall_cons.
  split_and!.
  - rewrite Hv. unfold ctx_root. rewrite <-(Z.add_0_r (kvm_ctx s)).
    apply node_agree_load64; [by apply (dk_bytes _ _ _ _ _ _ Hk)|lia|unfold PAGE_SIZE; lia].
  - apply (chain_agree (mem s)); [|apply Hready]. apply (Forall_impl _ _ _ Hn). apply Hk.
  - apply (Forall_impl _ _ _ Hn). intros u Hu. destruct (dk_page _ _ _ _ _ _ Hk u Hu) as (? & ? & _). done.
Qed.

Lemma share_all s5 regs' proc (k : K Z) Q :
  vctx_ok s5 c pm regs' -> data_kept c pm regs regs' s s5 ->
  kernel_pagemap (paging s5) = kpm -> kvm_ctx s5 = kvm_ctx s ->
  procs_at (sched_at i s5) = procs_at (sched_at i s) -> lo <= proc < hi ->
  (forall s8, shared s5 c pm regs' kpm flags (shared_page proc) s8 -> wp k Q s8) ->
  wp (s <- get ;;
      vmap pm proc (virt_to_phys s (kernel_pagemap (paging s)) proc) flags ;;;
      s <- get ;;
      map_range_to_pagemap pm (kernel_pagemap (paging s)) (procs_at (sched_at i s))
        (sizeof_ptr * PROC_MAX_PROCS_PER_CPU) flags ;;;
      s <- get ;;
      map_kernel_regions fuel pm (ctx_root (mem s) (kvm_ctx s)) flags ;;; k) Q s5.
Proof.
  intros Hok Hk Hkp Hkv Hpa Hproc HQ. destruct (spawn_flags_ok user) as [Hfr Hfp].
  assert (Hrun : forall w, kernel_page s i kl w ->
    reads s5 (fun u => client_page s5 u /\ not_table s5 pm u) kpm w /\
    (virt_to_phys s5 kpm w <> 0 -> shared_page proc w)).
  { intros w Hw. destruct (share_reads s5 regs' w Hk (or_intror Hw)) as [Hr He].
    split; [done|]. rewrite He. intros Hn. by right. }
  assert (Hs5 : shared s5 c pm regs' kpm flags (shared_page proc) s5)
    by (split; [done|apply kept_refl|by left]).
  destruct (share_kernel s5 regs' Hk Hkv) as (_ & Hch & Hnodes).
  wp_step. wp_step. cbv beta. rewrite Hkp. wp_step.
  eapply wp_mono; [apply (share_page s5 c pm regs' kpm flags (shared_page proc)); try done; by left|].
  cbv beta. intros _ s6 Hs6. pose proof (k_globals _ _ _ (sh_kept _ _ _ _ _ _ _ _ Hs6)) as Hg6.
  assert (Hd6 : sched_at i s6 = sched_at i s5) by (unfold sched_at, globals in *; congruence).
  wp_step. wp_step. cbv beta. rewrite (globals_pagemap _ _ Hg6), Hkp, Hd6, Hpa. wp_step.
  eapply wp_mono; [apply (share_range s5 c pm regs' kpm flags (shared_page proc)); try done|].
  { intros w Hw. apply Hrun. by left. }
  cbv beta. intros _ s7 Hs7. pose proof (k_globals _ _ _ (sh_kept _ _ _ _ _ _ _ _ Hs7)) as Hg7.
  assert (Hk7 : data_kept c pm regs regs' s s7).
  { apply (data_kept_trans _ _ _ regs' _ _ s5); [done|]. apply data_kept_kept, Hs7. }
  destruct (share_kernel s7 regs' Hk7) as (Hroot & _ & _); [unfold globals in Hg7; congruence|].
  wp_step. wp_step. cbv beta. wp_step. rewrite Hroot.
  eapply wp_mono; [apply (share_regions s5 c pm regs' kpm flags (shared_page proc) Hfr Hfp fuel kl); try done|].
  - intros x w Hx Hw. apply Hrun. right. by exists x.
  - cbv beta. intros _ s8. apply HQ.
Qed.

(** Whatever happens above the heap and to the page tables, the block stays. *)
Lemma begun_heap s3 s4 proc n fl' v :
  begun s i fl lo hi proc n fl' v s3 -> globals s4 = globals s3 ->
  (forall a, a < hhdm_offset s3 -> load8 (mem s4) a = load8 (mem s3) a) ->
  heap_ok s4 fl' lo hi /\ block_size (mem s4) (proc - sizeof_block) = n /\ sched s4 = sched s3 /\
  hhdm_offset s4 = hhdm_offset s.
Proof.
  intros [[Hl _] Hh Hb [Hlo Hhi] _ Hn _ _ _] Hg Hm. pose proof (sr_low _ _ _ _ _ _ _ _ _ _ Hready) as Hlow.
  unfold globals in Hg. destruct (heap_kept s3 s4 fl' lo hi (proc - sizeof_block) Hh) as [Hh4 Hb4];
    [done|unfold sizeof_pcb, sizeof_block in *; lia|congruence| |].
  - intros a Ha. apply Hm. assert (hhdm_offset s3 = hhdm_offset s) by congruence. lia.
  - split_and!; [done|by rewrite Hb4|congruence|congruence].
Qed.

Lemma fail_spec {A} s3 s4 proc n fl' v (Q : A -> machine -> Prop) :
  begun s i fl lo hi proc n fl' v s3 -> globals s4 = globals s3 ->
  (forall a, a < hhdm_offset s3 -> load8 (mem s4) a = load8 (mem s3) a) -> spawn_reason s4 ->
  wpp (kfree fuel proc ;;;
       modify (fun s => set_pcbs (delete proc (pcbs (sched s))) s) ;;;
       update_sched i (fun c => with_count (w32 (count c - 1)) c) ;;;
       sched_release i ;;; kpanic) Q spawn_panic s4.
Proof.
  intros Hb Hg Hm Hfull. destruct (begun_heap s3 s4 proc n fl' v Hb Hg Hm) as (Hh & Hbs & Es & _).
  destruct (bg_inside _ _ _ _ _ _ _ _ _ _ Hb) as [Hlo Hhi]. pose proof (bg_apart _ _ _ _ _ _ _ _ _ _ Hb) as Hap.
  pose proof (bg_size _ _ _ _ _ _ _ _ _ _ Hb) as Hn. pose proof (bg_length _ _ _ _ _ _ _ _ _ _ Hb).
  unfold sizeof_pcb in Hn.
  apply wpp_bind. assert (Hp : proc = proc - sizeof_block + sizeof_block) by lia. rewrite Hp at 1.
  eapply wp_mono.
  { apply (kfree_spec fuel s4 fl' (proc - sizeof_block) n lo hi Hh Hbs); [lia|done|lia|done|lia]. }
  cbv beta. intros [] s5 (_ & Ho & _). destruct (begun_sched s i fl lo hi proc n fl' v s3 s5 Hb) as (Hk & Ec & _).
  { apply Hready. }
  { unfold heap_others in Ho. congruence. }
  apply wpp_bind, wp_modify. apply wpp_bind, wp_modify.
  change (sched_at i (set_pcbs ?p ?t)) with (sched_at i t). rewrite Ec.
  apply panic_release; [by apply cpu_known_set|by rewrite sched_at_set|].
  apply (spawn_reason_same s4); [|done]. unfold heap_others in Ho. cbn. congruence.
Qed.

(** Putting the process into the queue. *)
Lemma finish_spec s8 proc v (Q : Z -> machine -> Prop) :
  cpu_known i s8 -> sched_at i s8 = with_lock 1 (sched_at i s) -> pcb_at s8 proc = v ->
  (length l < Z.to_nat PROC_MAX_PROCS_PER_CPU)%nat ->
  Q (p_pid v) (set_sched (Sched (<[Z.to_nat i := appended proc (sched_at i s)]> (cpu_schedulers (sched s8)))
    (<[proc := with_timeslice PROC_DEFAULT_TIME v]> (pcbs (sched s8))) (global_pid_counter (sched s8))
    (cpu_index (sched s8))) s8) ->
  wp (update_pcb proc (with_timeslice PROC_DEFAULT_TIME) ;;;
      update_sched i (fun c => with_count (w32 (count c + 1)) (proc_set (count c) proc c)) ;;;
      sched_release i ;;; gets (fun s => p_pid (pcb_at s proc))) Q s8.
Proof.
  intros Hk Ec Ev Hlen HQ. pose proof (sr_queue _ _ _ _ _ _ _ _ _ _ Hready) as Hq.
  pose proof (q_count _ _ Hq) as Hc. unfold PROC_MAX_PROCS_PER_CPU in Hlen.
  unfold update_pcb, update_sched. wp_step. wp_step. cbv beta. rewrite Ev. set (s9 := set_pcbs _ s8).
  wp_step. wp_step. cbv beta. change (sched_at i s9) with (sched_at i s8). rewrite Ec.
  wp_step. apply wp_release. apply wp_gets. rewrite sched_at_set by done.
  rewrite set_sched_at_twice. cbn [count with_lock with_count proc_set with_procs].
  rewrite w32_id by lia. unfold pcb_at. cbn [sched set_sched_at set_sched pcbs s9 set_pcbs].
  rewrite lookup_insert_eq. cbn [default id].
  assert (El : with_lock 0 (with_count (count (sched_at i s) + 1)
    (proc_set (count (sched_at i s)) proc (with_lock 1 (sched_at i s)))) = appended proc (sched_at i s)).
  { unfold appended, proc_set, with_count, with_procs, with_lock.
    cbn. by rewrite (sr_lock _ _ _ _ _ _ _ _ _ _ Hready). }
  rewrite El. exact HQ.
Qed.

(** The new process: its control block [proc] of [n] bytes, its regions and its stack
    from [stack] on.  The stack has frames of its own; every translation is the one after
    the allocation of the stack or the kernel's. *)
Record spawned (proc n : Z) (fl' : list (Z * Z)) (regs' : list region) (stack : Z) (s' : machine) : Prop := Spawned {
  sd_owns : process_owns s' proc c pm regs' fl' lo hi n;
  sd_size : sizeof_pcb <= n;
  sd_room : (length l < Z.to_nat PROC_MAX_PROCS_PER_CPU)%nat;
  sd_free : covered fl proc;
  sd_sched : sched s' = Sched (<[Z.to_nat i := appended proc (sched_at i s)]> (cpu_schedulers (sched s)))
    (<[proc := ready_pcb user entry pid pm c (w64 (stack + PAGE_SIZE * 4))]> (pcbs (sched s)))
    (w32 (pid + 1)) (cpu_index (sched s));
  sd_data : data_kept c pm regs regs' s s';
  sd_maps : exists s1 es, pages_set s s1 pm stack es /\ length es = 4%nat /\
    fresh_frames (VFLAGS_TO_PFLAGS flags) s pm (ctx_nodes c regs') s1 es /\
    forall v, lookup s' pm v = lookup s1 pm v \/ exists w, shared_page proc w /\ page_of v = page_of w /\
      lookup s' pm v = Some (Z.lor (virt_to_phys s kpm w) flags) }.

(** The region of the stack lies behind the first gap. *)
Definition spawn_post (r : Z) (s' : machine) : Prop :=
  r = pid /\ exists proc n fl' l1 x l2 node,
    first_such gap_behind regs l1 x l2 /\
    spawned proc n fl' (stack_regions l1 x l2 node) (rg_end x) s'.

Section Success.
Context (s3 s4 : machine) (proc n : Z) (fl' : list (Z * Z)) (l1 : list region) (x : region)
  (l2 : list region) (node : Z) (es : list (option Z)).
Let v := new_pcb user entry pid pm c.
Let regs' := stack_regions l1 x l2 node.
Let top := w64 (rg_end x + PAGE_SIZE * 4).
Hypothesis (Hb : begun s i fl lo hi proc n fl' v s3) (Hgap : first_such gap_behind regs l1 x l2).
Hypothesis (Hok4 : vctx_ok s4 c pm regs') (Hps : pages_set s3 s4 pm (rg_end x) es).
Hypothesis (Hfr : fresh_frames (VFLAGS_TO_PFLAGS flags) s3 pm (ctx_nodes c regs') s4 es).
Hypothesis (Hsp : spared pm (ctx_nodes c regs) s3 s4) (Hnode : ~ client_page s3 node).
Hypothesis (Hes : length es = 4%nat) (Hlen : (length l < Z.to_nat PROC_MAX_PROCS_PER_CPU)%nat).

Let s5 := set_pcbs (<[proc := with_stack top 0x202 v]> (pcbs (sched s4))) s4.

Lemma success_begin :
  vctx_ok s5 c pm regs' /\ data_kept c pm regs regs' s s5 /\ kernel_pagemap (paging s5) = kpm /\
  kvm_ctx s5 = kvm_ctx s /\ (forall u, lookup s5 pm u = lookup s4 pm u).
Proof.
  assert (Hl5 : low_only s4 s5) by done.
  destruct (low_only_ctx s4 s5 c pm regs' Hl5 Hok4) as (Hok5 & Hd5 & _ & Hlk5).
  pose proof (stack_data s3 s4 l1 x l2 node (bg_low _ _ _ _ _ _ _ _ _ _ Hb) Hsp Hnode (proj1 Hgap)) as Hd4.
  destruct (bg_low _ _ _ _ _ _ _ _ _ _ Hb) as [Hl _]. pose proof (sp_globals _ _ _ _ Hsp) as Hg.
  unfold globals in Hg. change (paging s5) with (paging s4). change (kvm_ctx s5) with (kvm_ctx s4).
  unfold kpm. split_and!; try done; [|congruence..]. by apply (data_kept_trans _ _ _ regs' _ _ s4).
Qed.

(** The translations, with the stack's frames as new as the beginning. *)
Lemma success_maps s8 :
  shared s5 c pm regs' kpm flags (shared_page proc) s8 ->
  exists s1 es, pages_set s s1 pm (rg_end x) es /\ length es = 4%nat /\
    fresh_frames (VFLAGS_TO_PFLAGS flags) s pm (ctx_nodes c regs') s1 es /\
    forall v, lookup s8 pm v = lookup s1 pm v \/ exists w, shared_page proc w /\ page_of v = page_of w /\
      lookup s8 pm v = Some (Z.lor (virt_to_phys s kpm w) flags).
Proof.
  intros Hs8. exists s4, es. destruct success_begin as (_ & Hd5 & _ & _ & Hlk5).
  destruct (low_only_ctx s s3 c pm regs (bg_low _ _ _ _ _ _ _ _ _ _ Hb)) as (_ & _ & Ho3 & Hlk3); [apply Hready|].
  split_and!; [|done| |].
  - destruct Hps as [H1 H2]. split; [intros j o Hj|intros u Hu]; rewrite <-Hlk3; auto.
  - destruct Hfr as [[H1 Hl1] (fs & H2 & H3 & H4)]. split; [split; [intros f Hf; by apply H1, Ho3|]|].
    { intros Hl. apply Hl1. by apply (low_only_linked s s3 c pm regs (bg_low _ _ _ _ _ _ _ _ _ _ Hb)); [apply Hready|]. }
    exists fs.
    split_and!; try done. intros f Hf. destruct (H4 f Hf) as (G1 & G2 & G3). split; [done|].
    split; [by rewrite <-Ho3|done].
  - intros u. destruct (sh_lookup _ _ _ _ _ _ _ _ Hs8 u) as [Hu|(w & Hw & Hp & Hu)]; [left; by rewrite Hu, Hlk5|].
    right. exists w. split; [done|]. split; [done|]. rewrite Hu.
    destruct (share_reads s5 regs' w Hd5) as [_ He]; [|by rewrite He].
    destruct Hw as [->|[_ Hw]]; [left|by right].
    pose proof (bg_inside _ _ _ _ _ _ _ _ _ _ Hb). pose proof (bg_size _ _ _ _ _ _ _ _ _ _ Hb).
    unfold sizeof_pcb, sizeof_block in *. lia.
Qed.

Lemma success_spawned s8 :
  shared s5 c pm regs' kpm flags (shared_page proc) s8 ->
  spawned proc n fl' regs' (rg_end x)
    (set_sched (Sched (<[Z.to_nat i := appended proc (sched_at i s)]> (cpu_schedulers (sched s8)))
      (<[proc := with_timeslice PROC_DEFAULT_TIME (with_stack top 0x202 v)]> (pcbs (sched s8)))
      (global_pid_counter (sched s8)) (cpu_index (sched s8))) s8).
Proof.
  intros Hs8. set (s9 := set_sched _ s8). pose proof (sh_kept _ _ _ _ _ _ _ _ Hs8) as Hk8.
  pose proof (k_globals _ _ _ Hk8) as Hg8. destruct success_begin as (Hok5 & Hd5 & _).
  destruct (begun_heap s3 s4 proc n fl' v Hb (sp_globals _ _ _ _ Hsp) (sp_low _ _ _ _ Hsp))
    as (Hh4 & Hbs4 & Es4 & Hhh4).
  destruct Hb as [_ _ _ Hin Hap Hn Hfree _ Es3].
  assert (Es8 : sched s8 = sched s5 /\ heap s8 = heap s5 /\ hhdm_offset s8 = hhdm_offset s5)
    by (unfold globals in Hg8; split_and!; congruence).
  destruct Es8 as (Es8 & Eh8 & Ehh8). change (hhdm_offset s5) with (hhdm_offset s4) in Ehh8. pose proof (sr_low _ _ _ _ _ _ _ _ _ _ Hready) as Hlow.
  destruct (heap_kept s4 s8 fl' lo hi (proc - sizeof_block) Hh4) as [Hh8 Hbs8];
    [lia|unfold sizeof_pcb, sizeof_block in *; lia|done| |].
  { intros a Ha. apply (k_low _ _ _ Hk8). change (hhdm_offset s5) with (hhdm_offset s4). lia. }
  assert (Hok9 : vctx_ok s9 c pm regs') by (by apply (vctx_same_memory s8); [apply Hs8|..]).
  split; [|done|done|done| | |].
  - split; try done.
    + destruct Hh8. by split.
    + change (hhdm_offset s9) with (hhdm_offset s8). lia.
    + split; [etransitivity; [exact Hbs8|exact Hbs4]|unfold sizeof_pcb in Hn; lia].
  - unfold s9. cbn [sched set_sched]. rewrite Es8. unfold s5. cbn [sched set_sched set_pcbs cpu_schedulers
      pcbs global_pid_counter cpu_index]. rewrite Es4, Es3. cbn [cpu_schedulers pcbs global_pid_counter cpu_index].
    by rewrite list_insert_insert_eq, !insert_insert_eq.
  - apply (data_kept_trans _ _ _ regs' _ _ s5); [done|].
    apply (data_kept_trans _ _ _ regs' _ _ s8); [by apply data_kept_kept|].
    by apply (low_only_ctx s8 s9 c pm regs'); [|apply Hs8].
  - destruct (success_maps s8 Hs8) as (s1 & es' & H1 & H2 & H3 & H4). exists s1, es'. split_and!; try done.
Qed.

Lemma success_spec :
  wp (update_pcb proc (with_stack top 0x202) ;;;
      s <- get ;;
      vmap pm proc (virt_to_phys s (kernel_pagemap (paging s)) proc) flags ;;;
      s <- get ;;
      map_range_to_pagemap pm (kernel_pagemap (paging s)) (procs_at (sched_at i s))
        (sizeof_ptr * PROC_MAX_PROCS_PER_CPU) flags ;;;
      s <- get ;;
      map_kernel_regions fuel pm (ctx_root (mem s) (kvm_ctx s)) flags ;;;
      update_pcb proc (with_timeslice PROC_DEFAULT_TIME) ;;;
      update_sched i (fun c => with_count (w32 (count c + 1)) (proc_set (count c) proc c)) ;;;
      sched_release i ;;; gets (fun s => p_pid (pcb_at s proc))) spawn_post s4.
Proof.
  destruct (begun_heap s3 s4 proc n fl' v Hb (sp_globals _ _ _ _ Hsp) (sp_low _ _ _ _ Hsp))
    as (_ & _ & Es4 & _).
  destruct (begun_sched s i fl lo hi proc n fl' v s3 s4 Hb) as (Hk4 & Ec4 & Ev4); [apply Hready|done|].
  unfold update_pcb at 1. wp_step. wp_step. cbv beta. rewrite Ev4. fold s5.
  destruct success_begin as (Hok5 & Hd5 & Hkp5 & Hkv5 & _).
  pose proof (bg_inside _ _ _ _ _ _ _ _ _ _ Hb) as Hin. pose proof (bg_size _ _ _ _ _ _ _ _ _ _ Hb) as Hsz.
  apply (share_all s5 regs' proc); try done.
  { change (sched_at i s5) with (sched_at i s4). by rewrite Ec4. }
  { unfold sizeof_pcb, sizeof_block in *. lia. }
  intros s8 Hs8. pose proof (k_globals _ _ _ (sh_kept _ _ _ _ _ _ _ _ Hs8)) as Hg8.
  assert (Es8 : sched s8 = sched s5) by (unfold globals in Hg8; congruence).
  apply (finish_spec s8 proc (with_stack top 0x202 v)); [| | |done|].
  { unfold cpu_known. rewrite Es8. exact Hk4. }
  { unfold sched_at at 1. rewrite Es8. exact Ec4. }
  { unfold pcb_at. rewrite Es8. cbn. by rewrite lookup_insert_eq. }
  split; [done|]. exists proc, n, fl', l1, x, l2, node. split; [done|].
  by apply success_spawned.
Qed.
End Success.

Lemma sched_spawn_spec :
  wpp (sched_spawn fuel user entry pm c) spawn_post spawn_panic s.
Proof.
  pose proof Hready as [Hcpu Hk Hlk Hq Hpr Hheap Hlow Hok Hroom _ _ _].
  pose proof (sched_at_locked i s Hk) as EL.
  unfold sched_spawn. apply wpp_bind, wp_gets. rewrite Hcpu. apply wpp_bind, wp_acquire; [done|].
  fold (locked i s). apply wpp_bind, wp_get. rewrite EL. cbn [count with_lock].
  destruct (Z.leb_spec PROC_MAX_PROCS_PER_CPU (count (sched_at i s))) as [|Hc].
  { apply panic_release; [by apply cpu_known_set|by rewrite EL|]. left.
    rewrite (q_count _ _ Hq) in *. unfold PROC_MAX_PROCS_PER_CPU in *. lia. }
  rewrite (q_count _ _ Hq) in Hc.
  assert (HheapL : heap_ok (locked i s) fl lo hi) by (by destruct Hheap; split).
  apply wpp_bind. eapply wp_mono; [by apply (kmalloc_below fuel (locked i s) fl lo hi sizeof_pcb)|].
  cbv beta. intros proc s1 [(-> & -> & Hno)|(n & fl' & H1 & H2 & H3 & H4 & H5 & H6 & H7 & H8 & H9 & H10)].
  { apply panic_release; [by apply cpu_known_set|by rewrite EL|]. by right; left. }
  pose proof (begin_spec proc n fl' s1 (new_pcb user entry pid pm c) H1 H2 H3 H4 H5 H6 H7 H8 H9 H10) as Hb.
  pose proof (hp_bounds _ _ _ _ Hheap) as [Hlo _]. unfold sizeof_block in H4.
  destruct (Z.eqb_spec proc NULL) as [|Hpn]; [lia|].
  assert (Ep : sched s1 = sched (locked i s)) by (unfold heap_others in H9; congruence).
  apply wpp_bind. unfold atomic_inc_fetch at 1, wp at 1. cbv beta.
  replace (global_pid_counter (sched s1)) with pid by (by rewrite Ep).
  apply wpp_bind, wp_get. pose proof (root_not_null s pm (vc_inv _ _ _ _ Hok) (vc_pt _ _ _ _ Hok)) as Hpm.
  rewrite (proj2 (Z.eqb_neq pm NULL) Hpm). apply wpp_bind.
  assert (Hcn : c <> NULL).
  { pose proof (vctx_usable s c pm regs Hok) as Hu. unfold unusable in Hu.
    intros ->. done. }
  rewrite (proj2 (Z.eqb_neq c NULL) Hcn). apply wp_ret. apply wpp_bind. unfold update_pcb at 1. apply wp_modify.
  set (s3 := set_pcbs _ _) in Hb |- *.
  destruct (low_only_ctx s s3 c pm regs (bg_low _ _ _ _ _ _ _ _ _ _ Hb) Hok) as (Hok3 & _).
  apply wpp_bind. eapply wp_mono.
  { apply (valloc_spec fuel s3 c pm regs 4 flags Hok3); [done|lia|done]. }
  cbv beta. intros stack s4 [(-> & -> & Hfull)|(l1 & x & l2 & node & es & Hgap & Hok4 & Hps & Hfr & [Hsp Hnode] & _ & Hr)].
  { apply (fail_spec s3 s3 proc n fl' (new_pcb user entry pid pm c)); [done..|]. by right; right; left. }
  destruct (Z.eqb_spec stack NULL) as [|Hsn].
  { apply (fail_spec s3 s4 proc n fl' (new_pcb user entry pid pm c)); [done|apply Hsp..|].
    right; right. destruct Hr as [(_ & Hfull & _)|[He _]]; [by left|right]. exists x.
    split; [|congruence]. destruct Hgap as [-> _]. apply elem_of_app. right. apply list_elem_of_here. }
  destruct Hr as [[? _]|[-> Hes]]; [done|]. apply wpp_ret.
  apply (success_spec s3 s4 proc n fl' l1 x l2 node es); try done.
  - by apply (gap_after_such s3 c pm).
  - lia.
Qed.

Lemma spawned_queue proc n fl' regs' stack s' :
  spawned proc n fl' regs' stack s' -> queue (sched_at i s') (l ++ [proc]).
Proof.
  intros [_ _ Hroom (b & k & Hin & Hb) Es _ _]. pose proof Hready as [_ Hk _ Hq Hpr Hheap _ _ _ _ _ _].
  pose proof (spaced_in _ _ _ _ _ (hp_spaced _ _ _ _ Hheap) Hin) as Hs.
  pose proof (hp_bounds _ _ _ _ Hheap) as [Hlo _].
  unfold sched_at. rewrite Es. cbn [cpu_schedulers]. rewrite list_lookup_insert_eq by done. cbn [default id].
  apply queue_appended; [done|done| |lia]. intros Hp. apply (Hpr proc Hp). by exists b, k.
Qed.
End Steps.
End Spawn.
