(* ===== verification/SpawnProps.v ===== *)
(** * sys/sched.c: starting a process, main theorem *)

From S2P Require Export Spawn ReapProps.

Section Props.
Context {FA : FrameAlloc} {FL : FrameAllocLaws}.

(** C19: [sched_spawn] of a process with a context of its own panics only when the queue is
    full, no free block of the heap holds a control block, no frame is left or the stack
    would start at address 0, with the lock released and the array of processes as it was.
    Otherwise it returns the old value of the PID counter, and: the process owns a block of
    the heap that was free and its context, which now has a region of four stack pages behind
    its first gap; its control block makes it start at [entry] in the ring asked for, with
    the stack pointer at the end of that region and a full time slice; it is the last of the
    queue; and all other data pages keep their bytes.  The stack pages were mapped to frames
    that nobody owned; then the control block, the array of processes and the kernel's
    regions were shared with the process, so that in the end every page among those may
    translate as the kernel's, and every other page, a stack page too, as before.  (A stack
    inside the kernel's heap loses its frames that way, see [spawn_stack_in_heap].) *)
Theorem sched_spawn_correct fuel s i c pm regs fl lo hi l kl user entry :
  spawn_ready s i c pm regs fl lo hi l kl ->
  (length regs < fuel)%nat -> (length fl < fuel)%nat -> (length kl < fuel)%nat ->
  wpp (sched_spawn fuel user entry pm c) (fun r s' =>
    r = global_pid_counter (sched s) /\
    exists proc n fl' l1 x l2 node, first_such gap_behind regs l1 x l2 /\
      spawned s i c pm regs fl lo hi l kl user entry proc n fl' (stack_regions user l1 x l2 node) (rg_end x) s' /\
      queue (sched_at i s') (l ++ [proc])) (spawn_panic s i regs fl l) s.
Proof.
  intros Hr Hf1 Hf2 Hf3.
  pose proof (sched_spawn_spec fuel s i c pm regs fl lo hi l kl user entry Hr Hf1 Hf2 Hf3) as H.
  unfold wpp in *. destruct (sched_spawn fuel user entry pm c s) as [r s'| | |]; try done.
  destruct H as (-> & proc & n & fl' & l1 & x & l2 & node & Hg & Hs). split; [done|].
  exists proc, n, fl', l1, x, l2, node. split_and!; try done.
  by eapply (spawned_queue fuel).
Qed.
End Props.

(** ** A process beside a kernel with a heap of twenty pages at 0x1000 *)

Definition kc1 : machine := state_of (vinit root0 0x1000 vs0) vs0.
Definition kctx : Z := default 0 (result_of (vinit root0 0x1000 vs0)).
Definition kc2 : machine := state_of (valloc 10 kctx 20 3 kc1) kc1.

(** The heap holds the array of processes of CPU 0; what follows is free. *)
Definition heap_fields : list (nat * Z * Z) :=
  [(8%nat, 0x1000, 4096); (8%nat, 0x1008, 0); (8%nat, 0x2010, 77792); (8%nat, 0x2018, 0)].
Definition with_kernel (k : Z) (s : machine) : machine :=
  Machine (store_fields (mem s) heap_fields) (hhdm_offset s) (memmap s) k (pmm s) (paging s)
    (Heap 0x1000 0x2010) (Sched (replicate 64 (CpuSched 0x1010 (replicate 512 NULL) 0 0 0)) ∅ 1 0).
Definition kc3 : machine := with_kernel kctx kc2.
Definition kc4 : machine := state_of (pmnew kc3) kc3.
Definition proot : Z := default 0 (result_of (pmnew kc3)).
Definition kc5 : machine := state_of (vinit proot 0x10000 kc4) kc4.
Definition pctx : Z := default 0 (result_of (vinit proot 0x10000 kc4)).
Definition pnode : Z := ctx_root (mem kc5) pctx.
Definition knode0 : Z := ctx_root (mem kc5) kctx.
Definition knode1 : Z := region_next (mem kc5) knode0.
Definition kc6 : machine := state_of (sched_spawn 10 true 0x400000 proot pctx kc5) kc5.

Definition preg : region := first_region pnode 0x10000.
Definition kreg0 : region := first_region knode0 0x1000.
Definition kreg1 : region := new_region knode1 kreg0 20 3.

(** The tables of the kernel's page map on the way to the lowest 2 MiB. *)
Definition low_tables (s : machine) (kpm : Z) : list Z :=
  let t3 := get_table s kpm 0 in
  let t2 := get_table s t3 0 in [kpm; t3; t2; get_table s t2 0].

Definition ownedb (s : machine) (f : Z) : bool :=
  (0 <? f) && (f <? bitmap_pages (pmm s)) && used s f &&
  ((page_at s f + PAGE_SIZE <=? bitmap (pmm s)) ||
   (bitmap (pmm s) + 8 * word_count (pmm s) <=? page_at s f)).

Lemma ownedb_owned s f : ownedb s f = true -> owned s f.
Proof.
  unfold ownedb. rewrite !andb_true_iff, orb_true_iff, !Z.leb_le, !Z.ltb_lt.
  intros [[[H1 H2] H3] H4]. split; [lia|]. split; [done|]. intros (a & Ha & Hf).
  unfold in_bitmap, in_frames, in_range, page_at, PAGE_SIZE in *. lia.
Qed.

(** A data page, when the page map [pm] has no tables below its root. *)
Definition data_pageb (s : machine) (c pm : Z) (l : list region) (u : Z) : bool :=
  let f := (u - hhdm_offset s) / PAGE_SIZE in
  ownedb s f && (u =? page_at s f) && negb (u =? pm) && forallb (fun v => negb (u =? v)) (ctx_nodes c l).

Lemma data_pageb_ok s c pm l u :
  (forall i, idx i -> get_table s pm i = NULL) -> data_pageb s c pm l u = true -> data_page s c pm l u.
Proof.
  intros Hempty. unfold data_pageb. rewrite !andb_true_iff, negb_true_iff, Z.eqb_eq, Z.eqb_neq, forallb_forall.
  intros [[[Ho Hu] Hpm] Hn]. split_and!.
  - exists ((u - hhdm_offset s) / PAGE_SIZE). split; [by apply ownedb_owned|done].
  - intros [|j p] [_ Hp]; [by intros [= ->]|]. cbn [walk]. apply Forall_cons in Hp as [Hj _].
    by rewrite Hempty.
  - intros Hin%list_elem_of_In. specialize (Hn u Hin). by rewrite Z.eqb_refl in Hn.
Qed.

(** Two kernel regions in a list that ends behind the second. *)
Definition region_check (m : memory) (x : region) (next : Z) : bool :=
  negb (rg_node x =? NULL) && (region_start m (rg_node x) =? rg_start x) &&
  (region_pages m (rg_node x) =? rg_pages x) && (region_flags m (rg_node x) =? rg_flags x) &&
  (region_next m (rg_node x) =? next).

Lemma chain_two m x y :
  region_check m x (rg_node y) && region_check m y NULL = true -> chain m (rg_node x) [x; y].
Proof.
  unfold region_check. rewrite !andb_true_iff, !negb_true_iff, !Z.eqb_eq, !Z.eqb_neq.
  intros [[[[[H1 H2] H3] H4] H5] [[[[G1 G2] G3] G4] G5]]. cbn [chain]. by rewrite H5, G5.
Qed.

(** What the witness needs of these runs, as one value, so that they are made once. *)
Definition kc_runs_values : list (option Z) :=
  [result_of (vinit root0 0x1000 vs0); result_of (valloc 10 kctx 20 3 kc1); result_of (pmnew kc3);
   result_of (vinit proot 0x10000 kc4); result_of (sched_spawn 10 true 0x400000 proot pctx kc5);
   Some kctx; Some proot; Some pctx].
Definition kc_state_values : list Z :=
  [this_cpu kc5; hhdm_offset kc5; freelist (heap kc5); block_size (mem kc5) 0x2010;
   block_next (mem kc5) 0x2010; hhdm_offset kc2; kernel_pagemap (paging kc3) - root0;
   kernel_pagemap (paging kc5) - root0; kvm_ctx kc5 - kctx; virt_to_phys kc5 root0 0x10000].
Definition kc_checks : bool :=
  forallb (data_pageb kc5 pctx proot [preg])
    (ctx_nodes kctx [kreg0; kreg1] ++ low_tables kc5 root0) &&
  forallb (fun j => get_table kc5 proot j =? NULL) (seqZ 0 512) &&
  (region_check (mem kc5) kreg0 (rg_node kreg1) && region_check (mem kc5) kreg1 NULL).

Lemma kc_values :
  (kc_runs_values, kc_state_values, sched_at 0 kc5, length (cpu_schedulers (sched kc5)),
   lookup kc6 proot 0x10000, kc_checks) =
  ([Some 0xffff800000003000; Some 0x1000; Some 0xffff80000001d000; Some 0xffff80000001e000; Some 1;
    Some 0xffff800000003000; Some 0xffff80000001d000; Some 0xffff80000001e000],
   [0; HHDM; 0x2010; 77792; 0; HHDM; 0; 0; 0; 0x18000],
   CpuSched 0x1010 (replicate 512 NULL) 0 0 0, 64%nat, Some 0x18007, true).
Proof. vm_compute. reflexivity. Qed.

Lemma runs_eq (a b c d e x y z a' b' c' d' e' x' y' z' : option Z) :
  [a; b; c; d; e; x; y; z] = [a'; b'; c'; d'; e'; x'; y'; z'] ->
  (a = a' /\ b = b' /\ c = c' /\ d = d') /\ e = e' /\ x = x' /\ y = y' /\ z = z'.
Proof. by intros [= -> -> -> -> -> -> -> ->]. Qed.

Lemma states_eq (a b c d e x y z v w a' b' c' d' e' x' w' : Z) :
  [a; b; c; d; e; x; y; z; v; w] = [a'; b'; c'; d'; e'; x'; 0; 0; 0; w'] ->
  (a = a' /\ b = b' /\ c = c' /\ d = d' /\ e = e') /\ x = x' /\ y = 0 /\ z = 0 /\ v = 0 /\ w = w'.
Proof. intros [= -> -> -> -> -> -> -> -> -> ->]. by split_and!. Qed.

Lemma values_eq {A B C D E F} (a a' : A) (b b' : B) (c c' : C) (d d' : D) (e e' : E) (f f' : F) :
  (a, b, c, d, e, f) = (a', b', c', d', e', f') ->
  a = a' /\ b = b' /\ c = c' /\ d = d' /\ e = e' /\ f = f'.
Proof. by intros [= -> -> -> -> -> ->]. Qed.

Lemma kc_results :
  (result_of (vinit root0 0x1000 vs0) = Some 0xffff800000003000 /\
   result_of (valloc 10 kctx 20 3 kc1) = Some 0x1000 /\
   result_of (pmnew kc3) = Some 0xffff80000001d000 /\
   result_of (vinit proot 0x10000 kc4) = Some 0xffff80000001e000) /\
  result_of (sched_spawn 10 true 0x400000 proot pctx kc5) = Some 1 /\
  Some kctx = Some 0xffff800000003000 /\ Some proot = Some 0xffff80000001d000 /\
  Some pctx = Some 0xffff80000001e000.
Proof. exact (runs_eq _ _ _ _ _ _ _ _ _ _ _ _ _ _ _ _ (proj1 (values_eq _ _ _ _ _ _ _ _ _ _ _ _ kc_values))). Qed.

Lemma kc_states :
  (this_cpu kc5 = 0 /\ hhdm_offset kc5 = HHDM /\ freelist (heap kc5) = 0x2010 /\
   block_size (mem kc5) 0x2010 = 77792 /\ block_next (mem kc5) 0x2010 = 0) /\
  hhdm_offset kc2 = HHDM /\ kernel_pagemap (paging kc3) - root0 = 0 /\
  kernel_pagemap (paging kc5) - root0 = 0 /\ kvm_ctx kc5 - kctx = 0 /\
  virt_to_phys kc5 root0 0x10000 = 0x18000.
Proof.
  exact (states_eq _ _ _ _ _ _ _ _ _ _ _ _ _ _ _ _ _
    (proj1 (proj2 (values_eq _ _ _ _ _ _ _ _ _ _ _ _ kc_values)))).
Qed.

Lemma kc_rest :
  sched_at 0 kc5 = CpuSched 0x1010 (replicate 512 NULL) 0 0 0 /\
  length (cpu_schedulers (sched kc5)) = 64%nat /\
  lookup kc6 proot 0x10000 = Some 0x18007 /\ kc_checks = true.
Proof. exact (proj2 (proj2 (values_eq _ _ _ _ _ _ _ _ _ _ _ _ kc_values))). Qed.

Lemma step_ran {A} (o : outcome machine A) d a a' : result_of o = Some a' -> Some a = Some a' -> o = Ret a (state_of o d).
Proof. intros H [= ->]. by apply ran. Qed.

Lemma some_not_null k : Some k = Some 0xffff800000003000 \/ Some k = Some 0xffff80000001e000 -> k <> NULL.
Proof. by intros [[= ->] | [= ->]]. Qed.

Lemma kc_runs : vinit root0 0x1000 vs0 = Ret kctx kc1 /\ kctx <> NULL /\
  valloc 10 kctx 20 3 kc1 = Ret 0x1000 kc2 /\ pmnew kc3 = Ret proot kc4 /\
  vinit proot 0x10000 kc4 = Ret pctx kc5 /\ pctx <> NULL.
Proof.
  destruct kc_results as ((H1 & H2 & H3 & H4) & _ & K1 & K2 & K3).
  exact (conj (step_ran _ vs0 _ _ H1 K1) (conj (some_not_null _ (or_introl K1)) (conj (ran _ kc1 _ H2)
    (conj (step_ran _ kc3 _ _ H3 K2) (conj (step_ran _ kc4 _ _ H4 K3) (some_not_null _ (or_intror K3))))))).
Qed.

Lemma kc3_low : hhdm_offset kc2 = HHDM /\ kernel_pagemap (paging kc3) = root0.
Proof. destruct kc_states as (_ & H1 & H2 & _). exact (conj H1 (proj1 (Z.sub_move_0_r _ _) H2)). Qed.

#[global] Opaque kc1 kc2 kc4 kc5 kctx pctx proot.

Lemma first_region_end n : rg_end (first_region n 0x1000) = 0x1000.
Proof. reflexivity. Qed.

Lemma with_kernel_ok k s root :
  pmm_inv s -> pt_ok s root -> hhdm_offset s = HHDM ->
  pmm_inv (with_kernel k s) /\ pt_ok (with_kernel k s) root.
Proof.
  intros Hi Hpt Hh. destruct (high_grown (FL := pmm_frame_alloc_laws) s (with_kernel k s) Hi eq_refl eq_refl) as (Hi3 & _ & Hg3).
  - intros a Ha. apply (store_fields_agree (fun a => a < HHDM)); [|lia].
    intros f x. unfold heap_fields. rewrite !elem_of_cons, elem_of_nil.
    intros [->|[->|[->|[->|[]]]]]; cbn [fst snd]; unfold HHDM; lia.
  - split; [exact Hi3|]. apply (grown_page s _ root Hpt Hg3).
Qed.

Lemma kc3_ok : pmm_inv kc3 /\ pt_ok kc3 root0.
Proof.
  destruct kc_runs as (R1 & N1 & R2 & _).
  pose proof (wp_result _ _ _ _ _ R1 (vinit_spec root0 0x1000 vs0 (proj1 vs0_ok) (proj2 vs0_ok) ltac:(lia))) as H1.
  cbv beta in H1. destruct H1 as [[H1 _]|[_ H1]]; [destruct (N1 H1)|].
  destruct (vi_ctx _ _ _ _ _ H1) as (n & Hok1 & _).
  pose proof (wp_result _ _ _ _ _ R2 (valloc_spec 10 kc1 kctx root0 [first_region n 0x1000] 20 3 Hok1
    ltac:(cbn; lia) ltac:(lia) ltac:(intros x ->%list_elem_of_singleton; rewrite (first_region_end n);
      unfold PAGE_SIZE; lia))) as H2.
  destruct H2 as [[H2 _]|(l1 & x & l2 & m & es & _ & Hok2 & _)]; [discriminate H2|].
  exact (with_kernel_ok kctx kc2 root0 (vc_inv _ _ _ _ Hok2) (vc_pt _ _ _ _ Hok2) (proj1 kc3_low)).
Qed.

Lemma kc5_ctx : vctx_ok kc5 pctx proot [preg].
Proof.
  destruct kc_runs as (_ & _ & _ & R3 & R4 & N4).
  pose proof (pmnew_spec kc3 (proj1 kc3_ok)) as H4. rewrite (proj2 kc3_low), R3 in H4.
  specialize (H4 (fun _ => proj2 kc3_ok)).
  pose proof (wp_result _ _ _ _ _ R4 (vinit_spec proot 0x10000 kc4 (pn_inv _ _ _ H4) (pn_ok _ _ _ H4) ltac:(lia))) as H5.
  cbv beta in H5. destruct H5 as [[H5 _]|[_ H5]]; [destruct (N4 H5)|].
  destruct (vi_ctx _ _ _ _ _ H5) as (n & Hok & _).
  pose proof (chain_cons_node _ _ _ _ (vc_chain _ _ _ _ Hok)) as He. cbn [rg_node first_region] in He.
  unfold preg, pnode. rewrite <-He. exact Hok.
Qed.

(** *** The hypotheses of the theorem *)

Lemma low_path w : 0 <= w < 2 ^ 21 -> table_path w = [0; 0; 0].
Proof.
  intros Hw. unfold table_path. rewrite !page_index_eq by done.
  change PML4_SHIFT with 39. change PML3_SHIFT with 30. change PML2_SHIFT with 21.
  assert (H : forall k, 21 <= k -> w / 2 ^ k = 0).
  { intros k Hk. apply Z.div_small. split; [lia|].
    apply Z.lt_le_trans with (2 ^ 21); [lia|]. apply Z.pow_le_mono_r; lia. }
  by rewrite !H by lia.
Qed.

Lemma reads_low s (D : Z -> Prop) kpm w :
  0 <= w < 2 ^ 21 -> Forall D (low_tables s kpm) -> reads s D kpm w.
Proof.
  intros Hw HD p t [r Hr] H. rewrite low_path in Hr by done.
  unfold low_tables in HD. rewrite !Forall_cons in HD. destruct HD as (H0 & H1 & H2 & H3 & _).
  destruct p as [|a [|b [|d [|e p]]]]; simplify_eq/=; repeat case_match; by simplify_eq.
Qed.

Lemma page_run_low start size w :
  0 <= start -> 0 <= size -> start + size + PAGE_SIZE <= 2 ^ 21 -> page_run start size w -> 0 <= w < 2 ^ 21.
Proof.
  unfold page_run, iters, PAGE_SIZE. intros H0 H1 H2 (k & Hk & ->).
  pose proof (Z.div_mod (size - 0 + 4096 - 1) 4096 ltac:(lia)).
  pose proof (Z.mod_pos_bound (size - 0 + 4096 - 1) 4096 ltac:(lia)).
  rewrite w64_id by lia. lia.
Qed.

(** The hypotheses, for a state like [kc5]. *)
Lemma first_process_ready s c pm x k n0 n1 kpm :
  let x0 := first_region n0 0x1000 in
  let x1 := new_region n1 x0 20 3 in
  let kl := [x0; x1] in
  sched_at 0 s = CpuSched 0x1010 (replicate 512 NULL) 0 0 0 ->
  length (cpu_schedulers (sched s)) = 64%nat ->
  this_cpu s = 0 /\ hhdm_offset s = HHDM /\
  freelist (heap s) = 0x2010 /\ block_size (mem s) 0x2010 = 77792 /\ block_next (mem s) 0x2010 = 0 ->
  kernel_pagemap (paging s) - kpm = 0 -> kvm_ctx s - k = 0 ->
  forallb (data_pageb s c pm [x]) (ctx_nodes k kl ++ low_tables s kpm) &&
  forallb (fun j => get_table s pm j =? NULL) (seqZ 0 512) &&
  (region_check (mem s) x0 (rg_node x1) && region_check (mem s) x1 NULL) = true ->
  vctx_ok s c pm [x] -> rg_end x = 0x10000 -> ctx_root (mem s) k = n0 ->
  spawn_ready s 0 c pm [x] [(0x2010, 77792)] 0x1000 0x15000 [] kl.
Proof.
  intros x0 x1 kl S1 S3 (S2 & S4 & S5 & S6 & S7) C3 C4 [[C1 C2]%andb_true_iff Hch]%andb_true_iff Hok Hx Hn.
  apply (proj1 (Z.sub_move_0_r _ _)) in C3, C4. apply (chain_two _ x0 x1) in Hch. change (rg_node x0) with n0 in Hch.
  rewrite <-Hn in Hch.
  assert (Hempty : forall j, idx j -> get_table s pm j = NULL).
  { intros j Hj. rewrite forallb_forall in C2. apply Z.eqb_eq, C2, list_elem_of_In, elem_of_seqZ.
    unfold idx in Hj. lia. }
  assert (HD : Forall (data_page s c pm [x]) (ctx_nodes k kl ++ low_tables s kpm)).
  { apply Forall_forall. intros u Hu. rewrite forallb_forall in C1.
    by apply (data_pageb_ok _ _ _ _ _ Hempty), C1, list_elem_of_In. }
  apply Forall_app in HD as [HD1 HD2].
  split; rewrite ?S1, ?C4; try done; try exact Hch.
  - unfold cpu_known. rewrite S3. cbn. lia.
  - split; [done|done|cbn; lia|constructor|by intros ?%not_elem_of_nil].
  - by intros p ?%not_elem_of_nil.
  - rewrite S4. unfold HHDM. lia.
  - intros y ->%list_elem_of_singleton. rewrite Hx. unfold PAGE_SIZE. lia.
  - intros w Hw. rewrite C3. apply reads_low; [|exact HD2].
    destruct Hw as [Hw|[Hw|(y & Hy & Hw)]]; [lia| |].
    + rewrite S1 in Hw. apply (page_run_low 0x1010 4096); [lia|lia|unfold PAGE_SIZE; lia|exact Hw].
    + unfold kl in Hy. apply elem_of_cons in Hy as [-> | ->%list_elem_of_singleton].
      * apply (page_run_low 0x1000 0); [lia|lia|unfold PAGE_SIZE; lia|exact Hw].
      * apply (page_run_low 0x1000 81920); [lia|lia|unfold PAGE_SIZE; lia|exact Hw].
Qed.

Lemma kc5_ready :
  spawn_ready kc5 0 pctx proot [preg] [(0x2010, 77792)] 0x1000 0x15000 [] [kreg0; kreg1].
Proof.
  destruct kc_rest as (H1 & H2 & _ & H3), kc_states as (H4 & _ & _ & H5 & H6 & _).
  exact (first_process_ready kc5 pctx proot preg kctx knode0 knode1 root0 H1 H2 H4 H5 H6 H3 kc5_ctx
    eq_refl eq_refl).
Qed.

Lemma sched_spawn_correct_witness :
  result_of (sched_spawn 10 true 0x400000 proot pctx kc5) = Some 1 /\
  wpp (sched_spawn 10 true 0x400000 proot pctx) (fun r s' =>
    r = global_pid_counter (sched kc5) /\
    exists proc n fl' l1 x l2 node, first_such gap_behind [preg] l1 x l2 /\
      spawned kc5 0 pctx proot [preg] [(0x2010, 77792)] 0x1000 0x15000 [] [kreg0; kreg1] true 0x400000
        proc n fl' (stack_regions true l1 x l2 node) (rg_end x) s' /\
      queue (sched_at 0 s') ([] ++ [proc])) (spawn_panic kc5 0 [preg] [(0x2010, 77792)] []) kc5.
Proof.
  split; [exact (proj1 (proj2 kc_results))|].
  exact (sched_spawn_correct 10 kc5 0 pctx proot [preg] [(0x2010, 77792)] 0x1000 0x15000 []
    [kreg0; kreg1] true 0x400000 kc5_ready ltac:(cbn; lia) ltac:(cbn; lia) ltac:(cbn; lia)).
Defined.

Lemma shared_page phys e v : phys = 0x18000 -> v = Some e -> e = 0x18007 ->
  phys <> 0 /\ v = Some (Z.lor phys (Z.lor (Z.lor VMM_PRESENT VMM_WRITE) VMM_USER)).
Proof. by intros -> -> ->. Qed.

(** The kernel's regions are shared after the stack was allocated.  A context that starts
    at 0x10000, as that of the first program does, gets its stack where the kernel's heap
    lies: the stack page then translates to a page of the heap, and user code may write
    it. *)
Lemma spawn_stack_in_heap :
  virt_to_phys kc5 root0 0x10000 <> 0 /\
  lookup kc6 proot 0x10000 = Some (Z.lor (virt_to_phys kc5 root0 0x10000)
    (Z.lor (Z.lor VMM_PRESENT VMM_WRITE) VMM_USER)).
Proof.
  destruct kc_states as (_ & _ & _ & _ & _ & H1), kc_rest as (_ & _ & H2 & _).
  exact (shared_page _ _ _ H1 H2 eq_refl).
Qed.
