(* ===== verification/Syscall.v ===== *)
(** * sys/syscall.h, sys/syscall.c, util/errno.h and [syscall_handler] of arch/idt.c

    A system call takes its number and arguments from the saved registers and puts
    its result into the saved [rax]. *)

From S2P Require Export SchedProps.

(** ** Error numbers *)

Definition EOK : Z := 0.
Definition EFAULT : Z := 1.
Definition EINVAL : Z := 2.
Definition EBADPID : Z := 3.
Definition ESRCH : Z := 4.
Definition ENOSYS : Z := 5.
Definition EAGAIN : Z := 6.
Definition EINTR : Z := 7.

Definition ERRNO_TO_STR (errno : Z) : string :=
  (if (errno =? EOK)%Z then "No error"
   else if (errno =? EFAULT)%Z then "Bad address"
   else if (errno =? EINVAL)%Z then "Invalid argument"
   else if (errno =? EBADPID)%Z then "Bad pid"
   else if (errno =? ESRCH)%Z then "No such process"
   else if (errno =? ENOSYS)%Z then "Function not implemented"
   else if (errno =? EAGAIN)%Z then "Resource temporarily unavailable"
   else if (errno =? EINTR)%Z then "Interrupted system call"
   else "Unknown error")%string.

(** ** The table *)

Definition SYS_exit : Z := 0.
Definition SYS_kping : Z := 1.
Definition SYSCALL_TABLE_SIZE : Z := 2.

Definition SYSCALL_TO_STR (n : Z) : string :=
  (if (n =? SYS_exit)%Z then "exit" else if (n =? SYS_kping)%Z then "kping" else "unknown")%string.

Section Syscall.
Context {FA : FrameAlloc}.
Context (fuel : nat) (dummy_ctx : register_ctx).

Definition sys_exit (code : Z) : K Z :=
  s <- get ;;
  if sched_get_current s =? NULL then ret (- ESRCH) else
  proc_exit fuel dummy_ctx (i32 code) ;;;
  ret 0.

(** The log line is left out. *)
Definition sys_kping : K Z :=
  s <- get ;;
  if sched_get_current s =? NULL then ret (- ESRCH) else ret 0.

Definition syscall_table (num : Z) : option (Z -> K Z) :=
  if num =? SYS_exit then Some sys_exit
  else if num =? SYS_kping then Some (fun _ => sys_kping)
  else None.

Definition syscall_dispatch (num arg1 : Z) : K Z :=
  if SYSCALL_TABLE_SIZE <=? num then ret (- ENOSYS) else
  match syscall_table num with
  | None => ret (- ENOSYS)
  | Some f => f arg1
  end.

Definition with_rax (v : Z) (c : register_ctx) : register_ctx :=
  RegisterCtx (r_es c) (r_ds c) (r_cr4 c) (r_cr3 c) (r_cr2 c) (r_cr0 c)
    (r_r15 c) (r_r14 c) (r_r13 c) (r_r12 c) (r_r11 c) (r_r10 c) (r_r9 c) (r_r8 c)
    (r_rsi c) (r_rdi c) (r_rbp c) (r_rdx c) (r_rcx c) (r_rbx c) v
    (r_vector c) (r_err c) (r_rip c) (r_cs c) (r_rflags c) (r_rsp c) (r_ss c).

Definition syscall_handler (ctx : register_ctx) : K register_ctx :=
  status <- syscall_dispatch (r_rax ctx) (r_rdi ctx) ;;
  s <- get ;;
  let proc := sched_get_current s in
  when (negb (proc =? NULL) && (status <? 0)) (update_pcb proc (with_errno (w32 (- status)))) ;;;
  ret (with_rax (w64 status) ctx).
End Syscall.

(** ** Theorems *)

Section Props.
Context {FA : FrameAlloc}.

(** The running process, as [sched_get_current] sees it. *)
Lemma get_current_running i s k p :
  running i s k p -> i < MAX_CPUS -> sched_get_current s = p.
Proof.
  intros [Hcpu _ _ Hc Hb Hp _ _] Hi. unfold sched_get_current. rewrite Hcpu, Hc.
  destruct (Z.leb_spec MAX_CPUS i); [lia|].
  destruct (Z.eqb_spec (count (sched_at i s)) 0); [lia|].
  destruct (Z.leb_spec (count (sched_at i s)) k); [lia|]. done.
Qed.

(** a system call that does not exist returns -ENOSYS; the error number is
    stored in the process's control block, and nothing else changes but [rax]. *)
Theorem syscall_unknown fuel dummy ctx s i k p :
  running i s k p -> i < MAX_CPUS -> SYSCALL_TABLE_SIZE <= r_rax ctx ->
  wp (syscall_handler fuel dummy ctx) (fun r s' =>
    r = with_rax (2 ^ 64 - ENOSYS) ctx /\
    s' = set_pcbs (<[p := with_errno ENOSYS (pcb_at s p)]> (pcbs (sched s))) s) s.
Proof.
  intros Hr Hi Hn. unfold syscall_handler, syscall_dispatch.
  destruct (Z.leb_spec SYSCALL_TABLE_SIZE (r_rax ctx)); [|lia].
  do 4 (wp_step; cbv beta). rewrite (get_current_running i s k p) by done.
  rewrite (proj2 (Z.eqb_neq p NULL) (run_null _ _ _ _ Hr)). done.
Qed.

(** C39: [exit] by the running process never returns, and not only for the process:
    [proc_exit] calls [sched_terminate], which holds the scheduler's lock when it
    calls [sched_tick], which waits for it. *)
Theorem sys_exit_deadlock fuel dummy ctx s i k p :
  running i s k p -> i < MAX_CPUS -> r_rax ctx = SYS_exit ->
  exists s', syscall_handler fuel dummy ctx s = Hang s'.
Proof.
  intros Hr Hi Hn. destruct (proc_exit_hangs fuel dummy (i32 (r_rdi ctx)) i s k p Hr) as [s' Hs'].
  exists s'. unfold syscall_handler, syscall_dispatch. rewrite Hn. cbn.
  unfold bind at 1 2, get. unfold sys_exit, bind at 1, get.
  rewrite (get_current_running i s k p) by done.
  rewrite (proj2 (Z.eqb_neq p NULL) (run_null _ _ _ _ Hr)). unfold bind. by rewrite Hs'.
Qed.
End Props.

Lemma syscall_unknown_witness :
  wp (syscall_handler 10 zero_ctx (with_rax 77 (regs_at 0x104))) (fun r s' =>
    r = with_rax (2 ^ 64 - ENOSYS) (with_rax 77 (regs_at 0x104)) /\
    s' = set_pcbs (<[proc_a := with_errno ENOSYS (pcb_at two_procs proc_a)]>
                     (pcbs (sched two_procs))) two_procs) two_procs.
Proof.
  apply (syscall_unknown 10 zero_ctx (with_rax 77 (regs_at 0x104)) two_procs 0 0 proc_a two_running);
    [reflexivity|cbn; unfold SYSCALL_TABLE_SIZE; lia].
Defined.

Lemma sys_exit_deadlock_witness :
  exists s', syscall_handler 10 zero_ctx (regs_at 0x104) two_procs = Hang s'.
Proof.
  exact (sys_exit_deadlock 10 zero_ctx (regs_at 0x104) two_procs 0 0 proc_a two_running
    eq_refl eq_refl).
Defined.
