(* ===== verification/VmmAdd.v ===== *)
(** * mm/vmm.c: [vadd], a region at an address the caller chooses *)

From S2P Require Export VmmProps.

(** The memory after [insert_first]. *)
Definition first_mem (m : memory) (n c vaddr pages flags : Z) : memory :=
  let m := memset m n 0 sizeof_vregion in
  let m := poke n vaddr m in
  let m := poke (n + 8) pages m in
  let m := poke (n + 16) (VFLAGS_TO_PFLAGS flags) m in
  let m := poke (n + 24) (ctx_root m c) m in
  let m := if negb (ctx_root m c =? NULL) then poke (ctx_root m c + 32) n m else m in
  poke c n m.

Lemma insert_first_run n c vaddr pages flags s :
  insert_first n c vaddr pages flags s = Ret tt (set_mem (first_mem (mem s) n c vaddr pages flags) s).
Proof.
  unfold insert_first, first_mem, bind, get, when, memset_at, set_region_start,
    set_region_pages, set_region_flags, set_region_next, set_region_prev, write64, modify, ret, poke.
  cbv beta iota zeta. cbn [mem set_mem].
  by match goal with |- context [negb ?b] => destruct (negb b) end.
Qed.

(** The interval test of [vadd]. *)
Definition clash (va vend : Z) (x : region) : Prop :=
  rg_start x <= va < rg_end x \/ rg_start x < vend <= rg_end x \/
  va <= rg_start x /\ rg_end x <= vend.

#[export] Instance clash_dec va vend x : Decision (clash va vend x).
Proof. unfold clash. apply _. Defined.

(** Regions that pass it share no address with the new one. *)
Lemma no_clash_disjoint va vend x a :
  ~ clash va vend x -> va <= a < vend -> ~ (rg_start x <= a < rg_end x).
Proof. unfold clash. lia. Qed.

Lemma ctx_nodes_cons c x l u :
  u ∈ ctx_nodes c (x :: l) <-> u = c \/ u = rg_node x \/ u ∈ rg_node <$> l.
Proof. unfold ctx_nodes. cbn [fmap list_fmap]. by rewrite !elem_of_cons. Qed.

Section Add.
Context {FA : FrameAlloc} {FL : FrameAllocLaws}.

Section Insert.
Context (s : machine) (c pm : Z) (x : region) (l : list region) (n vaddr pages flags : Z).
Hypothesis (Hok : vctx_ok s c pm (x :: l)).
Hypothesis (Hcn : client_page s n) (Htn : not_table s pm n) (Hnin : ~ (n ∈ ctx_nodes c (x :: l))).
Hypothesis (Hv : 0 <= vaddr < 2 ^ 64) (Hp : 0 <= pages < 2 ^ 64).

Let m' := first_mem (mem s) n c vaddr pages flags.
Let y := Region n vaddr pages (VFLAGS_TO_PFLAGS flags).

Lemma first_layout :
  rg_node x <> NULL /\ ctx_root (mem s) c = rg_node x /\
  (n + PAGE_SIZE <= c \/ c + PAGE_SIZE <= n) /\
  (n + PAGE_SIZE <= rg_node x \/ rg_node x + PAGE_SIZE <= n) /\
  (c + PAGE_SIZE <= rg_node x \/ rg_node x + PAGE_SIZE <= c) /\
  0 < n /\ n + PAGE_SIZE <= 2 ^ 64 /\ 0 < c /\ 0 < rg_node x /\ rg_node x + PAGE_SIZE <= 2 ^ 64.
Proof.
  pose proof Hok as [Hi Hpt Hpm Hch Hne Hnd Hcl Htb]. rewrite Forall_forall in Hcl.
  destruct Hch as (Hr & Hrn & _).
  assert (Hcc : client_page s c) by (apply Hcl, ctx_nodes_cons; tauto).
  assert (Hcx : client_page s (rg_node x)) by (apply Hcl, ctx_nodes_cons; tauto).
  pose proof (client_page_bounds s n Hi Hcn) as (_ & _ & ? & ?).
  pose proof (client_page_bounds s c Hi Hcc) as (_ & _ & ? & ?).
  pose proof (client_page_bounds s _ Hi Hcx) as (_ & _ & ? & ?).
  assert (n <> c /\ n <> rg_node x /\ c <> rg_node x) as (G1 & G2 & G3).
  { rewrite ctx_nodes_cons in Hnin. apply NoDup_cons in Hnd as [Hnd _].
    cbn [fmap list_fmap] in Hnd. rewrite elem_of_cons in Hnd. tauto. }
  split_and!; try done; try congruence; by apply (client_page_apart s).
Qed.

Lemma first_mem_eq :
  m' = poke c n (poke (rg_node x + 32) n (poke (n + 24) (rg_node x)
    (poke (n + 16) (VFLAGS_TO_PFLAGS flags) (poke (n + 8) pages
      (poke n vaddr (memset (mem s) n 0 sizeof_vregion)))))).
Proof.
  destruct first_layout as (Hrn & Hr & H1 & H2 & H3 & H4 & H5 & H6 & H7 & H8).
  unfold PAGE_SIZE in *.
  assert (Hroot : forall m, (forall a, c <= a < c + 8 -> load8 m a = load8 (mem s) a) ->
    ctx_root m c = rg_node x).
  { intros m Hm. rewrite <- Hr. by apply load64_ext. }
  assert (Hms : forall a, c <= a < c + 8 -> load8 (memset (mem s) n 0 sizeof_vregion) a = load8 (mem s) a).
  { intros a Ha. apply memset_agree. unfold in_range, sizeof_vregion. lia. }
  unfold m', first_mem. cbv zeta.
  rewrite !Hroot; [by rewrite (proj2 (Z.eqb_neq _ NULL) Hrn)|..];
    intros a Ha; rewrite ?poke_out by lia; by apply Hms.
Qed.

Lemma first_mem_out a :
  ~ in_range n PAGE_SIZE a -> ~ in_range (rg_node x + 32) 8 a -> ~ in_range c 8 a ->
  load8 m' a = load8 (mem s) a.
Proof.
  rewrite first_mem_eq. unfold in_range, PAGE_SIZE. intros H1 H2 H3. rewrite !poke_out by lia.
  apply memset_agree. unfold in_range, sizeof_vregion. lia.
Qed.

Lemma first_mem_fields :
  region_start m' n = vaddr /\ region_pages m' n = pages /\
  region_flags m' n = VFLAGS_TO_PFLAGS flags /\ region_next m' n = rg_node x /\
  ctx_root m' c = n /\ ctx_pagemap m' c = ctx_pagemap (mem s) c.
Proof.
  destruct first_layout as (_ & _ & H1 & H2 & H3 & H4 & H5 & H6 & H7 & H8).
  destruct (vflags_range flags) as (Hfr & _). rewrite first_mem_eq.
  unfold region_start, region_pages, region_flags, region_next, ctx_root, ctx_pagemap, PAGE_SIZE in *.
  split_and!.
  - rewrite !poke_ne by lia. by apply poke_eq.
  - rewrite !poke_ne by lia. by apply poke_eq.
  - do 3 (rewrite poke_ne by lia). by apply poke_eq.
  - do 2 (rewrite poke_ne by lia). apply poke_eq. lia.
  - apply poke_eq. lia.
  - rewrite !poke_ne by lia. apply load64_ext. intros a Ha. apply memset_agree.
    unfold in_range, sizeof_vregion. lia.
Qed.

Lemma first_fields_agree u : u ∈ rg_node <$> (x :: l) -> fields_agree (mem s) m' u.
Proof.
  intros Hu. pose proof Hok as [Hi _ _ _ _ Hnd Hcl _]. rewrite Forall_forall in Hcl.
  destruct first_layout as (_ & _ & H1 & H2 & H3 & H4 & H5 & H6 & H7 & H8).
  assert (Huc : client_page s u) by (apply Hcl, elem_of_cons; by right).
  assert (Hun : u + PAGE_SIZE <= n \/ n + PAGE_SIZE <= u).
  { apply (client_page_apart s); try done. intros ->. apply Hnin, elem_of_cons. by right. }
  assert (Hucc : u + PAGE_SIZE <= c \/ c + PAGE_SIZE <= u).
  { apply (client_page_apart s); try done; [apply Hcl, elem_of_cons; by left|]. intros ->.
    apply NoDup_cons in Hnd as [Hnd _]. done. }
  assert (Hux : u = rg_node x \/ (u + PAGE_SIZE <= rg_node x \/ rg_node x + PAGE_SIZE <= u)).
  { destruct (decide (u = rg_node x)) as [|Hne]; [by left|right].
    apply (client_page_apart s); try done. apply Hcl, ctx_nodes_cons. tauto. }
  assert (Hw : forall k, 0 <= k -> k + 8 <= 32 -> load64 m' (u + k) = load64 (mem s) (u + k)).
  { intros k Hk1 Hk2. apply load64_ext. intros a Ha. unfold PAGE_SIZE in *.
    apply first_mem_out; unfold in_range, PAGE_SIZE; lia. }
  unfold fields_agree, region_start, region_pages, region_flags, region_next.
  rewrite !Hw by lia. pose proof (Hw 0) as H0. rewrite Z.add_0_r in H0. by rewrite H0 by lia.
Qed.

(** The pages written: the node's, the context's and the first node's. *)
Lemma first_pages : Forall (fun u => client_page s u /\ not_table s pm u) [n; c; rg_node x].
Proof.
  pose proof Hok as [_ _ _ _ _ _ Hcl Htb]. rewrite Forall_forall in Hcl, Htb.
  rewrite !Forall_cons. split_and!; try done;
    ((apply Hcl || apply Htb); apply ctx_nodes_cons; tauto).
Qed.

Lemma first_agree :
  agree_outside (fun a => exists u, u ∈ [n; c; rg_node x] /\ in_range u PAGE_SIZE a) (mem s) m'.
Proof.
  intros a Ha. apply first_mem_out; intros Hin; apply Ha.
  - exists n. rewrite !elem_of_cons. tauto.
  - exists (rg_node x). rewrite !elem_of_cons. split; [tauto|]. unfold in_range, PAGE_SIZE in *. lia.
  - exists c. rewrite !elem_of_cons. split; [tauto|]. unfold in_range, PAGE_SIZE in *. lia.
Qed.

Lemma vctx_ok_first :
  vctx_ok (set_mem m' s) c pm (y :: x :: l) /\
  (forall f, fa_owned (set_mem m' s) f <-> fa_owned s f) /\
  (forall v, lookup (set_mem m' s) pm v = lookup s pm v) /\
  region_flags m' n = rg_flags y.
Proof.
  pose proof Hok as [Hi Hpt Hpm Hch Hne Hnd Hcl Htb]. rewrite Forall_forall in Hcl, Htb.
  destruct first_layout as (Hrn & Hr & H1 & H2 & H3 & H4 & H5 & H6 & H7 & H8).
  destruct first_mem_fields as (F1 & F2 & F3 & F4 & F5 & F6).
  destruct (client_writes s m' _ pm Hi Hpt first_pages first_agree) as (Hi' & Ho' & Hpt' & Hw' & Hlk').
  assert (Hsub : forall u, u ∈ ctx_nodes c (y :: x :: l) -> u = n \/ u ∈ ctx_nodes c (x :: l)).
  { intros u. rewrite !ctx_nodes_cons. cbn [fmap list_fmap]. rewrite elem_of_cons. cbn. tauto. }
  split; [|split_and!; done]. split; try done.
  - cbn. rewrite F6. done.
  - cbn [mem set_mem]. rewrite F5. cbn [chain y rg_node rg_start rg_pages rg_flags].
    refine (conj eq_refl (conj _ (conj F1 (conj F2 (conj F3 _))))); [lia|].
    assert (Hch' : chain m' (rg_node x) (x :: l)).
    { rewrite <-Hr. apply (chain_fields (mem s)); [|done]. apply Forall_forall. intros u.
      apply first_fields_agree. }
    rewrite F4. exact Hch'.
  - rewrite ctx_nodes_cons in Hnin. apply NoDup_cons in Hnd as [Hcd Hnd].
    cbn [fmap list_fmap] in Hcd, Hnd. rewrite elem_of_cons in Hcd.
    apply NoDup_cons. cbn [fmap list_fmap]. change (rg_node y) with n. split.
    { rewrite !elem_of_cons. intros [->|Hc]; tauto. }
    apply NoDup_cons. split; [rewrite elem_of_cons; tauto|done].
  - apply Forall_forall. intros u Hu. apply (client_page_mono s); [done|intros f; apply Ho'|].
    destruct (Hsub u Hu) as [->|]; auto.
  - apply Forall_forall. intros u Hu p Hpp. rewrite Hw' by done.
    destruct (Hsub u Hu) as [->|Hu']; [by apply Htn|by apply (Htb u)].
Qed.
End Insert.

(** The walk over the list finds a clash or none. *)
Lemma overlaps_clash m p l1 x l2 va vend :
  chain m p (l1 ++ x :: l2) -> (overlaps va vend m (rg_node x) = true <-> clash va vend x).
Proof.
  intros Hch. unfold overlaps. rewrite (chain_end _ _ _ _ _ Hch).
  destruct (chain_region _ _ _ _ _ Hch) as (_ & -> & _). unfold clash.
  rewrite !orb_true_iff, !andb_true_iff, !Z.leb_le, !Z.ltb_lt. tauto.
Qed.

Lemma vadd_scan fuel s c pm l va vend :
  vctx_ok s c pm l -> (length l < fuel)%nat ->
  wp (scan_regions fuel (overlaps va vend) (ctx_root (mem s) c)) (fun r s' => s' = s /\
    ((r = NULL /\ forall x, x ∈ l -> ~ clash va vend x) \/
     (r <> NULL /\ exists x, x ∈ l /\ clash va vend x))) s.
Proof.
  intros Hok Hf. eapply wp_mono; [apply (scan_regions_spec fuel _ _ l s); [apply Hok|done]|].
  intros r s' [-> [[-> Hall]|(l1 & x & l2 & -> & -> & Hn & Hx & _)]]; (split; [done|]).
  - left. split; [done|]. intros x Hin Hc. rewrite Forall_forall in Hall.
    pose proof (Hall x Hin) as Hx. apply list_elem_of_split in Hin as (l1 & l2 & ->).
    apply (overlaps_clash _ _ _ _ _ _ _ (vc_chain _ _ _ _ Hok)) in Hc. congruence.
  - right. split; [done|]. exists x. split; [apply elem_of_app; right; apply elem_of_cons; by left|].
    by apply (overlaps_clash _ _ _ _ _ _ _ (vc_chain _ _ _ _ Hok)).
Qed.

(** What [vadd] does. *)
Definition vadd_post (s : machine) (c pm : Z) (l : list region) (va pa pages flags r : Z)
    (s' : machine) : Prop :=
  (r = NULL /\ s' = s /\ ((exists x, x ∈ l /\ clash va (va + pages * PAGE_SIZE) x) \/ fa_full s)) \/
  ((forall x, x ∈ l -> ~ clash va (va + pages * PAGE_SIZE) x) /\ r = va /\
   exists f es, let y := Region (page_at s f) va pages (VFLAGS_TO_PFLAGS flags) in
     ~ fa_owned s f /\ vctx_ok s' c pm (y :: l) /\ length es = Z.to_nat pages /\
     pages_set s s' pm va es /\ given_pages pa (VFLAGS_TO_PFLAGS flags) es /\
     spared pm (ctx_nodes c l) s s' /\ (linked s pm -> None ∈ es -> fa_full s')).

Lemma spared_first s c pm x l n va pages flags :
  vctx_ok s c pm (x :: l) -> client_page s n -> not_table s pm n -> ~ (n ∈ ctx_nodes c (x :: l)) ->
  0 <= va < 2 ^ 64 -> 0 <= pages < 2 ^ 64 ->
  spared pm (n :: ctx_nodes c (x :: l)) s (set_mem (first_mem (mem s) n c va pages flags) s).
Proof.
  intros Hok Hcn Htn Hnin Hv Hp. apply (spared_weaken pm [n; c; rg_node x]).
  - intros u. rewrite 3!elem_of_cons, elem_of_nil, elem_of_cons, ctx_nodes_cons. tauto.
  - apply spared_writes; [apply Hok|apply Hok|by apply (first_pages s c pm x l n va pages)
      |by apply (first_agree s c pm x l n va pages flags)].
Qed.

(** The loop that maps the pages of the new region [y]. *)
Lemma vadd_pages s s2 c pm l y va pa pages :
  vctx_ok s2 c pm (y :: l) -> (forall v, lookup s2 pm v = lookup s pm v) ->
  0 <= va -> 0 <= pages -> va + pages * PAGE_SIZE <= 2 ^ 48 ->
  0 <= rg_flags y < 2 ^ 64 -> has (rg_flags y) VMM_PRESENT = true ->
  wp (for_loop (Z.to_nat pages) 0 1 (fun i =>
        s <- get ;;
        vmap (ctx_pagemap (mem s) c) (w64 (va + w64 (i * PAGE_SIZE)))
          (w64 (pa + w64 (i * PAGE_SIZE))) (region_flags (mem s) (rg_node y)) ;;; ret tt))
    (fun _ s' => vctx_ok s' c pm (y :: l) /\ kept pm s2 s' /\
      exists es, length es = Z.to_nat pages /\ pages_set s s' pm va es /\ given_pages pa (rg_flags y) es /\
        (linked s2 pm -> None ∈ es -> fa_full s')) s2.
Proof.
  intros Hok Hlk Hva Hp Hb Hfr Hfp.
  apply (wp_for_loop (Z.to_nat pages) 0 1 _ (fun k s' => vctx_ok s' c pm (y :: l) /\ kept pm s2 s' /\
    exists es, length es = k /\ pages_set s s' pm va es /\ given_pages pa (rg_flags y) es /\
      (linked s2 pm -> None ∈ es -> fa_full s'))).
  { split; [done|]. split; [apply kept_refl|]. exists []. split; [done|].
    split; [by apply pages_set_nil|]. split; [by intros i o ?|by intros _ ?%not_elem_of_nil]. }
  intros k s' Hk (Hok' & Hk' & es & Hlen & Hps & Hgp & Hno).
  destruct (chain_region (mem s') (ctx_root (mem s') c) [] y l (vc_chain _ _ _ _ Hok')) as (_ & _ & _ & Ef & _).
  wp_step. wp_step. cbv beta. rewrite Ef, (vc_pm _ _ _ _ Hok').
  replace (0 + Z.of_nat k * 1) with (Z.of_nat k) by lia.
  assert (Hbz : va + Z.of_nat (Z.to_nat pages) * PAGE_SIZE <= 2 ^ 48)
    by (rewrite Z2Nat.id by lia; exact Hb).
  rewrite (nth_page_w64 va (Z.to_nat pages) Hva Hbz k Hk). rewrite <-Hlen.
  wp_step. eapply wp_mono.
  { apply (vmap_next s c pm va (y :: l) (Z.to_nat pages) Hva Hbz _ (rg_flags y) es s');
      try done; [lia|apply w64_range]. }
  cbv beta. intros _ s'' (Hok'' & [Hk'' Hfull] & o & [Ho _] & Hps'). wp_step.
  split; [done|]. split; [by apply (kept_trans pm s2 s')|]. exists (es ++ [o]).
  split; [rewrite length_app; cbn; lia|]. split; [done|]. split.
  - intros i o' [Hi|[Hge Hi]]%lookup_app_Some; [by apply Hgp|].
    apply list_lookup_singleton_Some in Hi as [Hi <-].
    replace i with (length es) by lia. destruct Ho as [[-> _]| ->]; [by left|by right].
  - intros Hl [Hin|Hin%list_elem_of_singleton]%elem_of_app; [auto|].
    destruct Ho as [[_ Ho]|Ho]; [by apply Ho, (k_linked _ _ _ Hk')|by subst o].
Qed.

Lemma vadd_spec fuel s c pm l vaddr paddr pages flags :
  vctx_ok s c pm l -> (length l < fuel)%nat -> 0 <= pages < 2 ^ 64 ->
  ALIGN_DOWN vaddr PAGE_SIZE + pages * PAGE_SIZE <= 2 ^ 48 ->
  wp (vadd fuel c vaddr paddr pages flags)
    (vadd_post s c pm l (ALIGN_DOWN vaddr PAGE_SIZE) (ALIGN_DOWN paddr PAGE_SIZE) pages flags) s.
Proof.
  intros Hok Hf Hp Hb. unfold vadd. wp_step. wp_step. cbv beta.
  rewrite (vctx_usable s c pm l Hok).
  set (va := ALIGN_DOWN vaddr PAGE_SIZE) in *. set (pa := ALIGN_DOWN paddr PAGE_SIZE).
  assert (Hva : 0 <= va).
  { unfold va, ALIGN_DOWN. pose proof (w64_range vaddr). change (w64 PAGE_SIZE) with 4096.
    pose proof (Z.div_pos (w64 vaddr) 4096). lia. }
  assert (Hend : w64 (va + w64 (pages * PAGE_SIZE)) = va + pages * PAGE_SIZE).
  { unfold PAGE_SIZE in *. rewrite !w64_id; rewrite ?w64_id; lia. }
  rewrite Hend. wp_step. eapply wp_mono; [by apply (vadd_scan fuel s c pm l)|]. cbv beta.
  intros r s_ [-> [[-> Hno]|[Hn Hcl]]].
  2: { rewrite (proj2 (Z.eqb_neq r NULL) Hn). cbn [negb]. wp_step. left. split_and!; [done..|by left]. }
  change (negb (NULL =? NULL)) with false. cbv iota.
  wp_step. eapply wp_mono; [apply fa_palloc_fresh; apply Hok|]. cbv beta.
  intros n s1 [(-> & -> & Hfull)|(f & -> & Hi1 & Hout & _)]; [left; split_and!; [done..|by right]|].
  change (frame_ptr s true f) with (page_at s f). set (n := page_at s f).
  destruct (vctx_ok_fresh s s1 c pm _ f Hok Hi1 Hout) as (Hok1 & Hcn & Htn & Hnin & _ & Hlk1).
  destruct (client_page_bounds s1 n Hi1 Hcn) as (_ & _ & _ & Hnpos).
  rewrite (proj2 (Z.eqb_neq n NULL)) by lia. cbv iota. wp_step. unfold wp at 1. rewrite insert_first_run.
  destruct l as [|x l]; [by destruct (vc_nonempty _ _ _ _ Hok)|].
  assert (Hva64 : 0 <= va < 2 ^ 64) by (unfold PAGE_SIZE in Hb; lia).
  destruct (vctx_ok_first s1 c pm x l n va pages flags Hok1 Hcn Htn Hnin Hva64 Hp) as (Hok2 & _ & Hlk2 & _).
  pose proof (spared_first s1 c pm x l n va pages flags Hok1 Hcn Htn Hnin Hva64 Hp) as Hsp2.
  set (s2 := set_mem _ s1) in *. set (y := Region n va pages (VFLAGS_TO_PFLAGS flags)) in *.
  destruct (vflags_range flags) as (Hfr & Hfp & _). wp_step. eapply wp_mono.
  { apply (vadd_pages s s2 c pm (x :: l) y va pa pages); try done; [|lia]. intros v. by rewrite Hlk2. }
  cbv beta. intros [] s3 (Hok3 & Hk3 & es & Hlen & Hps & Hgp & Hnf). wp_step.
  right. split; [done|]. split; [done|]. exists f, es. split_and!; try done.
  - apply (ho_new _ _ _ _ Hout).
  - exact (spared_fresh pm (ctx_nodes c (x :: l)) s s1 s2 s3 f (vc_pt _ _ _ _ Hok) Hout Hsp2 Hk3).
  - intros Hl. apply Hnf, (sp_linked _ _ _ _ Hsp2).
    exact (k_linked _ _ _ (kept_fresh pm s s1 f (vc_pt _ _ _ _ Hok) Hout) Hl).
Qed.
End Add.

Section Props.
Context {FA : FrameAlloc} {FL : FrameAllocLaws}.

(** C17: [vadd] returns NULL, changing nothing, only when a region clashes with the
    range or no frame is left for the node; otherwise no existing region shares
    an address with the new range, the region is the first of the list, its pages
    map the given consecutive physical pages with the flags asked for (in linked tables an
    entry is left alone only when no frame is left for a table), no other translation
    changes, and other clients' pages keep their bytes. *)
Theorem vadd_correct fuel s c pm l vaddr paddr pages flags :
  let va := ALIGN_DOWN vaddr PAGE_SIZE in
  vctx_ok s c pm l -> (length l < fuel)%nat -> 0 <= pages < 2 ^ 64 ->
  va + pages * PAGE_SIZE <= 2 ^ 48 ->
  wp (vadd fuel c vaddr paddr pages flags) (fun r s' =>
    (r = NULL /\ s' = s /\ ((exists x, x ∈ l /\ clash va (va + pages * PAGE_SIZE) x) \/ fa_full s)) \/
    ((forall x a, x ∈ l -> va <= a < va + pages * PAGE_SIZE -> ~ (rg_start x <= a < rg_end x)) /\
     r = va /\ exists f es,
       let y := Region (page_at s f) va pages (VFLAGS_TO_PFLAGS flags) in
       ~ fa_owned s f /\ vctx_ok s' c pm (y :: l) /\ length es = Z.to_nat pages /\
       pages_set s s' pm va es /\
       given_pages (ALIGN_DOWN paddr PAGE_SIZE) (VFLAGS_TO_PFLAGS flags) es /\
       spared pm (ctx_nodes c l) s s' /\ (linked s pm -> None ∈ es -> fa_full s'))) s.
Proof.
  intros va Hok Hf Hp Hb. eapply wp_mono; [by apply (vadd_spec fuel s c pm l)|].
  intros r s' [?|(Hno & Hr & Hrest)]; [by left|right]. split; [|done].
  intros x a Hx. apply no_clash_disjoint. by apply Hno.
Qed.
End Props.

Lemma vadd_correct_witness :
  result_of (vadd 10 ctx0 0x600123 0x9000 2 3 vs2) = Some 0x600000 /\
  wp (vadd 10 ctx0 0x600123 0x9000 2 3) (fun r s' =>
    (r = NULL /\ s' = vs2 /\ ((exists x, x ∈ [reg0; reg1] /\ clash (ALIGN_DOWN 0x600123 PAGE_SIZE)
        (ALIGN_DOWN 0x600123 PAGE_SIZE + 2 * PAGE_SIZE) x) \/ fa_full vs2)) \/
    ((forall x a, x ∈ [reg0; reg1] -> ALIGN_DOWN 0x600123 PAGE_SIZE <= a <
        ALIGN_DOWN 0x600123 PAGE_SIZE + 2 * PAGE_SIZE -> ~ (rg_start x <= a < rg_end x)) /\
     r = ALIGN_DOWN 0x600123 PAGE_SIZE /\ exists f es,
       let y := Region (page_at vs2 f) (ALIGN_DOWN 0x600123 PAGE_SIZE) 2 (VFLAGS_TO_PFLAGS 3) in
       ~ fa_owned vs2 f /\ vctx_ok s' ctx0 root0 (y :: [reg0; reg1]) /\ length es = Z.to_nat 2 /\
       pages_set vs2 s' root0 (ALIGN_DOWN 0x600123 PAGE_SIZE) es /\
       given_pages (ALIGN_DOWN 0x9000 PAGE_SIZE) (VFLAGS_TO_PFLAGS 3) es /\
       spared root0 (ctx_nodes ctx0 [reg0; reg1]) vs2 s' /\
       (linked vs2 root0 -> None ∈ es -> fa_full s'))) vs2.
Proof.
  split; [vm_compute; reflexivity|].
  apply (vadd_correct 10 vs2 ctx0 root0 [reg0; reg1] 0x600123 0x9000 2 3 vs2_ok);
    [cbn; lia|lia|].
  assert (H : ALIGN_DOWN 0x600123 PAGE_SIZE = 0x600000) by reflexivity. rewrite H.
  unfold PAGE_SIZE. lia.
Defined.
