(* ===== verification/Cmdline.v ===== *)
(** * lib/ctype.c, lib/ctype.h and [get_key] of emk.c: the kernel's command line

    Decimal numbers ([atoi]) and the lookup of [key=value] words in the command line
    that the boot loader passes.  The scanning loops of the code have no bound but the
    terminating NUL; [fuel] stands for it. *)

From S2P Require Export HeapProps.

(** ** lib/ctype.h *)

Definition isdigit (c : Z) : bool := (48 <=? c) && (c <=? 57).
Definition isspace (c : Z) : bool :=
  (c =? 32) || (c =? 9) || (c =? 10) || (c =? 11) || (c =? 12) || (c =? 13).

(** [while (p( *s)) s++;]: where the loop stops. *)
Fixpoint scan_while (fuel : nat) (p : Z -> bool) (m : memory) (s : Z) : option Z :=
  match fuel with
  | O => None
  | S f => if p (load8 m s) then scan_while f p m (s + 1) else Some s
  end.

(** ** atoi *)

(** The digit loop; [int] arithmetic. *)
Fixpoint atoi_digits (fuel : nat) (m : memory) (str result : Z) : option Z :=
  match fuel with
  | O => None
  | S f =>
      if isdigit (load8 m str)
      then atoi_digits f m (str + 1) (i32 (i32 (result * 10) + (load8 m str - 48)))
      else Some result
  end.

Definition atoi (fuel : nat) (m : memory) (str : Z) : option Z :=
  if str =? NULL then Some 0 else
  match scan_while fuel isspace m str with
  | None => None
  | Some str =>
      let neg := load8 m str =? 45 in
      let sign := if neg then -1 else 1 in
      let str := if neg || (load8 m str =? 43) then str + 1 else str in
      (fun result => i32 (result * sign)) <$> atoi_digits fuel m str 0
  end.

(** ** get_key *)

Definition is_blank (c : Z) : bool := c =? 32.
Definition in_word (c : Z) : bool := negb (c =? 0) && negb (c =? 32).

(** The word at [cmdline] is [key=...]. *)
Definition key_matches (m : memory) (cmdline key key_len : Z) : bool :=
  (strncmp m cmdline key key_len =? 0) && (load8 m (cmdline + key_len) =? 61).

(** A fresh copy of the bytes from [value_start] to [value_end]. *)
Definition copy_value (fuel : nat) (value_start value_end : Z) : K Z :=
  let len := value_end - value_start in
  result <- kmalloc fuel (w64 (len + 1)) ;;
  if result =? NULL then ret NULL else
  memcpy_at result value_start len ;;;
  modify (fun s => set_mem (store8 (mem s) (result + len) 0) s) ;;;
  ret result.

Fixpoint get_key_loop (rounds fuel : nat) (cmdline key key_len : Z) : K Z :=
  match rounds with
  | O => out_of_fuel
  | S rounds' =>
      s <- get ;;
      if load8 (mem s) cmdline =? 0 then ret NULL else
      match scan_while fuel is_blank (mem s) cmdline with
      | None => out_of_fuel
      | Some cmdline =>
          let value_start := cmdline + key_len + 1 in
          if key_matches (mem s) cmdline key key_len then
            match scan_while fuel in_word (mem s) value_start with
            | None => out_of_fuel
            | Some value_end => copy_value fuel value_start value_end
            end
          else
            match scan_while fuel in_word (mem s) cmdline with
            | None => out_of_fuel
            | Some cmdline => get_key_loop rounds' fuel cmdline key key_len
            end
      end
  end.

Definition get_key (fuel : nat) (cmdline key : Z) : K Z :=
  if (cmdline =? NULL) || (key =? NULL) then ret NULL else
  s <- get ;;
  match strlen fuel (mem s) key with
  | None => out_of_fuel
  | Some key_len => get_key_loop fuel fuel cmdline key key_len
  end.

(** ** Scanning a C string *)

Lemma cstring_app m a l1 l2 :
  cstring m a (l1 ++ l2) <->
  (forall i c, l1 !! i = Some c -> load8 m (a + Z.of_nat i) = c /\ c <> 0) /\
  cstring m (a + Z.of_nat (length l1)) l2.
Proof.
  revert a. induction l1 as [|c l1 IH]; intros a.
  - cbn. rewrite Z.add_0_r. split; [by intros H; split|by intros []].
  - cbn [app cstring length]. rewrite IH.
    replace (a + 1 + Z.of_nat (length l1)) with (a + Z.of_nat (S (length l1))) by lia.
    split.
    + intros (H1 & H2 & H3 & H4). split; [|done]. intros [|i] d; cbn.
      * intros [= <-]. by rewrite Z.add_0_r.
      * intros Hd. destruct (H3 i d Hd) as [<- ?]. split; [f_equal; lia|congruence].
    + intros [H1 H2]. destruct (H1 0%nat c eq_refl) as [<- ?]. rewrite Z.add_0_r in *.
      split_and!; [done..| |done]. intros i d Hd. destruct (H1 (S i) d Hd) as [<- ?].
      split; [f_equal; lia|done].
Qed.

Lemma cstring_drop m a l1 l2 :
  cstring m a (l1 ++ l2) -> cstring m (a + Z.of_nat (length l1)) l2.
Proof. intros H. by apply cstring_app in H as [_ H]. Qed.

(** The character at the start of a string, NUL at its end. *)
Lemma cstring_head m a l : cstring m a l -> load8 m a = default 0 (head l).
Proof. destruct l as [|c l]; [done|by intros []]. Qed.

(** A scan stops where the first character fails the test, provided NUL does. *)
Lemma scan_while_spec p m a l1 l2 fuel :
  cstring m a (l1 ++ l2) -> Forall (fun c => p c = true) l1 ->
  p (default 0 (head l2)) = false -> (length l1 < fuel)%nat ->
  scan_while fuel p m a = Some (a + Z.of_nat (length l1)).
Proof.
  revert a fuel. induction l1 as [|c l1 IH]; intros a fuel Hs Hp Hn Hf;
    (destruct fuel as [|fuel]; [cbn in Hf; lia|]); cbn [scan_while length].
  - rewrite (cstring_head _ _ _ Hs). cbn [app] in *. rewrite Hn, Z.add_0_r. done.
  - apply Forall_cons in Hp as [Hc Hp]. cbn [app cstring] in Hs. destruct Hs as (-> & _ & Hs).
    rewrite Hc, (IH (a + 1) fuel) by (done || (cbn in Hf; lia)). f_equal. lia.
Qed.

(** A string splits at the first character that fails a test. *)
Fixpoint span (p : Z -> bool) (l : list Z) : list Z * list Z :=
  match l with
  | [] => ([], [])
  | c :: l' => if p c then let '(x, y) := span p l' in (c :: x, y) else ([], l)
  end.

Lemma span_spec p l : p 0 = false ->
  exists x y, span p l = (x, y) /\ l = x ++ y /\ Forall (fun c => p c = true) x /\
    p (default 0 (head y)) = false.
Proof.
  intros H0. induction l as [|c l IH]; cbn [span].
  - by exists [], [].
  - destruct (p c) eqn:Hc.
    + destruct IH as (x & y & -> & -> & Hx & Hy). exists (c :: x), y.
      split_and!; try done. by constructor.
    + exists [], (c :: l). by split_and!.
Qed.

Lemma span_app p l1 l2 :
  Forall (fun c => p c = true) l1 -> span p (l1 ++ l2) = (l1 ++ (span p l2).1, (span p l2).2).
Proof.
  induction 1 as [|c l1 Hc _ IH]; cbn [app span]; [by destruct (span p l2)|].
  by rewrite Hc, IH.
Qed.

(** ** Decimal text *)

(** The decimal digits of [z], most significant first, as characters. *)
Fixpoint decimal (fuel : nat) (z : Z) : list Z :=
  match fuel with
  | O => []
  | S f => (if z <? 10 then [] else decimal f (z / 10)) ++ [48 + z mod 10]
  end.

Definition sign_char (z : Z) : list Z := if z <? 0 then [45] else [].

Definition add_digit (r c : Z) : Z := r * 10 + (c - 48).

Lemma decimal_digits f z : 0 <= z -> Forall (fun c => isdigit c = true) (decimal f z).
Proof.
  revert z. induction f as [|f IH]; intros z Hz; cbn; [constructor|].
  apply Forall_app. split.
  - case_match; [constructor|]. apply IH, Z.div_pos; lia.
  - apply Forall_singleton. unfold isdigit. pose proof (Z.mod_pos_bound z 10 ltac:(lia)).
    apply andb_true_iff; split; apply Z.leb_le; lia.
Qed.

Lemma decimal_value f z : 0 <= z < 10 ^ Z.of_nat f -> foldl add_digit 0 (decimal f z) = z.
Proof.
  revert z. induction f as [|f IH]; intros z Hz; cbn [decimal].
  { change (10 ^ Z.of_nat 0) with 1 in Hz. cbn. lia. }
  rewrite foldl_app. cbn [foldl]. unfold add_digit at 1.
  destruct (Z.ltb_spec z 10).
  - cbn. rewrite Z.mod_small; lia.
  - rewrite IH.
    + pose proof (Z.div_mod z 10 ltac:(lia)). lia.
    + rewrite Nat2Z.inj_succ, Z.pow_succ_r in Hz by lia.
      split; [apply Z.div_pos; lia|]. apply Z.div_lt_upper_bound; lia.
Qed.

Lemma add_digit_mono l acc :
  0 <= acc -> Forall (fun c => isdigit c = true) l -> acc <= foldl add_digit acc l.
Proof.
  intros Ha Hl. revert acc Ha. induction Hl as [|c l Hc _ IH]; intros acc Ha; cbn; [lia|].
  unfold isdigit in Hc. bool_simpl. specialize (IH (add_digit acc c)). unfold add_digit in *. lia.
Qed.

Lemma i32_id x : - 2 ^ 31 <= x < 2 ^ 31 -> i32 x = x.
Proof. intros H. unfold i32. rewrite Z.mod_small; lia. Qed.

Lemma atoi_digits_spec m a l1 l2 fuel acc :
  cstring m a (l1 ++ l2) -> Forall (fun c => isdigit c = true) l1 ->
  isdigit (default 0 (head l2)) = false -> (length l1 < fuel)%nat ->
  0 <= acc -> foldl add_digit acc l1 < 2 ^ 31 ->
  atoi_digits fuel m a acc = Some (foldl add_digit acc l1).
Proof.
  intros Hs Hl. revert a fuel acc Hs. induction Hl as [|c l Hc Hl IH];
    intros a fuel acc Hs Hn Hf Ha Hb; (destruct fuel as [|fuel]; [cbn in Hf; lia|]);
    cbn [atoi_digits foldl].
  - rewrite (cstring_head _ _ _ Hs). cbn [app] in *. by rewrite Hn.
  - cbn [app cstring] in Hs. destruct Hs as (-> & _ & Hs). rewrite Hc. cbn [foldl] in Hb.
    unfold isdigit in Hc. bool_simpl.
    assert (He' : add_digit acc c = acc * 10 + (c - 48)) by done.
    pose proof (add_digit_mono l (add_digit acc c) ltac:(lia) Hl) as Hm.
    assert (He : i32 (i32 (acc * 10) + (c - 48)) = add_digit acc c).
    { rewrite (i32_id (acc * 10)), i32_id by lia. done. }
    rewrite He. apply IH; try done; [cbn in Hf; lia|unfold add_digit; lia].
Qed.

Lemma atoi_decimal_spec m str spaces z n rest fuel :
  str <> NULL -> cstring m str (spaces ++ sign_char z ++ decimal (S n) (Z.abs z) ++ rest) ->
  Forall (fun c => isspace c = true) spaces -> isdigit (default 0 (head rest)) = false ->
  Z.abs z < 10 ^ Z.of_nat (S n) -> Z.abs z < 2 ^ 31 ->
  (length spaces < fuel)%nat -> (length (decimal (S n) (Z.abs z)) < fuel)%nat ->
  atoi fuel m str = Some z.
Proof.
  intros Hnn Hs Hsp Hr Hz Hb Hf1 Hf2. unfold atoi. rewrite (proj2 (Z.eqb_neq str NULL) Hnn).
  set (ds := decimal (S n) (Z.abs z)) in *.
  assert (Hds : Forall (fun c => isdigit c = true) ds) by (apply decimal_digits; lia).
  assert (Hhd : exists c l, ds = c :: l /\ 48 <= c <= 57).
  { destruct ds as [|c l] eqn:Hd.
    - unfold ds in Hd. cbn in Hd. by destruct (app_cons_not_nil _ _ _ (eq_sym Hd)).
    - exists c, l. split; [done|]. apply Forall_cons in Hds as [Hc _]. unfold isdigit in Hc.
      bool_simpl. lia. }
  destruct Hhd as (c & l & Hd & Hc).
  assert (Hval : foldl add_digit 0 ds = Z.abs z) by (apply decimal_value; lia).
  rewrite (scan_while_spec isspace m str spaces (sign_char z ++ ds ++ rest) fuel); [|done|done| |done].
  2: { unfold sign_char. destruct (z <? 0); [done|]. rewrite Hd. cbn. unfold isspace.
       rewrite !(proj2 (Z.eqb_neq c _)) by lia. done. }
  apply cstring_drop in Hs. pose proof (cstring_head _ _ _ Hs) as ->.
  unfold sign_char in *. destruct (Z.ltb_spec z 0); cbn [app head default from_option].
  - change (id 45 =? 45) with true. cbn [orb]. cbv zeta iota.
    cbn [app cstring] in Hs. destruct Hs as (_ & _ & Hs).
    rewrite (atoi_digits_spec m _ ds rest fuel 0); try done; [|lia].
    cbn [fmap option_fmap option_map]. cbv iota. rewrite Hval, i32_id; [f_equal; lia|lia].
  - rewrite Hd. cbn [app head default from_option id].
    rewrite (proj2 (Z.eqb_neq c 45)), (proj2 (Z.eqb_neq c 43)) by lia. cbn [orb].
    rewrite (atoi_digits_spec m _ ds rest fuel 0); try done; [|lia].
    cbn [fmap option_fmap option_map]. cbv iota. rewrite Hval, i32_id; [f_equal; lia|lia].
Qed.

(** C37: [atoi] of the decimal text of an integer is that integer, with any white
    space before it and anything but a digit behind it. *)
Theorem atoi_decimal m str spaces z n rest fuel :
  str <> NULL -> cstring m str (spaces ++ sign_char z ++ decimal (S n) (Z.abs z) ++ rest) ->
  Forall (fun c => isspace c = true) spaces -> isdigit (default 0 (head rest)) = false ->
  Z.abs z < 10 ^ Z.of_nat (S n) -> Z.abs z < 2 ^ 31 ->
  (length spaces < fuel)%nat -> (length (decimal (S n) (Z.abs z)) < fuel)%nat ->
  atoi fuel m str = Some z.
Proof. apply atoi_decimal_spec. Qed.

(** ** The value of a key *)

Fixpoint strip_prefix (p l : list Z) : option (list Z) :=
  match p, l with
  | [], _ => Some l
  | x :: p', y :: l' => if x =? y then strip_prefix p' l' else None
  | _ :: _, [] => None
  end.

(** The blank-separated words of a string (runs of blanks give empty words). *)
Fixpoint words (l : list Z) : list (list Z) :=
  match l with
  | [] => [[]]
  | c :: l' =>
      if c =? 32 then [] :: words l'
      else match words l' with w :: ws => (c :: w) :: ws | [] => [[c]] end
  end.

(** The rest of the first word that starts with [key=]. *)
Definition lookup_key (key l : list Z) : option (list Z) :=
  head (omap (strip_prefix (key ++ [61])) (words l)).

Lemma strip_prefix_some p l v : strip_prefix p l = Some v <-> l = p ++ v.
Proof.
  revert l. induction p as [|x p IH]; intros l; cbn.
  - split; [by intros [= ->]|by intros ->].
  - destruct l as [|y l]; [done|]. destruct (Z.eqb_spec x y) as [->|Hne].
    + rewrite IH. split; [by intros ->|by intros [= ->]].
    + split; [done|]. intros [=]. congruence.
Qed.

Lemma words_cons l : exists w ws, words l = w :: ws.
Proof.
  induction l as [|c l (w & ws & IH)]; cbn; [eauto|].
  destruct (c =? 32); [eauto|]. rewrite IH. eauto.
Qed.

Section Lookup.
Context (key : list Z).

Lemma strip_key_nil : strip_prefix (key ++ [61]) [] = None.
Proof. by destruct key. Qed.

Lemma lookup_key_blank l1 l2 :
  Forall (fun c => is_blank c = true) l1 -> lookup_key key (l1 ++ l2) = lookup_key key l2.
Proof.
  induction 1 as [|c l1 Hc _ IH]; [done|]. unfold lookup_key in *. cbn [app words].
  unfold is_blank in Hc. rewrite Hc. cbn [omap list_omap]. by rewrite strip_key_nil.
Qed.

Lemma words_word w l2 :
  Forall (fun c => in_word c = true) w -> in_word (default 0 (head l2)) = false -> 0 ∉ l2 ->
  exists ws, words l2 = [] :: ws /\ words (w ++ l2) = w :: ws.
Proof.
  intros Hw Hn H0.
  assert (exists ws, words l2 = [] :: ws) as [ws Hws].
  { destruct l2 as [|c l2]; [by exists []|]. cbn in Hn |- *. unfold in_word in Hn.
    apply not_elem_of_cons in H0 as [H0 _].
    rewrite (proj2 (Z.eqb_neq c 0)) in Hn by done. cbn [negb andb] in Hn.
    apply negb_false_iff in Hn. change (id c) with c in Hn. rewrite Hn. eauto. }
  exists ws. split; [done|]. induction Hw as [|c w Hc _ IH]; [done|]. cbn [app words].
  rewrite IH. unfold in_word in Hc. apply andb_true_iff in Hc as [_ Hc].
  apply negb_true_iff in Hc. by rewrite Hc.
Qed.

Lemma lookup_key_word w l2 :
  Forall (fun c => in_word c = true) w -> in_word (default 0 (head l2)) = false -> 0 ∉ l2 ->
  lookup_key key (w ++ l2) =
    match strip_prefix (key ++ [61]) w with Some v => Some v | None => lookup_key key l2 end.
Proof.
  intros Hw Hn H0. destruct (words_word w l2 Hw Hn H0) as (ws & H2 & Hwl). unfold lookup_key.
  rewrite H2, Hwl. cbn [omap list_omap]. rewrite strip_key_nil.
  by destruct (strip_prefix (key ++ [61]) w).
Qed.
End Lookup.

Lemma cstring_nonzero m a l : cstring m a l -> 0 ∉ l.
Proof.
  revert a. induction l as [|c l IH]; intros a; [intros _; apply not_elem_of_nil|].
  intros (_ & Hc & Hl). apply not_elem_of_cons. split; [done|by apply (IH (a + 1))].
Qed.

(** What the test of [get_key] decides about the word it stands at. *)
Lemma key_matches_spec m a kp w l2 key :
  cstring m a (w ++ l2) -> cstring m kp key -> Forall (fun c => in_word c = true) key ->
  Forall (fun c => in_word c = true) w -> in_word (default 0 (head l2)) = false ->
  key_matches m a kp (Z.of_nat (length key)) =
    bool_decide (is_Some (strip_prefix (key ++ [61]) w)).
Proof.
  intros Hs Hk Hkw Hw Hn. apply eq_bool_prop_intro. unfold key_matches.
  rewrite bool_decide_spec, Is_true_true, andb_true_iff, Z.eqb_eq, (strncmp_zero_iff m a kp _ _ _ Hs Hk).
  rewrite Nat2Z.id, (firstn_all key), Z.eqb_eq. split.
  - intros [Ht Hq]. pose proof (take_drop (length key) (w ++ l2)) as Hd. rewrite Ht in Hd.
    rewrite <-Hd in Hs. pose proof (cstring_head _ _ _ (cstring_drop _ _ _ _ Hs)) as Hh.
    rewrite Hq in Hh. destruct (drop (length key) (w ++ l2)) as [|c r]; [done|].
    cbn in Hh. unfold id in Hh. subst c.
    pose proof (span_app in_word w l2 Hw) as H1.
    pose proof (span_app in_word (key ++ [61]) r) as H2.
    rewrite <-app_assoc in H2. cbn [app] in H2. rewrite <-Hd, H2 in H1.
    2: { apply Forall_app. split; [done|]. by apply Forall_singleton. }
    assert (Hl2 : span in_word l2 = ([], l2)).
    { destruct l2 as [|c l2]; [done|]. cbn in Hn |- *. change (id c) with c in Hn. by rewrite Hn. }
    rewrite Hl2 in H1. cbn in H1. rewrite app_nil_r in H1. injection H1 as H1 _.
    eexists. apply strip_prefix_some. rewrite <-H1, <-!app_assoc. done.
  - intros [v Hv]. apply strip_prefix_some in Hv. subst w. rewrite <-!app_assoc in *.
    split; [by rewrite take_app_length|].
    rewrite (cstring_head _ _ _ (cstring_drop _ _ _ _ Hs)). done.
Qed.

Section GetKey.
Context (key : list Z) (kp : Z).
Hypothesis (Hkw : Forall (fun c => in_word c = true) key).

(** The loop either finds no word with the key, or copies the value from its place in
    the command line. *)
Lemma get_key_loop_spec rounds fuel a l s :
  cstring (mem s) a l -> cstring (mem s) kp key ->
  (length l < rounds)%nat -> (length l < fuel)%nat ->
  (lookup_key key l = None /\
   get_key_loop rounds fuel a kp (Z.of_nat (length key)) s = Ret NULL s) \/
  (exists pre v post, l = pre ++ v ++ post /\ lookup_key key l = Some v /\
   get_key_loop rounds fuel a kp (Z.of_nat (length key)) s =
     copy_value fuel (a + Z.of_nat (length pre)) (a + Z.of_nat (length pre + length v)) s).
Proof.
  revert a l. induction rounds as [|rounds IH]; intros a l Hs Hk Hr Hf; [lia|].
  cbn [get_key_loop]. unfold bind, get.
  destruct (decide (l = [])) as [->|Hl].
  { left. cbn in Hs. rewrite Hs. unfold lookup_key. cbn [words omap list_omap].
    by rewrite strip_key_nil. }
  assert (Hne : load8 (mem s) a <> 0) by (destruct l; [done|]; destruct Hs as (-> & ? & _); done).
  rewrite (proj2 (Z.eqb_neq _ 0) Hne).
  destruct (span_spec is_blank l eq_refl) as (b & r & _ & -> & Hb & Hbr).
  destruct (span_spec in_word r eq_refl) as (w & l2 & _ & -> & Hw & Hwl).
  rewrite !length_app in *.
  rewrite (scan_while_spec is_blank (mem s) a b (w ++ l2)) by (done || lia).
  pose proof (cstring_drop _ _ _ _ Hs) as Hs1.
  assert (H0 : 0 ∉ l2).
  { apply cstring_nonzero in Hs. rewrite !elem_of_app in Hs. tauto. }
  rewrite (lookup_key_blank key b) by done. rewrite (lookup_key_word key w l2) by done.
  rewrite (key_matches_spec (mem s) _ kp w l2 key) by done.
  destruct (strip_prefix (key ++ [61]) w) as [v|] eqn:Hv.
  - right. apply strip_prefix_some in Hv. rewrite bool_decide_true by done.
    exists (b ++ key ++ [61]), v, l2. split_and!; [by rewrite Hv, <-!app_assoc|done|].
    subst w. rewrite <-!app_assoc in Hs1. rewrite !length_app in *. cbn [length] in *.
    apply cstring_drop in Hs1. cbn [app cstring] in Hs1. destruct Hs1 as (_ & _ & Hs1).
    rewrite (scan_while_spec in_word (mem s) _ v l2); [|done| |done|lia].
    + f_equal; lia.
    + apply Forall_app in Hw. apply Hw.
  - rewrite bool_decide_false by (by intros []).
    rewrite (scan_while_spec in_word (mem s) _ w l2) by (done || lia).
    assert (Hlen : (0 < length b + length w)%nat).
    { destruct b; [|cbn; lia]. destruct w; [|cbn; lia]. destruct l2 as [|c l2]; [done|].
      cbn in Hbr, Hwl. unfold in_word, is_blank, id in *. rewrite Hbr in Hwl.
      apply not_elem_of_cons in H0 as [H0 _]. rewrite (proj2 (Z.eqb_neq c 0)) in Hwl; done. }
    apply cstring_drop in Hs1.
    destruct (IH _ l2 Hs1 Hk ltac:(lia) ltac:(lia)) as [[H1 H2]|(pre & v & post & -> & H1 & H2)].
    + by left.
    + right. exists (b ++ w ++ pre), v, post. rewrite <-!app_assoc, H1, H2.
      split_and!; [done..|]. rewrite !length_app. f_equal; lia.
Qed.
End GetKey.

Lemma heap_ok_agree s s' l lo hi (R : Z -> Prop) :
  heap_ok s l lo hi -> freelist (heap s') = freelist (heap s) ->
  agree_outside R (mem s) (mem s') -> (forall x, covered l x -> ~ R x) -> heap_ok s' l lo hi.
Proof.
  intros [Hb Hsp Hl] He Hm Hd. split; [done..|]. rewrite He. clear He Hb.
  revert lo Hsp Hl. generalize (freelist (heap s)) as q.
  induction l as [|[a n] l IH]; intros q lo; [done|]. intros (H1 & H2 & H3) Hl.
  destruct Hl as (-> & Hn & Hsz & Hl). 
  assert (Hw : forall o, 0 <= o -> o + 8 <= 16 -> load64 (mem s') (a + o) = load64 (mem s) (a + o)).
  { intros o Ho1 Ho2. apply load64_ext. intros x Hx. apply Hm, Hd, covered_head.
    unfold sizeof_block. lia. }
  split_and!; [done..| |].
  - rewrite <-Hsz. unfold block_size. specialize (Hw 0). by rewrite Z.add_0_r in Hw; apply Hw.
  - unfold block_next in *. rewrite (Hw 8) by lia. apply (IH) with (a + sizeof_block + n); try done.
    intros x Hx. apply Hd. destruct Hx as (c & k & Hin & Hx). exists c, k.
    split; [by apply elem_of_cons; right|done].
Qed.

(** [v] in memory, terminated or not. *)
Definition bytes_are (m : memory) (a : Z) (v : list Z) : Prop :=
  forall i c, v !! i = Some c -> load8 m (a + Z.of_nat i) = c /\ c <> 0.

Lemma copy_value_spec fuel v p fl lo hi s :
  heap_ok s fl lo hi -> bytes_are (mem s) p v -> Z.of_nat (length v) + 9 < 2 ^ 64 ->
  (length fl < fuel)%nat ->
  (forall x, p <= x < p + Z.of_nat (length v) -> ~ covered fl x) ->
  wp (copy_value fuel p (p + Z.of_nat (length v))) (fun r s' =>
    (r = NULL /\ s' = s /\ forall a n, (a, n) ∈ fl -> n < ALIGN_UP (Z.of_nat (length v) + 1) 8) \/
    (exists fl', r <> NULL /\ cstring (mem s') r v /\ heap_ok s' fl' lo hi /\
       heap_others s' = heap_others s /\ agree_outside (covered fl) (mem s) (mem s'))) s.
Proof.
  intros Hok Hv Hb Hf Hap. unfold copy_value. set (n := Z.of_nat (length v)) in *.
  replace (p + n - p) with n by lia. rewrite (w64_id (n + 1)) by lia. cbv zeta.
  assert (Hn0 : 0 <= n) by (unfold n; lia).
  destruct (align_up_spec (n + 1) 8) as [_ Hal]; [lia..|].
  wp_step. eapply wp_mono.
  { apply (kmalloc_spec fuel (n + 1) fl lo hi s); [done|lia|apply align_up_mod8|done]. }
  intros r s1. unfold kmalloc_post.
  destruct (ff_alloc (ALIGN_UP (n + 1) 8) fl) as [[[a k] fl']|] eqn:He.
  2: { intros [-> ->]. cbn. left. split_and!; [done..|]. intros c k Hin.
       by apply (ff_alloc_none _ _ c k He). }
  intros (-> & Hok1 & _ & Ho & Hm).
  destruct (ff_alloc_spec lo fl hi (ALIGN_UP (n + 1) 8) a k fl' (hp_spaced _ _ _ _ Hok) ltac:(lia) He)
    as (G1 & G2 & G3 & _ & _ & G6).
  pose proof (hp_bounds _ _ _ _ Hok) as [Hlo Hhi]. unfold sizeof_block in *.
  rewrite (proj2 (Z.eqb_neq (a + 16) NULL)) by lia.
  wp_steps. right. exists fl'.
  assert (Hdisj : a + 16 <= p \/ p + n <= a + 16).
  { destruct (decide (a + 16 <= p \/ p + n <= a + 16)); [done|].
    destruct (Hap (a + 16)); [lia|]. apply G6. lia. }
  set (m' := store8 _ _ _).
  assert (Hw : forall x, load8 m' x =
    if decide (a + 16 + n = x) then 0
    else if (a + 16 <=? x) && (x <? a + 16 + n) then load8 (mem s1) (p + (x - (a + 16)))
    else load8 (mem s1) x).
  { intros x. unfold m'. cbn [mem set_mem]. rewrite load8_store8, memcpy_load by done.
    by case_decide. }
  assert (Hag : agree_outside (in_range (a + 16) (n + 1)) (mem s1) m').
  { intros x Hx. rewrite Hw. unfold in_range in Hx. case_decide; [lia|].
    destruct (a + 16 <=? x) eqn:E1, (x <? a + 16 + n) eqn:E2; bool_simpl; try done; lia. }
  split_and!.
  - lia.
  - cbn [mem set_mem]. fold m'. rewrite <-(app_nil_r v). apply cstring_app. split.
    + intros i c Hi. destruct (Hv i c Hi) as [Hc Hcz]. split; [|done].
      pose proof (lookup_lt_Some _ _ _ Hi). rewrite Hw. case_decide; [unfold n in *; lia|].
      rewrite (proj2 (Z.leb_le _ _)), (proj2 (Z.ltb_lt _ _)) by (unfold n; lia). cbn [andb].
      replace (p + (a + 16 + Z.of_nat i - (a + 16))) with (p + Z.of_nat i) by lia.
      rewrite Hm; [done|]. apply Hap. unfold n. lia.
    + cbn [cstring]. fold n. by rewrite Hw, decide_True.
  - apply (heap_ok_agree s1 _ fl' lo hi (in_range (a + 16) (n + 1))); [done|done|exact Hag|].
    intros x Hx Hr. unfold in_range in Hr. apply (G6 x); [lia|done].
  - exact Ho.
  - intros x Hx. cbn [mem set_mem]. fold m'. rewrite Hag; [by apply Hm|].
    intros Hr. apply Hx, G6. unfold in_range in Hr. lia.
Qed.

Lemma get_key_spec fuel cmdline kp line key fl lo hi s :
  cmdline <> NULL -> kp <> NULL ->
  cstring (mem s) cmdline line -> cstring (mem s) kp key ->
  Forall (fun c => in_word c = true) key -> heap_ok s fl lo hi ->
  (forall x, cmdline <= x < cmdline + Z.of_nat (length line) -> ~ covered fl x) ->
  Z.of_nat (length line) + 9 < 2 ^ 64 ->
  (length line < fuel)%nat -> (length key < fuel)%nat -> (length fl < fuel)%nat ->
  wp (get_key fuel cmdline kp) (fun r s' =>
    match lookup_key key line with
    | None => r = NULL /\ s' = s
    | Some v =>
        (r = NULL /\ s' = s /\ forall a n, (a, n) ∈ fl -> n < ALIGN_UP (Z.of_nat (length v) + 1) 8) \/
        (exists fl', r <> NULL /\ cstring (mem s') r v /\ heap_ok s' fl' lo hi /\
           heap_others s' = heap_others s /\ agree_outside (covered fl) (mem s) (mem s'))
    end) s.
Proof.
  intros Hc Hk Hl Hkl Hkw Hok Hap Hb Hf1 Hf2 Hf3. unfold get_key.
  rewrite (proj2 (Z.eqb_neq cmdline NULL)), (proj2 (Z.eqb_neq kp NULL)) by done. cbn [orb].
  wp_step. wp_step. cbv beta. rewrite (strlen_cstring _ _ key) by done. unfold wp at 1.
  destruct (get_key_loop_spec key kp Hkw fuel fuel cmdline line s Hl Hkl Hf1 Hf1)
    as [[-> ->]|(pre & v & post & -> & -> & ->)]; [done|].
  rewrite Nat2Z.inj_add, Z.add_assoc. rewrite !length_app in *.
  apply cstring_drop in Hl. apply cstring_app in Hl as [Hv _].
  apply (copy_value_spec fuel v _ fl lo hi s); try done; [lia|].
  intros x Hx. apply Hap. lia.
Qed.

(** [get_key] finds the value of the first word [key=value] of the command line:
    the result is a copy on the heap, NUL-terminated, or NULL when there is no such
    word or the heap has no room; the heap stays well-formed and nothing outside its
    free blocks is written. *)
Theorem get_key_correct fuel cmdline kp line key fl lo hi s :
  cmdline <> NULL -> kp <> NULL ->
  cstring (mem s) cmdline line -> cstring (mem s) kp key ->
  Forall (fun c => in_word c = true) key -> heap_ok s fl lo hi ->
  (forall x, cmdline <= x < cmdline + Z.of_nat (length line) -> ~ covered fl x) ->
  Z.of_nat (length line) + 9 < 2 ^ 64 ->
  (length line < fuel)%nat -> (length key < fuel)%nat -> (length fl < fuel)%nat ->
  wp (get_key fuel cmdline kp) (fun r s' =>
    match lookup_key key line with
    | None => r = NULL /\ s' = s
    | Some v =>
        (r = NULL /\ s' = s /\ forall a n, (a, n) ∈ fl -> n < ALIGN_UP (Z.of_nat (length v) + 1) 8) \/
        (exists fl', r <> NULL /\ cstring (mem s') r v /\ heap_ok s' fl' lo hi /\
           heap_others s' = heap_others s /\ agree_outside (covered fl) (mem s) (mem s'))
    end) s.
Proof. apply get_key_spec. Qed.

(** ** A command line in memory: "ro init=2 x", and the key "init" *)

Definition line0 : list Z := [114; 111; 32; 105; 110; 105; 116; 61; 50; 32; 120].
Definition key0 : list Z := [105; 110; 105; 116].
Definition cmdline0 : machine :=
  set_mem (store_bytes (store_bytes (mem heap0) 0x4000 line0) 0x5000 key0) heap0.

Lemma cmdline0_heap : heap_ok cmdline0 [(0x1000, 4080)] 0x1000 0x3000.
Proof.
  split.
  - lia.
  - cbn. unfold sizeof_block. lia.
  - cbn [seg]. split_and!; [reflexivity|lia|vm_compute; reflexivity|vm_compute; reflexivity].
Qed.

Lemma covered0 x : 0x4000 <= x -> ~ covered [(0x1000, 4080)] x.
Proof.
  intros Hx (a & n & [= -> ->]%list_elem_of_singleton & Hr). unfold sizeof_block in Hr. lia.
Qed.

Lemma get_key_correct_witness :
  lookup_key key0 line0 = Some [50] /\
  wp (get_key 20 0x4000 0x5000) (fun r s' =>
    match lookup_key key0 line0 with
    | None => r = NULL /\ s' = cmdline0
    | Some v =>
        (r = NULL /\ s' = cmdline0 /\
         forall a n, (a, n) ∈ [(0x1000, 4080)] -> n < ALIGN_UP (Z.of_nat (length v) + 1) 8) \/
        (exists fl', r <> NULL /\ cstring (mem s') r v /\ heap_ok s' fl' 0x1000 0x3000 /\
           heap_others s' = heap_others cmdline0 /\
           agree_outside (covered [(0x1000, 4080)]) (mem cmdline0) (mem s'))
    end) cmdline0.
Proof.
  split; [reflexivity|].
  apply (get_key_correct 20 0x4000 0x5000 line0 key0 [(0x1000, 4080)] 0x1000 0x3000 cmdline0).
  - lia.
  - lia.
  - cbn [cstring line0]. split_and!; (lia || (vm_compute; reflexivity)).
  - cbn [cstring key0]. split_and!; (lia || (vm_compute; reflexivity)).
  - repeat constructor.
  - exact cmdline0_heap.
  - intros x Hx. apply covered0. lia.
  - cbn. lia.
  - cbn. lia.
  - cbn. lia.
  - cbn. lia.
Defined.

(** " -42;" *)
Definition number0 : memory := store_bytes ∅ 0x4000 [32; 45; 52; 50; 59].

Lemma atoi_decimal_witness : atoi 10 number0 0x4000 = Some (-42).
Proof.
  apply (atoi_decimal number0 0x4000 [32] (-42) 2 [59] 10).
  - lia.
  - change (cstring number0 0x4000 [32; 45; 52; 50; 59]).
    cbn [cstring]. split_and!; (lia || (vm_compute; reflexivity)).
  - repeat constructor.
  - reflexivity.
  - vm_compute. reflexivity.
  - lia.
  - vm_compute. lia.
  - vm_compute. lia.
Defined.
