(* ===== verification/User.v ===== *)
(** * sys/user.c: copying between the kernel and a process

    The range of the user is copied page by page; before each page the virtual memory
    context is asked for the region of the address.  The copy itself goes through the
    active page map: a lower-half address stands for the page that CR3's tables map,
    a fault there ends in [kpanic] (idt_default_interrupt_handler). *)

From S2P Require Export Cmdline VmmProps.

(** ** Byte accesses through the active page map *)

(** Where a byte lives: kernel addresses directly, lower-half addresses in the page
    that the active tables name; a write needs the writable bit (CR0.WP is set). *)
Definition translate (s : machine) (write : bool) (a : Z) : option Z :=
  if hhdm_offset s <=? a then Some a else
  match lookup s (HIGHER_HALF (hhdm_offset s) (cr3 (paging s))) a with
  | Some e =>
      if write && negb (has e VMM_WRITE) then None
      else Some (HIGHER_HALF (hhdm_offset s) (Z.land e PAGE_MASK) + a mod PAGE_SIZE)
  | None => None
  end.

Definition vload8 (a : Z) : K Z :=
  s <- get ;;
  match translate s false a with Some p => ret (load8 (mem s) p) | None => kpanic end.

Definition vstore8 (a v : Z) : K unit :=
  s <- get ;;
  match translate s true a with
  | Some p => modify (fun s => set_mem (store8 (mem s) p v) s)
  | None => kpanic
  end.

(** [memcpy] on virtual addresses. *)
Definition vmemcpy (dest src n : Z) : K unit :=
  for_loop (Z.to_nat n) 0 1 (fun i => b <- vload8 (w64 (src + i)) ;; vstore8 (w64 (dest + i)) b).

(** ** The copy loops *)

Definition min_size (a b : Z) : Z := if a <? b then a else b.

Section User.
Context {FA : FrameAlloc}.

(** The loop of both functions; [addr] is the user's address. *)
Fixpoint user_chunks (rounds fuel : nat) (allowed : Z -> bool) (copy : Z -> Z -> Z -> K unit)
    (vctx addr copied len : Z) : K Z :=
  match rounds with
  | O => out_of_fuel
  | S rounds' =>
      if negb (copied <? len) then ret 0 else
      r <- vget fuel vctx addr ;;
      s <- get ;;
      if (r =? NULL) || negb (allowed (region_flags (mem s) r)) then ret (-1) else
      let page_offset := Z.land addr (PAGE_SIZE - 1) in
      let chunk := min_size (len - copied) (PAGE_SIZE - page_offset) in
      copy copied addr chunk ;;;
      user_chunks rounds' fuel allowed copy vctx (w64 (addr + chunk)) (copied + chunk) len
  end.

(** Enough rounds for [len] bytes, the pages at both ends included. *)
Definition user_rounds (len : Z) : nat := Z.to_nat (len / PAGE_SIZE + 3).

Definition copy_from_user (fuel : nat) (vctx kdst usrc len : Z) : K Z :=
  user_chunks (user_rounds len) fuel (fun flags => has flags VMM_USER)
    (fun copied src_addr chunk => vmemcpy (w64 (kdst + copied)) src_addr chunk)
    vctx usrc 0 len.

Definition copy_to_user (fuel : nat) (vctx user_dst kernel_src len : Z) : K Z :=
  user_chunks (user_rounds len) fuel (fun flags => has flags VMM_USER && has flags VMM_WRITE)
    (fun copied dst_addr chunk => vmemcpy dst_addr (w64 (kernel_src + copied)) chunk)
    vctx user_dst 0 len.
End User.

(** ** Copying byte by byte *)

(** Byte [i] goes from [A i] to [B i]. *)
Definition copied_mem (A B : Z -> Z) (n : nat) (m : memory) : memory :=
  for_pure n 0 1 (fun i m => store8 m (B i) (load8 m (A i))) m.

Lemma for_pure_snoc {A} n start step (body : Z -> A -> A) a :
  for_pure (S n) start step body a = body (start + Z.of_nat n * step) (for_pure n start step body a).
Proof.
  revert start a. induction n as [|n IH]; intros start a.
  - cbn. f_equal. lia.
  - cbn [for_pure]. cbn [for_pure] in IH. rewrite IH. f_equal. lia.
Qed.

Lemma copied_mem_S A B n m :
  copied_mem A B (S n) m =
    store8 (copied_mem A B n m) (B (Z.of_nat n)) (load8 (copied_mem A B n m) (A (Z.of_nat n))).
Proof. unfold copied_mem. rewrite for_pure_snoc. by replace (0 + Z.of_nat n * 1) with (Z.of_nat n) by lia. Qed.

Section Copy.
Context (A B : Z -> Z) (len : Z) (m : memory).

Lemma copied_mem_out n x :
  (forall i, 0 <= i < Z.of_nat n -> B i <> x) -> load8 (copied_mem A B n m) x = load8 m x.
Proof.
  induction n as [|n IH]; intros Hx; [done|]. rewrite copied_mem_S, load8_store8_ne.
  - apply IH. intros i Hi. apply Hx. lia.
  - apply Hx. lia.
Qed.

Hypothesis (Hinj : forall i j, 0 <= i < len -> 0 <= j < len -> B i = B j -> i = j).
Hypothesis (Hsep : forall i j, 0 <= i < len -> 0 <= j < len -> A i <> B j).

Lemma copied_mem_in n i :
  Z.of_nat n <= len -> 0 <= i < Z.of_nat n -> load8 (copied_mem A B n m) (B i) = load8 m (A i).
Proof.
  induction n as [|n IH]; intros Hn Hi; [lia|]. rewrite copied_mem_S, load8_store8. case_decide as Hd.
  - apply Hinj in Hd; [|lia..]. subst i. rewrite copied_mem_out.
    + unfold w8. apply Z.mod_small, load8_range.
    + intros j Hj Hq. apply (Hsep (Z.of_nat n) j); [lia..|done].
  - apply IH; [lia|]. destruct (decide (i = Z.of_nat n)) as [->|]; [done|lia].
Qed.
End Copy.

(** The copy loop in a state where every address it uses is translated. *)
Section Vmemcpy.
Context (A B : Z -> Z) (s : machine) (len : Z).

Definition copied_to (k : nat) : machine := set_mem (copied_mem A B k (mem s)) s.

Lemma vmemcpy_spec k n dest src :
  (forall i j, (k <= i < k + n)%nat -> (j <= i)%nat ->
     translate (copied_to j) false (w64 (src + Z.of_nat (i - k))) = Some (A (Z.of_nat i)) /\
     translate (copied_to j) true (w64 (dest + Z.of_nat (i - k))) = Some (B (Z.of_nat i))) ->
  wp (vmemcpy dest src (Z.of_nat n)) (fun _ s' => s' = copied_to (k + n)) (copied_to k).
Proof.
  intros Ht. unfold vmemcpy. rewrite Nat2Z.id.
  apply (wp_for_loop n 0 1 _ (fun j s' => s' = copied_to (k + j))); [by rewrite Nat.add_0_r|].
  intros j s' Hj ->. destruct (Ht (k + j)%nat (k + j)%nat ltac:(lia) ltac:(lia)) as [H1 H2].
  replace (k + j - k)%nat with j in * by lia.
  replace (0 + Z.of_nat j * 1) with (Z.of_nat j) by lia.
  unfold vload8, vstore8. wp_steps. rewrite H1. wp_steps. rewrite H2. wp_steps.
  rewrite <-plus_n_Sm. unfold copied_to. rewrite copied_mem_S. done.
Qed.
End Vmemcpy.

(** ** The chunks *)

Lemma land_page_offset a : Z.land a (PAGE_SIZE - 1) = a mod PAGE_SIZE.
Proof. change (PAGE_SIZE - 1) with (Z.ones 12). by rewrite Z.land_ones. Qed.

Section Chunks.
Context {FA : FrameAlloc}.
Context (A B : Z -> Z) (s : machine) (fuel : nat) (vctx usr len : Z).
Context (allowed : Z -> bool) (copy : Z -> Z -> Z -> K unit).
Hypothesis (Husr : 0 <= usr) (Hlen : usr + len <= 2 ^ 64).
Hypothesis (Hget : forall k i, Z.of_nat k <= len -> 0 <= i < len ->
  wp (vget fuel vctx (usr + i)) (fun r s' => s' = copied_to A B s k /\
    (r =? NULL) || negb (allowed (region_flags (mem s') r)) = false) (copied_to A B s k)).
Hypothesis (Hcopy : forall k n : nat, Z.of_nat (k + n) <= len -> (0 < n)%nat ->
  wp (copy (Z.of_nat k) (usr + Z.of_nat k) (Z.of_nat n))
    (fun _ s' => s' = copied_to A B s (k + n)) (copied_to A B s k)).

Lemma user_chunks_spec rounds k :
  Z.of_nat k <= len ->
  Z.of_nat k = len \/
    (usr + Z.of_nat k) mod PAGE_SIZE + (len - Z.of_nat k) <= PAGE_SIZE * (Z.of_nat rounds - 1) ->
  (0 < rounds)%nat ->
  wp (user_chunks rounds fuel allowed copy vctx (w64 (usr + Z.of_nat k)) (Z.of_nat k) len)
    (fun r s' => r = 0 /\ s' = copied_to A B s (Z.to_nat len)) (copied_to A B s k).
Proof.
  revert k. induction rounds as [|rounds IH]; intros k Hk Hm Hr; [lia|]. cbn [user_chunks].
  destruct (Z.ltb_spec (Z.of_nat k) len) as [Hkl|Hkl]; cbn [negb].
  2: { wp_step. split; [done|]. f_equal. lia. }
  destruct Hm as [Hm|Hm]; [lia|]. rewrite w64_id by lia.
  wp_step. eapply wp_mono; [apply (Hget k (Z.of_nat k)); lia|]. cbv beta.
  intros r s' [-> Hal]. wp_step. wp_step. cbv beta. rewrite Hal.
  rewrite land_page_offset. set (off := (usr + Z.of_nat k) mod PAGE_SIZE) in *.
  assert (Hoff : 0 <= off < PAGE_SIZE) by (apply Z.mod_pos_bound; unfold PAGE_SIZE; lia).
  set (chunk := min_size _ _).
  assert (Hc : 0 < chunk <= len - Z.of_nat k /\ chunk <= PAGE_SIZE - off /\
    (chunk = len - Z.of_nat k \/ chunk = PAGE_SIZE - off)).
  { unfold chunk, min_size. destruct (Z.ltb_spec (len - Z.of_nat k) (PAGE_SIZE - off)); lia. }
  clearbody chunk. replace chunk with (Z.of_nat (Z.to_nat chunk)) by lia.
  wp_step. eapply wp_mono; [apply Hcopy; lia|]. cbv beta. intros [] s' ->.
  replace (usr + Z.of_nat k + Z.of_nat (Z.to_nat chunk))
    with (usr + Z.of_nat (k + Z.to_nat chunk)) by lia.
  replace (Z.of_nat k + Z.of_nat (Z.to_nat chunk)) with (Z.of_nat (k + Z.to_nat chunk)) by lia.
  apply IH; [lia| |unfold PAGE_SIZE in *; lia].
  destruct (decide (chunk = len - Z.of_nat k)) as [He|Hne]; [left; lia|right].
  replace (usr + Z.of_nat (k + Z.to_nat chunk)) with ((usr + Z.of_nat k) + (PAGE_SIZE - off)) by lia.
  assert (Hz : (usr + Z.of_nat k + (PAGE_SIZE - off)) mod PAGE_SIZE = 0).
  { unfold off, PAGE_SIZE. pose proof (Z.div_mod (usr + Z.of_nat k) 4096 ltac:(lia)).
    replace (usr + Z.of_nat k + (4096 - (usr + Z.of_nat k) mod 4096))
      with (((usr + Z.of_nat k) / 4096 + 1) * 4096) by lia. by apply Z.mod_mul. }
  rewrite Hz. lia.
Qed.

(** The whole range, in the rounds that [user_rounds] gives. *)
Lemma user_chunks_all :
  0 <= len ->
  wp (user_chunks (user_rounds len) fuel allowed copy vctx usr 0 len)
    (fun r s' => r = 0 /\ s' = copied_to A B s (Z.to_nat len)) s.
Proof.
  intros H0. destruct (decide (len = 0)) as [->|Hn].
  { unfold user_rounds. cbn [Z.div Z.add]. change (0 / PAGE_SIZE + 3) with 3.
    cbn. split; [done|]. by destruct s. }
  pose proof (user_chunks_spec (user_rounds len) 0) as Hs.
  rewrite Z.add_0_r, (w64_id usr) in Hs by lia.
  replace (copied_to A B s 0) with s in Hs by (by destruct s).
  pose proof (Z.div_mod len PAGE_SIZE ltac:(unfold PAGE_SIZE; lia)).
  pose proof (Z.mod_pos_bound len PAGE_SIZE ltac:(unfold PAGE_SIZE; lia)).
  pose proof (Z.mod_pos_bound usr PAGE_SIZE ltac:(unfold PAGE_SIZE; lia)).
  assert (0 <= len / PAGE_SIZE) by (apply Z.div_pos; unfold PAGE_SIZE; lia).
  apply Hs; unfold user_rounds; [lia| |lia]. right. rewrite Z2Nat.id by lia.
  unfold PAGE_SIZE in *. cbn [Z.of_nat]. lia.
Qed.
End Chunks.

(** ** Contexts and writes to the pages of a client *)

Section Regions.
Context {FA : FrameAlloc} {FL : FrameAllocLaws}.

Lemma filter_none {A} (P : A -> Prop) `{!forall x, Decision (P x)} (l : list A) :
  (forall x, x ∈ l -> ~ P x) -> filter P l = [].
Proof.
  induction l as [|x l IH]; intros Hno; [done|]. rewrite filter_cons_False.
  - apply IH. intros y Hy. apply Hno, elem_of_cons. by right.
  - apply Hno, elem_of_cons. by left.
Qed.

(** The first region that contains an address. *)
Definition region_of (l : list region) (va : Z) : option region :=
  head (filter (fun x => rg_start x <= va < rg_end x) l).

Lemma vget_region fuel s c pm l va :
  vctx_ok s c pm l -> (length l < fuel)%nat ->
  wp (vget fuel c va) (fun r s' => s' = s /\
    match region_of l va with
    | Some x => r <> NULL /\ region_flags (mem s) r = rg_flags x
    | None => r = NULL
    end) s.
Proof.
  intros Hok Hf. unfold region_of. eapply wp_mono; [by apply (vget_spec fuel s c pm l)|].
  intros r s' [-> [[-> Hno]|(l1 & y & l2 & Hl & -> & Hy & Hl1)]]; (split; [done|]).
  - by rewrite filter_none.
  - subst l. rewrite filter_app, filter_none by (intros z Hz; by apply Hl1).
    cbn [app]. rewrite filter_cons_True by done. cbn [head].
    destruct (chain_region _ _ _ _ _ (vc_chain _ _ _ _ Hok)) as (Hn & _ & _ & Hfl & _). done.
Qed.

(** [W]: pages that hold neither the tables of [pm] nor the nodes of the context. *)
Definition data_pages (s : machine) (c pm : Z) (l : list region) (W : list Z) : Prop :=
  Forall (fun u => client_page s u /\ not_table s pm u /\ u ∉ ctx_nodes c l) W.

Definition in_pages (W : list Z) (a : Z) : Prop := exists u, u ∈ W /\ in_range u PAGE_SIZE a.

Lemma data_writes_nodes s c pm l W m u :
  vctx_ok s c pm l -> data_pages s c pm l W -> agree_outside (in_pages W) (mem s) m ->
  u ∈ ctx_nodes c l -> node_agree (mem s) m u.
Proof.
  intros Hok HW Hm Hu a Ha. apply Hm. intros (v & Hv & Hva).
  unfold data_pages in HW. rewrite Forall_forall in HW. destruct (HW v Hv) as (Hc & _ & Hn).
  pose proof (vc_client _ _ _ _ Hok) as Hcl. rewrite Forall_forall in Hcl.
  apply Hn. by rewrite (client_page_disjoint s v u a) by auto.
Qed.

Lemma data_writes s c pm l W m :
  vctx_ok s c pm l -> data_pages s c pm l W -> agree_outside (in_pages W) (mem s) m ->
  vctx_ok (set_mem m s) c pm l /\ forall v, lookup (set_mem m s) pm v = lookup s pm v.
Proof.
  intros Hok HW Hm. pose proof (fun u => data_writes_nodes s c pm l W m u Hok HW Hm) as Hnodes.
  unfold data_pages in HW. rewrite Forall_forall in HW.
  destruct (client_writes s m W pm (vc_inv _ _ _ _ Hok) (vc_pt _ _ _ _ Hok)) as (Hi & Ho & Hpt & Hw & Hlk).
  { apply Forall_forall. intros u Hu. by destruct (HW u Hu) as (? & ? & _). }
  { exact Hm. }
  split; [|exact Hlk]. apply (vctx_ok_keep s); try done.
  { apply (ctx_nodes_client s _ c pm); [done|done|]. intros f. by apply Ho. }
  pose proof (vc_client _ _ _ _ Hok) as Hcl. pose proof (vc_tables _ _ _ _ Hok) as Htb.
  rewrite Forall_forall in Hcl, Htb. apply Forall_forall. intros u Hu. split.
  - by apply Hnodes.
  - intros p Hp. cbn. rewrite Hw by done. by apply (Htb u).
Qed.
End Regions.

(** ** copy_from_user and copy_to_user *)

Section Props.
Context {FA : FrameAlloc} {FL : FrameAllocLaws}.

(** The active page map is [pm]. *)
Definition active (s : machine) (pm : Z) : Prop :=
  HIGHER_HALF (hhdm_offset s) (cr3 (paging s)) = pm.

Lemma translate_writes s c pm l W m write a :
  vctx_ok s c pm l -> data_pages s c pm l W -> active s pm ->
  agree_outside (in_pages W) (mem s) m -> translate (set_mem m s) write a = translate s write a.
Proof.
  intros Hok HW Hact Hm. unfold translate. cbn [hhdm_offset paging set_mem]. unfold active in Hact.
  rewrite Hact. destruct (data_writes s c pm l W m Hok HW Hm) as [_ Hl]. by rewrite Hl.
Qed.

Lemma copied_agree A B len W s k :
  (forall i, 0 <= i < len -> in_pages W (B i)) -> Z.of_nat k <= len ->
  agree_outside (in_pages W) (mem s) (copied_mem A B k (mem s)).
Proof.
  intros HB Hk x Hx. apply copied_mem_out. intros i Hi <-. apply Hx, HB. lia.
Qed.

(** What both functions need of the state: a usable context whose page map is active,
    and [len] bytes from [A i] to [B i], none overwritten before it is read, whose
    destinations hold neither tables nor nodes. *)
Record copy_ok (s : machine) (c pm : Z) (l : list region) (W : list Z) (A B : Z -> Z) (len : Z) : Prop :=
  CopyOk {
    co_ctx : vctx_ok s c pm l;
    co_active : active s pm;
    co_data : data_pages s c pm l W;
    co_dest : forall i, 0 <= i < len -> in_pages W (B i);
    co_inj : forall i j, 0 <= i < len -> 0 <= j < len -> B i = B j -> i = j;
    co_sep : forall i j, 0 <= i < len -> 0 <= j < len -> A i <> B j }.

Section Core.
Context (s : machine) (c pm : Z) (l : list region) (W : list Z) (A B : Z -> Z) (len : Z).
Context (fuel : nat) (usr dest src : Z) (allowed : Z -> bool) (copy : Z -> Z -> Z -> K unit).
Hypothesis (Hok : copy_ok s c pm l W A B len) (Hfuel : (length l < fuel)%nat).
Hypothesis (Hlen : 0 <= len) (Husr : 0 <= usr) (Hb : usr + len <= 2 ^ 64).
Hypothesis (Hreg : forall i, 0 <= i < len ->
  exists x, region_of l (usr + i) = Some x /\ allowed (rg_flags x) = true).
Hypothesis (Hsrc : forall i, 0 <= i < len -> translate s false (w64 (src + i)) = Some (A i)).
Hypothesis (Hdst : forall i, 0 <= i < len -> translate s true (w64 (dest + i)) = Some (B i)).
Hypothesis (Hcopy : forall k n, 0 <= k < len -> copy k (usr + k) n = vmemcpy (w64 (dest + k)) (w64 (src + k)) n).

Lemma copy_core :
  wp (user_chunks (user_rounds len) fuel allowed copy c usr 0 len) (fun r s' =>
    r = 0 /\ exists m, s' = set_mem m s /\
      agree_outside (fun x => exists i, 0 <= i < len /\ x = B i) (mem s) m /\
      forall i, 0 <= i < len -> load8 m (B i) = load8 (mem s) (A i)) s.
Proof.
  pose proof Hok as [Hctx Hact HW HB Hinj Hsep].
  eapply wp_mono.
  { apply (user_chunks_all A B s fuel c usr len allowed copy Husr Hb); [| |done].
    - intros k i Hk Hi. destruct (Hreg i Hi) as (x & Hx & Hal).
      destruct (data_writes s c pm l W _ Hctx HW (copied_agree A B len W s k HB Hk)) as [Hk' _].
      eapply wp_mono; [by apply (vget_region fuel _ c pm l (usr + i))|].
      rewrite Hx. intros r s' (-> & Hr & Hfl). split; [done|]. unfold copied_to in *. rewrite Hfl, Hal.
      by rewrite (proj2 (Z.eqb_neq r NULL)).
    - intros k n Hkn Hn. rewrite Hcopy by lia. apply vmemcpy_spec. intros i j Hi Hj.
      pose proof (copied_agree A B len W s j HB ltac:(lia)) as Hag. unfold copied_to.
      rewrite !(translate_writes s c pm l W _ _ _ Hctx HW Hact Hag).
      assert (Hw : forall b, w64 (w64 (b + Z.of_nat k) + Z.of_nat (i - k)) = w64 (b + Z.of_nat i)).
      { intros b. unfold w64. rewrite Zplus_mod_idemp_l. f_equal. lia. }
      rewrite !Hw. split; [apply Hsrc|apply Hdst]; lia. }
  cbv beta. intros r s' [-> ->]. split; [done|]. eexists. split; [done|]. split.
  - intros x Hx. apply copied_mem_out. intros i Hi <-. apply Hx. exists i. split; [lia|done].
  - intros i Hi. apply (copied_mem_in A B len (mem s) Hinj Hsep); lia.
Qed.
End Core.

(** Kernel addresses are not translated. *)
Lemma translate_kernel s write a : hhdm_offset s <= a -> translate s write a = Some a.
Proof. intros H. unfold translate. by rewrite (proj2 (Z.leb_le _ _)). Qed.

(** C24: [copy_from_user] of a range that lies in user regions and is mapped copies
    exactly its bytes: it returns 0 and changes nothing but the destination, whatever
    pages the range crosses. *)
Theorem copy_from_user_correct fuel s c pm l W A kdst usrc len :
  copy_ok s c pm l W A (fun i => kdst + i) len -> (length l < fuel)%nat -> 0 <= len ->
  0 <= usrc -> usrc + len <= 2 ^ 64 -> 0 <= hhdm_offset s <= kdst -> kdst + len <= 2 ^ 64 ->
  (forall i, 0 <= i < len ->
     exists x, region_of l (usrc + i) = Some x /\ has (rg_flags x) VMM_USER = true) ->
  (forall i, 0 <= i < len -> translate s false (usrc + i) = Some (A i)) ->
  wp (copy_from_user fuel c kdst usrc len) (fun r s' =>
    r = 0 /\ exists m, s' = set_mem m s /\ agree_outside (in_range kdst len) (mem s) m /\
      forall i, 0 <= i < len -> load8 m (kdst + i) = load8 (mem s) (A i)) s.
Proof.
  intros Hok Hf Hl H0 H1 H2 H3 Hreg Hsrc. eapply wp_mono.
  { apply (copy_core s c pm l W A (fun i => kdst + i) len fuel usrc kdst usrc); try done.
    - intros i Hi. rewrite w64_id by lia. by apply Hsrc.
    - intros i Hi. rewrite w64_id by lia. apply translate_kernel. lia.
    - intros k n Hk. cbv beta. by rewrite (w64_id (usrc + k)) by lia. }
  cbv beta. intros r s' (-> & m & -> & Hag & Hcp). split; [done|]. exists m. split_and!; [done| |done].
  intros x Hx. apply Hag. intros (i & Hi & ->). apply Hx. unfold in_range. lia.
Qed.

(** [copy_to_user] to a range in writable user regions, mapped writable at
    pairwise distinct places: it returns 0, the bytes arrive, nothing else changes. *)
Theorem copy_to_user_correct fuel s c pm l W B udst ksrc len :
  copy_ok s c pm l W (fun i => ksrc + i) B len -> (length l < fuel)%nat -> 0 <= len ->
  0 <= udst -> udst + len <= 2 ^ 64 -> 0 <= hhdm_offset s <= ksrc -> ksrc + len <= 2 ^ 64 ->
  (forall i, 0 <= i < len -> exists x, region_of l (udst + i) = Some x /\
     has (rg_flags x) VMM_USER && has (rg_flags x) VMM_WRITE = true) ->
  (forall i, 0 <= i < len -> translate s true (udst + i) = Some (B i)) ->
  wp (copy_to_user fuel c udst ksrc len) (fun r s' =>
    r = 0 /\ exists m, s' = set_mem m s /\
      agree_outside (fun x => exists i, 0 <= i < len /\ x = B i) (mem s) m /\
      forall i, 0 <= i < len -> load8 m (B i) = load8 (mem s) (ksrc + i)) s.
Proof.
  intros Hok Hf Hl H0 H1 H2 H3 Hreg Hdst.
  apply (copy_core s c pm l W (fun i => ksrc + i) B len fuel udst udst ksrc); try done.
  - intros i Hi. rewrite w64_id by lia. apply translate_kernel. lia.
  - intros i Hi. rewrite w64_id by lia. by apply Hdst.
  - intros k n Hk. by rewrite (w64_id (udst + k)) by lia.
Qed.

(** What a copy needs of the region at [a]: it is the user's, and writable when the copy
    writes to it. *)
Definition user_access (l : list region) (write : bool) (a : Z) : Prop :=
  exists x, region_of l a = Some x /\ has (rg_flags x) VMM_USER = true /\
    (write = true -> has (rg_flags x) VMM_WRITE = true).

Lemma user_chunks_refused fuel s c pm l allowed copy addr len :
  vctx_ok s c pm l -> (length l < fuel)%nat -> 0 < len ->
  (forall x, region_of l addr = Some x -> allowed (rg_flags x) = false) ->
  wp (user_chunks (user_rounds len) fuel allowed copy c addr 0 len) (fun r s' => r = -1 /\ s' = s) s.
Proof.
  intros Hok Hf Hl Hu. pose proof (vget_region fuel s c pm l addr Hok Hf) as Hg.
  assert (exists n, user_rounds len = S n) as [n ->].
  { unfold user_rounds. pose proof (Z.div_pos len PAGE_SIZE ltac:(lia) ltac:(unfold PAGE_SIZE; lia)).
    exists (Z.to_nat (len / PAGE_SIZE + 2)). lia. }
  cbn [user_chunks]. rewrite (proj2 (Z.ltb_lt 0 len)) by lia. cbn [negb].
  wp_step. eapply wp_mono; [exact Hg|]. cbv beta. intros r s' [-> Hr]. wp_step. wp_step. cbv beta.
  destruct (region_of l addr) as [x|]; [destruct Hr as [_ ->]|by rewrite Hr].
  rewrite (Hu x) by done. rewrite orb_true_r. by wp_step.
Qed.

(** C26: neither function copies anything where it may not: [copy_from_user] of a range
    that starts outside every region or in one that is not the user's, and [copy_to_user]
    of a range that starts outside every region, in one that is not the user's or in one
    that is not writable, return -1 and change nothing. *)
Theorem copy_user_refuses fuel s c pm l uaddr kaddr len :
  vctx_ok s c pm l -> (length l < fuel)%nat -> 0 < len ->
  (~ user_access l false uaddr ->
     wp (copy_from_user fuel c kaddr uaddr len) (fun r s' => r = -1 /\ s' = s) s) /\
  (~ user_access l true uaddr ->
     wp (copy_to_user fuel c uaddr kaddr len) (fun r s' => r = -1 /\ s' = s) s).
Proof.
  intros Hok Hf Hl.
  split; intros Hno; apply (user_chunks_refused fuel s c pm l); try done; intros x Hx; apply not_true_is_false.
  - intros Hu. apply Hno. by exists x.
  - intros [Hu Hw]%andb_true_iff. apply Hno. by exists x.
Qed.
End Props.

(** ** A process with one user page, and a kernel page to copy to *)

Definition us1 : machine := state_of (valloc 10 ctx0 1 11 vs1) vs1.
Definition us2 : machine := state_of (palloc 1 true us1) us1.
Definition kbuf : Z := default 0 (result_of (palloc 1 true us1)).
Definition unode : Z := region_next (mem us1) node0.
Definition ureg : region := new_region unode reg0 1 11.

Lemma us1_run : valloc 10 ctx0 1 11 vs1 = Ret 0x400000 us1.
Proof.
  assert (Hr : result_of (valloc 10 ctx0 1 11 vs1) = Some 0x400000) by (vm_compute; reflexivity).
  exact (ran _ vs1 _ Hr).
Qed.

Lemma us1_ok : vctx_ok us1 ctx0 root0 [reg0; ureg].
Proof.
  pose proof (wp_result _ _ _ _ _ us1_run
    (valloc_spec 10 vs1 ctx0 root0 [reg0] 1 11 vs1_ok ltac:(cbn; lia) ltac:(lia)
      (sample_bound [reg0] 1 ltac:(set_solver) ltac:(lia)))) as H.
  destruct H as [[H _]|(l1 & x & l2 & n & es & (Hl & _) & Hok & _)]; [discriminate H|].
  destruct l1 as [|? []]; [|discriminate Hl..]. injection Hl as <- <-. cbn [app] in Hok.
  pose proof (chain_cons_node _ _ _ _ (vc_chain _ _ _ _ Hok)) as H0.
  pose proof (chain_next_node _ _ _ _ _ (vc_chain _ _ _ _ Hok)) as H1.
  cbn [rg_node new_region reg0 first_region] in H0, H1.
  unfold ureg, unode. rewrite <- H1. exact Hok.
Qed.

Lemma us2_run : palloc 1 true us1 = Ret kbuf us2 /\ kbuf <> NULL.
Proof.
  assert (Hr : result_of (palloc 1 true us1) = Some kbuf /\ kbuf <> NULL)
    by (vm_compute; split; [reflexivity|discriminate]).
  exact (conj (ran _ us1 _ (proj1 Hr)) (proj2 Hr)).
Qed.

#[global] Opaque us1 us2 kbuf.

Lemma us2_ok : vctx_ok us2 ctx0 root0 [reg0; ureg] /\ data_pages us2 ctx0 root0 [reg0; ureg] [kbuf].
Proof.
  destruct us2_run as [Hr Hn].
  pose proof (wp_result _ _ _ _ _ Hr (fa_palloc_one us1 true (vc_inv _ _ _ _ us1_ok))) as H.
  cbv beta in H. destruct H as [[H _]|(f & Hf & Hi & Hout)]; [destruct (Hn H)|].
  destruct (vctx_ok_fresh us1 us2 ctx0 root0 [reg0; ureg] f us1_ok Hi Hout) as (H1 & H2 & H3 & H4 & _).
  split; [exact H1|]. rewrite Hf. apply Forall_singleton. exact (conj H2 (conj H3 H4)).
Qed.

(** Where the process's page lies. *)
Definition ubase : Z := default 0 (translate us2 false 0x400000).

Lemma us2_translate i write : 0 <= i < 4 -> translate us2 write (0x400000 + i) = Some (ubase + i).
Proof.
  intros Hi.
  assert (H : forallb (fun w => forallb (fun i => bool_decide (translate us2 w (0x400000 + i) = Some (ubase + i)))
    [0; 1; 2; 3]) [false; true] = true) by (vm_compute; reflexivity).
  rewrite forallb_forall in H.
  assert (Hw : In write [false; true]) by (destruct write; [right; left|left]; reflexivity).
  specialize (H write Hw). rewrite forallb_forall in H.
  assert (Hin : In i [0; 1; 2; 3]) by (cbn [In]; lia).
  exact (bool_decide_eq_true_1 _ (H i Hin)).
Qed.

Lemma us2_pages : ubase + PAGE_SIZE <= kbuf /\ hhdm_offset us2 <= ubase /\
  0 <= hhdm_offset us2 /\ kbuf + PAGE_SIZE <= 2 ^ 64 /\ active us2 root0.
Proof.
  assert (H : (ubase + PAGE_SIZE <=? kbuf) && (hhdm_offset us2 <=? ubase) && (0 <=? hhdm_offset us2)
    && (kbuf + PAGE_SIZE <=? 2 ^ 64)
    && (HIGHER_HALF (hhdm_offset us2) (cr3 (paging us2)) =? root0) = true) by (vm_compute; reflexivity).
  apply andb_true_iff in H as [H H5]. apply andb_true_iff in H as [H H4].
  apply andb_true_iff in H as [H H3]. apply andb_true_iff in H as [H1 H2].
  exact (conj (proj1 (Z.leb_le _ _) H1) (conj (proj1 (Z.leb_le _ _) H2)
    (conj (proj1 (Z.leb_le _ _) H3) (conj (proj1 (Z.leb_le _ _) H4) (proj1 (Z.eqb_eq _ _) H5))))).
Qed.
#[global] Opaque ubase.

Lemma us2_copy : copy_ok us2 ctx0 root0 [reg0; ureg] [kbuf]
  (fun i => ubase + i) (fun i => kbuf + i) 4.
Proof.
  destruct us2_pages as (H1 & _ & _ & _ & Hact), us2_ok as [Hok Hd]. unfold PAGE_SIZE in H1.
  split; [exact Hok|exact Hact|exact Hd| | |].
  - intros i Hi. exists kbuf. split; [apply list_elem_of_here|]. unfold in_range, PAGE_SIZE. lia.
  - intros i j _ _ He. lia.
  - intros i j Hi Hj He. lia.
Qed.

Lemma us2_regions i : 0 <= i < 4 -> exists x, region_of [reg0; ureg] (0x400000 + i) = Some x /\
  has (rg_flags x) VMM_USER = true.
Proof.
  intros Hi. exists ureg. split; [|reflexivity].
  assert (H0 : rg_start reg0 = 0x400000 /\ rg_end reg0 = 0x400000) by (split; reflexivity).
  assert (H1 : rg_start ureg = 0x400000 /\ rg_end ureg = 0x401000) by (split; reflexivity).
  unfold region_of. rewrite filter_cons_False by lia. by rewrite filter_cons_True by lia.
Qed.

Lemma copy_from_user_correct_witness :
  wp (copy_from_user 5 ctx0 kbuf 0x400000 4) (fun r s' =>
    r = 0 /\ exists m, s' = set_mem m us2 /\ agree_outside (in_range kbuf 4) (mem us2) m /\
      forall i, 0 <= i < 4 -> load8 m (kbuf + i) = load8 (mem us2) (ubase + i)) us2.
Proof.
  destruct us2_pages as (H1 & H2 & H3 & H4 & _). unfold PAGE_SIZE in H1, H4.
  apply (copy_from_user_correct 5 us2 ctx0 root0 [reg0; ureg] [kbuf] (fun i => ubase + i)
    kbuf 0x400000 4 us2_copy).
  - cbn. lia.
  - lia.
  - lia.
  - lia.
  - lia.
  - lia.
  - exact us2_regions.
  - intros i Hi. exact (us2_translate i false Hi).
Defined.

(** Two more regions: a page the user may only read, and one of the kernel's. *)
Definition us3 : machine := state_of (valloc 10 ctx0 1 9 us2) us2.
Definition us4 : machine := state_of (valloc 10 ctx0 1 3 us3) us3.

Lemma valloc_behind s s' c pm x y pages flags r :
  vctx_ok s c pm (x ++ [y]) -> valloc 10 c pages flags s = Ret r s' -> r <> NULL ->
  (length (x ++ [y]) < 10)%nat -> 0 <= pages < 2 ^ 64 ->
  (forall z, z ∈ x ++ [y] -> rg_end z + pages * PAGE_SIZE <= 2 ^ 48) ->
  forallb (fun z => negb (gap_after (mem s) (rg_node z))) x = true ->
  exists n, vctx_ok s' c pm (x ++ [y; new_region n y pages flags]).
Proof.
  intros Hok Hr Hn Hl Hp Hb Hx.
  pose proof (wp_result _ _ _ _ _ Hr (valloc_spec 10 s c pm _ pages flags Hok Hl Hp Hb)) as H.
  destruct H as [[H _]|(l1 & z & l2 & n & es & Hg & Hok' & _)]; [done|]. exists n.
  assert (Hlast : first_gap gap_after (mem s) (x ++ [y]) x y []).
  { split; [done|]. split.
    - apply gap_last. by destruct (chain_region _ _ _ _ _ (vc_chain _ _ _ _ Hok)) as (_ & _ & _ & _ & E).
    - apply Forall_forall. intros z' Hz'%list_elem_of_In. rewrite forallb_forall in Hx.
      by apply negb_true_iff, Hx. }
  by destruct (first_gap_unique _ _ _ _ _ _ _ _ _ Hlast Hg) as (<- & <- & <-).
Qed.

Lemma us4_regions : exists n3 n4,
  let r3 := new_region n3 ureg 1 9 in
  vctx_ok us4 ctx0 root0 [reg0; ureg; r3; new_region n4 r3 1 3].
Proof.
  assert (H : result_of (valloc 10 ctx0 1 9 us2) = Some 0x401000 /\
    result_of (valloc 10 ctx0 1 3 us3) = Some 0x402000 /\
    forallb (fun z => negb (gap_after (mem us2) (rg_node z))) [reg0] = true /\
    forallb (fun z => negb (gap_after (mem us3) (rg_node z))) [reg0; ureg] = true)
    by (vm_compute; split_and!; reflexivity).
  destruct H as (R3 & R4 & G3 & G4).
  destruct (valloc_behind us2 us3 ctx0 root0 [reg0] ureg 1 9 0x401000 (proj1 us2_ok) (ran _ us2 _ R3)
    ltac:(discriminate) ltac:(cbn; lia) ltac:(lia)) as [n3 Hok3]; [|exact G3|].
  { intros z [-> | ->%list_elem_of_singleton]%elem_of_cons; vm_compute; discriminate. }
  destruct (valloc_behind us3 us4 ctx0 root0 [reg0; ureg] (new_region n3 ureg 1 9) 1 3 0x402000 Hok3 (ran _ us3 _ R4)
    ltac:(discriminate) ltac:(cbn; lia) ltac:(lia)) as [n4 Hok4]; [|exact G4|by exists n3, n4].
  intros z Hz. cbn [app] in Hz. rewrite !elem_of_cons, elem_of_nil in Hz.
  destruct Hz as [-> |[-> |[-> |[]]]]; vm_compute; discriminate.
Qed.

(** What the four regions allow. *)
Lemma us4_access n3 n4 : let r3 := new_region n3 ureg 1 9 in let l := [reg0; ureg; r3; new_region n4 r3 1 3] in
  ~ user_access l true 0x401000 /\ ~ user_access l false 0x402000 /\ ~ user_access l false 0x500000.
Proof.
  cbv zeta. split_and!; intros (x & Hx & Hu & Hw); vm_compute in Hx; simplify_eq/=; try discriminate.
  by specialize (Hw eq_refl).
Qed.

(** Refused: a write to the page that may only be read, a read of the kernel's page, and
    an address outside all regions. *)
Lemma copy_user_refuses_witness :
  wp (copy_to_user 5 ctx0 0x401000 kbuf 4) (fun r s' => r = -1 /\ s' = us4) us4 /\
  wp (copy_from_user 5 ctx0 kbuf 0x402000 4) (fun r s' => r = -1 /\ s' = us4) us4 /\
  wp (copy_from_user 5 ctx0 kbuf 0x500000 4) (fun r s' => r = -1 /\ s' = us4) us4.
Proof.
  destruct us4_regions as (n3 & n4 & Hok). destruct (us4_access n3 n4) as (H1 & H2 & H3).
  pose proof (fun a => copy_user_refuses 5 us4 ctx0 root0 _ a kbuf 4 Hok ltac:(cbn; lia) ltac:(lia)) as H.
  exact (conj (proj2 (H 0x401000) H1) (conj (proj1 (H 0x402000) H2) (proj1 (H 0x500000) H3))).
Defined.
