(* ===== verification/Elf.v ===== *)
(** * sys/data/elf.c: loading an ELF executable

    The file lies in memory, as the boot loader left it; header fields are read at
    their packed offsets.  A segment gets freshly allocated frames that [vadd] maps at
    the segment's pages; the frames are cleared and the file's bytes copied in.  The log
    lines are left out; a failed [assert] stops the CPU. *)

From S2P Require Export User VmmAdd.

Definition ELF_MAGIC : Z := 0x464C457F.
Definition PT_LOAD : Z := 1.
Definition PF_X : Z := 1.
Definition PF_W : Z := 2.

(** ** elf_header_t *)

Definition e_magic (m : memory) (h : Z) : Z := load32 m h.
Definition e_class (m : memory) (h : Z) : Z := load8 m (h + 4).
Definition e_type (m : memory) (h : Z) : Z := load16 m (h + 16).
Definition e_entry (m : memory) (h : Z) : Z := load64 m (h + 24).
Definition e_phoff (m : memory) (h : Z) : Z := load64 m (h + 32).
Definition e_phnum (m : memory) (h : Z) : Z := load16 m (h + 56).

(** ** elf_pheader_t *)

Definition sizeof_elf_pheader : Z := 56.
Definition p_type (m : memory) (ph : Z) : Z := load32 m ph.
Definition p_flags (m : memory) (ph : Z) : Z := load32 m (ph + 4).
Definition p_offset (m : memory) (ph : Z) : Z := load64 m (ph + 8).
Definition p_vaddr (m : memory) (ph : Z) : Z := load64 m (ph + 16).
Definition p_filesz (m : memory) (ph : Z) : Z := load64 m (ph + 32).
Definition p_memsz (m : memory) (ph : Z) : Z := load64 m (ph + 40).

(** [assert(expr)]: the message is logged and the CPU halts. *)
Definition assert (b : bool) : K unit := if b then ret tt else hang.

Section Elf.
Context {FA : FrameAlloc}.

Definition segment_flags (user : bool) (pflags : Z) : Z :=
  Z.lor VALLOC_READ
    (Z.lor (if has pflags PF_W then VALLOC_WRITE else 0)
      (Z.lor (if has pflags PF_X then VALLOC_EXEC else 0)
             (if user then VALLOC_USER else 0))).

(** [vaddr_start] and [pages] of a segment. *)
Definition seg_start (m : memory) (ph : Z) : Z := ALIGN_DOWN (p_vaddr m ph) PAGE_SIZE.
Definition seg_pages (m : memory) (ph : Z) : Z :=
  let vaddr_end := ALIGN_UP (w64 (p_vaddr m ph + p_memsz m ph)) PAGE_SIZE in
  w64 (vaddr_end - seg_start m ph) / PAGE_SIZE.

(** The body of the loop for a [PT_LOAD] segment; [false]: the caller returns 0. *)
Definition load_segment (fuel : nat) (user : bool) (data ctx ph : Z) : K bool :=
  s <- get ;;
  let vaddr_start := seg_start (mem s) ph in
  let pages := seg_pages (mem s) ph in
  let flags := segment_flags user (p_flags (mem s) ph) in
  phys <- fa_palloc pages false ;;
  if phys =? NULL then ret false else
  r <- vadd fuel ctx vaddr_start phys pages flags ;;
  if r =? NULL then fa_pfree phys pages ;;; ret false else
  s <- get ;;
  memset_at (HIGHER_HALF (hhdm_offset s) phys) 0 (w64 (pages * PAGE_SIZE)) ;;;
  s <- get ;;
  let file_offset := p_offset (mem s) ph in
  let mem_offset := w64 (p_vaddr (mem s) ph - vaddr_start) in
  memcpy_at (w64 (HIGHER_HALF (hhdm_offset s) phys + mem_offset)) (w64 (data + file_offset))
    (p_filesz (mem s) ph) ;;;
  ret true.

(** The loop over the program headers, from header [i] on: [i] and [e_phnum] are 16
    bits wide. *)
Fixpoint load_segments (rounds fuel : nat) (user : bool) (data ctx ph i : Z) : K bool :=
  match rounds with
  | O => out_of_fuel
  | S rounds' =>
      s <- get ;;
      if negb (i <? e_phnum (mem s) data) then ret true else
      let phi := w64 (ph + i * sizeof_elf_pheader) in
      ok <- (if negb (p_type (mem s) phi =? PT_LOAD) then ret true
             else load_segment fuel user data ctx phi) ;;
      if ok : bool then load_segments rounds' fuel user data ctx ph (w16 (i + 1)) else ret false
  end.

Definition elf_rounds : nat := Z.to_nat (2 ^ 16).

Definition elf_load (fuel : nat) (user : bool) (data ctx : Z) : K Z :=
  assert (negb (data =? NULL)) ;;;
  assert (negb (ctx =? NULL)) ;;;
  s <- get ;;
  if negb (e_magic (mem s) data =? ELF_MAGIC) then ret 0 else
  if negb (e_class (mem s) data =? 2) then ret 0 else
  if negb (e_type (mem s) data =? 2) then ret 0 else
  ok <- load_segments elf_rounds fuel user data ctx (w64 (data + e_phoff (mem s) data)) 0 ;;
  if ok : bool then s <- get ;; ret (e_entry (mem s) data) else ret 0.
End Elf.

(** ** Files that are not executables *)

Section Props.
Context {FA : FrameAlloc}.

(** a file whose magic number, class or type is not that of a 64-bit executable
    is refused: 0, and nothing has changed, whatever else the file says. *)
Theorem elf_load_rejects fuel user data ctx s :
  data <> NULL -> ctx <> NULL ->
  e_magic (mem s) data <> ELF_MAGIC \/ e_class (mem s) data <> 2 \/ e_type (mem s) data <> 2 ->
  elf_load fuel user data ctx s = Ret 0 s.
Proof.
  intros Hd Hc Hbad. unfold elf_load.
  rewrite (proj2 (Z.eqb_neq data NULL)), (proj2 (Z.eqb_neq ctx NULL)) by done.
  cbn [negb assert]. unfold bind at 1 2 3, ret at 1 2, get.
  destruct (Z.eqb_spec (e_magic (mem s) data) ELF_MAGIC); [|done].
  destruct (Z.eqb_spec (e_class (mem s) data) 2); [|done].
  destruct (Z.eqb_spec (e_type (mem s) data) 2); [|done]. tauto.
Qed.
End Props.
