(* ===== verification/ElfSpec.v ===== *)
(** * What loading an executable does

    The bytes of the file, and of everything else a program keeps, lie in data pages:
    frames of a client that are neither page tables nor nodes of the context.  A loaded
    segment is a region of the context whose pages are such frames, filled with the
    file's bytes and zeros. *)

From S2P Require Export VmmData Elf.

(** ** Data pages *)

Section Data.
Context {FA : FrameAlloc} {FL : FrameAllocLaws}.

Lemma data_kept_vadd s s' c pm l va pa pages flags r :
  vadd_post s c pm l va pa pages flags r s' -> r <> NULL ->
  exists f, let y := Region (page_at s f) va pages (VFLAGS_TO_PFLAGS flags) in
    r = va /\ (forall x, x ∈ l -> ~ clash va (va + pages * PAGE_SIZE) x) /\
    vctx_ok s' c pm (y :: l) /\ data_kept c pm l (y :: l) s s' /\
    exists es, length es = Z.to_nat pages /\ pages_set s s' pm va es /\
      given_pages pa (VFLAGS_TO_PFLAGS flags) es /\
      (linked s pm -> linked s' pm /\ (None ∈ es -> fa_full s')).
Proof.
  intros [[-> _]|(Hno & Hr & f & es & Hf & Hok & Hlen & Hps & Hgp & Hsp & Hnone)] Hrn; [done|].
  exists f. intros y. split_and!; try done.
  2: { exists es. split_and!; try done. intros Hl. split; [by apply (sp_linked _ _ _ _ Hsp)|by apply Hnone]. }
  apply data_kept_spared; [done|]. intros u. rewrite ctx_nodes_cons. cbn [y rg_node].
  intros [->|[->|Hu]]; [right; apply elem_of_cons; by left|left|right; apply elem_of_cons; by right].
  intros (g & Hg & He). apply page_at_inj in He. by subst g.
Qed.

(** Writing to data pages leaves the data pages what they are. *)
Lemma data_page_writes s c pm l W m u :
  vctx_ok s c pm l -> data_pages s c pm l W -> agree_outside (in_pages W) (mem s) m ->
  data_page s c pm l u -> data_page (set_mem m s) c pm l u.
Proof.
  intros Hok HW Hm (Hc & Ht & Hn). unfold data_pages in HW. rewrite Forall_forall in HW.
  destruct (client_writes s m W pm (vc_inv _ _ _ _ Hok) (vc_pt _ _ _ _ Hok)) as (_ & Ho & _ & Hw & _).
  { apply Forall_forall. intros v Hv. by destruct (HW v Hv) as (? & ? & _). }
  { exact Hm. }
  split_and!; [|intros p Hp; rewrite Hw by done; by apply Ht|done].
  apply (client_page_mono s); [done|intros f; by apply Ho|done].
Qed.

(** Writing to data pages of [s'] that were not data pages in [s]. *)
Lemma data_kept_writes c pm l l' s s' W m :
  data_kept c pm l l' s s' -> vctx_ok s' c pm l' -> data_pages s' c pm l' W ->
  (forall u, u ∈ W -> ~ data_page s c pm l u) -> agree_outside (in_pages W) (mem s') m ->
  data_kept c pm l l' s (set_mem m s').
Proof.
  intros [H1 H2 H3] Hok HW Hnew Hm. split; [done| |].
  - intros u Hu. by apply (data_page_writes s' c pm l' W m u Hok HW Hm), H2.
  - intros u Hu a Ha. cbn [mem set_mem]. rewrite Hm; [by apply (H3 u)|].
    intros (v & Hv & Hva). apply (Hnew v Hv). unfold data_pages in HW. rewrite Forall_forall in HW.
    rewrite <-(client_page_disjoint s' u v a); [done|apply (H2 u Hu)|apply (HW v Hv)|done..].
Qed.
End Data.

(** ** Pages and addresses *)

Definition page_base (v : Z) : Z := v / PAGE_SIZE * PAGE_SIZE.

Lemma page_of_inside va n v :
  va mod PAGE_SIZE = 0 -> va <= v < va + n * PAGE_SIZE ->
  (Z.to_nat ((v - va) / PAGE_SIZE) < Z.to_nat n)%nat /\
  page_of v = page_of (nth_page va (Z.to_nat ((v - va) / PAGE_SIZE))).
Proof.
  unfold page_of, nth_page, PAGE_SIZE. intros Hm Hv.
  pose proof (Z.div_mod (v - va) 4096 ltac:(lia)). pose proof (Z.mod_pos_bound (v - va) 4096 ltac:(lia)).
  pose proof (Z.div_mod va 4096 ltac:(lia)).
  assert (0 <= (v - va) / 4096 < n) by lia. split; [lia|]. rewrite Z2Nat.id by lia. f_equal.
  rewrite Z.div_add by lia.
  replace v with ((v - va) mod 4096 + (va / 4096 + (v - va) / 4096) * 4096) at 1 by lia.
  rewrite Z.div_add, Z.div_small by lia. lia.
Qed.

Lemma page_of_outside va n v i :
  va mod PAGE_SIZE = 0 -> 0 <= va -> va + n * PAGE_SIZE <= 2 ^ 48 -> 0 <= v < 2 ^ 48 ->
  ~ (va <= v < va + n * PAGE_SIZE) -> (i < Z.to_nat n)%nat -> page_of v <> page_of (nth_page va i).
Proof.
  unfold page_of, nth_page, PAGE_SIZE. intros Hm H0 Hb Hv Hno Hi.
  rewrite Z.div_add by lia.
  pose proof (Z.div_mod va 4096 ltac:(lia)). pose proof (Z.div_mod v 4096 ltac:(lia)).
  pose proof (Z.mod_pos_bound v 4096 ltac:(lia)).
  rewrite !Z.mod_small by lia. lia.
Qed.

Lemma align_down_id x : 0 <= x < 2 ^ 64 -> x mod PAGE_SIZE = 0 -> ALIGN_DOWN x PAGE_SIZE = x.
Proof.
  intros Hx Hm. destruct (align_down_spec x PAGE_SIZE Hx) as [Hd Hb]; [unfold PAGE_SIZE; lia|].
  unfold PAGE_SIZE in *. pose proof (Z.div_mod x 4096 ltac:(lia)).
  pose proof (Z.div_mod (ALIGN_DOWN x 4096) 4096 ltac:(lia)). lia.
Qed.

(** ** One segment *)

Definition seg_end (m : memory) (ph : Z) : Z := seg_start m ph + seg_pages m ph * PAGE_SIZE.

(** The rights that an ELF header asks for, as the bits of a page-table entry: present;
    writable if bit 1 of [p_flags] (PF_W) is set; for user code; not executable if bit 0
    (PF_X) is clear. *)
Definition page_rights (user : bool) (pflags : Z) : Z :=
  2 ^ 0 + (if Z.testbit pflags 1 then 2 ^ 1 else 0) + (if user then 2 ^ 2 else 0) +
  (if Z.testbit pflags 0 then 0 else 2 ^ 63).
Definition seg_flags (user : bool) (m : memory) (ph : Z) : Z := page_rights user (p_flags m ph).

Lemma has_bit x i : 0 <= i -> has x (2 ^ i) = Z.testbit x i.
Proof.
  intros Hi. unfold has. destruct (Z.eqb_spec (Z.land x (2 ^ i)) 0) as [He|He]; cbn [negb].
  - apply (f_equal (fun y => Z.testbit y i)) in He. rewrite Z.land_spec, Z.pow2_bits_true, Z.bits_0 in He by done.
    by rewrite andb_true_r in He.
  - destruct (Z.testbit x i) eqn:Ht; [done|]. destruct He. apply Z.bits_inj. intros j.
    rewrite Z.land_spec, Z.bits_0. destruct (decide (j = i)) as [->|]; [by rewrite Ht|].
    rewrite Z.pow2_bits_false by done. by rewrite andb_false_r.
Qed.

(** The flags the loader computes are those rights. *)
Lemma segment_flags_rights user pflags : VFLAGS_TO_PFLAGS (segment_flags user pflags) = page_rights user pflags.
Proof.
  unfold segment_flags, page_rights. rewrite <-!has_bit by done.
  change (2 ^ 1) with PF_W. change (2 ^ 0) with PF_X.
  by destruct (has pflags PF_W), (has pflags PF_X), user.
Qed.

(** Byte [k] of the segment's pages: the file's bytes at the segment's address, zeros
    around them. *)
Definition seg_byte (m : memory) (data ph k : Z) : Z :=
  let d := p_vaddr m ph - seg_start m ph in
  if (d <=? k) && (k <? d + p_filesz m ph) then load8 m (data + p_offset m ph + (k - d)) else 0.

(** A program header the loader can serve: above the first page, in the lower half, not
    empty, no larger in the file than in memory, and inside the file. *)
Record segment_ok (m : memory) (len ph : Z) : Prop := SegmentOk {
  so_low : PAGE_SIZE <= p_vaddr m ph;
  so_size : 0 < p_memsz m ph /\ p_filesz m ph <= p_memsz m ph;
  so_high : p_vaddr m ph + p_memsz m ph <= 2 ^ 48;
  so_file : p_offset m ph + p_filesz m ph <= len }.

Lemma segment_layout m len ph :
  segment_ok m len ph ->
  seg_start m ph mod PAGE_SIZE = 0 /\ PAGE_SIZE <= seg_start m ph /\
  seg_start m ph <= p_vaddr m ph < seg_start m ph + PAGE_SIZE /\ 0 < seg_pages m ph /\
  p_vaddr m ph + p_memsz m ph <= seg_end m ph <= 2 ^ 48.
Proof.
  intros [H1 [H2 _] H3 _]. unfold seg_end, seg_pages. cbv zeta.
  destruct (align_down_spec (p_vaddr m ph) PAGE_SIZE) as [Hm Hb]; [unfold PAGE_SIZE in *; lia..|].
  fold (seg_start m ph) in Hm, Hb. rewrite (w64_id (p_vaddr m ph + _)) by (unfold PAGE_SIZE in *; lia).
  destruct (align_up_spec (p_vaddr m ph + p_memsz m ph) PAGE_SIZE) as [Hum Hub];
    [unfold PAGE_SIZE in *; lia..|].
  set (va := seg_start m ph) in *. set (ve := ALIGN_UP _ _) in *. unfold PAGE_SIZE in *.
  pose proof (Z.div_mod va 4096 ltac:(lia)). pose proof (Z.div_mod ve 4096 ltac:(lia)).
  rewrite w64_id by lia.
  assert (E : (ve - va) / 4096 = ve / 4096 - va / 4096).
  { replace (ve - va) with ((ve / 4096 - va / 4096) * 4096) by lia. by rewrite Z.div_mul. }
  rewrite E. split_and!; lia.
Qed.

(** Zeros, and [cnt] bytes copied into them. *)
Definition fill (m : memory) (base size dest src cnt : Z) : memory :=
  memcpy (memset m base 0 size) dest src cnt.

Lemma fill_load m base size dest src cnt x :
  base <= dest -> dest + cnt <= base + size -> 0 <= cnt ->
  (src + cnt <= base \/ base + size <= src) ->
  load8 (fill m base size dest src cnt) x =
    if (dest <=? x) && (x <? dest + cnt) then load8 m (src + (x - dest))
    else if (base <=? x) && (x <? base + size) then 0 else load8 m x.
Proof.
  intros H1 H2 H3 H4. unfold fill. rewrite memcpy_load by lia.
  destruct (Z.leb_spec dest x), (Z.ltb_spec x (dest + cnt)); cbn [andb]; rewrite memset_load; try done.
  destruct (Z.leb_spec base (src + (x - dest))), (Z.ltb_spec (src + (x - dest)) (base + size)); (done || lia).
Qed.

(** *** The frames of a segment *)

Definition run_pages (s : machine) (f n : Z) : list Z :=
  (fun i : nat => page_at s (f + Z.of_nat i)) <$> seq 0 (Z.to_nat n).

Lemma elem_of_run_pages s f n u :
  u ∈ run_pages s f n <-> exists g, f <= g < f + n /\ u = page_at s g.
Proof.
  unfold run_pages. rewrite list_elem_of_fmap. split.
  - intros (i & -> & Hi%elem_of_seq). exists (f + Z.of_nat i). split; [lia|done].
  - intros (g & Hg & ->). exists (Z.to_nat (g - f)). rewrite elem_of_seq. split; [f_equal; lia|lia].
Qed.

Lemma in_run_pages s f n a :
  in_pages (run_pages s f n) a <-> in_range (page_at s f) (n * PAGE_SIZE) a.
Proof.
  unfold in_pages. split.
  - intros (u & (g & Hg & ->)%elem_of_run_pages & Ha). unfold in_range, page_at, PAGE_SIZE in *. lia.
  - intros Ha. exists (page_at s (f + (a - page_at s f) / PAGE_SIZE)).
    rewrite elem_of_run_pages. unfold in_range, page_at, PAGE_SIZE in *.
    set (b := a - (hhdm_offset s + f * 4096)). pose proof (Z.div_mod b 4096 ltac:(lia)).
    pose proof (Z.mod_pos_bound b 4096 ltac:(lia)).
    split; [eexists; split; [|done]; lia|lia].
Qed.

(** A run and what is known of it. *)
Lemma wp_ran {St A} (m : M St A) Q s : wp m Q s -> wp m (fun a s' => m s = Ret a s' /\ Q a s') s.
Proof. unfold wp. by destruct (m s). Qed.

Section Segment.
Context {FA : FrameAlloc} {FL : FrameAllocLaws} {FR : FrameRunLaws}.

Lemma fresh_run s s1 c pm l f n :
  vctx_ok s c pm l -> fa_inv s1 -> hands_out_run fa_owned s f n s1 ->
  vctx_ok s1 c pm l /\ data_kept c pm l l s s1 /\
  (forall v, lookup s1 pm v = lookup s pm v) /\
  data_pages s1 c pm l (run_pages s f n) /\
  (forall u, u ∈ run_pages s f n -> ~ data_page s c pm l u).
Proof.
  intros Hok Hi1 Hout. pose proof (hands_out_run_grown _ _ _ _ Hout) as Hg.
  destruct (grown_page s s1 pm (vc_pt _ _ _ _ Hok) Hg) as (_ & Hnt & Hlk).
  assert (Hnew : forall u, u ∈ run_pages s f n -> ~ client_page s u).
  { intros u (g & Hgr & ->)%elem_of_run_pages (g' & Hg' & He). apply page_at_inj in He. subst g'.
    by apply (hr_new _ _ _ _ _ Hout g). }
  split; [by apply (vctx_ok_grown s)|]. split; [by apply data_kept_grown|].
  split_and!; [done| |intros u Hu (Hc & _); by apply (Hnew u)].
  apply Forall_forall. intros u Hu. split_and!.
  - apply elem_of_run_pages in Hu as (g & Hgr & ->). exists g.
    unfold page_at. rewrite (gw_hhdm _ _ Hg). split; [|done].
    apply (hr_owned _ _ _ _ _ Hout). by right.
  - apply Hnt. intros p Hp Hx. apply (Hnew u Hu). by apply (pt_client s pm (vc_pt _ _ _ _ Hok) p).
  - intros Hn. apply (Hnew u Hu). pose proof (vc_client _ _ _ _ Hok) as Hc.
    rewrite Forall_forall in Hc. by apply Hc.
Qed.
(** The file's bytes are in data pages; [m0] is the memory that still holds it. *)
Definition file_in (s : machine) (c pm : Z) (l : list region) (data len : Z) : Prop :=
  forall a, in_range data len a -> in_data s c pm l a.

Definition file_agree (m0 m : memory) (data len : Z) : Prop :=
  forall a, in_range data len a -> load8 m a = load8 m0 a.

Lemma file_kept c pm l l' s s' data len :
  data_kept c pm l l' s s' -> file_in s c pm l data len ->
  file_in s' c pm l' data len /\ file_agree (mem s) (mem s') data len.
Proof.
  intros Hk Hf. split; intros a Ha; by apply (data_kept_load8 c pm l l' s s' a Hk), Hf.
Qed.

Lemma pheader_agree m0 m data len ph :
  file_agree m0 m data len -> data <= ph -> ph + sizeof_elf_pheader <= data + len ->
  p_type m ph = p_type m0 ph /\ p_flags m ph = p_flags m0 ph /\ p_offset m ph = p_offset m0 ph /\
  p_vaddr m ph = p_vaddr m0 ph /\ p_filesz m ph = p_filesz m0 ph /\ p_memsz m ph = p_memsz m0 ph.
Proof.
  unfold sizeof_elf_pheader. intros Hf H1 H2.
  assert (Hn : forall k n, 0 <= k -> k + Z.of_nat n <= 56 -> loadn n m (ph + k) = loadn n m0 (ph + k)).
  { intros k n Hk Hkn. apply loadn_ext. intros a Ha. apply Hf. unfold in_range. lia. }
  unfold p_type, p_flags, p_offset, p_vaddr, p_filesz, p_memsz, load64, load32.
  pose proof (Hn 0 4%nat) as H0. rewrite Z.add_0_r in H0.
  split_and!; (apply H0 || apply Hn); lia.
Qed.

(** Why [load_segment] returns [false], and what it has done: the allocator refused the
    frames and nothing changed; or it gave them, the region was refused because another one
    is in the way or no frame is left, and the frames went back. *)
Definition not_loaded (s : machine) (c pm : Z) (l : list region) (m0 : memory) (ph : Z) (s' : machine) : Prop :=
  (fa_palloc (seg_pages m0 ph) false s = Ret NULL s /\ s' = s) \/
  (exists s1 f, fa_palloc (seg_pages m0 ph) false s = Ret (f * PAGE_SIZE) s1 /\
    vctx_ok s1 c pm l /\ data_kept c pm l l s s1 /\ (forall v, lookup s1 pm v = lookup s pm v) /\
    ((exists x, x ∈ l /\ clash (seg_start m0 ph) (seg_end m0 ph) x) \/ fa_full s1) /\
    takes_back_run fa_owned s1 f (seg_pages m0 ph) s').

(** The segment of header [ph] is region [y] of the context, its frames start at [f]. *)
Record segment_in (m0 : memory) (s s' : machine) (c pm : Z) (l : list region) (user : bool)
    (data ph : Z) (y : region) (f : Z) : Prop := SegmentIn {
  si_start : rg_start y = seg_start m0 ph;
  si_pages : rg_pages y = seg_pages m0 ph;
  si_flags : rg_flags y = seg_flags user m0 ph;
  si_data : forall g, f <= g < f + seg_pages m0 ph -> data_page s' c pm l (page_at s' g);
  si_bytes : forall k, 0 <= k < seg_pages m0 ph * PAGE_SIZE ->
      load8 (mem s') (page_at s' f + k) = seg_byte m0 data ph k;
  si_lookup : forall v, seg_start m0 ph <= v < seg_end m0 ph ->
      lookup s' pm v =
        Some (Z.lor ((f + (v - seg_start m0 ph) / PAGE_SIZE) * PAGE_SIZE) (seg_flags user m0 ph)) \/
      (lookup s' pm v = lookup s pm v /\ (linked s pm -> fa_full s')) }.

Definition segment_loaded (s : machine) (c pm : Z) (l : list region) (user : bool) (data ph : Z)
    (s' : machine) : Prop :=
  exists y f, (forall x, x ∈ l -> ~ clash (seg_start (mem s) ph) (seg_end (mem s) ph) x) /\
    vctx_ok s' c pm (y :: l) /\ data_kept c pm l (y :: l) s s' /\
    segment_in (mem s) s s' c pm (y :: l) user data ph y f /\
    ~ fa_full s /\ (linked s pm -> linked s' pm) /\
    forall v, 0 <= v < 2 ^ 48 -> ~ (seg_start (mem s) ph <= v < seg_end (mem s) ph) ->
      lookup s' pm v = lookup s pm v.
Lemma region_lookups s s' pm va n f fl es :
  va mod PAGE_SIZE = 0 -> 0 <= va -> va + n * PAGE_SIZE <= 2 ^ 48 -> 0 <= f ->
  (f + n) * PAGE_SIZE <= 2 ^ 64 -> length es = Z.to_nat n -> pages_set s s' pm va es ->
  given_pages (f * PAGE_SIZE) fl es ->
  (forall v, va <= v < va + n * PAGE_SIZE ->
    lookup s' pm v = Some (Z.lor ((f + (v - va) / PAGE_SIZE) * PAGE_SIZE) fl) \/
    (lookup s' pm v = lookup s pm v /\ None ∈ es)) /\
  (forall v, 0 <= v < 2 ^ 48 -> ~ (va <= v < va + n * PAGE_SIZE) -> lookup s' pm v = lookup s pm v).
Proof.
  intros Hm H0 Hb Hf Hfb Hlen [Hin Hout] Hgp. split.
  - intros v Hv. destruct (page_of_inside va n v Hm Hv) as [Hi Hp].
    set (i := Z.to_nat ((v - va) / PAGE_SIZE)) in *.
    destruct (lookup_lt_is_Some_2 es i ltac:(lia)) as [o Ho].
    rewrite !(lookup_page _ pm v _ Hp), (Hin i o Ho).
    destruct (Hgp i o Ho) as [->| ->]; [right; split; [done|by apply list_elem_of_lookup_2 in Ho]|left].
    assert (Hd : 0 <= (v - va) / PAGE_SIZE) by (apply Z.div_pos; unfold PAGE_SIZE; lia).
    assert (Hdn : (v - va) / PAGE_SIZE < n) by lia.
    unfold i. rewrite Z2Nat.id by done. set (d := (v - va) / PAGE_SIZE) in *. clearbody d.
    unfold PAGE_SIZE in *. rewrite !w64_id; rewrite ?w64_id; try lia. do 2 f_equal. lia.
  - intros v Hv Hno. apply Hout. intros i Hi. apply (page_of_outside va n v i); (done || lia).
Qed.

Section Load.
Context (s : machine) (c pm : Z) (l : list region) (fuel : nat) (user : bool) (data len ph : Z).
Hypothesis (Hok : vctx_ok s c pm l) (Hfuel : (length l < fuel)%nat).
Hypothesis (Hfile : file_in s c pm l data len) (Hd0 : 0 <= data) (Hd1 : data + len < 2 ^ 64).
Hypothesis (Hph0 : data <= ph) (Hph1 : ph + sizeof_elf_pheader <= data + len).
Hypothesis (Hseg : segment_ok (mem s) len ph).

Let va := seg_start (mem s) ph.
Let n := seg_pages (mem s) ph.

(** The frames [f ..] of state [s2], new since [s]. *)
Section Frames.
Context (s2 : machine) (l2 : list region) (f : Z).
Hypothesis (Hok2 : vctx_ok s2 c pm l2) (Hk2 : data_kept c pm l l2 s s2).
Hypothesis (HW : data_pages s2 c pm l2 (run_pages s2 f n)).
Hypothesis (Hnew : forall u, u ∈ run_pages s2 f n -> ~ data_page s c pm l u).
Hypothesis (Hf0 : 0 < f) (Hf1 : (f + n) * PAGE_SIZE <= hhdm_offset s2).
Hypothesis (Hf2 : hhdm_offset s2 + (f + n) * PAGE_SIZE <= 2 ^ 64).

Let base := page_at s2 f.
Let dest := base + (p_vaddr (mem s) ph - va).
Let src := data + p_offset (mem s) ph.
Let cnt := p_filesz (mem s) ph.
Let m := fill (mem s2) base (n * PAGE_SIZE) dest src cnt.

Lemma segment_bounds :
  0 < n /\ va mod PAGE_SIZE = 0 /\ PAGE_SIZE <= va /\ va + n * PAGE_SIZE <= 2 ^ 48 /\
  base <= dest < base + PAGE_SIZE /\ dest + cnt <= base + n * PAGE_SIZE /\ 0 <= cnt /\
  data <= src /\ src + cnt <= data + len.
Proof.
  destruct (segment_layout _ _ _ Hseg) as (Hm & Hlow & Hva & Hn & He & Hhi). unfold seg_end in He, Hhi.
  fold va n in Hm, Hlow, Hva, Hn, He, Hhi. destruct Hseg as [_ [_ Hsz] _ Hof].
  assert (Hoff : 0 <= p_offset (mem s) ph) by apply load64_range.
  assert (Hfs : 0 <= p_filesz (mem s) ph) by apply load64_range.
  unfold dest, src, cnt. split_and!; (done || lia).
Qed.

Lemma file_not_run a : in_range data len a -> ~ in_range base (n * PAGE_SIZE) a.
Proof.
  intros Ha Hin. apply in_run_pages in Hin as (u & Hu & Hua).
  destruct (Hfile a Ha) as (w & Hw & Hwa). apply (Hnew u Hu).
  pose proof HW as HW'. unfold data_pages in HW'. rewrite Forall_forall in HW'.
  destruct (HW' u Hu) as (Huc & _). pose proof (dk_page _ _ _ _ _ _ Hk2 w Hw) as (Hwc & _).
  by rewrite (client_page_disjoint s2 u w a).
Qed.

(** The copy does not read what it writes. *)
Lemma file_apart : src + cnt <= base \/ base + n * PAGE_SIZE <= src.
Proof.
  destruct segment_bounds as (Hn & _ & _ & _ & _ & _ & Hc & Hs0 & Hs1).
  pose proof (file_not_run src) as H1. pose proof (file_not_run base) as H2.
  pose proof (file_not_run (data + len - 1)) as H3.
  unfold in_range, PAGE_SIZE, sizeof_elf_pheader in *. lia.
Qed.

Lemma fill_bytes :
  agree_outside (in_pages (run_pages s2 f n)) (mem s2) m /\
  forall k, 0 <= k < n * PAGE_SIZE -> load8 m (base + k) = seg_byte (mem s) data ph k.
Proof.
  destruct segment_bounds as (Hn & _ & _ & _ & Hd & Hde & Hc & Hs0 & Hs1).
  pose proof (fun x => fill_load (mem s2) base (n * PAGE_SIZE) dest src cnt x
    ltac:(lia) Hde Hc file_apart) as Hload. fold m in Hload. split.
  - intros x Hx. rewrite in_run_pages in Hx. fold base in Hx. unfold in_range in Hx. rewrite Hload.
    rewrite (proj2 (andb_false_iff (dest <=? x) _)) by lia.
    by rewrite (proj2 (andb_false_iff (base <=? x) _)) by lia.
  - intros k Hk. rewrite Hload. unfold seg_byte. cbv zeta. fold va cnt src.
    rewrite (proj2 (andb_true_iff (base <=? base + k) _)) by lia.
    replace (dest <=? base + k) with (p_vaddr (mem s) ph - va <=? k) by (unfold dest; lia).
    replace (base + k <? dest + cnt) with (k <? p_vaddr (mem s) ph - va + cnt) by (unfold dest; lia).
    destruct (_ && _) eqn:Hin; [|done]. bool_simpl.
    replace (base + k - dest) with (k - (p_vaddr (mem s) ph - va)) by (unfold dest; lia).
    destruct (file_kept _ _ _ _ _ _ _ _ Hk2 Hfile) as [_ Hag].
    apply Hag. unfold in_range. lia.
Qed.

Lemma fill_segment :
  vctx_ok (set_mem m s2) c pm l2 /\ data_kept c pm l l2 s (set_mem m s2) /\
  (forall v, lookup (set_mem m s2) pm v = lookup s2 pm v) /\
  (forall g, f <= g < f + n -> data_page (set_mem m s2) c pm l2 (page_at s2 g)) /\
  (linked s2 pm -> linked (set_mem m s2) pm).
Proof.
  destruct fill_bytes as [Hm _].
  destruct (data_writes s2 c pm l2 _ m Hok2 HW Hm) as [Hok3 Hlk].
  pose proof (data_kept_writes c pm l l2 s s2 _ m Hk2 Hok2 HW Hnew Hm) as Hk3.
  pose proof HW as HW'. unfold data_pages in HW'. rewrite Forall_forall in HW'.
  split; [exact Hok3|]. split; [exact Hk3|]. split; [exact Hlk|]. split.
  - intros g Hg. apply (data_page_writes s2 c pm l2 _ m _ Hok2 HW Hm). apply HW', elem_of_run_pages. by exists g.
  - apply (client_writes_linked s2 m (run_pages s2 f n) pm (vc_pt _ _ _ _ Hok2)); [|exact Hm].
    apply Forall_forall. intros u Hu. by destruct (HW' u Hu) as (? & ? & _).
Qed.

(** The end of [load_segment], in one step. *)
Lemma copy_run :
  (s <- get ;; memset_at (HIGHER_HALF (hhdm_offset s) (f * PAGE_SIZE)) 0 (w64 (n * PAGE_SIZE)) ;;;
   s <- get ;; memcpy_at (w64 (HIGHER_HALF (hhdm_offset s) (f * PAGE_SIZE) + w64 (p_vaddr (mem s) ph - va)))
     (w64 (data + p_offset (mem s) ph)) (p_filesz (mem s) ph) ;;;
   ret true) s2 = Ret true (set_mem m s2).
Proof.
  destruct segment_bounds as (Hn & _ & Hlow & Hhi & Hd & Hde & Hc & Hs0 & Hs1).
  unfold dest in Hd. unfold base, page_at, PAGE_SIZE in *.
  unfold bind, get, memset_at, memcpy_at, modify, ret. cbn [hhdm_offset mem set_mem].
  rewrite higher_half_phys by lia. rewrite (w64_id (n * 4096)) by lia.
  set (m1 := memset _ _ _ _).
  assert (Hag : file_agree (mem s) m1 data len).
  { intros a Ha. unfold m1. rewrite memset_agree by (by apply file_not_run).
    destruct (file_kept _ _ _ _ _ _ _ _ Hk2 Hfile) as [_ Hag]. by apply Hag. }
  destruct (pheader_agree _ _ data len ph Hag Hph0 Hph1) as (_ & _ & -> & -> & -> & _).
  rewrite (w64_id (p_vaddr (mem s) ph - va)) by lia. fold src. rewrite (w64_id src) by lia.
  rewrite w64_id by lia. done.
Qed.
End Frames.

(** From the state [s1] with the new frames on: [vadd] succeeded and the frames are filled. *)
Lemma segment_finish s1 s2 f r :
  vctx_ok s1 c pm l -> data_kept c pm l l s s1 -> (forall v, lookup s1 pm v = lookup s pm v) ->
  (linked s pm -> linked s1 pm) -> ~ fa_full s -> data_pages s1 c pm l (run_pages s f n) ->
  (forall u, u ∈ run_pages s f n -> ~ data_page s c pm l u) ->
  0 < f -> (f + n) * PAGE_SIZE <= hhdm_offset s -> hhdm_offset s + (f + n) * PAGE_SIZE <= 2 ^ 64 ->
  vadd_post s1 c pm l va (f * PAGE_SIZE) n (segment_flags user (p_flags (mem s) ph)) r s2 ->
  r <> NULL ->
  wp (s <- get ;; memset_at (HIGHER_HALF (hhdm_offset s) (f * PAGE_SIZE)) 0 (w64 (n * PAGE_SIZE)) ;;;
      s <- get ;; memcpy_at (w64 (HIGHER_HALF (hhdm_offset s) (f * PAGE_SIZE) + w64 (p_vaddr (mem s) ph - va)))
        (w64 (data + p_offset (mem s) ph)) (p_filesz (mem s) ph) ;;;
      ret true) (fun r s' => r = true /\ segment_loaded s c pm l user data ph s') s2.
Proof.
  intros Hok1 Hk1 Hlk1 Hln1 Hroom HW1 Hnew Hf0 Hf1 Hf2 Hpost Hr.
  destruct (data_kept_vadd s1 s2 c pm l va _ n _ r Hpost Hr)
    as (fn & _ & Hno & Hok2 & Hk2 & es & Hlen & Hps & Hgp & Hln2).
  rewrite segment_flags_rights in *. fold (seg_flags user (mem s) ph) in *. set (y := Region _ _ _ _) in *.
  pose proof (data_kept_trans _ _ _ _ _ _ _ _ Hk1 Hk2) as Hk.
  assert (Hh2 : hhdm_offset s2 = hhdm_offset s) by apply Hk.
  assert (Er : run_pages s2 f n = run_pages s f n) by (unfold run_pages, page_at; by rewrite Hh2).
  assert (HW : data_pages s2 c pm (y :: l) (run_pages s2 f n)).
  { rewrite Er. eapply Forall_impl; [exact HW1|]. intros u. apply (dk_page _ _ _ _ _ _ Hk2). }
  rewrite <-Er in Hnew. rewrite <-Hh2 in Hf1, Hf2.
  destruct (fill_segment s2 (y :: l) f Hok2 Hk HW Hnew) as (Hok3 & Hk3 & Hlk3 & Hdp & Hln3).
  destruct (fill_bytes s2 (y :: l) f Hk HW Hnew) as [_ Hby].
  unfold wp. rewrite (copy_run s2 (y :: l) f Hk HW Hnew Hf0 Hf1 Hf2). split; [done|].
  set (m := fill _ _ _ _ _ _) in *. exists y, f.
  destruct segment_layout with (1 := Hseg) as (Hva & Hlow & _ & _ & _ & Hhi).
  destruct (region_lookups s1 s2 pm va n f _ es Hva ltac:(unfold PAGE_SIZE in *; lia) Hhi ltac:(lia)
    ltac:(unfold PAGE_SIZE in *; lia) Hlen Hps Hgp) as [Hin Hout].
  split_and!; try done; [split; try done| |].
  - intros v Hv. rewrite Hlk3, <-(Hlk1 v). destruct (Hin v Hv) as [|[? Hnone]]; [by left|right].
    split; [done|]. intros Hl. apply (fa_full_same s2); [done|]. by apply Hln2; [apply Hln1|].
  - intros Hl. by apply Hln3, Hln2, Hln1.
  - intros v Hv Hnv. rewrite Hlk3, <-(Hlk1 v). by apply Hout.
Qed.

Lemma load_segment_spec :
  wp (load_segment fuel user data c ph) (fun r s' =>
    (r = false /\ not_loaded s c pm l (mem s) ph s') \/
    (r = true /\ segment_loaded s c pm l user data ph s')) s.
Proof.
  destruct (segment_layout _ _ _ Hseg) as (Hva & Hlow & _ & Hn & _ & Hhi).
  unfold seg_end in Hhi. fold va n in Hva, Hlow, Hn, Hhi.
  unfold load_segment. wp_step. wp_step. cbv beta zeta.
  fold va n.
  wp_step. eapply wp_mono; [apply wp_ran; by apply (fa_palloc_run s n false); [apply Hok|]|]. cbv beta.
  intros r s1 [Hrun [[-> ->]|(f & -> & Hi1 & Hout & Hcnt)]];
    [rewrite Z.eqb_refl; wp_step; left; split; [done|by left]|].
  pose proof (fa_free_nonneg s1 Hi1) as Hge. pose proof (grown_linked _ _ pm (vc_pt _ _ _ _ Hok) (hands_out_run_grown _ _ _ _ Hout)) as Hln1.
  change (frame_ptr s false f) with (f * PAGE_SIZE).
  destruct (fresh_run s s1 c pm l f n Hok Hi1 Hout) as (Hok1 & Hk1 & Hlk1 & HW1 & Hnew).
  assert (Hf1 : forall g, f <= g < f + n -> fa_owned s1 g)
    by (intros g Hg; apply (hr_owned _ _ _ _ _ Hout); by right).
  destruct (fa_bounds s1 f Hi1 (Hf1 f ltac:(lia))) as (Hf0 & _).
  destruct (fa_bounds s1 (f + n - 1) Hi1 (Hf1 (f + n - 1) ltac:(lia))) as (_ & Hfh & _ & Hfb).
  replace (f + n - 1 + 1) with (f + n) in Hfh, Hfb by lia. rewrite (dk_hhdm _ _ _ _ _ _ Hk1) in Hfh, Hfb.
  rewrite (proj2 (Z.eqb_neq (f * PAGE_SIZE) NULL)) by (unfold PAGE_SIZE; lia).
  pose proof (vadd_spec fuel s1 c pm l va (f * PAGE_SIZE) n (segment_flags user (p_flags (mem s) ph))
    Hok1 Hfuel ltac:(unfold PAGE_SIZE in *; lia)) as Hv.
  rewrite (align_down_id va ltac:(unfold PAGE_SIZE in *; lia) Hva) in Hv.
  rewrite (align_down_id (f * PAGE_SIZE) ltac:(unfold PAGE_SIZE in *; lia) (Z.mod_mul f PAGE_SIZE ltac:(done)))
    in Hv. specialize (Hv Hhi).
  wp_step. eapply wp_mono; [exact Hv|]. clear Hv. cbv beta. intros r s2 Hpost.
  destruct (Z.eqb_spec r NULL) as [->|Hr].
  - destruct Hpost as [(_ & -> & Hwhy)|(_ & Hr & _)]; [|unfold PAGE_SIZE in *; lia].
    wp_step. eapply wp_mono; [exact (fa_pfree_run s1 f n false Hi1 Hn Hf1)|]. cbv beta.
    intros _ s2 Ht. wp_step. left. split; [done|]. right. by exists s1, f.
  - eapply wp_mono; [apply (segment_finish s1 s2 f r); try done; unfold fa_full; lia|]. by right.
Qed.
End Load.
End Segment.
