(* ===== verification/ElfProps.v ===== *)
(** * Loading an executable: all segments

    [load_segments] loads the segments in the order of their headers; the theorem about
    [elf_load] collects what [load_segment_spec] says of each. *)

From S2P Require Export ElfSpec.

Definition pheader (m : memory) (data i : Z) : Z := data + e_phoff m data + i * sizeof_elf_pheader.
Definition loadable (m : memory) (data i : Z) : Prop := p_type m (pheader m data i) = PT_LOAD.

(** An executable of [len] bytes at [data] that the loader can serve. *)
Record elf_ok (m : memory) (data len : Z) : Prop := ElfOk {
  eo_place : 0 < data /\ data + len < 2 ^ 64;
  eo_header : 64 <= len /\ e_phoff m data + e_phnum m data * sizeof_elf_pheader <= len;
  eo_ident : e_magic m data = ELF_MAGIC /\ e_class m data = 2 /\ e_type m data = 2;
  eo_segments : forall i, 0 <= i < e_phnum m data -> loadable m data i ->
      segment_ok m len (pheader m data i) }.

Section Props.
Context {FA : FrameAlloc} {FL : FrameAllocLaws} {FR : FrameRunLaws}.

(** ** A segment, seen from earlier and from later states *)

Lemma segment_agree m0 m data len ph :
  file_agree m0 m data len -> data <= ph -> ph + sizeof_elf_pheader <= data + len ->
  segment_ok m0 len ph ->
  segment_ok m len ph /\ seg_start m ph = seg_start m0 ph /\ seg_pages m ph = seg_pages m0 ph /\
  seg_end m ph = seg_end m0 ph /\ (forall user, seg_flags user m ph = seg_flags user m0 ph) /\
  forall k, seg_byte m data ph k = seg_byte m0 data ph k.
Proof.
  intros Hf H1 H2 [G1 G2 G3 G4].
  destruct (pheader_agree m0 m data len ph Hf H1 H2) as (_ & E2 & E3 & E4 & E5 & E6).
  assert (Es : seg_start m ph = seg_start m0 ph) by (unfold seg_start; by rewrite E4).
  assert (Ep : seg_pages m ph = seg_pages m0 ph) by (unfold seg_pages; by rewrite E4, E6, Es).
  split_and!; try done; [by split; rewrite ?E3, ?E4, ?E5, ?E6|by unfold seg_end; rewrite Es, Ep
    |intros user; unfold seg_flags; by rewrite E2|].
  intros k. unfold seg_byte. cbv zeta. rewrite E3, E4, E5, Es.
  destruct (_ && _) eqn:Hin; [|done]. bool_simpl. apply Hf. unfold in_range.
  assert (0 <= p_offset m0 ph) by apply load64_range. lia.
Qed.

(** What happens later to other data pages and other addresses does not concern it. *)
Lemma segment_in_kept m0 s0 s s' c pm l1 l2 user data ph y f :
  segment_in m0 s0 s c pm l1 user data ph y f -> data_kept c pm l1 l2 s s' -> ~ fa_full s ->
  (forall v, seg_start m0 ph <= v < seg_end m0 ph -> lookup s' pm v = lookup s pm v) ->
  segment_in m0 s0 s' c pm l2 user data ph y f.
Proof.
  intros [H1 H2 H3 H4 H5 H6] [Hh Hp Hb] Hroom Hl.
  assert (Hpg : forall g, page_at s' g = page_at s g) by (intros g; unfold page_at; by rewrite Hh).
  split; try done.
  - intros g Hg. rewrite Hpg. by apply Hp, H4.
  - intros k Hk. rewrite Hpg, <-H5 by done.
    assert (Hg : f <= f + k / PAGE_SIZE < f + seg_pages m0 ph).
    { pose proof (Z.div_lt_upper_bound k PAGE_SIZE (seg_pages m0 ph) ltac:(done) ltac:(lia)).
      pose proof (Z.div_pos k PAGE_SIZE ltac:(lia) ltac:(done)). lia. }
    apply (Hb _ (H4 _ Hg)). unfold in_range, page_at, PAGE_SIZE.
    pose proof (Z.div_mod k 4096 ltac:(lia)). pose proof (Z.mod_pos_bound k 4096 ltac:(lia)). lia.
  - intros v Hv. rewrite Hl by done. destruct (H6 v Hv) as [|[? Hf]]; [by left|right].
    split; [done|]. by intros ?%Hf.
Qed.

Lemma segment_region_end m0 len s s' c pm l user data ph y f :
  segment_ok m0 len ph -> segment_in m0 s s' c pm l user data ph y f -> rg_end y = seg_end m0 ph.
Proof.
  intros Hseg [H1 H2 _ _ _ _]. destruct (segment_layout _ _ _ Hseg) as (_ & Hlow & _ & Hn & _ & Hhi).
  unfold rg_end. rewrite H1, H2. unfold seg_end, PAGE_SIZE in *. rewrite (w64_id (_ * _)) by lia.
  apply w64_id. lia.
Qed.

(** ** The loop *)

Section Loop.
Context (s0 : machine) (c pm : Z) (l0 : list region) (fuel : nat) (user : bool) (data len : Z).
Let m0 := mem s0.
Let header := pheader m0 data.

(** The state [s] after the first [i] headers; [new] are the regions added. *)
Record loaded_upto (i : Z) (s : machine) (new : list region) : Prop := LoadedUpto {
  lu_ctx : vctx_ok s c pm (new ++ l0);
  lu_kept : data_kept c pm l0 (new ++ l0) s0 s;
  lu_count : Z.of_nat (length new) <= i;
  lu_segments : forall j, 0 <= j < i -> loadable m0 data j -> exists y f, y ∈ new /\
      segment_in m0 s0 s c pm (new ++ l0) user data (header j) y f;
  lu_apart : forall j x, 0 <= j < i -> loadable m0 data j -> x ∈ l0 ->
      ~ clash (seg_start m0 (header j)) (seg_end m0 (header j)) x;
  lu_lookup : forall v, 0 <= v < 2 ^ 48 ->
      (forall j, 0 <= j < i -> loadable m0 data j ->
         ~ (seg_start m0 (header j) <= v < seg_end m0 (header j))) ->
      lookup s pm v = lookup s0 pm v;
  lu_linked : linked s0 pm -> linked s pm }.

Hypothesis (Hfile : file_in s0 c pm l0 data len) (Helf : elf_ok m0 data len).

Lemma header_place i :
  0 <= i < e_phnum m0 data -> data <= header i /\ header i + sizeof_elf_pheader <= data + len.
Proof.
  intros Hi. destruct Helf as [_ [_ Hh] _ _]. unfold header, pheader, sizeof_elf_pheader in *.
  assert (0 <= e_phoff m0 data) by apply load64_range. nia.
Qed.

Lemma elf_header_agree m :
  file_agree m0 m data len ->
  e_phnum m data = e_phnum m0 data /\ e_phoff m data = e_phoff m0 data /\ e_entry m data = e_entry m0 data.
Proof.
  intros Hf. destruct Helf as [_ [Hl _] _ _].
  assert (Hn : forall k n, 0 <= k -> k + Z.of_nat n <= 64 -> loadn n m (data + k) = loadn n m0 (data + k)).
  { intros k n Hk Hkn. apply loadn_ext. intros a Ha. apply Hf. unfold in_range. lia. }
  unfold e_phnum, e_phoff, e_entry, load64, load16. split_and!; apply Hn; lia.
Qed.
Lemma loaded_start : vctx_ok s0 c pm l0 -> loaded_upto 0 s0 [].
Proof. intros Hok. split; try done; intros; lia. Qed.

Lemma loaded_skip i s new :
  loaded_upto i s new -> ~ loadable m0 data i -> loaded_upto (i + 1) s new.
Proof.
  intros [H1 H2 H3 H4 H5 H6 H7] Hn.
  assert (Hj : forall j, 0 <= j < i + 1 -> loadable m0 data j -> 0 <= j < i).
  { intros j Hj Hl. destruct (decide (j = i)) as [->|]; [done|lia]. }
  split; try done; [lia|intros j Hj' Hl; by apply H4, Hl; apply Hj|intros j x Hj' Hl; by apply H5, Hl; apply Hj|].
  intros v Hv Hno. apply H6; [done|]. intros j Hj' Hl. apply Hno; [lia|done].
Qed.

Section Step.
Context (i : Z) (s s' : machine) (new : list region) (y : region) (f : Z).
Hypothesis (Hup : loaded_upto i s new) (Hi : 0 <= i < e_phnum m0 data) (Hl : loadable m0 data i).
Let ph := header i.
Hypothesis (Hno : forall x, x ∈ new ++ l0 -> ~ clash (seg_start m0 ph) (seg_end m0 ph) x).

(** No address is in the new segment and in an earlier one. *)
Lemma earlier_apart j v :
  0 <= j < i -> loadable m0 data j -> seg_start m0 (header j) <= v < seg_end m0 (header j) ->
  ~ (seg_start m0 ph <= v < seg_end m0 ph).
Proof.
  intros Hj Hlj Hv Hvi. destruct (lu_segments _ _ _ Hup j Hj Hlj) as (x & g & Hx & Hin).
  pose proof (eo_segments _ _ _ Helf j ltac:(lia) Hlj) as Hsj.
  pose proof (Hno x ltac:(apply elem_of_app; by left)) as Hc.
  pose proof (no_clash_disjoint _ _ x v Hc Hvi) as Hd. apply Hd.
  rewrite (segment_region_end _ _ _ _ _ _ _ _ _ _ _ _ Hsj Hin), (si_start _ _ _ _ _ _ _ _ _ _ _ Hin).
  exact Hv.
Qed.

Lemma new_lookup v : seg_start m0 ph <= v < seg_end m0 ph -> lookup s pm v = lookup s0 pm v.
Proof.
  intros Hv. pose proof (eo_segments _ _ _ Helf i Hi Hl) as Hsi.
  destruct (segment_layout _ _ _ Hsi) as (_ & Hlow & _ & _ & _ & Hhi). fold header ph in Hlow, Hhi.
  apply (lu_lookup _ _ _ Hup); [unfold PAGE_SIZE in Hlow; lia|].
  intros j Hj Hlj Hvj. by apply (earlier_apart j v).
Qed.

Hypothesis (Hctx : vctx_ok s' c pm (y :: new ++ l0)).
Hypothesis (Hkept : data_kept c pm (new ++ l0) (y :: new ++ l0) s s').
Hypothesis (Hin : segment_in m0 s s' c pm (y :: new ++ l0) user data ph y f).
Hypothesis (Hroom : ~ fa_full s) (Hln : linked s pm -> linked s' pm).
Hypothesis (Hout : forall v, 0 <= v < 2 ^ 48 -> ~ (seg_start m0 ph <= v < seg_end m0 ph) ->
  lookup s' pm v = lookup s pm v).

Lemma loaded_step : loaded_upto (i + 1) s' (y :: new).
Proof.
  pose proof Hup as [H1 H2 H3 H4 H5 H6 H7]. split; [done|by apply (data_kept_trans _ _ _ (new ++ l0) _ _ s)|cbn; lia|..].
  - intros j Hj Hlj. destruct (decide (j = i)) as [->|Hne].
    + exists y, f. split; [apply elem_of_cons; by left|]. destruct Hin as [E1 E2 E3 E4 E5 E6].
      split; try done. intros v Hv. rewrite <-(new_lookup v) by done.
      destruct (E6 v Hv) as [|[? Hf]]; [by left|right]. split; [done|]. by intros ?%H7%Hf.
    + destruct (H4 j ltac:(lia) Hlj) as (x & g & Hx & Hxin). exists x, g.
      split; [apply elem_of_cons; by right|]. apply (segment_in_kept _ _ s _ _ _ (new ++ l0)); try done.
      intros v Hv. apply Hout; [|by apply (earlier_apart j); [lia|..]].
      destruct (segment_layout _ _ _ (eo_segments _ _ _ Helf j ltac:(lia) Hlj)) as (_ & Hlow & _ & _ & _ & Hhi).
      fold header in Hlow, Hhi. unfold PAGE_SIZE in Hlow. lia.
  - intros j x Hj Hlj Hx. destruct (decide (j = i)) as [->|Hne].
    + apply Hno, elem_of_app. by right.
    + by apply H5; [lia|..].
  - intros v Hv Hnv. rewrite Hout by (done || by apply Hnv; [lia|]).
    apply H6; [done|]. intros j Hj Hlj. apply Hnv; [lia|done].
  - by intros ?%H7%Hln.
Qed.
End Step.

(** A round of the loop. *)
Lemma load_round i s new :
  loaded_upto i s new -> 0 <= i < e_phnum m0 data -> loadable m0 data i ->
  (length (new ++ l0) < fuel)%nat ->
  wp (load_segment fuel user data c (header i)) (fun r s' =>
    (r = false /\ not_loaded s c pm (new ++ l0) m0 (header i) s') \/
    (r = true /\ exists y, loaded_upto (i + 1) s' (y :: new))) s.
Proof.
  intros Hup Hi Hl Hf. destruct (header_place i Hi) as [Hp0 Hp1].
  destruct (file_kept _ _ _ _ _ _ _ _ (lu_kept _ _ _ Hup) Hfile) as [Hfile' Hag].
  pose proof (eo_place _ _ _ Helf) as [Hd0 Hd1].
  destruct (segment_agree m0 (mem s) data len (header i) Hag Hp0 Hp1 (eo_segments _ _ _ Helf i Hi Hl))
    as (Hseg & Es & Ep & Ee & Ef & Eb).
  eapply wp_mono; [apply (load_segment_spec s c pm (new ++ l0) fuel user data len (header i)
    (lu_ctx _ _ _ Hup) Hf Hfile' ltac:(lia) Hd1 Hp0 Hp1 Hseg)|].
  unfold not_loaded. rewrite Es, Ee, Ep.
  intros r s' [?|(-> & y & f & Hno & Hctx & Hk & [F1 F2 F3 F4 F5 F6] & Hroom & Hln & Hout)]; [by left|right].
  split; [done|]. exists y. rewrite Es, Ee in *. rewrite Ep in *.
  apply (loaded_step i s s' new y f); try done.
  split; [congruence|congruence|by rewrite <-Ef|done| |].
  - intros k Hk'. rewrite <-Eb. by apply F5.
  - intros v Hv. rewrite <-Ef. by apply F6.
Qed.

(** What the loop leaves behind. *)
Definition segments_post (r : bool) (s' : machine) : Prop :=
  (r = true /\ exists new, loaded_upto (e_phnum m0 data) s' new) \/
  (r = false /\ exists i s1 new, 0 <= i < e_phnum m0 data /\ loaded_upto i s1 new /\
     loadable m0 data i /\ not_loaded s1 c pm (new ++ l0) m0 (header i) s').

Lemma load_segments_spec rounds i s new :
  loaded_upto i s new -> 0 <= i <= e_phnum m0 data -> e_phnum m0 data - i < Z.of_nat rounds ->
  Z.of_nat (length l0) + e_phnum m0 data <= Z.of_nat fuel ->
  wp (load_segments rounds fuel user data c (data + e_phoff m0 data) i) segments_post s.
Proof.
  revert i s new. induction rounds as [|rounds IH]; intros i s new Hup Hi Hr Hf; [lia|].
  cbn [load_segments]. wp_step. wp_step. cbv beta.
  destruct (file_kept _ _ _ _ _ _ _ _ (lu_kept _ _ _ Hup) Hfile) as [Hfile' Hag].
  destruct (elf_header_agree _ Hag) as (-> & _ & _).
  destruct (Z.ltb_spec i (e_phnum m0 data)) as [Hlt|Hge]; cbn [negb].
  2: { wp_step. left. split; [done|]. exists new. by replace (e_phnum m0 data) with i by lia. }
  destruct (header_place i ltac:(lia)) as [Hp0 Hp1]. pose proof (eo_place _ _ _ Helf) as [Hd0 Hd1].
  change (data + e_phoff m0 data + i * sizeof_elf_pheader) with (header i).
  unfold sizeof_elf_pheader in Hp1. rewrite (w64_id (header i)) by lia.
  destruct (pheader_agree m0 (mem s) data len (header i) Hag Hp0 Hp1) as (-> & _).
  assert (Hw : w16 (i + 1) = i + 1).
  { unfold w16. apply Z.mod_small. pose proof (loadn_range 2 m0 (data + 56)). unfold e_phnum, load16 in *. lia. }
  rewrite Hw. destruct (Z.eqb_spec (p_type m0 (header i)) PT_LOAD) as [Hl|Hnl]; cbn [negb]; wp_step.
  - eapply wp_mono; [apply (load_round i s new Hup ltac:(lia) Hl)|].
    { rewrite length_app. pose proof (lu_count _ _ _ Hup). lia. }
    cbv beta. intros r s' [[-> Hn]|(-> & y & Hup')].
    + wp_step. right. split; [done|]. exists i, s, new. split; [lia|]. by split.
    + apply (IH _ _ _ Hup'); lia.
  - wp_step. apply (IH _ _ new (loaded_skip i s new Hup Hnl)); lia.
Qed.
End Loop.
(** C25: [elf_load] of an executable whose segments lie in the lower half above the first
    page, and whose bytes lie in data pages: either it returns the entry point, and every
    loadable segment is a region of the context, apart from the regions there were, whose
    frames hold the file's bytes with zeros around them and are mapped with the rights of
    its header (writable with PF_W, executable with PF_X, for user code as asked; in linked
    page tables a page is left as it was only when no frame is left), no other
    address below 2^48 translates differently and no other data page changes; or it
    returns 0, because a loadable segment got no frames, or met another region, or got no
    frame for its region's node, with the segments before it loaded and its frames given
    back. *)
Theorem elf_load_correct fuel user data len s c pm l :
  vctx_ok s c pm l -> c <> NULL -> elf_ok (mem s) data len -> file_in s c pm l data len ->
  Z.of_nat (length l) + e_phnum (mem s) data <= Z.of_nat fuel ->
  wp (elf_load fuel user data c) (fun r s' =>
    (r = e_entry (mem s) data /\
       exists new, loaded_upto s c pm l user data (e_phnum (mem s) data) s' new) \/
    (r = 0 /\ exists i s1 new, 0 <= i < e_phnum (mem s) data /\
       loaded_upto s c pm l user data i s1 new /\ loadable (mem s) data i /\
       not_loaded s1 c pm (new ++ l) (mem s) (pheader (mem s) data i) s')) s.
Proof.
  intros Hok Hc Helf Hfile Hf. destruct (eo_place _ _ _ Helf) as [Hd0 Hd1].
  unfold elf_load. rewrite (proj2 (Z.eqb_neq data NULL)), (proj2 (Z.eqb_neq c NULL)) by (done || lia).
  cbn [negb assert]. do 6 wp_step. cbv beta.
  destruct (eo_ident _ _ _ Helf) as (-> & -> & ->). rewrite !Z.eqb_refl. cbn [negb].
  assert (Hp : w64 (data + e_phoff (mem s) data) = data + e_phoff (mem s) data).
  { destruct (eo_header _ _ _ Helf) as [_ Hh]. unfold sizeof_elf_pheader in Hh.
    assert (0 <= e_phoff (mem s) data) by apply load64_range.
    assert (0 <= e_phnum (mem s) data) by apply (loadn_range 2). apply w64_id. lia. }
  rewrite Hp. wp_step. eapply wp_mono.
  { apply (load_segments_spec s c pm l fuel user data len Hfile Helf elf_rounds 0 s []);
      [by apply loaded_start|..].
    - pose proof (loadn_range 2 (mem s) (data + 56)). unfold e_phnum, load16. lia.
    - pose proof (loadn_range 2 (mem s) (data + 56)). unfold e_phnum, load16, elf_rounds. lia.
    - done. }
  cbv beta. intros r s' [(-> & new & Hup)|(-> & Hno)]; wp_step; [|by right].
  wp_step. cbv beta. left. split; [|by exists new].
  destruct (file_kept _ _ _ _ _ _ _ _ (lu_kept _ _ _ _ _ _ _ _ _ Hup) Hfile) as [_ Hag].
  by destruct (elf_header_agree s data len Helf _ Hag) as (_ & _ & ->).
Qed.
End Props.

(** ** A file with one segment *)

(** At [b]: [memsz] bytes at virtual 0x600010, of which [filesz] from offset 0x100. *)
Definition elf_fields (b filesz memsz : Z) : list (nat * Z * Z) := [
  (4%nat, b, ELF_MAGIC); (1%nat, b + 4, 2); (2%nat, b + 0x10, 2); (8%nat, b + 0x18, 0x600010);
  (8%nat, b + 0x20, 64); (2%nat, b + 0x38, 1);
  (4%nat, b + 0x40, PT_LOAD); (4%nat, b + 0x44, 5); (8%nat, b + 0x48, 0x100);
  (8%nat, b + 0x50, 0x600010); (8%nat, b + 0x60, filesz); (8%nat, b + 0x68, memsz);
  (8%nat, b + 0x100, 0x1122334455667788)].

(** In the kernel's buffer page, beside a process. *)
Definition elf_state (filesz memsz : Z) : machine :=
  set_mem (store_fields (mem us2) (elf_fields kbuf filesz memsz)) us2.
Definition elf_run (filesz memsz : Z) : outcome machine Z :=
  elf_load 10 true kbuf ctx0 (elf_state filesz memsz).

Lemma elf_fields_page b filesz memsz f x :
  f ∈ elf_fields b filesz memsz -> f.1.2 <= x < f.1.2 + Z.of_nat f.1.1 -> in_range b PAGE_SIZE x.
Proof.
  unfold elf_fields, in_range, PAGE_SIZE. rewrite !elem_of_cons, elem_of_nil.
  intros Hf. repeat destruct Hf as [->|Hf]; cbn; lia.
Qed.

(** The invariants under which several frames can be asked for. *)
Abbreviation uncached_ctx := (@vctx_ok pmm_frame_alloc pmm_uncached_laws).
Abbreviation uncached_in_data := (@in_data pmm_frame_alloc pmm_uncached_laws).

Lemma vctx_uncached s c pm l : vctx_ok s c pm l -> cache_index (pmm s) = 0 -> uncached_ctx s c pm l.
Proof. intros [Hi [Hp1 Hp2] ? ? ? ? Hc Ht] H0. split; try done. Qed.

Lemma elf_written_ok s c pm l b filesz memsz :
  vctx_ok s c pm l -> data_pages s c pm l [b] -> cache_index (pmm s) = 0 ->
  let s' := set_mem (store_fields (mem s) (elf_fields b filesz memsz)) s in
  uncached_ctx s' c pm l /\ forall a, in_range b PAGE_SIZE a -> uncached_in_data s' c pm l a.
Proof.
  intros Hok Hd Hc s'.
  assert (Hm : agree_outside (in_pages [b]) (mem s) (store_fields (mem s) (elf_fields b filesz memsz))).
  { apply store_fields_agree. intros f x Hf Hx. exists b.
    split; [apply elem_of_cons; by left|exact (elf_fields_page b filesz memsz f x Hf Hx)]. }
  destruct (data_writes s c pm l [b] _ Hok Hd Hm) as [Hok' _].
  pose proof (data_page_writes s c pm l [b] _ b Hok Hd Hm (proj1 (Forall_singleton _ _) Hd)) as Hd'.
  split; [by apply vctx_uncached|]. intros a Ha. exists b. split; [exact Hd'|exact Ha].
Qed.

Lemma us2_uncached : cache_index (pmm us2) = 0.
Proof. vm_compute. reflexivity. Qed.

Lemma elf_state_ok filesz memsz :
  uncached_ctx (elf_state filesz memsz) ctx0 root0 [reg0; ureg] /\
  forall a, in_range kbuf PAGE_SIZE a ->
    uncached_in_data (elf_state filesz memsz) ctx0 root0 [reg0; ureg] a.
Proof.
  exact (elf_written_ok us2 ctx0 root0 [reg0; ureg] kbuf filesz memsz (proj1 us2_ok) (proj2 us2_ok)
    us2_uncached).
Qed.

(** The fields that the loader reads from the sample. *)
Definition elf_read (m : memory) (b : Z) : list Z := [
  e_magic m b; e_class m b; e_type m b; e_entry m b; e_phoff m b; e_phnum m b;
  p_type m (b + 64); p_offset m (b + 64); p_vaddr m (b + 64); p_filesz m (b + 64); p_memsz m (b + 64)].

Lemma elf_read_ok m b :
  elf_read m b = [ELF_MAGIC; 2; 2; 0x600010; 64; 1; PT_LOAD; 0x100; 0x600010; 8; 16] ->
  0 < b -> b + PAGE_SIZE < 2 ^ 64 -> elf_ok m b PAGE_SIZE /\ e_phnum m b = 1.
Proof.
  unfold PAGE_SIZE. intros [= E1 E2 E3 E4 E5 E6 E7 E8 E9 E10 E11] H0 H1. split; [|done]. split.
  - lia.
  - rewrite E5, E6. unfold sizeof_elf_pheader. lia.
  - done.
  - intros i Hi _. rewrite E6 in Hi. assert (i = 0) as -> by lia.
    assert (Ep : pheader m b 0 = b + 64) by (unfold pheader; rewrite E5; unfold sizeof_elf_pheader; lia).
    rewrite Ep. split; rewrite ?E8, ?E9, ?E10, ?E11; unfold PAGE_SIZE; lia.
Qed.

Lemma elf_sample_ok :
  elf_ok (mem (elf_state 8 16)) kbuf PAGE_SIZE /\ e_phnum (mem (elf_state 8 16)) kbuf = 1.
Proof.
  assert (H : (0 <? kbuf) && (kbuf + PAGE_SIZE <? 2 ^ 64) = true) by (vm_compute; reflexivity).
  apply andb_true_iff in H as [H0 H1].
  apply (elf_read_ok (mem (elf_state 8 16)) kbuf).
  - vm_compute. reflexivity.
  - exact (proj1 (Z.ltb_lt _ _) H0).
  - exact (proj1 (Z.ltb_lt _ _) H1).
Qed.

Lemma ctx0_not_null : ctx0 <> NULL.
Proof. assert (H : (ctx0 =? NULL) = false) by (vm_compute; reflexivity). exact (proj1 (Z.eqb_neq _ _) H). Qed.

Lemma elf_load_correct_witness :
  result_of (elf_run 8 16) = Some 0x600010 /\
  wp (elf_load 10 true kbuf ctx0) (fun r s' =>
    (r = e_entry (mem (elf_state 8 16)) kbuf /\ exists new,
       @loaded_upto pmm_frame_alloc pmm_uncached_laws (elf_state 8 16) ctx0 root0 [reg0; ureg] true kbuf
         (e_phnum (mem (elf_state 8 16)) kbuf) s' new) \/
    (r = 0 /\ exists i s1 new, 0 <= i < e_phnum (mem (elf_state 8 16)) kbuf /\
       @loaded_upto pmm_frame_alloc pmm_uncached_laws (elf_state 8 16) ctx0 root0 [reg0; ureg] true kbuf
         i s1 new /\ loadable (mem (elf_state 8 16)) kbuf i /\
       @not_loaded pmm_frame_alloc pmm_uncached_laws s1 ctx0 root0 (new ++ [reg0; ureg])
         (mem (elf_state 8 16)) (pheader (mem (elf_state 8 16)) kbuf i) s'))
    (elf_state 8 16).
Proof.
  split; [vm_compute; reflexivity|]. destruct (elf_state_ok 8 16) as [Hok Hfile].
  apply (@elf_load_correct pmm_frame_alloc pmm_uncached_laws pmm_run_laws 10 true kbuf PAGE_SIZE
    (elf_state 8 16) ctx0 root0 [reg0; ureg] Hok ctx0_not_null (proj1 elf_sample_ok) Hfile).
  rewrite (proj2 elf_sample_ok). cbn. lia.
Defined.

(** What the theorem says of the sample, computed: the entry point, the mapping with the
    flags of the header, the file's bytes and zeros behind them. *)
Definition elf_seen (o : outcome machine Z) : option Z * option Z * Z * Z :=
  let s := state_of o us2 in
  let frame := virt_to_phys s root0 0x600010 in
  let page := HIGHER_HALF (hhdm_offset s) frame in
  (result_of o,
   match lookup s root0 0x600010 with Some e => Some (Z.lxor e frame) | None => None end,
   load64 (mem s) (page + 16), load64 (mem s) (page + 24)).

Example elf_load_sample :
  elf_seen (elf_run 8 16) =
    (Some 0x600010, Some 5, 0x1122334455667788, 0).
Proof. vm_compute; reflexivity. Qed.

(** A file size above the memory size is not noticed: the copy runs on behind the
    segment's only page, into memory that belongs to someone else. *)
Definition elf_spill (o : outcome machine Z) : option Z * Z * Z :=
  let s := state_of o us2 in
  let page := HIGHER_HALF (hhdm_offset s) (virt_to_phys s root0 0x600010) in
  (result_of o, load8 (mem us2) (page + PAGE_SIZE + 16), load8 (mem s) (page + PAGE_SIZE + 16)).

Example elf_filesz_overflow :
  elf_spill (elf_load 10 true 0x8000 ctx0
    (set_mem (store8 (store_fields (mem us2) (elf_fields 0x8000 0x1010 16)) 0x9100 0x99) us2)) =
  (Some 0x600010, 0, 0x99).
Proof. vm_compute; reflexivity. Qed.

Lemma elf_load_rejects_witness :
  elf_load 10 true (kbuf + 1) ctx0 (elf_state 8 16) = Ret 0 (elf_state 8 16).
Proof.
  destruct us2_pages as (H1 & H2 & H3 & H4 & _). unfold PAGE_SIZE in H1.
  apply (elf_load_rejects 10 true (kbuf + 1) ctx0 (elf_state 8 16)); [lia|exact ctx0_not_null|].
  left. assert (H : (e_magic (mem (elf_state 8 16)) (kbuf + 1) =? ELF_MAGIC) = false)
    by (vm_compute; reflexivity). exact (proj1 (Z.eqb_neq _ _) H).
Defined.
