(* ===== verification/Board.v ===== *)
(** * The board: devices, model-specific registers and the globals that go with them

    [hw] extends the machine of the memory-management code by the instructions that
    reach devices (arch/io.c, arch/cpu.h and memory-mapped registers) and by the globals
    of the files that use them.  Every access is recorded in [trace], newest first; what
    a read returns is up to the platform, a function of all accesses so far. *)

From S2P Require Export Elf.

(** ** Accesses *)

#[export] Instance register_ctx_eq_dec : EqDecision register_ctx.
Proof. solve_decision. Defined.

(** What the first line of a kernel panic says: the caller's text, the name of an
    exception, or the number of an unknown vector. *)
Inductive panic_msg :=
  | Formatted (text : list Z)
  | Exception (name : string)
  | UnknownVector (vector : Z).

#[export] Instance panic_msg_eq_dec : EqDecision panic_msg.
Proof. solve_decision. Defined.

(** [Report] stands for the lines that [kpanic] prints, [StartCpu] for the store to the
    boot loader's structure that another CPU waits for. *)
Inductive io_event :=
  | Outb (port v : Z)
  | Inb (port : Z)
  | Outw (port v : Z)
  | Inw (port : Z)
  | Outl (port v : Z)
  | Inl (port : Z)
  | Write32 (addr v : Z)
  | Read32 (addr : Z)
  | Wrmsr (msr v : Z)
  | Rdmsr (msr : Z)
  | Lgdt (limit base : Z)
  | LoadSegments (code data : Z)
  | Ltr (sel : Z)
  | Lidt (limit base : Z)
  | Sti
  | Cli
  | Pause
  | StartCpu (cpu entry : Z)
  | Report (message : panic_msg) (cpu : option Z) (regs : register_ctx).

#[export] Instance io_event_eq_dec : EqDecision io_event.
Proof. solve_decision. Defined.

(** What the hardware answers to a reading access after the accesses of the trace. *)
Class Platform := answer : list io_event -> io_event -> Z.

(** ** arch/smp.h *)

Record cpu_local_t := CpuLocal {
  lapic_id : Z;
  cpu_idx : Z;
  ready : bool }.

(** ** sys/acpi.c *)

Record acpi_state := Acpi {
  acpi_uses_xsdt : bool;
  acpi_rsdt_ptr : Z }.

(** ** sys/acpi/madt.c: the entry lists (the addresses of the entries, in order) and the
    address of the local APIC. *)

Record madt_state := Madt {
  madt_ioapic_list : list Z;
  madt_iso_list : list Z;
  madt_lapic_list : list Z;
  madt_lapic_nmi_list : list Z;
  madt_ioapic_nmi_list : list Z;
  madt_lx2apic_list : list Z;
  lapic_addr : Z }.

(** ** sys/apic/lapic.c and ioapic.c *)

Record apic_state := Apic {
  lapic_msr : Z;
  lapic_base : Z;
  ioapic_base : Z }.

(** ** arch/smp.c; a pointer to a [cpu_local_t] is kept as its address *)

Record smp_state := Smp {
  cpu_count : Z;
  bootstrap_lapic_id : Z;
  started_cpus : Z;
  cpu_locals : list cpu_local_t }.

(** ** arch/idt.h and arch/idt.c *)

Record idt_entry := IdtEntry {
  off_low : Z;
  sel : Z;
  ist : Z;
  attr : Z;
  off_mid : Z;
  off_high : Z;
  idt_zero : Z }.

(** The functions that the code stores in [real_handlers]. *)
Inductive idt_intr_handler :=
  | idt_default_interrupt_handler
  | syscall_handler_fn
  | die_fn
  | pit_handler_fn
  | tick_fn.

#[export] Instance idt_intr_handler_eq_dec : EqDecision idt_intr_handler.
Proof. solve_decision. Defined.

Record idt_state := Idt {
  idt_descriptor : list idt_entry;
  real_handlers : list (option idt_intr_handler) }.

(** ** arch/gdt.h and arch/gdt.c *)

Record gdt_entry_t := GdtEntry {
  limit_low : Z;
  base_low : Z;
  base_middle : Z;
  access : Z;
  granularity : Z;
  base_high : Z }.

(** A system descriptor is a descriptor of the eight-byte kind, then the upper half of the
    base and a reserved word. *)
Record gdt_system_entry_t := GdtSystemEntry {
  sys_low : gdt_entry_t;
  base_upper : Z;
  sys_reserved : Z }.

Record tss_entry_t := TssEntry {
  reserved0 : Z;
  rsp0 : Z; rsp1 : Z; rsp2 : Z;
  reserved1 : Z;
  ist1 : Z; ist2 : Z; ist3 : Z; ist4 : Z; ist5 : Z; ist6 : Z; ist7 : Z;
  reserved2 : Z;
  reserved3 : Z;
  io_map_base : Z }.

Record gdt_ptr_t := GdtPtr {
  gdt_limit : Z;
  gdt_base : Z }.

Record gdt_state := Gdt {
  gdt : list gdt_entry_t;
  gdt_ptr : gdt_ptr_t;
  tss : tss_entry_t }.

(** ** dev/timer/pit.c and util/kprintf.c *)

Record timer_state := Timer {
  pit_callback : option idt_intr_handler;
  tapi_enabled : bool }.

(** ** The whole *)

Record hw := Hw {
  core : machine;
  trace : list io_event;
  acpi : acpi_state;
  madt : madt_state;
  apic : apic_state;
  smp : smp_state;
  idt : idt_state;
  gdts : gdt_state;
  timer : timer_state;
  kprintf_lock : spinlock_t }.

Abbreviation H := (M hw).

Definition set_core (x : machine) (h : hw) : hw :=
  Hw x (trace h) (acpi h) (madt h) (apic h) (smp h) (idt h) (gdts h) (timer h) (kprintf_lock h).
Definition set_trace (x : list io_event) (h : hw) : hw :=
  Hw (core h) x (acpi h) (madt h) (apic h) (smp h) (idt h) (gdts h) (timer h) (kprintf_lock h).
Definition set_acpi (x : acpi_state) (h : hw) : hw :=
  Hw (core h) (trace h) x (madt h) (apic h) (smp h) (idt h) (gdts h) (timer h) (kprintf_lock h).
Definition set_madt (x : madt_state) (h : hw) : hw :=
  Hw (core h) (trace h) (acpi h) x (apic h) (smp h) (idt h) (gdts h) (timer h) (kprintf_lock h).
Definition set_apic (x : apic_state) (h : hw) : hw :=
  Hw (core h) (trace h) (acpi h) (madt h) x (smp h) (idt h) (gdts h) (timer h) (kprintf_lock h).
Definition set_smp (x : smp_state) (h : hw) : hw :=
  Hw (core h) (trace h) (acpi h) (madt h) (apic h) x (idt h) (gdts h) (timer h) (kprintf_lock h).
Definition set_idt (x : idt_state) (h : hw) : hw :=
  Hw (core h) (trace h) (acpi h) (madt h) (apic h) (smp h) x (gdts h) (timer h) (kprintf_lock h).
Definition set_gdts (x : gdt_state) (h : hw) : hw :=
  Hw (core h) (trace h) (acpi h) (madt h) (apic h) (smp h) (idt h) x (timer h) (kprintf_lock h).
Definition set_timer (x : timer_state) (h : hw) : hw :=
  Hw (core h) (trace h) (acpi h) (madt h) (apic h) (smp h) (idt h) (gdts h) x (kprintf_lock h).
Definition set_kprintf_lock (x : spinlock_t) (h : hw) : hw :=
  Hw (core h) (trace h) (acpi h) (madt h) (apic h) (smp h) (idt h) (gdts h) (timer h) x.

(** Memory-management code on the board. *)
Definition lift {A} (m : K A) : H A := fun h =>
  match m (core h) with
  | Ret a s => Ret a (set_core s h)
  | Panic s => Panic (set_core s h)
  | Hang s => Hang (set_core s h)
  | NoFuel => NoFuel
  end.

Lemma wp_lift {A} (m : K A) Q h :
  wp m (fun a s => Q a (set_core s h)) (core h) -> wp (lift m) Q h.
Proof. unfold wp, lift. by destruct (m (core h)). Qed.

(** ** arch/io.c and arch/cpu.h *)

Definition emit (e : io_event) : H unit := modify (fun h => set_trace (e :: trace h) h).

Section IO.
Context {PF : Platform}.

(** The answer, then the access joins the trace. *)
Definition ask (e : io_event) : H Z := fun h =>
  Ret (answer (trace h) e) (set_trace (e :: trace h) h).

Definition outb (port value : Z) : H unit := emit (Outb (w16 port) (w8 value)).
Definition inb (port : Z) : H Z := v <- ask (Inb (w16 port)) ;; ret (w8 v).
Definition outw (port value : Z) : H unit := emit (Outw (w16 port) (w16 value)).
Definition inw (port : Z) : H Z := v <- ask (Inw (w16 port)) ;; ret (w16 v).
Definition outl (port value : Z) : H unit := emit (Outl (w16 port) (w32 value)).
Definition inl (port : Z) : H Z := v <- ask (Inl (w16 port)) ;; ret (w32 v).

(** A write to the unused port 0x80. *)
Definition io_wait : H unit := emit (Outb 0x80 0).

(** The two halves go through [eax] and [edx]; [ecx] takes the low half of [msr]. *)
Definition wrmsr (msr value : Z) : H unit :=
  let low := Z.land value 0xFFFFFFFF in
  let high := w32 (Z.shiftr value 32) in
  emit (Wrmsr (w32 msr) (Z.lor (Z.shiftl high 32) low)).
Definition rdmsr (msr : Z) : H Z :=
  v <- ask (Rdmsr (w32 msr)) ;;
  let low := w32 v in
  let high := w32 (Z.shiftr v 32) in
  ret (Z.lor (Z.shiftl high 32) low).

(** Volatile accesses to a memory-mapped register. *)
Definition mmio_write (addr v : Z) : H unit := emit (Write32 (w64 addr) (w32 v)).
Definition mmio_read (addr : Z) : H Z := v <- ask (Read32 (w64 addr)) ;; ret (w32 v).

(** [hlt] in a loop, with and without interrupts. *)
Definition hlt {A} : H A := hang.
Definition hcf {A} : H A := emit Cli ;;; hang.
End IO.

(** ** Reading memory through the active page map *)

Fixpoint vread (n : nat) (a : Z) : K Z :=
  match n with
  | O => ret 0
  | S n' => b <- vload8 (w64 a) ;; r <- vread n' (a + 1) ;; ret (b + 256 * r)
  end.

(** [memcmp(a, l, length l) == 0] for a constant [l]. *)
Fixpoint vmatch (a : Z) (l : list Z) : K bool :=
  match l with
  | [] => ret true
  | c :: l' => b <- vload8 (w64 a) ;; if b =? c then vmatch (a + 1) l' else ret false
  end.

(** In the upper half the reads are plain loads. *)
Lemma vread_kernel n a s :
  0 <= hhdm_offset s <= a -> a + Z.of_nat n <= 2 ^ 64 -> vread n a s = Ret (loadn n (mem s) a) s.
Proof.
  revert a. induction n as [|n IH]; intros a Ha Hb; [done|]. cbn [vread loadn].
  unfold bind, vload8, bind, get. cbv beta iota. rewrite w64_id by lia. rewrite translate_kernel by lia.
  unfold bind, ret. rewrite IH by lia. done.
Qed.

Lemma vmatch_kernel l a s :
  0 <= hhdm_offset s <= a -> a + Z.of_nat (length l) <= 2 ^ 64 ->
  vmatch a l s = Ret (bool_decide (bytes_at (length l) (mem s) a = l)) s.
Proof.
  revert a. induction l as [|c l IH]; intros a Ha Hb; [done|]. cbn [vmatch bytes_at length] in *.
  unfold bind, vload8, bind, get. cbv beta iota. rewrite w64_id by lia. rewrite translate_kernel by lia.
  unfold bind, ret. destruct (Z.eqb_spec (load8 (mem s) a) c) as [->|Hne].
  - rewrite IH by lia. f_equal. apply bool_decide_ext. split; [by intros ->|by intros [= ->]].
  - f_equal. symmetry. apply bool_decide_false. intros [=]. congruence.
Qed.
