(* ===== verification/Acpi.v ===== *)
(** * sys/acpi.c and sys/acpi/madt.c: finding and parsing the firmware's tables

    Tables are read through the active page map ([vread], [vmatch]); fields are at the
    packed offsets of sys/acpi.h and sys/acpi/madt.h.  Log lines are left out. *)

From S2P Require Export Board.

Section Acpi.
Context {FA : FrameAlloc}.

(** ** sys/acpi.h *)

Definition rsdp_revision (rsdp : Z) : K Z := vread 1 (rsdp + 15).
Definition rsdt_address (rsdp : Z) : K Z := vread 4 (rsdp + 16).
Definition xsdt_address (xsdp : Z) : K Z := vread 8 (xsdp + 24).
Definition sizeof_sdt_header : Z := 36.
Definition sdt_length (sdt : Z) : K Z := vread 4 (sdt + 4).

Definition RSD_PTR : list Z := [82; 83; 68; 32; 80; 84; 82].
Definition APIC_SIGNATURE : list Z := [65; 80; 73; 67].

(** ** acpi_init *)

(** [response]: [rsdp_response], and the address in it. *)
Definition acpi_init (fuel : nat) (response : option Z) : H unit :=
  match response with
  | None => kpanic
  | Some address =>
      if address =? NULL then kpanic else
      rsdp <- lift (s <- get ;; vallocat fuel (kvm_ctx s) 1 VALLOC_RW address) ;;
      ok <- lift (vmatch rsdp RSD_PTR) ;;
      if negb ok then kpanic else
      rev <- lift (rsdp_revision rsdp) ;;
      hh <- gets (fun h => hhdm_offset (core h)) ;;
      if negb (rev =? 0) then
        a <- lift (xsdt_address rsdp) ;;
        modify (set_acpi (Acpi true (HIGHER_HALF hh a)))
      else
        a <- lift (rsdt_address rsdp) ;;
        modify (fun h => set_acpi (Acpi (acpi_uses_xsdt (acpi h)) (HIGHER_HALF hh a)) h)
  end.

(** ** acpi_find_table *)

(** The loop over the table's pointers, [width] bytes each, from index [i] on. *)
Fixpoint find_sdt (n : nat) (width : nat) (table i : Z) (name : list Z) : K Z :=
  match n with
  | O => ret NULL
  | S n' =>
      p <- vread width (table + Z.of_nat width * i) ;;
      s <- get ;;
      let sdt := HIGHER_HALF (hhdm_offset s) p in
      ok <- vmatch sdt name ;;
      if ok : bool then ret sdt else find_sdt n' width table (i + 1) name
  end.

Definition acpi_find_table (name : list Z) : H Z :=
  a <- gets acpi ;;
  let width := if acpi_uses_xsdt a then 8%nat else 4%nat in
  lift (len <- sdt_length (acpi_rsdt_ptr a) ;;
        let entries := w32 (w64 (len - sizeof_sdt_header) / Z.of_nat width) in
        find_sdt (Z.to_nat entries) width (acpi_rsdt_ptr a + sizeof_sdt_header) 0 name).

(** ** sys/acpi/madt.h *)

Definition MADT_ENTRY_LAPIC : Z := 0.
Definition MADT_ENTRY_IOAPIC : Z := 1.
Definition MADT_ENTRY_IOAPIC_SRC_OVR : Z := 2.
Definition MADT_ENTRY_IOAPIC_NMI_SRC : Z := 3.
Definition MADT_ENTRY_LAPIC_NMI : Z := 4.
Definition MADT_ENTRY_LAPIC_ADDR_OVR : Z := 5.
Definition MADT_ENTRY_LX2APIC : Z := 9.

Definition sizeof_madt : Z := 44.
Definition madt_lapic_base (m : Z) : K Z := vread 4 (m + 36).
Definition entry_type (e : Z) : K Z := vread 1 e.
Definition entry_length (e : Z) : K Z := vread 1 (e + 1).

Definition ioapic_addr (e : Z) : K Z := vread 4 (e + 4).
Definition iso_irq_source (e : Z) : K Z := vread 1 (e + 3).
Definition iso_gsi (e : Z) : K Z := vread 4 (e + 4).
Definition ovr_lapic_addr (e : Z) : K Z := vread 8 (e + 4).

(** The size of the structure for a type; 0 for a type that the code skips. *)
Definition entry_size (type : Z) : Z :=
  if type =? MADT_ENTRY_LAPIC then 8
  else if type =? MADT_ENTRY_IOAPIC then 12
  else if type =? MADT_ENTRY_IOAPIC_SRC_OVR then 10
  else if type =? MADT_ENTRY_IOAPIC_NMI_SRC then 10
  else if type =? MADT_ENTRY_LAPIC_NMI then 6
  else if type =? MADT_ENTRY_LAPIC_ADDR_OVR then 12
  else if type =? MADT_ENTRY_LX2APIC then 16
  else 0.

(** [if (len < 256) list[len++] = entry;] *)
Definition push (l : list Z) (e : Z) : list Z :=
  if Z.of_nat (length l) <? 256 then l ++ [e] else l.

(** The entry joins the list of its type. *)
Definition add_entry (type e : Z) (m : madt_state) : madt_state :=
  Madt
    (if type =? MADT_ENTRY_IOAPIC then push (madt_ioapic_list m) e else madt_ioapic_list m)
    (if type =? MADT_ENTRY_IOAPIC_SRC_OVR then push (madt_iso_list m) e else madt_iso_list m)
    (if type =? MADT_ENTRY_LAPIC then push (madt_lapic_list m) e else madt_lapic_list m)
    (if type =? MADT_ENTRY_LAPIC_NMI then push (madt_lapic_nmi_list m) e else madt_lapic_nmi_list m)
    (if type =? MADT_ENTRY_IOAPIC_NMI_SRC then push (madt_ioapic_nmi_list m) e
     else madt_ioapic_nmi_list m)
    (if type =? MADT_ENTRY_LX2APIC then push (madt_lx2apic_list m) e else madt_lx2apic_list m)
    (lapic_addr m).

Definition with_lapic_addr (a : Z) (m : madt_state) : madt_state :=
  Madt (madt_ioapic_list m) (madt_iso_list m) (madt_lapic_list m) (madt_lapic_nmi_list m)
    (madt_ioapic_nmi_list m) (madt_lx2apic_list m) a.

(** ** madt_init *)

(** The [switch] on the type of the entry. *)
Definition madt_entry (e : Z) : H unit :=
  type <- lift (entry_type e) ;;
  len <- lift (entry_length e) ;;
  if len <? entry_size type then kpanic else
  if type =? MADT_ENTRY_LAPIC_ADDR_OVR then
    a <- lift (ovr_lapic_addr e) ;;
    modify (fun h => set_madt (with_lapic_addr a (madt h)) h)
  else modify (fun h => set_madt (add_entry type e (madt h)) h).

Fixpoint madt_loop (rounds : nat) (m offset : Z) : H unit :=
  match rounds with
  | O => out_of_fuel
  | S rounds' =>
      total <- lift (sdt_length m) ;;
      let size := w64 (total - sizeof_madt) in
      if negb (offset <? size) then ret tt else
      let e := m + sizeof_madt + offset in
      len <- lift (entry_length e) ;;
      if (len =? 0) || (size <? w64 (offset + len)) then kpanic else
      madt_entry e ;;;
      madt_loop rounds' m (w64 (offset + len))
  end.

(** A length has 32 bits and each round advances by at least one byte. *)
Definition madt_init (rounds : nat) : H unit :=
  m <- acpi_find_table APIC_SIGNATURE ;;
  if m =? NULL then kpanic else
  total <- lift (sdt_length m) ;;
  if total <? sizeof_madt then kpanic else
  base <- lift (madt_lapic_base m) ;;
  modify (fun h => set_madt (with_lapic_addr base (madt h)) h) ;;;
  madt_loop rounds m 0.
End Acpi.

(** ** Finding a table *)

(** The root table lists the tables [ptrs]. *)
Record sdt_ok (h : hw) (ptrs : list Z) : Prop := SdtOk {
  sd_hhdm : 0 <= hhdm_offset (core h);
  sd_root : hhdm_offset (core h) <= acpi_rsdt_ptr (acpi h);
  sd_length : let w := if acpi_uses_xsdt (acpi h) then 8 else 4 in
    load32 (mem (core h)) (acpi_rsdt_ptr (acpi h) + 4) =
      sizeof_sdt_header + w * Z.of_nat (length ptrs) /\
    acpi_rsdt_ptr (acpi h) + sizeof_sdt_header + w * Z.of_nat (length ptrs) <= 2 ^ 64;
  sd_ptrs : let w := if acpi_uses_xsdt (acpi h) then 8%nat else 4%nat in
    forall i p, ptrs !! i = Some p ->
      p = HIGHER_HALF (hhdm_offset (core h))
            (loadn w (mem (core h)) (acpi_rsdt_ptr (acpi h) + sizeof_sdt_header +
               Z.of_nat w * Z.of_nat i)) /\
      hhdm_offset (core h) <= p /\ p + 4 <= 2 ^ 64 }.

(** The first table with the signature. *)
Definition find_signature (m : memory) (name ptrs : list Z) : option Z :=
  head (filter (fun p => bytes_at 4 m p = name) ptrs).

Section Find.
Context (name : list Z) (Hname : length name = 4%nat).

Lemma find_sdt_spec w table ptrs i s :
  0 <= hhdm_offset s <= table -> 0 <= i ->
  table + Z.of_nat w * (i + Z.of_nat (length ptrs)) <= 2 ^ 64 ->
  (forall k p, ptrs !! k = Some p ->
     p = HIGHER_HALF (hhdm_offset s) (loadn w (mem s) (table + Z.of_nat w * (i + Z.of_nat k))) /\
     hhdm_offset s <= p /\ p + 4 <= 2 ^ 64) ->
  find_sdt (length ptrs) w table i name s = Ret (default NULL (find_signature (mem s) name ptrs)) s.
Proof.
  intros Hh. revert i. induction ptrs as [|p ptrs IH]; intros i Hi Hb Hp; [done|].
  cbn [length find_sdt] in *. destruct (Hp 0%nat p eq_refl) as (Hv & Hp1 & Hp2).
  rewrite Z.add_0_r in Hv.
  assert (Hbi : 0 <= Z.of_nat w * i /\ table + Z.of_nat w * i + Z.of_nat w <= 2 ^ 64) by nia.
  unfold bind at 1. rewrite vread_kernel by lia.
  unfold bind, get. rewrite <-Hv. rewrite vmatch_kernel by (rewrite ?Hname; lia). rewrite Hname.
  unfold find_signature. destruct (decide (bytes_at 4 (mem s) p = name)) as [He|Hne].
  - rewrite bool_decide_true, filter_cons_True by done. done.
  - rewrite bool_decide_false, filter_cons_False by done. rewrite IH; [done|lia|nia|].
    intros k q Hq. destruct (Hp (S k) q Hq) as (Hv' & ? & ?). split; [|done].
    rewrite Hv'. do 2 f_equal. lia.
Qed.

Lemma find_table_spec h ptrs :
  sdt_ok h ptrs ->
  acpi_find_table name h = Ret (default NULL (find_signature (mem (core h)) name ptrs)) h.
Proof.
  intros [Hh Hr [Hlen Hend] Hp]. unfold sizeof_sdt_header in *.
  set (w := if acpi_uses_xsdt (acpi h) then 8%nat else 4%nat) in *.
  assert (Hw : (if acpi_uses_xsdt (acpi h) then 8 else 4) = Z.of_nat w)
    by (unfold w; by destruct (acpi_uses_xsdt _)).
  rewrite Hw in *. assert (Hw0 : 0 < Z.of_nat w <= 8) by (unfold w; destruct (acpi_uses_xsdt _); lia).
  assert (Hn0 : 0 <= Z.of_nat w * Z.of_nat (length ptrs)) by lia.
  unfold acpi_find_table, bind at 1, gets, lift, bind, sdt_length, sizeof_sdt_header.
  rewrite vread_kernel by lia. fold w.
  change (loadn 4) with load32. rewrite Hlen.
  pose proof (load32_range (mem (core h)) (acpi_rsdt_ptr (acpi h) + 4)) as Hl32. rewrite Hlen in Hl32.
  replace (36 + Z.of_nat w * Z.of_nat (length ptrs) - 36) with (Z.of_nat (length ptrs) * Z.of_nat w) by lia.
  rewrite w64_id, Z.div_mul, w32_id, Nat2Z.id by nia.
  rewrite find_sdt_spec with (ptrs := ptrs); [|lia|lia|lia|exact Hp].
  by destruct h.
Qed.
End Find.

(** [acpi_find_table] returns the first table of the root table (32- or 64-bit
    pointers) whose signature is the one asked for, NULL when there is none, and
    changes nothing. *)
Theorem acpi_find_table_correct h ptrs name :
  sdt_ok h ptrs -> length name = 4%nat ->
  exists p, acpi_find_table name h = Ret p h /\
    ((p = NULL /\ forall q, q ∈ ptrs -> bytes_at 4 (mem (core h)) q <> name) \/
     exists l1 l2, ptrs = l1 ++ p :: l2 /\ bytes_at 4 (mem (core h)) p = name /\
       forall q, q ∈ l1 -> bytes_at 4 (mem (core h)) q <> name).
Proof.
  intros Hok Hn. rewrite (find_table_spec name Hn h ptrs Hok). eexists. split; [done|].
  clear Hok. unfold find_signature.
  induction ptrs as [|q ptrs IH]; [left; split; [done|]; by intros q ?%not_elem_of_nil|].
  destruct (decide (bytes_at 4 (mem (core h)) q = name)) as [He|Hne].
  - rewrite filter_cons_True by done. right. exists [], ptrs. split_and!; try done.
    by intros r ?%not_elem_of_nil.
  - rewrite filter_cons_False by done. destruct IH as [[H1 H2]|(l1 & l2 & H1 & H2 & H3)].
    + left. split; [done|]. intros r [->|Hr]%elem_of_cons; [done|by apply H2].
    + right. exists (q :: l1), l2. split_and!; [cbn; by f_equal|done|].
      intros r [->|Hr]%elem_of_cons; [done|by apply H3].
Qed.

(** ** Parsing the MADT *)

(** An entry: its type and the bytes behind the two-byte header. *)
Record madt_rec := MadtRec { t_type : Z; t_body : list Z }.

Definition rec_length (e : madt_rec) : Z := 2 + Z.of_nat (length (t_body e)).

Definition encode (e : madt_rec) : list Z := t_type e :: rec_length e :: t_body e.

Definition encode_all (es : list madt_rec) : list Z := es ≫= encode.

(** Long enough for its type, short enough for the length byte. *)
Definition rec_ok (e : madt_rec) : Prop :=
  Forall (fun b => 0 <= b < 256) (t_type e :: t_body e) /\
  entry_size (t_type e) <= rec_length e < 256.

Definition le (l : list Z) : Z := foldr (fun b r => b + 256 * r) 0 l.

(** The addresses of the entries, the first at [a]. *)
Fixpoint entry_addrs (a : Z) (es : list madt_rec) : list (Z * madt_rec) :=
  match es with
  | [] => []
  | e :: es' => (a, e) :: entry_addrs (a + rec_length e) es'
  end.

Definition of_type (type a : Z) (es : list madt_rec) : list Z :=
  fst <$> filter (fun x => t_type x.2 = type) (entry_addrs a es).

(** The last address override, [base] when there is none. *)
Definition override (base : Z) (es : list madt_rec) : Z :=
  foldl (fun b e => if t_type e =? MADT_ENTRY_LAPIC_ADDR_OVR
                    then le (take 8 (drop 2 (t_body e))) else b) base es.

(** What the table says: the first 256 entries of each type. *)
Definition parsed (base a : Z) (es : list madt_rec) : madt_state :=
  Madt (take 256 (of_type MADT_ENTRY_IOAPIC a es)) (take 256 (of_type MADT_ENTRY_IOAPIC_SRC_OVR a es))
    (take 256 (of_type MADT_ENTRY_LAPIC a es)) (take 256 (of_type MADT_ENTRY_LAPIC_NMI a es))
    (take 256 (of_type MADT_ENTRY_IOAPIC_NMI_SRC a es)) (take 256 (of_type MADT_ENTRY_LX2APIC a es))
    (override base es).

Lemma push_take l e : push (take 256 l) e = take 256 (l ++ [e]).
Proof.
  unfold push. rewrite length_take. destruct (Z.ltb_spec (Z.of_nat (256 `min` length l)) 256).
  - rewrite (firstn_all2 l), (firstn_all2 (l ++ [e])); [done|rewrite length_app; cbn; lia|lia].
  - rewrite take_app_le by lia. done.
Qed.

Lemma entry_addrs_snoc a es e :
  entry_addrs a (es ++ [e]) =
    entry_addrs a es ++ [(a + Z.of_nat (length (encode_all es)), e)].
Proof.
  revert a. induction es as [|d es IH]; intros a; cbn; [by rewrite Z.add_0_r|].
  rewrite IH. do 4 f_equal. rewrite length_app. change (es ≫= encode) with (encode_all es).
  unfold rec_length. lia.
Qed.

Lemma of_type_snoc type a es e :
  of_type type a (es ++ [e]) = of_type type a es ++
    (if t_type e =? type then [a + Z.of_nat (length (encode_all es))] else []).
Proof.
  unfold of_type. rewrite entry_addrs_snoc, filter_app, fmap_app. f_equal.
  destruct (Z.eqb_spec (t_type e) type).
  - by rewrite filter_cons_True.
  - by rewrite filter_cons_False.
Qed.

Lemma take_push type a es e :
  take 256 (of_type type a (es ++ [e])) =
    if t_type e =? type
    then push (take 256 (of_type type a es)) (a + Z.of_nat (length (encode_all es)))
    else take 256 (of_type type a es).
Proof.
  rewrite of_type_snoc. destruct (t_type e =? type); [by rewrite push_take|by rewrite app_nil_r].
Qed.

(** One more entry. *)
Lemma parsed_snoc base a es e :
  parsed base a (es ++ [e]) =
    if t_type e =? MADT_ENTRY_LAPIC_ADDR_OVR
    then with_lapic_addr (le (take 8 (drop 2 (t_body e)))) (parsed base a es)
    else add_entry (t_type e) (a + Z.of_nat (length (encode_all es))) (parsed base a es).
Proof.
  unfold parsed, add_entry, with_lapic_addr, override. cbn [madt_ioapic_list madt_iso_list
    madt_lapic_list madt_lapic_nmi_list madt_ioapic_nmi_list madt_lx2apic_list lapic_addr].
  rewrite !take_push, foldl_app. cbn [foldl].
  destruct (Z.eqb_spec (t_type e) MADT_ENTRY_LAPIC_ADDR_OVR) as [He|]; [|done].
  by rewrite He.
Qed.

Lemma bytes_at_app n k m a : bytes_at (n + k) m a = bytes_at n m a ++ bytes_at k m (a + Z.of_nat n).
Proof.
  revert a. induction n as [|n IH]; intros a; [by rewrite Z.add_0_r|]. cbn. rewrite IH.
  do 3 f_equal. lia.
Qed.

Lemma loadn_le n m a : loadn n m a = le (bytes_at n m a).
Proof. revert a. induction n as [|n IH]; intros a; cbn; [done|by rewrite IH]. Qed.

Section Reads.
Context {mm : memory}.

(** What the code reads of an entry. *)
Lemma rec_reads e a k :
  bytes_at (length (encode e)) mm a = encode e -> rec_length e = k -> 
  load8 mm a = t_type e /\ load8 mm (a + 1) = k /\
  (12 <= k -> load64 mm (a + 4) = le (take 8 (drop 2 (t_body e)))).
Proof.
  intros Hb Hk. cbn [encode length bytes_at] in Hb. injection Hb as H1 H2 H3.
  split_and!; [done|by rewrite <-Hk|]. intros H12. unfold rec_length in Hk.
  change (load64 mm (a + 4)) with (loadn 8 mm (a + 4)). rewrite loadn_le. f_equal.
  replace (length (t_body e)) with (2 + (8 + (length (t_body e) - 10)))%nat in H3 by lia.
  rewrite !bytes_at_app in H3. rewrite <-H3.
  rewrite drop_app_length' by (symmetry; apply length_bytes_at).
  rewrite take_app_length' by (symmetry; apply length_bytes_at). f_equal. lia.
Qed.

Lemma lift_vread h n a :
  0 <= hhdm_offset (core h) <= a -> a + Z.of_nat n <= 2 ^ 64 -> mem (core h) = mm ->
  lift (vread n a) h = Ret (loadn n mm a) h.
Proof. intros H1 H2 <-. unfold lift. rewrite vread_kernel by lia. by destruct h. Qed.

Lemma madt_entry_spec h a e :
  bytes_at (length (encode e)) mm a = encode e -> rec_ok e -> mem (core h) = mm ->
  0 <= hhdm_offset (core h) <= a -> a + rec_length e <= 2 ^ 64 ->
  madt_entry a h = Ret tt (set_madt
    (if t_type e =? MADT_ENTRY_LAPIC_ADDR_OVR
     then with_lapic_addr (le (take 8 (drop 2 (t_body e)))) (madt h)
     else add_entry (t_type e) a (madt h)) h).
Proof.
  intros Hb [_ Hsz] Hmem Hh Ha. destruct (rec_reads e a _ Hb eq_refl) as (R1 & R2 & R3).
  assert (Hl : 2 <= rec_length e) by (unfold rec_length; lia).
  unfold madt_entry, bind, entry_type, entry_length, ovr_lapic_addr.
  rewrite !(lift_vread h 1) by (done || (cbn; lia)). cbn [loadn]. rewrite R1, R2.
  rewrite Z.mul_0_r, !Z.add_0_r. rewrite (proj2 (Z.ltb_ge (rec_length e) _)) by lia.
  destruct (Z.eqb_spec (t_type e) MADT_ENTRY_LAPIC_ADDR_OVR) as [He|]; [|done].
  rewrite He in Hsz. change (entry_size MADT_ENTRY_LAPIC_ADDR_OVR) with 12 in Hsz.
  rewrite (lift_vread h 8) by (done || (cbn; lia)). by rewrite <-R3 by lia.
Qed.

Lemma madt_entry_short h a e :
  bytes_at (length (encode e)) mm a = encode e -> rec_length e < entry_size (t_type e) ->
  mem (core h) = mm -> 0 <= hhdm_offset (core h) <= a -> a + rec_length e <= 2 ^ 64 ->
  madt_entry a h = Panic h.
Proof.
  intros Hb Hsz Hmem Hh Ha. destruct (rec_reads e a _ Hb eq_refl) as (R1 & R2 & _).
  assert (Hl : 2 <= rec_length e) by (unfold rec_length; lia).
  unfold madt_entry, bind, entry_type, entry_length.
  rewrite !(lift_vread h 1) by (done || (cbn; lia)). cbn [loadn]. rewrite R1, R2.
  rewrite Z.mul_0_r, !Z.add_0_r. by rewrite (proj2 (Z.ltb_lt (rec_length e) _)) by lia.
Qed.
End Reads.

(** The loop over the entries behind [m]'s header. *)
Section Loop.
Context (m : Z) (mm : memory) (base : Z).
Let table := m + sizeof_madt.

Definition madt_holds (h : hw) (es : list madt_rec) : Prop :=
  mem (core h) = mm /\ 0 <= hhdm_offset (core h) <= m /\
  load32 mm (m + 4) = sizeof_madt + Z.of_nat (length (encode_all es)) /\
  table + Z.of_nat (length (encode_all es)) <= 2 ^ 64 /\
  bytes_at (length (encode_all es)) mm table = encode_all es.

Lemma madt_bytes h es1 e es2 :
  madt_holds h (es1 ++ e :: es2) ->
  let a := table + Z.of_nat (length (encode_all es1)) in
  bytes_at (length (encode e)) mm a = encode e /\
  a + rec_length e <= 2 ^ 64 /\ hhdm_offset (core h) <= a /\
  rec_length e + Z.of_nat (length (encode_all es1)) + Z.of_nat (length (encode_all es2)) =
    load32 mm (m + 4) - sizeof_madt.
Proof.
  intros (_ & Hh & Hlen & Hend & Hb). unfold encode_all in *. rewrite bind_app, bind_cons in *.
  rewrite !length_app in *. rewrite !bytes_at_app in Hb. cbn zeta.
  assert (Hre : Z.of_nat (length (encode e)) = rec_length e) by (unfold rec_length; cbn; lia).
  unfold table, sizeof_madt in *. split_and!; [|lia|lia|lia].
  apply app_inj_1 in Hb as [_ Hb]; [|apply length_bytes_at].
  apply app_inj_1 in Hb as [Hb _]; [done|apply length_bytes_at].
Qed.

(** One round, at a well-framed entry. *)
Lemma madt_round h es1 e es2 rounds :
  madt_holds h (es1 ++ e :: es2) -> rec_length e < 256 ->
  madt_loop (S rounds) m (Z.of_nat (length (encode_all es1))) h =
    (madt_entry (table + Z.of_nat (length (encode_all es1))) ;;;
     madt_loop rounds m (Z.of_nat (length (encode_all (es1 ++ [e]))))) h.
Proof.
  intros Hm Hl256. pose proof Hm as (Hmem & Hh & Hlen & Hend & _).
  pose proof (load32_range mm (m + 4)) as H32.
  destruct (madt_bytes h es1 e es2 Hm) as (Hb & Ha1 & Ha2 & Hsum). cbn zeta in *.
  assert (Hl : 2 <= rec_length e) by (unfold rec_length in *; lia).
  cbn [madt_loop]. unfold bind at 1, sdt_length.
  rewrite (lift_vread (mm := mm) h 4 (m + 4)) by (done || (unfold table, sizeof_madt in *; cbn; lia)).
  change (loadn 4) with load32.
  set (off := Z.of_nat (length (encode_all es1))) in *.
  assert (Hoff : 0 <= off) by (unfold off; lia).
  destruct (rec_reads (mm := mm) e _ _ Hb eq_refl) as (_ & R2 & _).
  set (size := load32 mm (m + 4) - sizeof_madt) in *.
  assert (Hsize : 0 <= size < 2 ^ 32) by (unfold size, sizeof_madt in *; lia).
  rewrite (w64_id size) by lia.
  rewrite (proj2 (Z.ltb_lt off size)) by lia. cbn [negb]. cbv zeta. fold table.
  unfold bind at 1, entry_length at 1.
  rewrite (lift_vread (mm := mm) h 1) by (done || (cbn; lia)). cbn [loadn].
  rewrite R2, Z.mul_0_r, Z.add_0_r. rewrite (proj2 (Z.eqb_neq (rec_length e) 0)) by lia.
  rewrite (w64_id (off + rec_length e)) by lia.
  rewrite (proj2 (Z.ltb_ge size (off + rec_length e))) by lia. cbn [orb].
  assert (Hoff' : off + rec_length e = Z.of_nat (length (encode_all (es1 ++ [e])))).
  { unfold off, encode_all. rewrite bind_app, length_app. cbn. rewrite app_nil_r.
    unfold rec_length. lia. }
  by rewrite Hoff'.
Qed.

(** The loop over a run of good entries. *)
Lemma madt_loop_prefix es1 es2 es3 rounds h :
  madt_holds h (es1 ++ es2 ++ es3) -> Forall rec_ok es2 -> madt h = parsed base table es1 ->
  madt_loop (length es2 + rounds) m (Z.of_nat (length (encode_all es1))) h =
    madt_loop rounds m (Z.of_nat (length (encode_all (es1 ++ es2))))
      (set_madt (parsed base table (es1 ++ es2)) h).
Proof.
  intros Hm Hok. revert es1 h Hm. induction Hok as [|e es2 He Hok IH]; intros es1 h Hm Hp.
  - cbn [length Nat.add]. rewrite app_nil_r, <-Hp. by destruct h.
  - cbn [app length Nat.add] in *. pose proof Hm as (Hmem & _).
    rewrite (madt_round h es1 e (es2 ++ es3)) by (done || apply He).
    destruct (madt_bytes h es1 e (es2 ++ es3) Hm) as (Hb & Ha1 & Ha2 & _). cbn zeta in *.
    unfold bind. rewrite (madt_entry_spec (mm := mm) h _ e Hb He Hmem).
    2: { destruct Hm as (_ & Hh & _). lia. }
    2: { exact Ha1. }
    rewrite Hp, <-parsed_snoc, IH; try done.
    + by rewrite <-app_assoc.
    + by rewrite <-app_assoc.
Qed.

Lemma madt_loop_end es rounds h :
  madt_holds h es -> (0 < rounds)%nat ->
  madt_loop rounds m (Z.of_nat (length (encode_all es))) h = Ret tt h.
Proof.
  intros (Hmem & Hh & Hlen & Hend & _) Hr. destruct rounds as [|rounds]; [lia|].
  pose proof (load32_range mm (m + 4)) as H32. cbn [madt_loop]. unfold bind at 1, sdt_length.
  rewrite (lift_vread (mm := mm) h 4 (m + 4)) by (done || (unfold table, sizeof_madt in *; cbn; lia)).
  change (loadn 4) with load32. rewrite Hlen. unfold sizeof_madt in *.
  rewrite (w64_id (44 + _ - 44)) by lia. by rewrite (proj2 (Z.ltb_ge _ _)) by lia.
Qed.
End Loop.

Definition no_madt (la : Z) : madt_state := Madt [] [] [] [] [] [] la.

Section Init.
Context (h : hw) (ptrs : list Z) (m : Z) (es : list madt_rec) (la : Z).
Hypothesis (Hroot : sdt_ok h ptrs).
Hypothesis (Hfind : find_signature (mem (core h)) APIC_SIGNATURE ptrs = Some m) (Hm : 0 < m).
Hypothesis (Hmadt : madt_holds m (mem (core h)) h es).
Hypothesis (Hempty : madt h = no_madt la).

Let base := load32 (mem (core h)) (m + 36).

(** Up to the loop. *)
Lemma madt_init_start rounds :
  madt_init rounds h = madt_loop rounds m 0 (set_madt (no_madt base) h).
Proof.
  destruct Hmadt as (_ & Hh & Hlen & Hend & _). unfold madt_init, bind at 1.
  rewrite (find_table_spec APIC_SIGNATURE eq_refl h ptrs Hroot), Hfind. cbn [default from_option id].
  rewrite (proj2 (Z.eqb_neq m NULL)) by lia. unfold sizeof_madt in *. unfold bind at 1, sdt_length.
  rewrite (lift_vread (mm := mem (core h)) h 4) by (done || (cbn; lia)). change (loadn 4) with load32.
  rewrite Hlen, (proj2 (Z.ltb_ge _ _)) by lia. unfold bind at 1, madt_lapic_base.
  rewrite (lift_vread (mm := mem (core h)) h 4) by (done || (cbn; lia)). change (loadn 4) with load32.
  unfold bind at 1, modify. by rewrite Hempty.
Qed.

(** C28: [madt_init] parses every well-formed MADT completely: each list holds the
    addresses of the entries of its type, in table order, the first 256 of them; the
    local APIC's address is that of the last override, or the table's own; nothing else
    changes, and the loop ends. *)
Theorem madt_init_correct rounds :
  Forall rec_ok es -> (length es < rounds)%nat ->
  madt_init rounds h = Ret tt (set_madt (parsed base (m + sizeof_madt) es) h).
Proof.
  intros Hok Hr. rewrite madt_init_start. set (h0 := set_madt _ h).
  pose proof (madt_loop_prefix m (mem (core h)) base [] es [] (rounds - length es) h0) as Hl.
  rewrite app_nil_r in Hl. cbn [app] in Hl.
  replace (length es + (rounds - length es))%nat with rounds in Hl by lia.
  change (Z.of_nat (length (encode_all []))) with 0 in Hl. rewrite Hl by done.
  by rewrite (madt_loop_end m (mem (core h)) es) by (done || lia).
Qed.

(** an entry too short for its type, behind any number of good ones, stops the
    boot: the kernel panics and reads none of the entry's fields. *)
Theorem madt_init_rejects rounds es1 e es2 :
  es = es1 ++ e :: es2 -> Forall rec_ok es1 -> rec_length e < 256 ->
  rec_length e < entry_size (t_type e) -> (length es1 < rounds)%nat ->
  madt_init rounds h = Panic (set_madt (parsed base (m + sizeof_madt) es1) h).
Proof.
  intros He Hok Hl Hshort Hr. rewrite madt_init_start. set (h0 := set_madt _ h).
  assert (Hm0 : madt_holds m (mem (core h)) h0 (es1 ++ e :: es2)) by (rewrite <-He; exact Hmadt).
  pose proof (madt_loop_prefix m (mem (core h)) base [] es1 (e :: es2) (rounds - length es1) h0) as Hp.
  cbn [app] in Hp. replace (length es1 + (rounds - length es1))%nat with rounds in Hp by lia.
  change (Z.of_nat (length (encode_all []))) with 0 in Hp. rewrite Hp by done.
  destruct (rounds - length es1)%nat as [|k] eqn:Hk; [lia|]. clear Hp.
  set (h1 := set_madt _ h0). 
  assert (Hm1 : madt_holds m (mem (core h)) h1 (es1 ++ e :: es2)) by exact Hm0.
  rewrite (madt_round m (mem (core h)) h1 es1 e es2) by done.
  destruct (madt_bytes m (mem (core h)) h1 es1 e es2 Hm1) as (Hb & Ha1 & Ha2 & _). cbn zeta in *.
  destruct Hm1 as (Hmem & Hh & _). unfold bind.
  by rewrite (madt_entry_short (mm := mem (core h)) h1 _ e Hb Hshort Hmem) by (exact Ha1 || lia).
Qed.
End Init.

(** ** Firmware tables of a board: an FACP and a MADT with three entries *)

Definition hh0 : Z := hhdm_offset boot0.

Definition recs0 : list madt_rec := [
  MadtRec 0 [0; 7; 1; 0; 0; 0];
  MadtRec 1 [2; 0; 0; 0; 192; 254; 0; 0; 0; 0];
  MadtRec 5 [0; 0; 0; 0; 224; 254; 0; 0; 0; 0] ].

(** ... and one with an I/O APIC entry that is too short. *)
Definition recs1 : list madt_rec := [MadtRec 0 [0; 7; 1; 0; 0; 0]; MadtRec 1 [2; 0]].

Definition tables (es : list madt_rec) : memory :=
  let m := store_fields ∅ [
    (4%nat, hh0 + 0x7004, 44); (4%nat, hh0 + 0x7024, 0x7100); (4%nat, hh0 + 0x7028, 0x7200);
    (4%nat, hh0 + 0x7100, 0x50434146);
    (4%nat, hh0 + 0x7200, 0x43495041); (4%nat, hh0 + 0x7204, 44 + Z.of_nat (length (encode_all es)));
    (4%nat, hh0 + 0x7224, 0xFEE00000)] in
  store_bytes m (hh0 + 0x722C) (encode_all es).

Definition no_smp : smp_state := Smp 0 0 0 (replicate 64 (CpuLocal 0 0 false)).
Definition no_idt : idt_state :=
  Idt (replicate 256 (IdtEntry 0 0 0 0 0 0 0)) (replicate 256 None).
Definition no_gdt : gdt_state :=
  Gdt (replicate 7 (GdtEntry 0 0 0 0 0 0)) (GdtPtr 0 0)
    (TssEntry 0 0 0 0 0 0 0 0 0 0 0 0 0 0 0).

Definition board (s : machine) : hw :=
  Hw s [] (Acpi false (hh0 + 0x7000)) (no_madt 0) (Apic 0 0 0) no_smp no_idt no_gdt
    (Timer None false) spinlock_init.

Definition fw (es : list madt_rec) : hw := board (set_mem (tables es) boot0).
Definition ptrs0 : list Z := [hh0 + 0x7100; hh0 + 0x7200].

Lemma ptrs0_end i p : ptrs0 !! S (S i) = Some p -> False.
Proof. by destruct i. Qed.

Lemma fw_tables es : es = recs0 \/ es = recs1 ->
  sdt_ok (fw es) ptrs0 /\ find_signature (tables es) APIC_SIGNATURE ptrs0 = Some (hh0 + 0x7200) /\
  madt_holds (hh0 + 0x7200) (tables es) (fw es) es.
Proof.
  intros Hes. split_and!.
  - split.
    + vm_compute. discriminate.
    + vm_compute. discriminate.
    + destruct Hes as [-> | ->]; split; vm_compute; (reflexivity || discriminate).
    + cbv zeta. intros [|[|i]] p Hp; [| |exfalso; exact (ptrs0_end i p Hp)];
        (injection Hp as <-; destruct Hes as [-> | ->]; split_and!; vm_compute;
           (reflexivity || discriminate)).
  - destruct Hes as [-> | ->]; vm_compute; reflexivity.
  - refine (conj eq_refl (conj _ _)); [split; vm_compute; discriminate|].
    destruct Hes as [-> | ->]; split_and!; vm_compute; (reflexivity || discriminate).
Qed.

Lemma acpi_find_table_correct_witness :
  exists p, acpi_find_table APIC_SIGNATURE (fw recs0) = Ret p (fw recs0) /\
    ((p = NULL /\ forall q, q ∈ ptrs0 -> bytes_at 4 (tables recs0) q <> APIC_SIGNATURE) \/
     exists l1 l2, ptrs0 = l1 ++ p :: l2 /\ bytes_at 4 (tables recs0) p = APIC_SIGNATURE /\
       forall q, q ∈ l1 -> bytes_at 4 (tables recs0) q <> APIC_SIGNATURE).
Proof.
  destruct (fw_tables recs0 (or_introl eq_refl)) as (H & _).
  exact (acpi_find_table_correct (fw recs0) ptrs0 APIC_SIGNATURE H eq_refl).
Defined.

Lemma madt_init_correct_witness :
  madt_lapic_list (parsed 0xFEE00000 (hh0 + 0x7200 + sizeof_madt) recs0) = [hh0 + 0x722C] /\
  madt_init 5 (fw recs0) = Ret tt (set_madt
    (parsed (load32 (tables recs0) (hh0 + 0x7200 + 36)) (hh0 + 0x7200 + sizeof_madt) recs0) (fw recs0)).
Proof.
  split; [vm_compute; reflexivity|].
  destruct (fw_tables recs0 (or_introl eq_refl)) as (H1 & H2 & H3).
  apply (madt_init_correct (fw recs0) ptrs0 (hh0 + 0x7200) recs0 0 H1 H2 eq_refl H3 eq_refl 5).
  - repeat constructor; cbn; (lia || discriminate).
  - cbn. lia.
Defined.

Lemma madt_init_rejects_witness :
  madt_init 5 (fw recs1) = Panic (set_madt
    (parsed (load32 (tables recs1) (hh0 + 0x7200 + 36)) (hh0 + 0x7200 + sizeof_madt)
       [MadtRec 0 [0; 7; 1; 0; 0; 0]]) (fw recs1)).
Proof.
  destruct (fw_tables recs1 (or_intror eq_refl)) as (H1 & H2 & H3).
  apply (madt_init_rejects (fw recs1) ptrs0 (hh0 + 0x7200) recs1 0 H1 H2 eq_refl H3 eq_refl 5
    [MadtRec 0 [0; 7; 1; 0; 0; 0]] (MadtRec 1 [2; 0]) [] eq_refl).
  - repeat constructor; cbn; (lia || discriminate).
  - vm_compute. reflexivity.
  - vm_compute. reflexivity.
  - cbn. lia.
Defined.
