(* ===== verification/Apic.v ===== *)
(** * sys/apic: the local and the I/O interrupt controllers; [get_cpu_local]

    Registers are reached through memory-mapped words ([mmio_read], [mmio_write]).
    Loops that wait for the hardware take fuel.  Log lines are left out. *)

From S2P Require Export Acpi.

(** Addresses that the linker chooses. *)
Class Layout := {
  cpu_locals_at : Z;
  idt_descriptor_at : Z;
  gdt_at : Z;
  tss_at : Z;
  stubs : Z -> Z;
  test_at : Z;
  smp_entry_at : Z }.

Definition sizeof_cpu_local : Z := 12.

Definition set_cpu_locals (l : list cpu_local_t) (h : hw) : hw :=
  set_smp (Smp (cpu_count (smp h)) (bootstrap_lapic_id (smp h)) (started_cpus (smp h)) l) h.

(** ** sys/apic/lapic.h *)

Definition LAPIC_BASE_MSR : Z := 0x1B.
Definition LAPIC_ID : Z := 0x0020.
Definition LAPIC_TPR : Z := 0x0080.
Definition LAPIC_EOI : Z := 0x00B0.
Definition LAPIC_SVR : Z := 0x00F0.
Definition LAPIC_ICRLO : Z := 0x0300.
Definition LAPIC_ICRHI : Z := 0x0310.
Definition LAPIC_LVT_TIMER : Z := 0x0320.
Definition LAPIC_LVT_LINT0 : Z := 0x350.
Definition LAPIC_LVT_LINT1 : Z := 0x360.

Definition ICR_FIXED : Z := 0x00000000.
Definition ICR_INIT : Z := 0x00000500.
Definition ICR_STARTUP : Z := 0x00000600.
Definition ICR_PHYSICAL : Z := 0x00000000.
Definition ICR_ASSERT : Z := 0x00004000.
Definition ICR_EDGE : Z := 0x00000000.
Definition ICR_NO_SHORTHAND : Z := 0x00000000.
Definition ICR_ALL_EXCLUDING_SELF : Z := 0x000C0000.
Definition ICR_SEND_PENDING : Z := 0x00001000.
Definition ICR_DESTINATION_SHIFT : Z := 24.
Definition LAPIC_SPURIOUS_VECTOR : Z := 0xFF.

Definition LAPIC_REG_ALIGN : Z := 16.
Definition LAPIC_REG_SIZE : Z := 4.

Definition set_lapic_base (v : Z) (h : hw) : hw :=
  set_apic (Apic (lapic_msr (apic h)) v (ioapic_base (apic h))) h.
Definition set_lapic_msr (v : Z) (h : hw) : hw :=
  set_apic (Apic v (lapic_base (apic h)) (ioapic_base (apic h))) h.
Definition set_ioapic_base (v : Z) (h : hw) : hw :=
  set_apic (Apic (lapic_msr (apic h)) (lapic_base (apic h)) v) h.

(** [x &= ~mask], on 32 bits. *)
Definition clear32 (x mask : Z) : Z := Z.land x (w32 (Z.lnot mask)).

Section Apic.
Context {FA : FrameAlloc} {PF : Platform} {LY : Layout}.

(** ** Registers of the local APIC *)

Definition lapic_write (offset value : Z) : H unit :=
  base <- gets (fun h => lapic_base (apic h)) ;;
  if base =? 0 then kpanic else
  if negb (offset mod LAPIC_REG_ALIGN =? 0) then kpanic else
  mmio_write (base + 4 * (offset / LAPIC_REG_SIZE)) value.

Definition lapic_read (offset : Z) : H Z :=
  base <- gets (fun h => lapic_base (apic h)) ;;
  if base =? 0 then ret 0 else
  if negb (offset mod LAPIC_REG_ALIGN =? 0) then kpanic else
  mmio_read (base + 4 * (offset / LAPIC_REG_SIZE)).

Definition lapic_get_id : H Z :=
  base <- gets (fun h => lapic_base (apic h)) ;;
  if base =? 0 then kpanic else
  v <- lapic_read LAPIC_ID ;;
  let id := Z.shiftr v 24 in
  if 255 <? id then kpanic else ret id.

Definition map_device (phys : Z) : H Z :=
  hh <- gets (fun h => hhdm_offset (core h)) ;;
  let virt := HIGHER_HALF hh phys in
  r <- lift (pm <- pmget ;; vmap pm virt phys (Z.lor VMM_PRESENT (Z.lor VMM_WRITE VMM_NX))) ;;
  if negb (r =? 0) then kpanic else ret virt.

Definition lapic_init : H unit :=
  msr <- rdmsr LAPIC_BASE_MSR ;;
  let msr := Z.lor msr (Z.shiftl 1 11) in
  wrmsr LAPIC_BASE_MSR msr ;;;
  modify (set_lapic_msr msr) ;;;
  let phys_addr := Z.land msr (w64 (Z.lnot 0xFFF)) in
  if negb (Z.land phys_addr 0xFFF =? 0) then kpanic else
  virt_addr <- map_device phys_addr ;;
  modify (set_lapic_base virt_addr) ;;;
  lapic_get_id ;;;
  lapic_write LAPIC_EOI 0.

(** [reg |= 1 << 16]: the entry is masked. *)
Definition mask_lvt (reg : Z) : H unit :=
  v <- lapic_read reg ;; lapic_write reg (Z.lor v (Z.shiftl 1 16)).

Definition lapic_enable : H unit :=
  base <- gets (fun h => lapic_base (apic h)) ;;
  if base =? 0 then ret tt else
  svr <- lapic_read LAPIC_SVR ;;
  let svr := Z.lor svr (Z.shiftl 1 8) in
  let svr := clear32 svr (Z.shiftl 1 9) in
  let svr := Z.lor (clear32 svr 0xFF) LAPIC_SPURIOUS_VECTOR in
  lapic_write LAPIC_SVR svr ;;;
  mask_lvt LAPIC_LVT_TIMER ;;;
  mask_lvt LAPIC_LVT_LINT0 ;;;
  mask_lvt LAPIC_LVT_LINT1 ;;;
  lapic_write LAPIC_TPR 0.

Definition lapic_eoi : H unit := lapic_write LAPIC_EOI 0.

(** [while (lapic_read(LAPIC_ICRLO) & ICR_SEND_PENDING) pause;] *)
Fixpoint wait_icr (fuel : nat) : H unit :=
  match fuel with
  | O => out_of_fuel
  | S fuel' =>
      v <- lapic_read LAPIC_ICRLO ;;
      if has v ICR_SEND_PENDING then emit Pause ;;; wait_icr fuel' else ret tt
  end.

Definition lapic_send_ipi (fuel : nat) (apic_id vector delivery_mode dest_mode shorthand : Z) : H unit :=
  base <- gets (fun h => lapic_base (apic h)) ;;
  if base =? 0 then kpanic else
  if (255 <? vector) && negb (delivery_mode =? ICR_INIT) && negb (delivery_mode =? ICR_STARTUP)
  then kpanic else
  if (255 <? apic_id) && (shorthand =? ICR_NO_SHORTHAND) then kpanic else
  wait_icr fuel ;;;
  (if shorthand =? ICR_NO_SHORTHAND
   then lapic_write LAPIC_ICRHI (w32 (Z.shiftl apic_id ICR_DESTINATION_SHIFT))
   else lapic_write LAPIC_ICRHI 0) ;;;
  let icr_lo := Z.lor vector (Z.lor delivery_mode (Z.lor dest_mode
    (Z.lor ICR_ASSERT (Z.lor ICR_EDGE shorthand)))) in
  lapic_write LAPIC_ICRLO icr_lo ;;;
  when (negb (delivery_mode =? ICR_INIT) && negb (delivery_mode =? ICR_STARTUP)) (wait_icr fuel).

(** ** arch/smp.c: the running CPU *)

Definition MSR_GS_BASE : Z := 0xC0000101.

Definition cpu_ptr (i : Z) : Z := cpu_locals_at + i * sizeof_cpu_local.

(** The first of the CPUs [i], [i + 1], ... with the APIC identifier. *)
Fixpoint find_cpu (n : nat) (i id : Z) (cpus : list cpu_local_t) : option Z :=
  match n with
  | O => None
  | S n' =>
      match cpus !! Z.to_nat i with
      | Some c => if lapic_id c =? id then Some i else find_cpu n' (i + 1) id cpus
      | None => find_cpu n' (i + 1) id cpus
      end
  end.

Definition get_cpu_local : H Z :=
  cpu <- rdmsr MSR_GS_BASE ;;
  if negb (cpu =? NULL) then ret cpu else
  id <- lapic_get_id ;;
  s <- gets smp ;;
  match find_cpu (Z.to_nat (cpu_count s)) 0 id (cpu_locals s) with
  | Some i => ret (cpu_ptr i)
  | None => ret NULL
  end.

Definition set_cpu_local (cpu : Z) : H unit := wrmsr MSR_GS_BASE cpu.

(** The element of [cpu_locals] behind a pointer; NULL faults. *)
Definition deref_cpu (p : Z) : H cpu_local_t :=
  if p =? NULL then kpanic else
  gets (fun h => default (CpuLocal 0 0 false)
    (cpu_locals (smp h) !! Z.to_nat ((p - cpu_locals_at) / sizeof_cpu_local))).

Definition update_cpu (p : Z) (f : cpu_local_t -> cpu_local_t) : H unit :=
  if p =? NULL then kpanic else
  modify (fun h => set_cpu_locals
    (alter f (Z.to_nat ((p - cpu_locals_at) / sizeof_cpu_local)) (cpu_locals (smp h))) h).

(** ** sys/apic/ioapic.c *)

Definition IOAPIC_OFF_IOREGSEL : Z := 0x0.
Definition IOAPIC_OFF_IOWIN : Z := 0x10.
Definition IOAPIC_IDX_IOAPICVER : Z := 0x01.

(** The GSI of the first override of the IRQ. *)
Fixpoint irq_to_gsi_loop (isos : list Z) (irq : Z) : K Z :=
  match isos with
  | [] => ret irq
  | iso :: isos' =>
      src <- iso_irq_source iso ;;
      if src =? irq then iso_gsi iso else irq_to_gsi_loop isos' irq
  end.

Definition irq_to_gsi (irq : Z) : H Z :=
  isos <- gets (fun h => madt_iso_list (madt h)) ;;
  lift (irq_to_gsi_loop isos irq).

Definition ioapic_write (index value : Z) : H unit :=
  ioapic <- gets (fun h => ioapic_base (apic h)) ;;
  if ioapic =? 0 then kpanic else
  mmio_write (ioapic + IOAPIC_OFF_IOREGSEL) (w8 index) ;;;
  mmio_write (ioapic + IOAPIC_OFF_IOWIN) value.

Definition ioapic_read (index : Z) : H Z :=
  ioapic <- gets (fun h => ioapic_base (apic h)) ;;
  if ioapic =? 0 then ret 0 else
  mmio_write (ioapic + IOAPIC_OFF_IOREGSEL) (w8 index) ;;;
  mmio_read (ioapic + IOAPIC_OFF_IOWIN).

Definition ioapic_max_irqs : H Z :=
  ver <- ioapic_read IOAPIC_IDX_IOAPICVER ;;
  ret (Z.land (Z.shiftr ver 16) 0xFF + 1).

Definition ioapic_map (irq vec dest_mode id : Z) : H unit :=
  gsi <- irq_to_gsi (w32 irq) ;;
  max_irqs <- ioapic_max_irqs ;;
  if max_irqs <=? gsi then kpanic else
  if (vec <? 32) || (255 <? vec) || (vec =? LAPIC_SPURIOUS_VECTOR) then kpanic else
  let redtble_lo := Z.lor (Z.shiftl 1 16)
    (Z.lor (Z.shiftl (w8 dest_mode) 11) (Z.lor (Z.shiftl 0 8) vec)) in
  let redtble_hi := Z.shiftl (w8 id) 24 in
  ioapic_write (0x10 + 2 * gsi) redtble_lo ;;;
  ioapic_write (0x10 + 2 * gsi + 1) redtble_hi.

Definition ioapic_unmask (irq : Z) : H unit :=
  gsi <- irq_to_gsi (w32 irq) ;;
  max_irqs <- ioapic_max_irqs ;;
  if max_irqs <=? gsi then ret tt else
  redtble_lo <- ioapic_read (0x10 + 2 * gsi) ;;
  ioapic_write (0x10 + 2 * gsi) (clear32 redtble_lo (Z.shiftl 1 16)).

(** One GSI of the loop in [ioapic_init]; the overrides are only logged. *)
Definition init_gsi (gsi : Z) : H unit :=
  let vec := 32 + gsi in
  let vec := if vec =? LAPIC_SPURIOUS_VECTOR then vec + 1 else vec in
  let redtble_lo := Z.lor (Z.shiftl 1 16) (Z.lor (Z.shiftl 0 11) (Z.lor (Z.shiftl 0 8) vec)) in
  p <- get_cpu_local ;;
  cpu <- deref_cpu p ;;
  let redtble_hi := w32 (Z.shiftl (lapic_id cpu) 24) in
  ioapic_write (0x10 + 2 * gsi) redtble_lo ;;;
  ioapic_write (0x10 + 2 * gsi + 1) redtble_hi.

Definition ioapic_init : H unit :=
  l <- gets (fun h => madt_ioapic_list (madt h)) ;;
  match l with
  | [] => kpanic
  | e :: _ =>
      phys_addr <- lift (ioapic_addr e) ;;
      if negb (Z.land phys_addr 0xFFF =? 0) then kpanic else
      virt_addr <- map_device phys_addr ;;
      modify (set_ioapic_base virt_addr) ;;;
      max_irqs <- ioapic_max_irqs ;;
      for_loop (Z.to_nat max_irqs) 0 1 init_gsi
  end.
End Apic.
