(* ===== verification/ApicProps.v ===== *)
(** * The interrupt controllers: theorems *)

From S2P Require Export Apic.

(** ** The I/O APIC as a device

    Two registers: what is written to IOREGSEL selects the register that IOWIN shows. *)

Fixpoint selected (b : Z) (t : list io_event) : Z :=
  match t with
  | Write32 a v :: t' => if a =? b then v else selected b t'
  | _ :: t' => selected b t'
  | [] => 0
  end.

(** The last value written to register [idx]. *)
Fixpoint reg (b : Z) (t : list io_event) (idx : Z) : option Z :=
  match t with
  | Write32 a v :: t' =>
      if (a =? b + IOAPIC_OFF_IOWIN) && (selected b t' =? idx) then Some v else reg b t' idx
  | _ :: t' => reg b t' idx
  | [] => None
  end.

(** All bits of a redirection entry but delivery status and remote IRR, which the
    controller owns. *)
Definition RW_BITS : Z := 0xFFFFAFFF.

(** The documented behaviour: the version register tells the number of entries, and a
    redirection register reads as it was last written, up to the two status bits. *)
Record ioapic_device {PF : Platform} (b n : Z) : Prop := IoapicDevice {
  io_version : forall t, selected b t = IOAPIC_IDX_IOAPICVER ->
    Z.land (Z.shiftr (w32 (answer t (Read32 (b + IOAPIC_OFF_IOWIN)))) 16) 0xFF + 1 = n;
  io_table : forall t idx v, 0x10 <= idx -> selected b t = idx -> reg b t idx = Some v ->
    Z.land (w32 (answer t (Read32 (b + IOAPIC_OFF_IOWIN)))) RW_BITS = Z.land v RW_BITS }.

(** An override: IRQ and GSI, in memory at [a]. *)
Definition iso_at (h : hw) (a : Z) (o : Z * Z) : Prop :=
  0 <= hhdm_offset (core h) <= a /\ a + 10 <= 2 ^ 64 /\
  load8 (mem (core h)) (a + 3) = o.1 /\ load32 (mem (core h)) (a + 4) = o.2.

(** The GSI of an IRQ under a list of overrides. *)
Fixpoint gsi_of (ovr : list (Z * Z)) (irq : Z) : Z :=
  match ovr with
  | [] => irq
  | (src, gsi) :: ovr' => if src =? irq then gsi else gsi_of ovr' irq
  end.

Section Ioapic.
Context {FA : FrameAlloc} {PF : Platform} {LY : Layout}.

Lemma irq_to_gsi_spec h ovr irq :
  Forall2 (iso_at h) (madt_iso_list (madt h)) ovr ->
  irq_to_gsi irq h = Ret (gsi_of ovr irq) h.
Proof.
  intros Hall. unfold irq_to_gsi, bind at 1, gets, lift.
  assert (Hl : irq_to_gsi_loop (madt_iso_list (madt h)) irq (core h) = Ret (gsi_of ovr irq) (core h)).
  { induction Hall as [|a [src gsi] l ovr (H1 & H2 & H3 & H4) _ IH]; [done|].
    cbn [irq_to_gsi_loop gsi_of fst snd] in *. unfold bind, iso_irq_source, iso_gsi.
    rewrite (vread_kernel 1) by (cbn; lia). cbn [loadn]. rewrite H3, Z.mul_0_r, Z.add_0_r.
    destruct (src =? irq); [|exact IH].
    rewrite (vread_kernel 4) by (cbn; lia). change (loadn 4) with load32. by rewrite H4. }
  rewrite Hl. by destruct h.
Qed.

Section Regs.
Context (b : Z) (Hb0 : 0 < b) (Hb : b + 20 <= 2 ^ 64).

Definition at_base (h : hw) : Prop := ioapic_base (apic h) = b.

Lemma ioapic_write_run h i v :
  at_base h -> ioapic_write i v h =
    Ret tt (set_trace (Write32 (b + 16) (w32 v) :: Write32 b (w8 i) :: trace h) h).
Proof.
  intros Hh. unfold ioapic_write, bind, gets. rewrite Hh, (proj2 (Z.eqb_neq b 0)) by lia.
  unfold mmio_write, emit, modify, IOAPIC_OFF_IOREGSEL, IOAPIC_OFF_IOWIN.
  rewrite (w64_id (b + 0)), (w64_id (b + 16)), Z.add_0_r by lia.
  assert (Hw : w32 (w8 i) = w8 i).
  { apply w32_id. unfold w8. pose proof (Z.mod_pos_bound i (2 ^ 8)). lia. }
  by rewrite Hw.
Qed.

Lemma ioapic_read_run h i :
  at_base h -> let t := Write32 b (w8 i) :: trace h in
  ioapic_read i h =
    Ret (w32 (answer t (Read32 (b + 16)))) (set_trace (Read32 (b + 16) :: t) h).
Proof.
  intros Hh. unfold ioapic_read, bind, gets. rewrite Hh, (proj2 (Z.eqb_neq b 0)) by lia.
  unfold mmio_write, mmio_read, emit, modify, ask, bind, ret, IOAPIC_OFF_IOREGSEL, IOAPIC_OFF_IOWIN.
  rewrite (w64_id (b + 0)), (w64_id (b + 16)), Z.add_0_r by lia.
  assert (Hw : w32 (w8 i) = w8 i).
  { apply w32_id. unfold w8. pose proof (Z.mod_pos_bound i (2 ^ 8)). lia. }
  by rewrite Hw.
Qed.

(** A write through the window. *)
Lemma reg_write t i v idx :
  reg b (Write32 (b + 16) v :: Write32 b i :: t) idx =
    if i =? idx then Some v else reg b t idx.
Proof.
  cbn [reg selected]. unfold IOAPIC_OFF_IOWIN. rewrite !Z.eqb_refl. cbn [andb].
  destruct (i =? idx); [done|]. by rewrite (proj2 (Z.eqb_neq b (b + 16))) by lia.
Qed.

Lemma reg_read t a idx : reg b (Read32 a :: t) idx = reg b t idx.
Proof. done. Qed.

Lemma reg_select t i idx : reg b (Write32 b i :: t) idx = reg b t idx.
Proof. cbn [reg]. unfold IOAPIC_OFF_IOWIN. by rewrite (proj2 (Z.eqb_neq b (b + 16))) by lia. Qed.

Lemma selected_select t i : selected b (Write32 b i :: t) = i.
Proof. cbn [selected]. by rewrite Z.eqb_refl. Qed.

Lemma max_irqs_run h n :
  ioapic_device b n -> at_base h -> exists t,
  ioapic_max_irqs h = Ret n (set_trace t h) /\ forall idx, reg b t idx = reg b (trace h) idx.
Proof.
  intros Hd Hh. unfold ioapic_max_irqs, bind. rewrite (ioapic_read_run h) by done. cbv zeta.
  eexists. split.
  - unfold ret. f_equal. apply (io_version b n Hd). apply selected_select.
  - intros idx. by rewrite reg_read, reg_select.
Qed.
End Regs.

(** A redirection entry's low word: masked as written, unmasked as read back. *)
Lemma redtble_bits vec dm x :
  0 <= vec < 256 -> dm = 0 \/ dm = 1 ->
  Z.land x RW_BITS = Z.land (Z.lor (Z.shiftl 1 16) (Z.lor (Z.shiftl (w8 dm) 11)
    (Z.lor (Z.shiftl 0 8) vec))) RW_BITS ->
  Z.land (w32 (clear32 x (Z.shiftl 1 16))) RW_BITS = vec + 2048 * dm.
Proof.
  intros Hv Hdm Hx. unfold clear32, w32. rewrite <-!Z.land_ones by lia.
  set (c := Z.lnot (Z.shiftl 1 16)).
  assert (He : Z.land (Z.land (Z.land x (Z.land c (Z.ones 32))) (Z.ones 32)) RW_BITS =
    Z.land (Z.land x RW_BITS) (Z.land c (Z.ones 32))).
  { apply Z.bits_inj'. intros i _. rewrite !Z.land_spec.
    by destruct (Z.testbit x i), (Z.testbit c i), (Z.testbit (Z.ones 32) i), (Z.testbit RW_BITS i). }
  rewrite He, Hx. unfold c. clear -Hv Hdm.
  assert (Hall : forallb (fun k => forallb (fun d =>
      Z.land (Z.land (Z.lor (Z.shiftl 1 16) (Z.lor (Z.shiftl (w8 d) 11)
        (Z.lor (Z.shiftl 0 8) k))) RW_BITS) (Z.land (Z.lnot (Z.shiftl 1 16)) (Z.ones 32))
      =? k + 2048 * d) [0; 1]) (Z.of_nat <$> seq 0 256) = true) by (vm_compute; reflexivity).
  rewrite forallb_forall in Hall. specialize (Hall vec). rewrite forallb_forall in Hall.
  apply Z.eqb_eq. apply Hall; [|destruct Hdm as [-> | ->]; cbn; tauto].
  apply list_elem_of_In, list_elem_of_fmap. exists (Z.to_nat vec).
  split; [lia|]. apply elem_of_seq. lia.
Qed.

Section Route.
Context (b n : Z) (ovr : list (Z * Z)) (irq : Z).
Context (Hb0 : 0 < b) (Hb : b + 20 <= 2 ^ 64) (Hd : ioapic_device b n).
Let gsi := gsi_of ovr (w32 irq).
Context (Hgsi : 0 <= gsi < n) (Hg : gsi < 120).

Definition redtble_lo (vec dm : Z) : Z :=
  Z.lor (Z.shiftl 1 16) (Z.lor (Z.shiftl (w8 dm) 11) (Z.lor (Z.shiftl 0 8) vec)).

Lemma w8_small k : 0 <= k < 256 -> w8 k = k.
Proof. intros Hk. apply Z.mod_small. lia. Qed.

(** [ioapic_map] writes the two halves of the entry. *)
Lemma ioapic_map_run h vec dm id :
  at_base b h -> Forall2 (iso_at h) (madt_iso_list (madt h)) ovr -> 32 <= vec < 255 -> 0 <= id < 256 ->
  exists t, ioapic_map irq vec dm id h = Ret tt (set_trace t h) /\
    forall idx, reg b t idx =
      if 0x10 + 2 * gsi + 1 =? idx then Some (id * 2 ^ 24)
      else if 0x10 + 2 * gsi =? idx then Some (w32 (redtble_lo vec dm)) else reg b (trace h) idx.
Proof.
  intros Hbase Hovr Hvec Hid. unfold ioapic_map, bind at 1.
  rewrite (irq_to_gsi_spec h ovr) by done. fold gsi. unfold bind at 1.
  destruct (max_irqs_run b Hb0 Hb h n Hd Hbase) as (t1 & -> & Ht1).
  rewrite (proj2 (Z.leb_gt n gsi)) by lia.
  rewrite (proj2 (Z.ltb_ge vec 32)), (proj2 (Z.ltb_ge 255 vec)) by lia.
  rewrite (proj2 (Z.eqb_neq vec LAPIC_SPURIOUS_VECTOR)) by (unfold LAPIC_SPURIOUS_VECTOR; lia).
  cbn [orb]. cbv zeta. fold (redtble_lo vec dm). set (hi := Z.shiftl (w8 id) 24).
  unfold bind at 1. rewrite (ioapic_write_run b Hb0 Hb _ _ (redtble_lo vec dm)) by done.
  rewrite (ioapic_write_run b Hb0 Hb _ _ hi) by done. rewrite !w8_small by lia.
  cbn [trace set_trace].
  assert (Hhi : w32 hi = id * 2 ^ 24).
  { unfold hi. rewrite w8_small, Z.shiftl_mul_pow2 by lia. apply w32_id. lia. }
  eexists. split; [reflexivity|]. intros idx. rewrite !reg_write by done. by rewrite Hhi, Ht1.
Qed.

(** [ioapic_unmask] clears the mask bit of what it reads. *)
Lemma ioapic_unmask_run h v :
  at_base b h -> Forall2 (iso_at h) (madt_iso_list (madt h)) ovr ->
  reg b (trace h) (0x10 + 2 * gsi) = Some v ->
  exists t x, ioapic_unmask irq h = Ret tt (set_trace t h) /\ Z.land x RW_BITS = Z.land v RW_BITS /\
    forall idx, reg b t idx =
      if 0x10 + 2 * gsi =? idx then Some (w32 (clear32 x (Z.shiftl 1 16))) else reg b (trace h) idx.
Proof.
  intros Hbase Hovr Hv. unfold ioapic_unmask, bind at 1.
  rewrite (irq_to_gsi_spec h ovr) by exact Hovr. fold gsi. unfold bind at 1.
  destruct (max_irqs_run b Hb0 Hb h n Hd Hbase) as (t1 & -> & Ht1).
  rewrite (proj2 (Z.leb_gt n gsi)) by lia.
  unfold bind. rewrite (ioapic_read_run b Hb0 Hb) by done. rewrite w8_small by lia. cbv zeta.
  set (x := w32 _). rewrite (ioapic_write_run b Hb0 Hb) by done. rewrite w8_small by lia.
  cbn [trace set_trace]. eexists _, x. split; [reflexivity|]. split.
  - apply (io_table b n Hd _ (0x10 + 2 * gsi) v); [lia|apply selected_select|].
    by rewrite reg_select, Ht1 by done.
  - intros idx. rewrite reg_write by done. by rewrite reg_read, reg_select, Ht1 by done.
Qed.
End Route.

(** C29: [ioapic_map] followed by [ioapic_unmask]: the redirection entry of the IRQ's
    GSI (after the overrides of the MADT) holds the vector, the destination mode and
    the destination, fixed delivery, and is no longer masked; no other register of the
    controller is written and nothing else changes. *)
Theorem ioapic_route h b n ovr irq vec dm id :
  let gsi := gsi_of ovr (w32 irq) in
  0 < b -> b + 20 <= 2 ^ 64 -> ioapic_base (apic h) = b -> ioapic_device b n ->
  Forall2 (iso_at h) (madt_iso_list (madt h)) ovr ->
  0 <= gsi < n -> gsi < 120 -> 32 <= vec < 255 -> dm = 0 \/ dm = 1 -> 0 <= id < 256 ->
  wp (ioapic_map irq vec dm id ;;; ioapic_unmask irq) (fun _ h' =>
    h' = set_trace (trace h') h /\
    (exists lo, reg b (trace h') (0x10 + 2 * gsi) = Some lo /\ Z.land lo RW_BITS = vec + 2048 * dm) /\
    reg b (trace h') (0x10 + 2 * gsi + 1) = Some (id * 2 ^ 24) /\
    forall idx, idx <> 0x10 + 2 * gsi -> idx <> 0x10 + 2 * gsi + 1 ->
      reg b (trace h') idx = reg b (trace h) idx) h.
Proof.
  intros gsi Hb0 Hb Hbase Hd Hovr Hgsi Hg Hvec Hdm Hid.
  destruct (ioapic_map_run b n ovr irq Hb0 Hb Hd Hgsi Hg h vec dm id Hbase Hovr Hvec Hid)
    as (t1 & H1 & Ht1).
  assert (Hlo : reg b t1 (0x10 + 2 * gsi) = Some (w32 (redtble_lo vec dm))).
  { rewrite Ht1. fold gsi. rewrite (proj2 (Z.eqb_neq (0x10 + 2 * gsi + 1) _)) by lia.
    by rewrite Z.eqb_refl. }
  destruct (ioapic_unmask_run b n ovr irq Hb0 Hb Hd Hgsi Hg (set_trace t1 h) _ Hbase Hovr Hlo)
    as (t2 & x & H2 & Hx & Ht2). fold gsi in Ht1, Ht2. cbn [trace set_trace] in Ht2.
  unfold wp, bind. rewrite H1, H2. split; [done|]. cbn [trace set_trace]. split; [|split].
  - eexists. rewrite Ht2, Z.eqb_refl. split; [done|]. apply redtble_bits; [lia|done|].
    rewrite Hx. unfold w32. by rewrite <-Z.land_ones, <-Z.land_assoc by lia.
  - rewrite Ht2, Ht1, (proj2 (Z.eqb_neq (0x10 + 2 * gsi) (0x10 + 2 * gsi + 1))), Z.eqb_refl by lia. done.
  - intros idx Hi1 Hi2. rewrite Ht2, Ht1.
    by rewrite (proj2 (Z.eqb_neq (0x10 + 2 * gsi) idx)), (proj2 (Z.eqb_neq (0x10 + 2 * gsi + 1) idx)) by lia.
Qed.
End Ioapic.

(** ** The local APIC *)

Section Lapic.
Context {FA : FrameAlloc} {PF : Platform} {LY : Layout}.

Section Regs.
Context (b : Z) (Hb0 : 0 < b) (Hb : b + 4096 <= 2 ^ 64).

Definition lapic_at (h : hw) : Prop := lapic_base (apic h) = b.

Lemma lapic_write_run h o v :
  lapic_at h -> o mod 16 = 0 -> 0 <= o < 4096 ->
  lapic_write o v h = Ret tt (set_trace (Write32 (b + o) (w32 v) :: trace h) h).
Proof.
  intros Hh Ho Hr. unfold lapic_write, bind, gets. rewrite Hh, (proj2 (Z.eqb_neq b 0)) by lia.
  unfold LAPIC_REG_ALIGN, LAPIC_REG_SIZE. rewrite Ho. cbn [Z.eqb negb].
  unfold mmio_write, emit, modify. pose proof (Z.div_mod o 4 ltac:(lia)).
  assert (o mod 4 = 0).
  { pose proof (Z.div_mod o 16 ltac:(lia)). rewrite Ho in *.
    replace o with ((4 * (o / 16)) * 4) by lia. by apply Z.mod_mul. }
  rewrite w64_id by lia. by replace (b + 4 * (o / 4)) with (b + o) by lia.
Qed.

Lemma lapic_read_run h o :
  lapic_at h -> o mod 16 = 0 -> 0 <= o < 4096 ->
  lapic_read o h =
    Ret (w32 (answer (trace h) (Read32 (b + o)))) (set_trace (Read32 (b + o) :: trace h) h).
Proof.
  intros Hh Ho Hr. unfold lapic_read, bind, gets. rewrite Hh, (proj2 (Z.eqb_neq b 0)) by lia.
  unfold LAPIC_REG_ALIGN, LAPIC_REG_SIZE. rewrite Ho. cbn [Z.eqb negb].
  unfold mmio_read, ask, bind, ret. pose proof (Z.div_mod o 4 ltac:(lia)).
  assert (o mod 4 = 0).
  { pose proof (Z.div_mod o 16 ltac:(lia)). rewrite Ho in *.
    replace o with ((4 * (o / 16)) * 4) by lia. by apply Z.mod_mul. }
  rewrite w64_id by lia. by replace (b + 4 * (o / 4)) with (b + o) by lia.
Qed.

(** Reads of the command register since the last other access. *)
Fixpoint polls (t : list io_event) : nat :=
  match t with
  | Read32 a :: t' => if a =? b + LAPIC_ICRLO then S (polls t') else O
  | Pause :: t' => polls t'
  | _ => O
  end.

(** The writes to device registers, newest first. *)
Fixpoint writes (t : list io_event) : list io_event :=
  match t with
  | Write32 a v :: t' => Write32 a v :: writes t'
  | _ :: t' => writes t'
  | [] => []
  end.

(** The base of %gs, which [rdmsr] reads: the value written last, but loading the segment
    registers, with descriptors of base 0, sets it to 0. *)
Fixpoint gs_base (t : list io_event) : Z :=
  match t with
  | Wrmsr m v :: t' => if m =? MSR_GS_BASE then v else gs_base t'
  | LoadSegments _ _ :: _ => 0
  | _ :: t' => gs_base t'
  | [] => 0
  end.

(** An interrupt is sent before the register has been read [k] times. *)
Definition sends_within (k : nat) : Prop :=
  forall t, (k <= polls t)%nat ->
    has (w32 (answer t (Read32 (b + LAPIC_ICRLO)))) ICR_SEND_PENDING = false.

Lemma wait_icr_spec k fuel h :
  sends_within k -> lapic_at h -> (k < fuel + polls (trace h))%nat -> (0 < fuel)%nat ->
  wp (wait_icr fuel) (fun _ h' => h' = set_trace (trace h') h /\
    writes (trace h') = writes (trace h) /\ gs_base (trace h') = gs_base (trace h) /\
    trace h `suffix_of` trace h') h.
Proof.
  intros Hk. revert h. induction fuel as [|fuel IH]; intros h Hh Hf Hf0; [lia|]. cbn [wait_icr].
  wp_step. unfold wp at 1. rewrite lapic_read_run by (done || (unfold LAPIC_ICRLO; lia)).
  set (v := w32 _). destruct (has v ICR_SEND_PENDING) eqn:Hv.
  - assert (Hp : (polls (trace h) < k)%nat).
    { destruct (le_lt_dec k (polls (trace h))) as [Hle|]; [|done].
      pose proof (Hk (trace h) Hle) as Hd. unfold v in Hv. congruence. }
    wp_step. unfold emit at 1. wp_step. set (h1 := set_trace _ (set_trace _ h)).
    assert (Hpolls : polls (trace h1) = S (polls (trace h))).
    { cbn [h1 trace set_trace polls]. by rewrite Z.eqb_refl. }
    eapply wp_mono; [apply (IH h1); [exact Hh|rewrite Hpolls; lia|lia]|].
    cbv beta. intros _ h' (He & Hw & Hg & Hs). split_and!; [rewrite He; done|exact Hw|exact Hg|].
    by do 2 apply suffix_cons_l in Hs.
  - wp_step. split_and!; [done..|]. by apply suffix_cons_r.
Qed.

Lemma lapic_send_ipi_spec k fuel h apic_id vector mode dmode shorthand :
  sends_within k -> lapic_at h -> (k < fuel)%nat -> 0 <= vector < 256 -> 0 <= apic_id < 256 ->
  wp (lapic_send_ipi fuel apic_id vector mode dmode shorthand) (fun _ h' =>
    h' = set_trace (trace h') h /\
    writes (trace h') =
      Write32 (b + LAPIC_ICRLO) (w32 (Z.lor vector (Z.lor mode (Z.lor dmode
        (Z.lor ICR_ASSERT (Z.lor ICR_EDGE shorthand)))))) ::
      Write32 (b + LAPIC_ICRHI) (if shorthand =? ICR_NO_SHORTHAND then apic_id * 2 ^ 24 else 0) ::
      writes (trace h) /\
    gs_base (trace h') = gs_base (trace h) /\ trace h `suffix_of` trace h') h.
Proof.
  intros Hk Hh Hf Hv Hid. unfold lapic_send_ipi. wp_step. wp_step. cbv beta. rewrite Hh.
  rewrite (proj2 (Z.eqb_neq b 0)), (proj2 (Z.ltb_ge 255 vector)), (proj2 (Z.ltb_ge 255 apic_id)) by lia.
  cbn [andb]. wp_step. eapply wp_mono; [apply (wait_icr_spec k fuel h); (done || lia)|].
  cbv beta. intros _ h1 (He1 & Hw1 & Hg1 & Hs1). assert (Hh1 : lapic_at h1) by (rewrite He1; exact Hh).
  wp_step. set (hi := if shorthand =? ICR_NO_SHORTHAND then apic_id * 2 ^ 24 else 0).
  assert (Hhi : (if shorthand =? ICR_NO_SHORTHAND
    then lapic_write LAPIC_ICRHI (w32 (Z.shiftl apic_id ICR_DESTINATION_SHIFT))
    else lapic_write LAPIC_ICRHI 0) h1 =
    Ret tt (set_trace (Write32 (b + LAPIC_ICRHI) hi :: trace h1) h1)).
  { assert (Hw : w32 (w32 (Z.shiftl apic_id ICR_DESTINATION_SHIFT)) = apic_id * 2 ^ 24).
    { unfold ICR_DESTINATION_SHIFT. rewrite Z.shiftl_mul_pow2, !w32_id by (rewrite ?w32_id; lia). done. }
    unfold hi. destruct (shorthand =? ICR_NO_SHORTHAND);
      rewrite lapic_write_run by (done || (unfold LAPIC_ICRHI; lia)); [by rewrite Hw|done]. }
  unfold wp at 1. rewrite Hhi. set (h2 := set_trace _ h1).
  assert (Hh2 : lapic_at h2) by exact Hh1. cbv zeta. wp_step. unfold wp at 1.
  rewrite lapic_write_run by (done || (unfold LAPIC_ICRLO; lia)).
  set (lo := w32 _). set (h3 := set_trace _ h2).
  assert (Hw3 : writes (trace h3) = Write32 (b + LAPIC_ICRLO) lo ::
      Write32 (b + LAPIC_ICRHI) hi :: writes (trace h)) by (rewrite <-Hw1; done).
  assert (He3 : h3 = set_trace (trace h3) h) by (unfold h3, h2; rewrite He1; done).
  assert (Hg3 : gs_base (trace h3) = gs_base (trace h)) by exact Hg1.
  assert (Hs3 : trace h `suffix_of` trace h3) by (by do 2 apply suffix_cons_r).
  apply wp_when; intros _; [|done].
  eapply wp_mono; [apply (wait_icr_spec k fuel h3); [done|exact Hh2|lia|lia]|].
  cbv beta. intros _ h4 (He4 & Hw4 & Hg4 & Hs4). rewrite Hw4, Hw3, Hg4.
  split_and!; [rewrite He4, He3; done|done|done|by etransitivity].
Qed.

(** sending an interrupt to another CPU ends, provided the controller sends within
    [k] polls, and writes exactly two registers: the destination first, then the command
    that sends. *)
Theorem lapic_send_ipi_ends k fuel h apic_id vector mode dmode shorthand :
  sends_within k -> lapic_at h -> (k < fuel)%nat -> 0 <= vector < 256 -> 0 <= apic_id < 256 ->
  wp (lapic_send_ipi fuel apic_id vector mode dmode shorthand) (fun _ h' =>
    h' = set_trace (trace h') h /\
    writes (trace h') =
      Write32 (b + LAPIC_ICRLO) (w32 (Z.lor vector (Z.lor mode (Z.lor dmode
        (Z.lor ICR_ASSERT (Z.lor ICR_EDGE shorthand)))))) ::
      Write32 (b + LAPIC_ICRHI) (if shorthand =? ICR_NO_SHORTHAND then apic_id * 2 ^ 24 else 0) ::
      writes (trace h)) h.
Proof.
  intros Hk Hh Hf Hv Hid. eapply wp_mono; [by apply (lapic_send_ipi_spec k)|]. cbv beta. by intros _ h' (? & ? & _).
Qed.
End Regs.
End Lapic.

(** ** A board with 24 redirection entries whose IRQ 0 is wired to GSI 2 *)

Definition iob0 : Z := hh0 + 0xFEC00000.

Definition ioapic24 : Platform := fun t e =>
  match e with
  | Read32 a => if selected iob0 t =? IOAPIC_IDX_IOAPICVER then 0x170020
                else default 0 (reg iob0 t (selected iob0 t))
  | _ => 0
  end.

Lemma ioapic24_device : ioapic_device (PF := ioapic24) iob0 24.
Proof.
  split.
  - intros t Ht. unfold answer, ioapic24. rewrite Ht. vm_compute. reflexivity.
  - intros t idx v Hidx Ht Hr. unfold answer, ioapic24.
    rewrite (proj2 (Z.eqb_neq (selected iob0 t) IOAPIC_IDX_IOAPICVER))
      by (unfold IOAPIC_IDX_IOAPICVER; lia).
    rewrite Ht, Hr. cbn [default from_option id]. unfold w32.
    by rewrite <-Z.land_ones, <-Z.land_assoc by lia.
Qed.

Definition iso_board : hw :=
  let h := board (set_mem (store_fields ∅ [(1%nat, hh0 + 0x7303, 0); (4%nat, hh0 + 0x7304, 2)]) boot0) in
  set_apic (Apic 0 0 iob0) (set_madt (Madt [] [hh0 + 0x7300] [] [] [] [] 0) h).

Lemma iso_board_iso : Forall2 (iso_at iso_board) (madt_iso_list (madt iso_board)) [(0, 2)].
Proof. constructor; [|constructor]. split_and!; vm_compute; (reflexivity || discriminate). Qed.

Lemma ioapic_route_witness :
  gsi_of [(0, 2)] 0 = 2 /\
  wp (ioapic_map (PF := ioapic24) 0 32 0 7 ;;; ioapic_unmask (PF := ioapic24) 0) (fun _ h' =>
    h' = set_trace (trace h') iso_board /\
    (exists lo, reg iob0 (trace h') 0x14 = Some lo /\ Z.land lo RW_BITS = 32) /\
    reg iob0 (trace h') 0x15 = Some 0x7000000 /\
    forall idx, idx <> 0x14 -> idx <> 0x15 ->
      reg iob0 (trace h') idx = reg iob0 (trace iso_board) idx) iso_board.
Proof.
  split; [reflexivity|].
  refine (ioapic_route (PF := ioapic24) iso_board iob0 24 [(0, 2)] 0 32 0 7 _ _ eq_refl
    ioapic24_device iso_board_iso _ _ _ (or_introl eq_refl) _).
  - vm_compute. reflexivity.
  - vm_compute. discriminate.
  - split; vm_compute; (reflexivity || discriminate).
  - vm_compute. reflexivity.
  - split; vm_compute; (reflexivity || discriminate).
  - split; vm_compute; (reflexivity || discriminate).
Defined.

(** A local APIC that is busy for one poll. *)
Definition lab0 : Z := hh0 + 0xFEE00000.

Definition busy_once : Platform := fun t e => if polls lab0 t is O then ICR_SEND_PENDING else 0.

Definition lapic_board : hw := set_apic (Apic 0 lab0 0) (board boot0).

Lemma busy_once_sends : sends_within (PF := busy_once) lab0 1.
Proof. intros t Ht. unfold answer, busy_once. destruct (polls lab0 t); [lia|reflexivity]. Qed.

Lemma lapic_send_ipi_ends_witness :
  wp (lapic_send_ipi (PF := busy_once) 2 3 0xFE ICR_FIXED ICR_PHYSICAL ICR_NO_SHORTHAND) (fun _ h' =>
    h' = set_trace (trace h') lapic_board /\
    writes (trace h') = [Write32 (lab0 + LAPIC_ICRLO) 0x40FE; Write32 (lab0 + LAPIC_ICRHI) 0x3000000])
    lapic_board.
Proof.
  refine (lapic_send_ipi_ends (PF := busy_once) lab0 _ _ 1 2 lapic_board 3 0xFE ICR_FIXED ICR_PHYSICAL
    ICR_NO_SHORTHAND busy_once_sends eq_refl _ _ _).
  - vm_compute. reflexivity.
  - vm_compute. discriminate.
  - lia.
  - split; vm_compute; (reflexivity || discriminate).
  - split; vm_compute; (reflexivity || discriminate).
Defined.
