(* ===== verification/Tables.v ===== *)
(** * arch/gdt.c and arch/idt.c: the processor's tables

    Definitions of the segment and interrupt descriptor tables, and what the processor
    reads in them: decoding functions after the architecture manual, against which the
    theorems state that the tables say what they are meant to. *)

From S2P Require Export Syscall ApicProps.

(** ** arch/gdt.h *)

Definition GDT_ACCESS_PRESENT : Z := 0x80.
Definition GDT_ACCESS_RING0 : Z := 0x00.
Definition GDT_ACCESS_RING3 : Z := 0x60.
Definition GDT_ACCESS_CODE : Z := 0x18.
Definition GDT_ACCESS_DATA : Z := 0x10.
Definition GDT_ACCESS_EXECUTABLE : Z := 0x08.
Definition GDT_ACCESS_RW : Z := 0x02.

Definition GDT_KERNEL_CODE : Z :=
  Z.lor GDT_ACCESS_PRESENT (Z.lor GDT_ACCESS_RING0 (Z.lor GDT_ACCESS_CODE
    (Z.lor GDT_ACCESS_EXECUTABLE GDT_ACCESS_RW))).
Definition GDT_KERNEL_DATA : Z :=
  Z.lor GDT_ACCESS_PRESENT (Z.lor GDT_ACCESS_RING0 (Z.lor GDT_ACCESS_DATA GDT_ACCESS_RW)).
Definition GDT_USER_CODE : Z :=
  Z.lor GDT_ACCESS_PRESENT (Z.lor GDT_ACCESS_RING3 (Z.lor GDT_ACCESS_CODE
    (Z.lor GDT_ACCESS_EXECUTABLE GDT_ACCESS_RW))).
Definition GDT_USER_DATA : Z :=
  Z.lor GDT_ACCESS_PRESENT (Z.lor GDT_ACCESS_RING3 (Z.lor GDT_ACCESS_DATA GDT_ACCESS_RW)).
Definition GDT_TSS : Z := 0xE9.

Definition GDT_GRANULARITY_4K : Z := 0x80.
Definition GDT_GRANULARITY_LONG_MODE : Z := 0x20.
Definition GDT_GRANULARITY_FLAT : Z := Z.lor GDT_GRANULARITY_4K GDT_GRANULARITY_LONG_MODE.

Definition sizeof_gdt_entry : Z := 8.
Definition sizeof_tss : Z := 104.

Definition set_gdt (l : list gdt_entry_t) (g : gdt_state) : gdt_state := Gdt l (gdt_ptr g) (tss g).
Definition set_gdt_ptr (p : gdt_ptr_t) (g : gdt_state) : gdt_state := Gdt (gdt g) p (tss g).
Definition set_tss (t : tss_entry_t) (g : gdt_state) : gdt_state := Gdt (gdt g) (gdt_ptr g) t.

Definition update_gdts (f : gdt_state -> gdt_state) : H unit :=
  modify (fun h => set_gdts (f (gdts h)) h).

Section Gdt.
Context {LY : Layout}.

(** ** arch/gdt.c *)

(** [lgdt], then every segment register is loaded. *)
Definition gdt_flush (p : gdt_ptr_t) : H unit :=
  emit (Lgdt (gdt_limit p) (gdt_base p)) ;;;
  emit (LoadSegments 0x08 0x10).

(** The five entries of [gdt_init] in front of those of the task state segment. *)
Definition flat_entries : list gdt_entry_t := [
  GdtEntry 0 0 0 0x00 0x00 0;
  GdtEntry 0 0 0 GDT_KERNEL_CODE GDT_GRANULARITY_FLAT 0;
  GdtEntry 0 0 0 GDT_KERNEL_DATA GDT_GRANULARITY_FLAT 0;
  GdtEntry 0 0 0 GDT_USER_CODE GDT_GRANULARITY_LONG_MODE 0;
  GdtEntry 0 0 0 GDT_USER_DATA 0x00 0 ].

Definition gdt_init : H unit :=
  update_gdts (fun g => set_gdt (flat_entries ++ drop 5 (gdt g)) g) ;;;
  update_gdts (set_gdt_ptr (GdtPtr (w16 (7 * sizeof_gdt_entry - 1)) gdt_at)) ;;;
  p <- gets (fun h => gdt_ptr (gdts h)) ;;
  gdt_flush p.

(** The descriptor of the segment at [base]. *)
Definition tss_descriptor (base limit : Z) : gdt_system_entry_t :=
  GdtSystemEntry
    (GdtEntry (Z.land limit 0xFFFF) (Z.land base 0xFFFF) (Z.land (Z.shiftr base 16) 0xFF) GDT_TSS
       (Z.land (Z.shiftr limit 16) 0x0F) (Z.land (Z.shiftr base 24) 0xFF))
    (w32 (Z.shiftr base 32)) 0.

(** The 16 bytes of a system descriptor as two slots of the table. *)
Definition as_slots (e : gdt_system_entry_t) : list gdt_entry_t :=
  let u := base_upper e in let r := sys_reserved e in
  [ sys_low e;
    GdtEntry (Z.land u 0xFFFF) (Z.shiftr u 16) (Z.land r 0xFF) (Z.land (Z.shiftr r 8) 0xFF)
      (Z.land (Z.shiftr r 16) 0xFF) (Z.shiftr r 24) ].

(** [flush_tss] of arch/gdt-helper.asm loads the task register with selector 40. *)
Definition flush_tss : H unit := emit (Ltr (5 * 8)).

Definition tss_init (stack : Z) : H unit :=
  update_gdts (set_tss (TssEntry 0 (w64 stack) 0 0 0 0 0 0 0 0 0 0 0 0 sizeof_tss)) ;;;
  let base := tss_at in
  let limit := sizeof_tss - 1 in
  update_gdts (fun g => set_gdt (take 5 (gdt g) ++ as_slots (tss_descriptor base limit) ++
    drop 7 (gdt g)) g) ;;;
  p <- gets (fun h => gdt_ptr (gdts h)) ;;
  gdt_flush p ;;;
  flush_tss.

(** ** arch/idt.h and arch/idt.c *)

Definition IDT_INTERRUPT_GATE : Z := 0x8E.
Definition IDT_TRAP_GATE : Z := 0x8F.
Definition sizeof_idt_entry : Z := 16.

Definition gate (base flags : Z) : idt_entry :=
  IdtEntry (Z.land base 0xFFFF) 0x8 0 (w8 flags) (Z.land (Z.shiftr base 16) 0xFFFF)
    (Z.land (Z.shiftr base 32) 0xFFFFFFFF) 0.

Definition update_idt (f : idt_state -> idt_state) : H unit :=
  modify (fun h => set_idt (f (idt h)) h).

(** A store to index [i] of a table.  Past its end it would hit whatever the linker put
    there: the model stops. *)
Definition in_table {A} (l : list A) (i : Z) : bool := (0 <=? i) && (i <? Z.of_nat (length l)).

Definition idt_set_gate (interrupt base flags : Z) : H unit :=
  d <- gets idt ;;
  if in_table (idt_descriptor d) (w8 interrupt) then
    update_idt (fun d => Idt (<[Z.to_nat (w8 interrupt) := gate base flags]> (idt_descriptor d))
      (real_handlers d))
  else kpanic.

(** [real_handlers[vector] = handler;] *)
Definition set_handler (vector : Z) (handler : option idt_intr_handler) : H unit :=
  d <- gets idt ;;
  if in_table (real_handlers d) vector then
    update_idt (fun d => Idt (idt_descriptor d) (<[Z.to_nat vector := handler]> (real_handlers d)))
  else kpanic.

(** [idt_ptr], the operand of [lidt]. *)
Definition idt_ptr : Z * Z := (256 * sizeof_idt_entry - 1, idt_descriptor_at).

Definition idt_init : H unit :=
  for_loop 32 0 1 (fun i =>
    idt_set_gate i (stubs i) IDT_TRAP_GATE ;;;
    set_handler i (Some idt_default_interrupt_handler)) ;;;
  for_loop 224 32 1 (fun i => idt_set_gate i (stubs i) IDT_INTERRUPT_GATE) ;;;
  idt_set_gate 0x80 (stubs 0x80) (Z.lor IDT_INTERRUPT_GATE GDT_ACCESS_RING3) ;;;
  set_handler 0x80 (Some syscall_handler_fn) ;;;
  idt_set_gate 0xFE (stubs 0xFE) IDT_TRAP_GATE ;;;
  set_handler 0xFE (Some die_fn) ;;;
  emit (Lidt (fst idt_ptr) (snd idt_ptr)).

Definition idt_register_handler (vector : Z) (handler : option idt_intr_handler) : H Z :=
  match handler with
  | None => ret 1
  | Some _ => if 256 <=? vector then ret 1 else set_handler vector handler ;;; ret 0
  end.
End Gdt.
