(* ===== verification/TablesProps.v ===== *)
(** * The processor's tables: theorems *)

From S2P Require Export Tables.

(** ** What the processor reads *)

(** A descriptor with bit 4 (S) of the access byte clear is a system descriptor, which
    faults when it is loaded into a segment register; otherwise bit 3 tells code from
    data, and bits 1 and 2 mean readable and conforming, or writable and expand-down.
    Code is 64-bit with L (bit 5 of the granularity byte) set and D (bit 6) clear. *)
Inductive segment_kind :=
  | SystemSegment (type : Z)
  | DataSegment (writable expand_down : bool)
  | CodeSegment (readable conforming long : bool).

Record segment := Segment {
  sg_present : bool;
  sg_dpl : Z;
  sg_kind : segment_kind }.

Definition decode_segment (e : gdt_entry_t) : segment :=
  Segment (Z.testbit (access e) 7) (Z.land (Z.shiftr (access e) 5) 3)
    (if Z.testbit (access e) 4 then
       if Z.testbit (access e) 3 then
         CodeSegment (Z.testbit (access e) 1) (Z.testbit (access e) 2)
           (Z.testbit (granularity e) 5 && negb (Z.testbit (granularity e) 6))
       else DataSegment (Z.testbit (access e) 1) (Z.testbit (access e) 2)
     else SystemSegment (Z.land (access e) 0xF)).

(** The descriptor that a selector names. *)
Definition select (g : gdt_state) (selector : Z) : option segment :=
  decode_segment <$> gdt g !! Z.to_nat (selector / 8).

(** A system segment occupies two slots: its base and limit. *)
Definition decode_system (lo hi : gdt_entry_t) : Z * Z :=
  (base_low lo + 2 ^ 16 * base_middle lo + 2 ^ 24 * base_high lo +
     2 ^ 32 * (limit_low hi + 2 ^ 16 * base_low hi),
   limit_low lo + 2 ^ 16 * Z.land (granularity lo) 0xF).

(** An available 64-bit task state segment. *)
Definition TSS_TYPE : Z := 9.

(** A gate: target, selector, privilege that [int] needs, and whether it leaves
    interrupts enabled. *)
Record gate_t := Gate {
  g_target : Z;
  g_selector : Z;
  g_dpl : Z;
  g_trap : bool;
  g_present : bool }.

Definition decode_gate (e : idt_entry) : gate_t :=
  Gate (off_low e + 2 ^ 16 * off_mid e + 2 ^ 32 * off_high e) (sel e)
    (Z.land (Z.shiftr (attr e) 5) 3) (Z.testbit (attr e) 0) (Z.testbit (attr e) 7).

(** ** Arithmetic of split addresses *)

Lemma land_mask n x : 0 <= n -> Z.land x (2 ^ n - 1) = x mod 2 ^ n.
Proof. intros Hn. rewrite <-Z.land_ones by lia. by rewrite Z.ones_equiv. Qed.

Lemma shiftr_div n x : 0 <= n -> Z.shiftr x n = x / 2 ^ n.
Proof. apply Z.shiftr_div_pow2. Qed.

Lemma split_16_16_32 x : 0 <= x < 2 ^ 64 ->
  Z.land x 0xFFFF + 2 ^ 16 * Z.land (Z.shiftr x 16) 0xFFFF +
    2 ^ 32 * Z.land (Z.shiftr x 32) 0xFFFFFFFF = x.
Proof.
  intros Hx. change 0xFFFF with (2 ^ 16 - 1). change 0xFFFFFFFF with (2 ^ 32 - 1).
  rewrite !land_mask, !shiftr_div by lia. rewrite (Z.mod_small (x / 2 ^ 32)) by (split; [apply Z.div_pos; lia|apply Z.div_lt_upper_bound; lia]).
  change (2 ^ 32) with (2 ^ 16 * 2 ^ 16). rewrite <-Z.div_div by lia.
  pose proof (Z.div_mod x (2 ^ 16) ltac:(lia)). pose proof (Z.div_mod (x / 2 ^ 16) (2 ^ 16) ltac:(lia)). lia.
Qed.

Lemma split_16_8_8_32 x : 0 <= x < 2 ^ 64 ->
  Z.land x 0xFFFF + 2 ^ 16 * Z.land (Z.shiftr x 16) 0xFF + 2 ^ 24 * Z.land (Z.shiftr x 24) 0xFF +
    2 ^ 32 * (Z.land (w32 (Z.shiftr x 32)) 0xFFFF + 2 ^ 16 * Z.shiftr (w32 (Z.shiftr x 32)) 16) = x.
Proof.
  intros Hx. change 0xFFFF with (2 ^ 16 - 1). change 0xFF with (2 ^ 8 - 1).
  assert (Hw : w32 (Z.shiftr x 32) = x / 2 ^ 32).
  { rewrite shiftr_div by lia. apply w32_id. split; [apply Z.div_pos; lia|apply Z.div_lt_upper_bound; lia]. }
  rewrite Hw, !land_mask, !shiftr_div by lia.
  pose proof (Z.div_mod (x / 2 ^ 32) (2 ^ 16) ltac:(lia)).
  pose proof (Z.div_mod x (2 ^ 16) ltac:(lia)).
  pose proof (Z.div_mod (x / 2 ^ 16) (2 ^ 8) ltac:(lia)) as H2.
  pose proof (Z.div_mod (x / 2 ^ 24) (2 ^ 8) ltac:(lia)) as H3.
  rewrite Z.div_div in H2, H3 by lia.
  change (2 ^ 16 * 2 ^ 8) with (2 ^ 24) in H2. change (2 ^ 24 * 2 ^ 8) with (2 ^ 32) in H3. lia.
Qed.

Lemma gate_target_correct base flags : 0 <= base < 2 ^ 64 -> g_target (decode_gate (gate base flags)) = base.
Proof. exact (split_16_16_32 base). Qed.

Lemma tss_base_correct base limit : 0 <= base < 2 ^ 64 ->
  forall lo hi, as_slots (tss_descriptor base limit) = [lo; hi] -> (decode_system lo hi).1 = base.
Proof. intros Hb lo hi [= <- <-]. exact (split_16_8_8_32 base Hb). Qed.

(** ** Segments *)

Section Gdt.
Context {LY : Layout}.

(** The tables after both. *)
Definition loaded (stack : Z) : gdt_state :=
  Gdt (flat_entries ++ as_slots (tss_descriptor tss_at (sizeof_tss - 1)))
    (GdtPtr 55 gdt_at) (TssEntry 0 (w64 stack) 0 0 0 0 0 0 0 0 0 0 0 0 sizeof_tss).

Lemma gdt_run h stack :
  length (gdt (gdts h)) = 7%nat ->
  (gdt_init ;;; tss_init stack) h =
    Ret tt (set_trace ([Ltr 40; LoadSegments 8 16; Lgdt 55 gdt_at; LoadSegments 8 16; Lgdt 55 gdt_at] ++
      trace h) (set_gdts (loaded stack) h)).
Proof.
  intros Hl. destruct h as [c0 t0 ac md ap sm id [l p ts] tm kl]. cbn [gdts gdt] in *.
  destruct l as [|? [|? [|? [|? [|? [|? [|? [|]]]]]]]]; cbn [length] in Hl; try lia. reflexivity.
Qed.

Lemma loaded_tss stack : 0 <= tss_at < 2 ^ 64 ->
  exists lo hi, gdt (loaded stack) !! 5%nat = Some lo /\ gdt (loaded stack) !! 6%nat = Some hi /\
    decode_system lo hi = (tss_at, sizeof_tss - 1) /\
    decode_segment lo = Segment true 3 (SystemSegment TSS_TYPE).
Proof.
  intros Ht. do 2 eexists. split_and!; [reflexivity|reflexivity| |vm_compute; reflexivity].
  pose proof (split_16_8_8_32 tss_at Ht) as Hb.
  apply (f_equal (fun b => (b, 103))) in Hb. exact Hb.
Qed.

Lemma loaded_code stack user entry pid pagemap vctx :
  let c := p_ctx (new_pcb user entry pid pagemap vctx) in
  let ring := if user : bool then 3 else 0 in
  select (loaded stack) (r_cs c) = Some (Segment true ring (CodeSegment true false true)) /\
    select (loaded stack) (r_ss c) = Some (Segment true ring (DataSegment true false)) /\
    (r_cs c mod 4 = ring)%Z /\ (r_ss c mod 4 = ring)%Z.
Proof.
  destruct user; split_and!; vm_compute; reflexivity.
Qed.

(** C30: after [gdt_init] and [tss_init] the selectors that [sched_spawn] puts into a
    process's frame name present segments of the right kind and privilege (readable,
    non-conforming 64-bit code, writable expand-up data, ring 3 exactly for a user process;
    no system descriptors), selector 40 is the available 64-bit task state segment with
    its address and size, and that segment holds the kernel's stack; only
    the tables and the table registers change. *)
Theorem gdt_segments h stack :
  length (gdt (gdts h)) = 7%nat -> 0 <= tss_at < 2 ^ 64 -> 0 <= stack < 2 ^ 64 ->
  wp (gdt_init ;;; tss_init stack) (fun _ h' =>
    let g := gdts h' in
    h' = set_trace ([Ltr 40; LoadSegments 8 16; Lgdt 55 gdt_at; LoadSegments 8 16; Lgdt 55 gdt_at] ++
           trace h) (set_gdts g h) /\
    (forall user entry pid pagemap vctx,
       let c := p_ctx (new_pcb user entry pid pagemap vctx) in
       let ring := if user : bool then 3 else 0 in
       select g (r_cs c) = Some (Segment true ring (CodeSegment true false true)) /\
       select g (r_ss c) = Some (Segment true ring (DataSegment true false)) /\
       (r_cs c mod 4 = ring)%Z /\ (r_ss c mod 4 = ring)%Z) /\
    (exists lo hi, gdt g !! 5%nat = Some lo /\ gdt g !! 6%nat = Some hi /\
       decode_system lo hi = (tss_at, sizeof_tss - 1) /\
       decode_segment lo = Segment true 3 (SystemSegment TSS_TYPE)) /\
    rsp0 (tss g) = stack) h.
Proof.
  intros Hl Ht Hs. unfold wp. rewrite gdt_run by done. split; [reflexivity|].
  split; [intros; apply loaded_code|]. split; [by apply loaded_tss|]. exact (w64_id stack Hs).
Qed.
End Gdt.

(** ** Interrupts *)

Lemma in_table_length {A} (l : list A) i : (i < length l)%nat -> in_table l (Z.of_nat i) = true.
Proof. intros Hi. unfold in_table. apply andb_true_iff. lia. Qed.

Section Idt.
Context {LY : Layout}.
Context (h : hw).
Hypothesis (Hd : length (idt_descriptor (idt h)) = 256%nat).
Hypothesis (Hr : length (real_handlers (idt h)) = 256%nat).

(** The gates of [d] are [D], the handlers [R]. *)
Definition tables_are (D : nat -> idt_entry -> Prop) (R : nat -> option (option idt_intr_handler))
    (h' : hw) : Prop :=
  exists d r, h' = set_idt (Idt d r) h /\ length d = 256%nat /\ length r = 256%nat /\
    (forall v, (v < 256)%nat -> exists e, d !! v = Some e /\ D v e) /\
    (forall v, (v < 256)%nat -> r !! v = R v).

Lemma set_gate_step D R h' i flags :
  (i < 256)%nat -> tables_are D R h' ->
  wp (idt_set_gate (Z.of_nat i) (stubs (Z.of_nat i)) flags)
    (fun _ h'' => tables_are (fun v e => if decide (v = i)
       then e = gate (stubs (Z.of_nat i)) flags else D v e) R h'') h'.
Proof.
  intros Hi (d & r & -> & Hld & Hlr & HD & HR).
  assert (Hw : w8 (Z.of_nat i) = Z.of_nat i) by (apply Z.mod_small; lia).
  unfold idt_set_gate, update_idt. do 2 wp_step. rewrite Hw, in_table_length by (cbn; lia).
  wp_step. rewrite Nat2Z.id. eexists _, r. split; [reflexivity|]. cbn [idt idt_descriptor real_handlers set_idt].
  split_and!; [by rewrite length_insert|done| |done].
  intros v Hv. destruct (decide (v = i)) as [->|Hne].
  - exists (gate (stubs (Z.of_nat i)) flags). split; [|done]. apply list_lookup_insert_eq. lia.
  - destruct (HD v Hv) as (e & He & HDe). exists e. split; [|done].
    by rewrite list_lookup_insert_ne.
Qed.

Lemma set_handler_step D R h' i f :
  (i < 256)%nat -> tables_are D R h' ->
  wp (set_handler (Z.of_nat i) f)
    (fun _ h'' => tables_are D (fun v => if decide (v = i) then Some f else R v) h'') h'.
Proof.
  intros Hi (d & r & -> & Hld & Hlr & HD & HR). unfold set_handler, update_idt. do 2 wp_step.
  rewrite in_table_length by (cbn; lia). wp_step. rewrite Nat2Z.id. eexists d, _. split; [reflexivity|]. cbn [idt idt_descriptor real_handlers set_idt].
  split_and!; [done|by rewrite length_insert|done|].
  intros v Hv. destruct (decide (v = i)) as [->|Hne]; [apply list_lookup_insert_eq; lia|].
  rewrite list_lookup_insert_ne by done. by apply HR.
Qed.

Lemma tables_are_weaken (D D' : nat -> idt_entry -> Prop) R R' h' :
  tables_are D R h' ->
  (forall v e, (v < 256)%nat -> D v e -> D' v e) -> (forall v, (v < 256)%nat -> R v = R' v) ->
  tables_are D' R' h'.
Proof.
  intros (d & r & -> & H1 & H2 & HD & HR) HD' HR'. exists d, r. split_and!; try done.
  - intros v Hv. destruct (HD v Hv) as (e & He & HDe). exists e. split; [done|by apply HD'].
  - intros v Hv. rewrite <-HR' by done. by apply HR.
Qed.

(** What the table should say. *)
Definition is_trap (v : nat) : bool := bool_decide (v < 32)%nat || bool_decide (v = 254%nat).

Definition gate_attr (v : nat) : Z :=
  if bool_decide (v = 128%nat) then 0xEE else if is_trap v then 0x8F else 0x8E.

Definition handler_of (v : nat) : option (option idt_intr_handler) :=
  if bool_decide (v < 32)%nat then Some (Some idt_default_interrupt_handler)
  else if bool_decide (v = 128%nat) then Some (Some syscall_handler_fn)
  else if bool_decide (v = 254%nat) then Some (Some die_fn)
  else real_handlers (idt h) !! v.

Definition gates_below (k : nat) (v : nat) (e : idt_entry) : Prop :=
  (v < k)%nat -> e = gate (stubs (Z.of_nat v)) (if bool_decide (v < 32)%nat then 0x8F else 0x8E).

Definition handlers_below (k : nat) (v : nat) : option (option idt_intr_handler) :=
  if bool_decide (v < k)%nat then Some (Some idt_default_interrupt_handler)
  else real_handlers (idt h) !! v.

Lemma first_loop :
  wp (for_loop 32 0 1 (fun i =>
    idt_set_gate i (stubs i) IDT_TRAP_GATE ;;;
    set_handler i (Some idt_default_interrupt_handler)))
    (fun _ h' => tables_are (gates_below 32) (handlers_below 32) h') h.
Proof.
  apply (wp_for_loop 32 0 1 _ (fun k h' => tables_are (gates_below k) (handlers_below k) h')).
  - exists (idt_descriptor (idt h)), (real_handlers (idt h)). split_and!; try done.
    + by destruct h as [? ? ? ? ? ? [? ?] ? ? ?].
    + intros v Hv. destruct (lookup_lt_is_Some_2 (idt_descriptor (idt h)) v) as [e He]; [lia|].
      exists e. split; [done|]. unfold gates_below. lia.
  - intros k h' Hk Hh'. replace (0 + Z.of_nat k * 1) with (Z.of_nat k) by lia. wp_step.
    eapply wp_mono; [eapply (set_gate_step _ _ h' k IDT_TRAP_GATE); [lia|exact Hh']|].
    cbv beta. intros _ h1 H1. eapply wp_mono; [eapply (set_handler_step _ _ h1 k); [lia|exact H1]|].
    cbv beta. intros _ h2 H2. eapply tables_are_weaken; [exact H2| |].
    + cbv beta. intros v e Hv He Hlt. destruct (decide (v = k)) as [->|]; [|apply He; lia].
      rewrite bool_decide_true by lia. exact He.
    + cbv beta. intros v Hv. unfold handlers_below.
      destruct (decide (v = k)) as [->|]; [by rewrite bool_decide_true by lia|].
      do 2 case_bool_decide; (done || lia).
Qed.

Lemma second_loop h1 :
  tables_are (gates_below 32) (handlers_below 32) h1 ->
  wp (for_loop 224 32 1 (fun i => idt_set_gate i (stubs i) IDT_INTERRUPT_GATE))
    (fun _ h' => tables_are (gates_below 256) (handlers_below 32) h') h1.
Proof.
  intros H1. apply (wp_for_loop 224 32 1 _
    (fun k h' => tables_are (gates_below (32 + k)) (handlers_below 32) h')); [exact H1|].
  intros k h' Hk Hh'. replace (32 + Z.of_nat k * 1) with (Z.of_nat (32 + k)) by lia.
  eapply wp_mono; [eapply (set_gate_step _ _ h' (32 + k) IDT_INTERRUPT_GATE); [lia|exact Hh']|].
  cbv beta. intros _ h2 H2. eapply tables_are_weaken; [exact H2| |done].
  cbv beta. intros v e Hv He Hlt. destruct (decide (v = 32 + k)%nat) as [->|]; [|apply He; lia].
  rewrite bool_decide_false by lia. exact He.
Qed.

Lemma idt_init_spec :
  wp idt_init (fun _ h' => exists h'',
    h' = set_trace (Lidt 4095 idt_descriptor_at :: trace h) h'' /\
    tables_are (fun v e => e = gate (stubs (Z.of_nat v)) (gate_attr v)) handler_of h'') h.
Proof.
  unfold idt_init. wp_step. eapply wp_mono; [apply first_loop|]. cbv beta. intros _ h1 H1.
  wp_step. eapply wp_mono; [apply second_loop, H1|]. cbv beta. intros _ h2 H2.
  wp_step. eapply wp_mono; [eapply (set_gate_step _ _ h2 128); [lia|exact H2]|]. cbv beta. intros _ h3 H3.
  wp_step. eapply wp_mono; [eapply (set_handler_step _ _ h3 128); [lia|exact H3]|]. cbv beta. intros _ h4 H4.
  wp_step. eapply wp_mono; [eapply (set_gate_step _ _ h4 254); [lia|exact H4]|]. cbv beta. intros _ h5 H5.
  wp_step. eapply wp_mono; [eapply (set_handler_step _ _ h5 254); [lia|exact H5]|]. cbv beta. intros _ h6 H6.
  unfold emit. wp_step. exists h6. split.
  - destruct H6 as (d & r & -> & _). reflexivity.
  - eapply tables_are_weaken; [exact H6| |]; cbv beta.
    + intros v e Hv He. unfold gate_attr, is_trap, gates_below in *.
      destruct (decide (v = 254%nat)) as [->|]; [exact He|].
      destruct (decide (v = 128%nat)) as [->|]; [exact He|].
      rewrite !(bool_decide_false (v = _)) by done. rewrite orb_false_r. apply He. lia.
    + intros v Hv. unfold handler_of, handlers_below.
      repeat case_decide; repeat case_bool_decide; (done || lia).
Qed.
End Idt.

Section Gates.
Context {LY : Layout}.

(** C31: [idt_init] makes every vector's gate a present one to its own stub in the
    kernel's code segment; only 0x80 may be raised by user code; exceptions and the
    halting trap 0xFE keep interrupts enabled, all others mask them; each exception, the
    system call and the trap get their handlers, and handlers that drivers registered
    before stay. *)
Theorem idt_init_correct h :
  length (idt_descriptor (idt h)) = 256%nat -> length (real_handlers (idt h)) = 256%nat ->
  (forall v, 0 <= v < 256 -> 0 <= stubs v < 2 ^ 64) ->
  wp idt_init (fun _ h' =>
    h' = set_trace (Lidt 4095 idt_descriptor_at :: trace h) (set_idt (idt h') h) /\
    forall v, (v < 256)%nat ->
      (exists e, idt_descriptor (idt h') !! v = Some e /\
         decode_gate e = Gate (stubs (Z.of_nat v)) 0x8 (if bool_decide (v = 0x80%nat) then 3 else 0)
           (is_trap v) true) /\
      real_handlers (idt h') !! v = handler_of h v) h.
Proof.
  intros Hd Hr Hs. eapply wp_mono; [by apply idt_init_spec|]. cbv beta.
  intros _ h' (h'' & -> & d & r & -> & _ & _ & HD & HR). split; [reflexivity|].
  intros v Hv. split; [|by apply HR]. destruct (HD v Hv) as (e & He & ->). eexists. split; [exact He|].
  pose proof (split_16_16_32 (stubs (Z.of_nat v)) (Hs (Z.of_nat v) ltac:(lia))) as Ht.
  unfold decode_gate, gate. cbn [off_low off_mid off_high sel attr]. rewrite Ht. f_equal;
    unfold gate_attr, is_trap; repeat case_bool_decide; subst; try (vm_compute; reflexivity); lia.
Qed.
End Gates.

(** ** Well-typed tables: every field fits its width, every table has its length *)

Definition fits (n x : Z) : Prop := 0 <= x < 2 ^ n.

Definition gdt_entry_typed (e : gdt_entry_t) : Prop :=
  fits 16 (limit_low e) /\ fits 16 (base_low e) /\ fits 8 (base_middle e) /\ fits 8 (access e) /\
  fits 8 (granularity e) /\ fits 8 (base_high e).

Definition idt_entry_typed (e : idt_entry) : Prop :=
  fits 16 (off_low e) /\ fits 16 (sel e) /\ fits 8 (ist e) /\ fits 8 (attr e) /\
  fits 16 (off_mid e) /\ fits 32 (off_high e) /\ fits 32 (idt_zero e).

Record tables_typed (h : hw) : Prop := TablesTyped {
  ty_gdt_length : length (gdt (gdts h)) = 7%nat;
  ty_gdt : Forall gdt_entry_typed (gdt (gdts h));
  ty_limit : fits 16 (gdt_limit (gdt_ptr (gdts h)));
  ty_rsp0 : fits 64 (rsp0 (tss (gdts h)));
  ty_iomap : fits 16 (io_map_base (tss (gdts h)));
  ty_idt_length : length (idt_descriptor (idt h)) = 256%nat;
  ty_idt : Forall idt_entry_typed (idt_descriptor (idt h));
  ty_handlers : length (real_handlers (idt h)) = 256%nat }.

Lemma fits_mask n k x : 0 <= k <= n -> fits n (Z.land x (2 ^ k - 1)).
Proof.
  intros Hk. unfold fits. rewrite land_mask by lia. pose proof (Z.mod_pos_bound x (2 ^ k) ltac:(lia)).
  pose proof (Z.pow_le_mono_r 2 k n ltac:(lia) ltac:(lia)). lia.
Qed.

Lemma fits_w64 x : fits 64 (w64 x).
Proof. apply Z.mod_pos_bound. lia. Qed.

Lemma fits_shiftr n k x : 0 <= n -> 0 <= k -> fits (n + k) x -> fits n (Z.shiftr x k).
Proof.
  intros Hn Hk [H0 H1]. unfold fits. rewrite shiftr_div by done. rewrite Z.pow_add_r in H1 by done.
  split; [apply Z.div_pos; lia|]. apply Z.div_lt_upper_bound; lia.
Qed.

Lemma gate_typed base flags : idt_entry_typed (gate base flags).
Proof.
  split_and!; cbn [off_low sel ist attr off_mid off_high idt_zero gate].
  - apply (fits_mask 16 16). lia.
  - split; vm_compute; (reflexivity || discriminate).
  - split; vm_compute; (reflexivity || discriminate).
  - apply Z.mod_pos_bound. lia.
  - apply (fits_mask 16 16). lia.
  - apply (fits_mask 32 32). lia.
  - split; vm_compute; (reflexivity || discriminate).
Qed.

Lemma slots_typed base : Forall gdt_entry_typed (as_slots (tss_descriptor base (sizeof_tss - 1))).
Proof.
  assert (Hc : forall n x, 0 <= x < 2 ^ n -> fits n x) by done.
  constructor; [|constructor; [|constructor]]; split_and!;
    cbn [limit_low base_low base_middle access granularity base_high sys_low tss_descriptor
      base_upper sys_reserved];
    first [apply (fits_mask 16 16); lia | apply (fits_mask 8 8); lia |
           apply (fits_mask 8 4); lia |
           apply (fits_shiftr 16 16); [lia|lia|apply Z.mod_pos_bound; lia] |
           split; vm_compute; (reflexivity || discriminate)].
Qed.

Lemma flat_typed : Forall gdt_entry_typed flat_entries.
Proof.
  repeat (constructor; [split_and!; split; vm_compute; (reflexivity || discriminate)|]). constructor.
Qed.

Section Typed.
Context {LY : Layout}.

Lemma set_gate_typed h i base flags :
  tables_typed h -> wp (idt_set_gate i base flags) (fun _ h' => tables_typed h') h.
Proof.
  intros [? ? ? ? ? ? Hi ?]. pose proof (Z.mod_pos_bound i (2 ^ 8) ltac:(lia)) as Hb. fold (w8 i) in Hb.
  unfold idt_set_gate, update_idt. do 2 wp_step.
  rewrite <-(Z2Nat.id (w8 i)) at 1 by lia. rewrite in_table_length by lia. wp_step.
  split; cbn [gdts idt set_idt idt_descriptor real_handlers]; try done; [by rewrite length_insert|].
  apply Forall_insert; [done|apply gate_typed].
Qed.

Lemma set_handler_typed h v f :
  tables_typed h -> 0 <= v < 256 -> wp (set_handler v f) (fun _ h' => tables_typed h' /\
    h' = set_idt (Idt (idt_descriptor (idt h)) (<[Z.to_nat v := f]> (real_handlers (idt h)))) h) h.
Proof.
  intros [? ? ? ? ? ? ? ?] Hv. unfold set_handler, update_idt. do 2 wp_step.
  rewrite <-(Z2Nat.id v) at 1 by lia. rewrite in_table_length by lia. wp_step. split; [|done].
  split; cbn [gdts idt set_idt idt_descriptor real_handlers]; try done. by rewrite length_insert.
Qed.

Lemma set_handler_kept h v f :
  tables_typed h -> 0 <= v < 256 -> wp (set_handler v f) (fun _ h' => tables_typed h') h.
Proof. intros Ht Hv. eapply wp_mono; [by apply set_handler_typed|]. by intros [] h' [? _]. Qed.

Lemma loop_typed n start body h :
  (forall i h', start <= i < start + Z.of_nat n -> tables_typed h' ->
     wp (body i) (fun _ h'' => tables_typed h'') h') ->
  tables_typed h -> wp (for_loop n start 1 body) (fun _ h' => tables_typed h') h.
Proof.
  intros Hb Ht. apply (wp_for_loop n start 1 body (fun _ => tables_typed)); [done|].
  intros k h' Hk Hh. apply Hb; [lia|done].
Qed.

Lemma emit_typed e h : tables_typed h -> wp (emit e) (fun _ h' => tables_typed h') h.
Proof. intros [? ? ? ? ? ? ? ?]. by split. Qed.

#[local] Hint Resolve set_gate_typed set_handler_kept emit_typed : core.

Ltac typed_step := wp_step; eapply wp_mono; [eauto with lia|]; cbv beta; intros [] ? ?.

(** C32: every operation of gdt.c and idt.c returns (no store lies outside its table,
    whatever the vector) and keeps the tables well typed: lengths never change, no field
    exceeds its width, whatever the addresses and flags.  [idt_register_handler] answers 1
    and changes nothing for a vector past the table or without a handler, and otherwise
    answers 0 and sets exactly that handler. *)
Theorem tables_typed_preserved h :
  tables_typed h ->
  wp gdt_init (fun _ h' => tables_typed h') h /\
  (forall stack, wp (tss_init stack) (fun _ h' => tables_typed h') h) /\
  (forall i base flags, wp (idt_set_gate i base flags) (fun _ h' => tables_typed h') h) /\
  wp idt_init (fun _ h' => tables_typed h') h /\
  (forall v f, 0 <= v -> wp (idt_register_handler v f) (fun r h' => tables_typed h' /\
     ((r = 1 /\ h' = h /\ (256 <= v \/ f = None)) \/
      (r = 0 /\ v < 256 /\ f <> None /\
       h' = set_idt (Idt (idt_descriptor (idt h)) (<[Z.to_nat v := f]> (real_handlers (idt h)))) h))) h).
Proof.
  intros Ht. split_and!.
  - destruct Ht. unfold wp, gdt_init. cbn. split; cbn; try done.
    + rewrite length_drop. lia.
    + apply (Forall_app_2 _ flat_entries); [apply flat_typed|by apply Forall_drop].
  - intros stack. destruct Ht. unfold wp, tss_init. cbn [bind gets modify update_gdts gdt_flush emit flush_tss].
    split; cbn [gdts idt set_gdts set_trace set_gdt set_tss gdt gdt_ptr tss rsp0 io_map_base]; try done.
    + rewrite !length_app, length_take, length_drop. cbn [length as_slots]. lia.
    + apply Forall_app_2; [by apply Forall_take|]. apply Forall_app_2; [apply slots_typed|by apply Forall_drop].
    + apply fits_w64.
  - auto.
  - unfold idt_init. wp_step. eapply wp_mono; [apply loop_typed; [|exact Ht]|].
    { intros i h' Hi H'. typed_step. auto with lia. }
    cbv beta. intros [] h1 H1. wp_step. eapply wp_mono; [apply loop_typed; [auto|exact H1]|].
    cbv beta. intros [] h2 H2. do 4 typed_step. auto.
  - intros v [f|] Hv; [|apply wp_ret; split; [exact Ht|by left; auto]]. unfold idt_register_handler.
    destruct (Z.leb_spec 256 v); [apply wp_ret; split; [exact Ht|by left; auto]|]. wp_step.
    eapply wp_mono; [by apply set_handler_typed|]. cbv beta. intros [] h' [H' ->]. wp_step.
    split; [done|]. right. by split_and!.
Qed.
End Typed.

(** ** A layout *)

Definition lay0 : Layout := {|
  cpu_locals_at := 0xFFFFFFFF80010000; idt_descriptor_at := 0xFFFFFFFF80020000;
  gdt_at := 0xFFFFFFFF80030000; tss_at := 0xFFFFFFFF80040000;
  stubs v := 0xFFFFFFFF80050000 + 16 * v; test_at := 0xFFFFFFFF80060000;
  smp_entry_at := 0xFFFFFFFF80070000 |}.

Definition hw0 : hw := board boot0.

Lemma gdt_segments_witness :
  wp (gdt_init (LY := lay0) ;;; tss_init (LY := lay0) 0xFFFF800000009000) (fun _ h' =>
    let g := gdts h' in
    h' = set_trace ([Ltr 40; LoadSegments 8 16; Lgdt 55 (gdt_at (Layout := lay0)); LoadSegments 8 16;
           Lgdt 55 (gdt_at (Layout := lay0))] ++ trace hw0) (set_gdts g hw0) /\
    (forall user entry pid pagemap vctx,
       let c := p_ctx (new_pcb user entry pid pagemap vctx) in
       let ring := if user : bool then 3 else 0 in
       select g (r_cs c) = Some (Segment true ring (CodeSegment true false true)) /\
       select g (r_ss c) = Some (Segment true ring (DataSegment true false)) /\
       r_cs c mod 4 = ring /\ r_ss c mod 4 = ring) /\
    (exists lo hi, gdt g !! 5%nat = Some lo /\ gdt g !! 6%nat = Some hi /\
       decode_system lo hi = (tss_at (Layout := lay0), sizeof_tss - 1) /\
       decode_segment lo = Segment true 3 (SystemSegment TSS_TYPE)) /\
    rsp0 (tss g) = 0xFFFF800000009000) hw0.
Proof.
  apply (gdt_segments (LY := lay0) hw0 0xFFFF800000009000 eq_refl);
    split; vm_compute; (reflexivity || discriminate).
Defined.

Lemma stubs0 v : 0 <= v < 256 -> 0 <= stubs (Layout := lay0) v < 2 ^ 64.
Proof. cbn [stubs lay0]. lia. Qed.

Lemma idt_init_correct_witness :
  wp (idt_init (LY := lay0)) (fun _ h' =>
    h' = set_trace (Lidt 4095 (idt_descriptor_at (Layout := lay0)) :: trace hw0) (set_idt (idt h') hw0) /\
    forall v, (v < 256)%nat ->
      (exists e, idt_descriptor (idt h') !! v = Some e /\
         decode_gate e = Gate (stubs (Layout := lay0) (Z.of_nat v)) 0x8
           (if bool_decide (v = 0x80%nat) then 3 else 0) (is_trap v) true) /\
      real_handlers (idt h') !! v = handler_of hw0 v) hw0.
Proof. exact (idt_init_correct (LY := lay0) hw0 eq_refl eq_refl stubs0). Defined.

Lemma hw0_typed : tables_typed hw0.
Proof.
  split; cbn [hw0 board gdts idt no_gdt no_idt gdt gdt_ptr tss rsp0 io_map_base gdt_limit
      idt_descriptor real_handlers]; rewrite ?length_replicate; try done;
    try (apply Forall_replicate; split_and!);
    split; vm_compute; (reflexivity || discriminate).
Qed.

Lemma tables_typed_preserved_witness :
  wp (tss_init (LY := lay0) 0xFFFF800000009000) (fun _ h' => tables_typed h') hw0 /\
  wp (idt_init (LY := lay0)) (fun _ h' => tables_typed h') hw0 /\
  wp (idt_register_handler 256 (Some die_fn)) (fun r h' => r = 1 /\ h' = hw0) hw0.
Proof.
  destruct (tables_typed_preserved (LY := lay0) hw0 hw0_typed) as (_ & H2 & _ & H4 & H5).
  split; [apply H2|]. split; [exact H4|].
  refine (wp_mono _ _ _ _ (H5 256 (Some die_fn) ltac:(lia)) _). cbv beta.
  intros r h' [_ [(Hr & Hh & _)|(_ & Hlt & _)]]; [exact (conj Hr Hh)|destruct (Z.lt_irrefl _ Hlt)].
Defined.
