(* ===== verification/Console.v ===== *)
(** * dev/serial.c and util/kprintf.c: the serial console

    The formatting itself is external/nanoprintf.h, a library the kernel only calls: a
    parameter here.  The frame buffer terminal is compiled out (FLANTERM_SUPPORT 0). *)

From S2P Require Export TablesProps.

(** ** dev/serial.h *)

Definition COM1 : Z := 0x3f8.

Definition UART_DATA : Z := 0x00.
Definition UART_IER : Z := 0x01.
Definition UART_DLL : Z := 0x00.
Definition UART_DLH : Z := 0x01.
Definition UART_FCR : Z := 0x02.
Definition UART_LCR : Z := 0x03.
Definition UART_MCR : Z := 0x04.
Definition UART_LSR : Z := 0x05.

Definition UART_LCR_DLAB : Z := 0x80.
Definition UART_LCR_8N1 : Z := 0x03.

Definition UART_FCR_ENABLE : Z := 0x01.
Definition UART_FCR_CLEAR_RX : Z := 0x02.
Definition UART_FCR_CLEAR_TX : Z := 0x04.
Definition UART_FCR_14BYTE : Z := 0xC0.

Definition UART_MCR_DTR : Z := 0x01.
Definition UART_MCR_RTS : Z := 0x02.
Definition UART_MCR_OUT2 : Z := 0x08.
Definition UART_MCR_LOOP : Z := 0x10.

Definition UART_LSR_DR : Z := 0x01.
Definition UART_LSR_THRE : Z := 0x20.

Definition UART_BAUD_38400 : Z := 3.

Section Serial.
Context {PF : Platform}.

(** [outb(base + reg, v); io_wait();] *)
Definition uart_set (base reg v : Z) : H unit := outb (base + reg) v ;;; io_wait.

Definition serial_init (port : Z) : H Z :=
  let base := w16 port in
  let lines := Z.lor UART_MCR_DTR (Z.lor UART_MCR_RTS UART_MCR_OUT2) in
  uart_set base UART_IER 0x00 ;;;
  uart_set base UART_LCR UART_LCR_DLAB ;;;
  uart_set base UART_DLL (Z.land UART_BAUD_38400 0xFF) ;;;
  uart_set base UART_DLH (Z.land (Z.shiftr UART_BAUD_38400 8) 0xFF) ;;;
  uart_set base UART_LCR UART_LCR_8N1 ;;;
  uart_set base UART_FCR (Z.lor UART_FCR_ENABLE (Z.lor UART_FCR_CLEAR_RX
    (Z.lor UART_FCR_CLEAR_TX UART_FCR_14BYTE))) ;;;
  uart_set base UART_MCR lines ;;;
  uart_set base UART_MCR (Z.lor UART_MCR_LOOP lines) ;;;
  uart_set base UART_DATA 0xAE ;;;
  v <- inb (base + UART_DATA) ;;
  if negb (v =? 0xAE) then ret (-1) else
  uart_set base UART_MCR lines ;;;
  ret 0.

(** [while (!(inb(base + UART_LSR) & UART_LSR_THRE)) io_wait();] *)
Fixpoint wait_thre (fuel : nat) (base : Z) : H unit :=
  match fuel with
  | O => out_of_fuel
  | S fuel' =>
      v <- inb (base + UART_LSR) ;;
      if negb (has v UART_LSR_THRE) then io_wait ;;; wait_thre fuel' base else ret tt
  end.

(** [data]: the bytes behind the pointer. *)
Definition serial_write (fuel : nat) (port : Z) (data : list Z) (length : Z) : H Z :=
  let base := w16 port in
  for_loop (Z.to_nat length) 0 1 (fun i =>
    wait_thre fuel base ;;;
    outb (base + UART_DATA) (default 0 (data !! Z.to_nat i))) ;;;
  ret (i32 length).

(** The bytes put into the buffer; the code returns their number. *)
Fixpoint serial_read_loop (n : nat) (base : Z) : H (list Z) :=
  match n with
  | O => ret []
  | S n' =>
      v <- inb (base + UART_LSR) ;;
      if has v UART_LSR_DR then
        b <- inb (base + UART_DATA) ;;
        l <- serial_read_loop n' base ;;
        ret (b :: l)
      else ret []
  end.

Definition serial_read (port length : Z) : H (list Z) :=
  serial_read_loop (Z.to_nat length) (w16 port).

(** ** util/kprintf.c *)

Section Printf.
(** [npf_vsnprintf size args]: the returned length and the bytes put into the buffer;
    [args] stands for the format and its arguments. *)
Context {Args : Type} (npf_vsnprintf : Z -> Args -> Z * list Z).

Definition kprintf (fuel : nat) (args : Args) : H Z :=
  acquire kprintf_lock set_kprintf_lock ;;;
  let '(length, buffer) := npf_vsnprintf 1024 args in
  when ((0 <=? length) && (length <? 1024)) (serial_write fuel COM1 buffer length ;;; ret tt) ;;;
  release kprintf_lock set_kprintf_lock ;;;
  ret length.

(** The buffer is in memory, at [buf]. *)
Definition vsnprintf (m : memory) (buf size : Z) (args : Args) : Z * memory :=
  let '(length, out) := npf_vsnprintf size args in
  let m := store_bytes m buf out in
  (length, if i32 size <=? length then store8 m (w64 (buf + w64 (size - 1))) 0 else m).

Definition snprintf (m : memory) (buf size : Z) (args : Args) : Z * memory :=
  vsnprintf m buf size args.
End Printf.
End Serial.

(** ** Theorems *)

(** Reads of the line status since the last byte was handed to the UART at [p]. *)
Fixpoint lsr_polls (p : Z) (t : list io_event) : nat :=
  match t with
  | Inb q :: t' => if q =? p + UART_LSR then S (lsr_polls p t') else lsr_polls p t'
  | Outb q _ :: t' => if q =? p then O else lsr_polls p t'
  | _ :: t' => lsr_polls p t'
  | [] => O
  end.

(** The status read last, since the last byte, showed the holding register empty. *)
Fixpoint thre_seen {PF : Platform} (p : Z) (t : list io_event) : bool :=
  match t with
  | Inb q :: t' => if q =? p + UART_LSR then has (w8 (answer t' (Inb q))) UART_LSR_THRE
                   else thre_seen p t'
  | Outb q _ :: t' => if q =? p then false else thre_seen p t'
  | _ :: t' => thre_seen p t'
  | [] => false
  end.

(** The bytes the UART at [p] sends, in order: one written without the status having shown
    room for it does not count, for it may overwrite the byte before it. *)
Fixpoint sent {PF : Platform} (p : Z) (t : list io_event) : list Z :=
  match t with
  | Outb q v :: t' => if q =? p then sent p t' ++ (if thre_seen p t' then [v] else []) else sent p t'
  | _ :: t' => sent p t'
  | [] => []
  end.

(** A byte leaves the holding register before the status has been read [k] times. *)
Definition drains_within {PF : Platform} (p : Z) (k : nat) : Prop :=
  forall t, (k <= lsr_polls p t)%nat -> has (w8 (answer t (Inb (p + UART_LSR)))) UART_LSR_THRE = true.

Section Write.
Context {PF : Platform} (p : Z) (Hp : 0x80 < p /\ p + 5 < 2 ^ 16) (k : nat) (Hk : drains_within p k).

Lemma port_id r : 0 <= r <= 5 -> w16 (p + r) = p + r.
Proof. intros Hr. apply Z.mod_small. lia. Qed.

Lemma wait_thre_spec fuel h :
  (k < fuel + lsr_polls p (trace h))%nat -> (0 < fuel)%nat ->
  wp (wait_thre fuel p) (fun _ h' =>
    h' = set_trace (trace h') h /\ sent p (trace h') = sent p (trace h) /\
    thre_seen p (trace h') = true) h.
Proof.
  revert h. induction fuel as [|fuel IH]; intros h Hf Hf0; [lia|]. cbn [wait_thre].
  unfold wp, inb, ask, bind at 1 2, ret at 1. rewrite port_id by (unfold UART_LSR; lia).
  set (v := w8 _). set (h1 := set_trace (Inb (p + UART_LSR) :: trace h) h).
  destruct (has v UART_LSR_THRE) eqn:Hv; cbn [negb].
  { split_and!; [reflexivity|reflexivity|]. cbn [trace set_trace h1 thre_seen].
    rewrite Z.eqb_refl. exact Hv. }
  assert (Hlt : (lsr_polls p (trace h) < k)%nat).
  { destruct (le_lt_dec k (lsr_polls p (trace h))) as [Hle|]; [|done].
    pose proof (Hk (trace h) Hle) as Hd. unfold v in Hv. congruence. }
  unfold bind, io_wait, emit, modify. set (h2 := set_trace (Outb 0x80 0 :: trace h1) h1).
  assert (Hpolls : lsr_polls p (trace h2) = S (lsr_polls p (trace h))).
  { cbn [h2 h1 trace set_trace lsr_polls]. rewrite (proj2 (Z.eqb_neq 0x80 p)) by lia.
    by rewrite Z.eqb_refl. }
  assert (Hsent : sent p (trace h2) = sent p (trace h)).
  { cbn [h2 h1 trace set_trace sent]. by rewrite (proj2 (Z.eqb_neq 0x80 p)) by lia. }
  pose proof (IH h2 ltac:(lia)) as Hrec. destruct fuel as [|fuel]; [lia|].
  specialize (Hrec ltac:(lia)). eapply wp_mono; [exact Hrec|]. cbv beta. intros _ h' (He & Hs & Ht).
  split_and!; [rewrite He; reflexivity|congruence|done].
Qed.

Lemma serial_write_spec fuel h data n :
  (n <= length data)%nat -> (k < fuel)%nat ->
  wp (for_loop n 0 1 (fun i =>
        wait_thre fuel p ;;; outb (p + UART_DATA) (default 0 (data !! Z.to_nat i))))
    (fun _ h' => h' = set_trace (trace h') h /\
       sent p (trace h') = sent p (trace h) ++ (w8 <$> take n data)) h.
Proof.
  intros Hn Hf. apply (wp_for_loop n 0 1 _ (fun j h' => h' = set_trace (trace h') h /\
    sent p (trace h') = sent p (trace h) ++ (w8 <$> take j data))).
  - split; [by destruct h|]. by rewrite app_nil_r.
  - intros j h1 Hj [He Hs]. replace (0 + Z.of_nat j * 1) with (Z.of_nat j) by lia.
    wp_step. eapply wp_mono; [apply (wait_thre_spec fuel h1); lia|]. cbv beta.
    intros _ h2 (He2 & Hs2 & Ht2). unfold outb, emit. wp_step. rewrite Nat2Z.id.
    rewrite port_id by (unfold UART_DATA; lia). unfold UART_DATA. rewrite Z.add_0_r.
    cbn [trace set_trace sent]. rewrite Z.eqb_refl, Ht2. split; [rewrite He2, He; reflexivity|].
    destruct (lookup_lt_is_Some_2 data j) as [b Hb]; [lia|]. rewrite Hb.
    rewrite (take_S_r data j b) by done. rewrite fmap_app, app_assoc, Hs2, Hs. reflexivity.
Qed.
End Write.

Section Console.
Context {PF : Platform} {Args : Type}.

(** The documented behaviour of the formatter: the length of the whole text, and the
    text itself when it fits with its terminator. *)
Definition npf_ok (npf : Z -> Args -> Z * list Z) (text : Args -> list Z) : Prop :=
  forall size a, (npf size a).1 = Z.of_nat (length (text a)) /\
    (Z.of_nat (length (text a)) < size -> take (length (text a)) (npf size a).2 = text a).

(** C33: with a UART that accepts a byte within [k] polls, [kprintf] ends; a text of fewer
    than 1024 bytes goes out whole and in order, each byte only after the line status has
    shown room for it, and a longer text not at all; the length of the text is returned
    either way, and the lock is free again. *)
Theorem kprintf_correct npf text k fuel h args :
  npf_ok npf text -> drains_within COM1 k -> (k < fuel)%nat -> kprintf_lock h = 0 ->
  let n := Z.of_nat (length (text args)) in
  wp (kprintf npf fuel args) (fun r h' =>
    r = n /\ h' = set_trace (trace h') h /\
    sent COM1 (trace h') = sent COM1 (trace h) ++
      (if n <? 1024 then w8 <$> text args else [])) h.
Proof.
  intros Hn Hk Hf Hl n. destruct (Hn 1024 args) as [Hlen Htake]. fold n in Hlen, Htake.
  unfold kprintf. wp_step. apply wp_acquire; [exact Hl|]. cbv beta.
  destruct (npf 1024 args) as [len buffer]. cbn [fst snd] in *. subst len.
  set (h1 := set_kprintf_lock 1 h). rewrite (proj2 (Z.leb_le 0 n)) by lia. cbn [andb].
  assert (Hfin : forall h2, h2 = set_trace (trace h2) h1 ->
    set_kprintf_lock 0 h2 = set_trace (trace (set_kprintf_lock 0 h2)) h).
  { intros h2 ->. destruct h; cbn in Hl |- *. by rewrite Hl. }
  destruct (Z.ltb_spec n 1024) as [Hlt|Hge].
  - specialize (Htake Hlt).
    assert (Hb : (length (text args) <= length buffer)%nat).
    { rewrite <-Htake at 1. rewrite length_take. lia. }
    wp_step. cbn [when]. wp_step. unfold serial_write.
    assert (Hnat : Z.to_nat n = length (text args)) by lia. rewrite Hnat. wp_step.
    eapply wp_mono; [apply (serial_write_spec COM1 ltac:(unfold COM1; lia) k Hk fuel h1 buffer); lia|].
    cbv beta. intros _ h2 [He Hs]. do 2 wp_step. wp_step. apply wp_release. wp_step.
    split_and!; [done|by apply Hfin|]. by rewrite Htake in Hs.
  - wp_step. cbn [when]. do 2 wp_step. apply wp_release. wp_step. rewrite app_nil_r.
    split_and!; [done|apply Hfin; by destruct h|done].
Qed.

(** A buffer of size zero: the terminator goes in front of it. *)
Theorem vsnprintf_size_zero (npf : Z -> Args -> Z * list Z) text m buf a :
  npf_ok npf text -> (npf 0 a).2 = [] -> 0 < buf < 2 ^ 64 ->
  vsnprintf npf m buf 0 a = (Z.of_nat (length (text a)), store8 m (buf - 1) 0).
Proof.
  intros Hn Hout Hb. destruct (Hn 0 a) as [Hlen _]. unfold vsnprintf.
  destruct (npf 0 a) as [len out]. cbn [fst snd] in *. subst len out. cbn [store_bytes].
  rewrite (proj2 (Z.leb_le (i32 0) _)) by (change (i32 0) with 0; lia). do 2 f_equal.
  unfold w64. rewrite Zplus_mod_idemp_r. replace (buf + (0 - 1)) with (buf - 1) by lia.
  apply Z.mod_small. lia.
Qed.
End Console.

(** ** A UART that takes a byte every three polls, and a formatter of byte strings *)

Definition uart3 : Platform := fun t e =>
  match e with
  | Inb q => if (q =? COM1 + UART_LSR) && bool_decide (lsr_polls COM1 t < 2)%nat then 0 else 0x60
  | _ => 0
  end.

Definition npf0 (size : Z) (text : list Z) : Z * list Z :=
  (Z.of_nat (length text), take (Z.to_nat (size - 1)) text ++ [0]).

Lemma npf0_ok : npf_ok npf0 id.
Proof.
  intros size a. split; [done|]. cbn [npf0 fst snd id]. intros H.
  rewrite take_app_le by (rewrite length_take; lia). rewrite take_take. apply take_ge. lia.
Qed.

Lemma uart3_drains : drains_within (PF := uart3) COM1 2.
Proof.
  intros t Ht. unfold answer, uart3. rewrite Z.eqb_refl, bool_decide_false by lia. reflexivity.
Qed.

Definition hello : list Z := [69; 77; 75; 10].

Lemma kprintf_correct_witness :
  wp (kprintf (PF := uart3) npf0 3 hello) (fun r h' =>
    r = 4 /\ h' = set_trace (trace h') hw0 /\
    sent (PF := uart3) COM1 (trace h') = sent (PF := uart3) COM1 (trace hw0) ++ hello) hw0.
Proof. exact (kprintf_correct (PF := uart3) npf0 id 2 3 hw0 hello npf0_ok uart3_drains ltac:(lia) eq_refl). Defined.
