(* ===== verification/Interrupts.v ===== *)
(** * Interrupts: dispatch (arch/idt-stub.S), the halting trap, dev/timer/pit.c

    The scheduler and the system calls find the running CPU with [get_cpu_local]; here
    the handler fetches its index once ([on_cpu]) and the code of sys/ runs with it. *)

From S2P Require Export Console.

(** The core's view of the CPU that runs. *)
Definition set_this_cpu (i : Z) (s : machine) : machine :=
  let d := sched s in
  set_sched (Sched (cpu_schedulers d) (pcbs d) (global_pid_counter d) i) s.

Definition PIT_VECTOR : Z := 32.

Definition with_vector (v : Z) (c : register_ctx) : register_ctx :=
  RegisterCtx (r_es c) (r_ds c) (r_cr4 c) (r_cr3 c) (r_cr2 c) (r_cr0 c)
    (r_r15 c) (r_r14 c) (r_r13 c) (r_r12 c) (r_r11 c) (r_r10 c) (r_r9 c) (r_r8 c)
    (r_rsi c) (r_rdi c) (r_rbp c) (r_rdx c) (r_rcx c) (r_rbx c) (r_rax c)
    v (r_err c) (r_rip c) (r_cs c) (r_rflags c) (r_rsp c) (r_ss c).

Definition with_ready (b : bool) (c : cpu_local_t) : cpu_local_t :=
  CpuLocal (lapic_id c) (cpu_idx c) b.

Section Interrupts.
Context {FA : FrameAlloc} {PF : Platform} {LY : Layout}.
Context (fuel : nat) (dummy_ctx : register_ctx).

Definition on_cpu {A} (m : K A) : H A :=
  p <- get_cpu_local ;;
  cpu <- deref_cpu p ;;
  modify (fun h => set_core (set_this_cpu (cpu_idx cpu) (core h)) h) ;;;
  lift m.

(** [tick] of emk.c. *)
Definition tick (ctx : register_ctx) : H register_ctx :=
  r <- on_cpu (sched_tick fuel (Some ctx)) ;; ret (default ctx r).

(** ** arch/idt.c *)

Definition default_interrupt_handler (ctx : register_ctx) : H register_ctx := kpanic.

Definition die (ctx : register_ctx) : H register_ctx :=
  p <- get_cpu_local ;;
  update_cpu p (with_ready false) ;;;
  hcf.

(** ** dev/timer/pit.c *)

Definition pit_handler (callback : register_ctx -> H register_ctx) (frame : register_ctx)
    : H register_ctx :=
  cb <- gets (fun h => pit_callback (timer h)) ;;
  frame <- match cb with Some _ => callback frame | None => ret frame end ;;
  lapic_eoi ;;;
  ret frame.

(** Calling a handler; [depth] bounds handlers that call handlers. *)
Fixpoint call_handler (depth : nat) (f : idt_intr_handler) (ctx : register_ctx) : H register_ctx :=
  match depth with
  | O => out_of_fuel
  | S d =>
      match f with
      | idt_default_interrupt_handler => default_interrupt_handler ctx
      | syscall_handler_fn => on_cpu (syscall_handler fuel dummy_ctx ctx)
      | die_fn => die ctx
      | tick_fn => tick ctx
      | pit_handler_fn =>
          cb <- gets (fun h => pit_callback (timer h)) ;;
          pit_handler (call_handler d (default tick_fn cb)) ctx
      end
  end.

(** [call *real_handlers(,vector,8)]; calling a null pointer faults. *)
Definition isr_dispatch (ctx : register_ctx) : H register_ctx :=
  r <- gets (fun h => real_handlers (idt h)) ;;
  match r !! Z.to_nat (r_vector ctx) with
  | Some (Some f) => call_handler 3 f ctx
  | _ => kpanic
  end.

Definition set_pit_callback (f : option idt_intr_handler) : H unit :=
  modify (fun h => set_timer (Timer f (tapi_enabled (timer h))) h).

(** BROADCAST_PIT is 0. *)
Definition pit_init (handler : option idt_intr_handler) : H unit :=
  when (bool_decide (handler <> None)) (set_pit_callback handler) ;;;
  outb 0x43 0x36 ;;;
  let divisor := 5966 in
  outb 0x40 (Z.land divisor 0xFF) ;;;
  outb 0x40 (Z.land (Z.shiftr divisor 8) 0xFF) ;;;
  idt_register_handler PIT_VECTOR (Some pit_handler_fn) ;;;
  p <- get_cpu_local ;;
  cpu <- deref_cpu p ;;
  ioapic_map 0 PIT_VECTOR 0 (w8 (lapic_id cpu)).

Definition timer_init (handler : option idt_intr_handler) : H unit :=
  pit_init handler ;;;
  modify (fun h => set_timer (Timer (pit_callback (timer h)) true) h).

Definition timer_enabled : H bool := gets (fun h => tapi_enabled (timer h)).
End Interrupts.

(** ** Theorems *)

(** Reading the base of %gs gives the value it has. *)
Definition reads_gs {PF : Platform} : Prop := forall t, answer t (Rdmsr MSR_GS_BASE) = gs_base t.

(** The local controller is mapped, and its identification register holds [id]. *)
Definition lapic_says {PF : Platform} (h : hw) (id : Z) : Prop :=
  0 < lapic_base (apic h) /\ lapic_base (apic h) + 4096 <= 2 ^ 64 /\ 0 <= id < 256 /\
  forall t, answer t (Read32 (lapic_base (apic h) + LAPIC_ID)) = Z.shiftl id 24.

(** The running CPU is entry [j] of [cpu_locals]: its GS base points there or, as after
    [gdt_flush], is 0, and the entry is the first with the CPU's APIC identifier. *)
Record runs_on {PF : Platform} {LY : Layout} (h : hw) (j : nat) (cpu : cpu_local_t) : Prop := RunsOn {
  on_base : 0 < cpu_locals_at /\ cpu_ptr (Z.of_nat j) < 2 ^ 64;
  on_reads : reads_gs;
  on_here : gs_base (trace h) = cpu_ptr (Z.of_nat j) \/
    (gs_base (trace h) = 0 /\ lapic_says h (lapic_id cpu) /\
     find_cpu (Z.to_nat (cpu_count (smp h))) 0 (lapic_id cpu) (cpu_locals (smp h)) = Some (Z.of_nat j));
  on_entry : cpu_locals (smp h) !! j = Some cpu }.

(** The reads with which a CPU finds its entry. *)
Definition who_am_i (h : hw) : list io_event :=
  if gs_base (trace h) =? 0 then [Read32 (lapic_base (apic h) + LAPIC_ID); Rdmsr MSR_GS_BASE]
  else [Rdmsr MSR_GS_BASE].

Lemma runs_on_same {PF : Platform} {LY : Layout} h h' j cpu :
  runs_on h j cpu -> gs_base (trace h') = gs_base (trace h) -> apic h' = apic h -> smp h' = smp h ->
  runs_on h' j cpu.
Proof. intros [H1 H2 H3 H4] Hg Ha Hs. split; [done|done| |congruence]. unfold lapic_says. by rewrite Hg, Ha, Hs. Qed.

Lemma gs_base_asked h : gs_base (who_am_i h ++ trace h) = gs_base (trace h).
Proof. unfold who_am_i. by destruct (_ =? 0). Qed.

Section Props.
Context {FA : FrameAlloc} {PF : Platform} {LY : Layout}.

Lemma rdmsr_run m h v :
  answer (trace h) (Rdmsr (w32 m)) = v -> 0 <= v < 2 ^ 64 ->
  rdmsr m h = Ret v (set_trace (Rdmsr (w32 m) :: trace h) h).
Proof.
  intros Ha Hv. unfold rdmsr, bind, ask, ret. rewrite Ha. f_equal.
  assert (Hw : w32 (Z.shiftr v 32) = v / 2 ^ 32).
  { rewrite Z.shiftr_div_pow2 by lia. apply w32_id.
    split; [apply Z.div_pos; lia|apply Z.div_lt_upper_bound; lia]. }
  rewrite Hw. unfold w32. apply Z.bits_inj'. intros n Hn.
  rewrite Z.lor_spec, Z.shiftl_spec, <-Z.land_ones, Z.land_spec, <-Z.shiftr_div_pow2 by lia.
  destruct (Z.ltb_spec n 32).
  - rewrite Z.ones_spec_low by lia. rewrite (Z.testbit_neg_r _ (n - 32)) by lia. by rewrite andb_true_r.
  - rewrite Z.ones_spec_high by lia. rewrite Z.shiftr_spec by lia. rewrite andb_false_r, orb_false_r.
    f_equal. lia.
Qed.

Lemma cpu_index_of j : (cpu_ptr (Z.of_nat j) - cpu_locals_at) / sizeof_cpu_local = Z.of_nat j.
Proof.
  unfold cpu_ptr, sizeof_cpu_local. replace (cpu_locals_at + Z.of_nat j * 12 - cpu_locals_at) with (Z.of_nat j * 12) by lia.
  apply Z.div_mul. lia.
Qed.

Lemma lapic_get_id_run h id :
  lapic_says h id ->
  lapic_get_id h = Ret id (set_trace (Read32 (lapic_base (apic h) + LAPIC_ID) :: trace h) h).
Proof.
  intros (Hb0 & Hb & Hid & Ha). unfold lapic_get_id, bind at 1, gets.
  rewrite (proj2 (Z.eqb_neq _ 0)) by lia. unfold bind.
  rewrite (lapic_read_run _ Hb0 Hb h LAPIC_ID) by (done || (unfold LAPIC_ID; lia)).
  rewrite Ha, Z.shiftl_mul_pow2, w32_id, Z.shiftr_div_pow2, Z.div_mul by lia.
  by rewrite (proj2 (Z.ltb_ge 255 id)) by lia.
Qed.

Lemma get_cpu_local_run h j cpu :
  runs_on h j cpu ->
  get_cpu_local h = Ret (cpu_ptr (Z.of_nat j)) (set_trace (who_am_i h ++ trace h) h).
Proof.
  intros [[H1 H2] Ha Hon _]. assert (H0 : 0 < cpu_ptr (Z.of_nat j)) by (unfold cpu_ptr, sizeof_cpu_local; lia).
  assert (Hg : 0 <= gs_base (trace h) < 2 ^ 64) by (destruct Hon as [-> | [-> _]]; lia).
  unfold get_cpu_local, bind at 1. rewrite (rdmsr_run MSR_GS_BASE h (gs_base (trace h))) by (apply Ha || lia).
  unfold who_am_i. destruct Hon as [-> | (-> & Hl & Hfind)].
  - by rewrite !(proj2 (Z.eqb_neq (cpu_ptr (Z.of_nat j)) _)) by lia.
  - change (negb (0 =? NULL)) with false. change (0 =? 0) with true. cbv iota. unfold bind at 1.
    rewrite (lapic_get_id_run _ (lapic_id cpu)) by exact Hl. unfold bind, gets.
    cbn [smp set_trace]. by rewrite Hfind.
Qed.

Lemma deref_cpu_run h h' j cpu :
  runs_on h j cpu -> smp h' = smp h -> deref_cpu (cpu_ptr (Z.of_nat j)) h' = Ret cpu h'.
Proof.
  intros [[H1 H2] _ _ He] Hs. unfold deref_cpu.
  assert (H0 : 0 < cpu_ptr (Z.of_nat j)) by (unfold cpu_ptr, sizeof_cpu_local; lia).
  rewrite (proj2 (Z.eqb_neq _ NULL)) by lia. unfold gets. by rewrite cpu_index_of, Nat2Z.id, Hs, He.
Qed.

Lemma on_cpu_run {A} (m : K A) h j cpu :
  runs_on h j cpu -> cpu_index (sched (core h)) = cpu_idx cpu ->
  on_cpu m h = lift m (set_trace (who_am_i h ++ trace h) h).
Proof.
  intros Hr Hi. unfold on_cpu, bind at 1. rewrite (get_cpu_local_run h j cpu Hr).
  unfold bind at 1. rewrite (deref_cpu_run h _ j cpu Hr) by done.
  unfold bind, modify. f_equal. unfold set_this_cpu. cbn [core set_trace]. rewrite <-Hi.
  destruct h as [s t]; destruct s as [? ? ? ? ? ? ? [? ? ? ?]]. reflexivity.
Qed.

(** A CPU that takes the trap 0xFE clears its flag, disables interrupts and halts. *)
Theorem die_stops fuel dummy h j cpu regs :
  runs_on h j cpu -> real_handlers (idt h) !! Z.to_nat 0xFE = Some (Some die_fn) -> r_vector regs = 0xFE ->
  exists l, isr_dispatch fuel dummy regs h =
      Hang (set_trace (Cli :: who_am_i h ++ trace h) (set_cpu_locals l h)) /\
    l = alter (with_ready false) j (cpu_locals (smp h)).
Proof.
  intros Hon Hh Hv. eexists. split; [|reflexivity]. unfold isr_dispatch, bind at 1, gets. rewrite Hv, Hh.
  cbn [call_handler]. unfold die, bind at 1. rewrite (get_cpu_local_run h j cpu Hon).
  pose proof (on_base _ _ _ Hon). assert (H0 : 0 < cpu_ptr (Z.of_nat j)) by (unfold cpu_ptr, sizeof_cpu_local; lia).
  unfold update_cpu. rewrite (proj2 (Z.eqb_neq _ NULL)) by lia. unfold bind, modify, hcf, emit, bind, modify, hang.
  rewrite cpu_index_of, Nat2Z.id. cbn [smp set_trace]. do 3 f_equal.
Qed.

(** C23: a timer interrupt preempts: dispatched through the vector that [pit_init]
    registers, it runs the scheduler's tick on the CPU's own queue, so that the interrupt
    returns to the next process with exactly its saved registers, and it is acknowledged
    to the local APIC once, after that; besides, only what says which CPU runs is read: the
    GS base and, where [gdt_flush] has cleared that, the APIC identifier. *)
Theorem timer_interrupt_preempts fuel dummy h j cpu b a regs :
  runs_on h j cpu -> rr_rel (cpu_idx cpu) (core h) a ->
  real_handlers (idt h) !! Z.to_nat PIT_VECTOR = Some (Some pit_handler_fn) ->
  pit_callback (timer h) = Some tick_fn -> r_vector regs = PIT_VECTOR ->
  lapic_at b h -> 0 < b -> b + 4096 <= 2 ^ 64 ->
  wp (isr_dispatch fuel dummy regs) (fun r h' =>
    r = (rr_tick regs a).1 /\ rr_rel (cpu_idx cpu) (core h') (rr_tick regs a).2 /\
    h' = set_trace (Write32 (b + LAPIC_EOI) 0 :: who_am_i h ++ trace h) (set_core (core h') h) /\
    mem (core h') = mem (core h)) h.
Proof.
  intros Hon Hrel Hh Hcb Hv Hl Hb0 Hb.
  destruct (rr_next_lookup _ _ _ Hrel) as [nx Hnx].
  destruct (lookup_lt_is_Some_2 _ _ (rel_bound _ _ _ Hrel)) as [cu Hcu].
  destruct (ticked_rel _ _ _ regs _ _ Hrel Hcu Hnx) as [Hrel' Hctx].
  pose proof (sched_tick_run fuel _ _ _ regs _ _ Hrel Hcu Hnx) as Ht. cbv zeta in Ht. rewrite Hctx in Ht.
  set (s' := ticked _ _ _ _ _ _) in *.
  unfold wp, isr_dispatch, bind at 1, gets. rewrite Hv, Hh. cbn [call_handler].
  unfold bind at 1, gets at 1. rewrite Hcb. cbn [default from_option id].
  unfold pit_handler, bind at 1, gets at 1. rewrite Hcb. unfold bind at 1, tick, bind at 1.
  rewrite (on_cpu_run _ h j cpu Hon (rel_cpu _ _ _ Hrel)). unfold lift. cbn [core set_trace].
  rewrite Ht. unfold ret at 1. cbn [default from_option id].
  set (h1 := set_core s' _). unfold bind at 1, lapic_eoi.
  rewrite (lapic_write_run b Hb0 Hb h1 LAPIC_EOI 0) by (exact Hl || (unfold LAPIC_EOI; done || lia)).
  by split_and!.
Qed.
End Props.

(** ** A board with two processes on its only CPU *)

Definition lone_cpu : cpu_local_t := CpuLocal 7 0 true.

Definition timer_platform : Platform := fun t e =>
  match e with
  | Rdmsr m => if m =? MSR_GS_BASE then gs_base t else 0
  | Read32 a => if a =? lab0 + LAPIC_ID then Z.shiftl 7 24 else 0
  | _ => 0
  end.

(** The start of a CPU, with the GS base at its entry, then the segments of [gdt_init]. *)
Definition started_trace : list io_event :=
  [LoadSegments 8 16; Lgdt 55 (gdt_at (Layout := lay0)); Wrmsr MSR_GS_BASE (cpu_ptr (LY := lay0) 0)].

(** The GS base that [set_cpu_local] stores does not survive [gdt_init]. *)
Lemma gdt_init_clears_gs {PF : Platform} {LY : Layout} p h :
  wp (set_cpu_local p ;;; gdt_init) (fun _ h' => gs_base (trace h') = 0) h.
Proof. reflexivity. Qed.

Lemma started_trace_init :
  wp (set_cpu_local (cpu_ptr (LY := lay0) 0) ;;; gdt_init (LY := lay0))
    (fun _ h' => trace h' = started_trace) hw0.
Proof. reflexivity. Qed.

Definition timer_board : hw :=
  let h := set_trace started_trace (board two_procs) in
  set_apic (Apic 0 lab0 0)
    (set_timer (Timer (Some tick_fn) true)
      (set_smp (Smp 1 7 1 (lone_cpu :: replicate 63 (CpuLocal 0 0 false)))
        (set_idt (Idt (idt_descriptor (idt h))
           (replicate 32 None ++ Some pit_handler_fn :: replicate 223 None)) h))).

Lemma timer_board_on : runs_on (PF := timer_platform) (LY := lay0) timer_board 0 lone_cpu.
Proof.
  split; [split; vm_compute; reflexivity|done| |done]. right. split_and!; [done| |done].
  split_and!; try done; vm_compute; discriminate.
Qed.

Lemma timer_interrupt_preempts_witness :
  wp (isr_dispatch (PF := timer_platform) (LY := lay0) 10 zero_ctx
        (with_vector 32 (regs_at 0x104))) (fun r h' =>
    r = regs_at 0x200 /\
    rr_rel 0 (core h') (rr_tick (with_vector 32 (regs_at 0x104)) two_rr).2 /\
    h' = set_trace (Write32 (lab0 + LAPIC_EOI) 0 ::
             [Read32 (lab0 + LAPIC_ID); Rdmsr MSR_GS_BASE] ++ started_trace)
           (set_core (core h') timer_board) /\
    mem (core h') = mem two_procs) timer_board.
Proof.
  exact (timer_interrupt_preempts (PF := timer_platform) (LY := lay0) 10 zero_ctx timer_board 0 lone_cpu
    lab0 two_rr (with_vector 32 (regs_at 0x104)) timer_board_on two_rel eq_refl eq_refl eq_refl eq_refl
    ltac:(vm_compute; reflexivity) ltac:(vm_compute; discriminate)).
Defined.
