(* ===== verification/Panic.v ===== *)
(** * sys/kpanic.c: the end of the line

    Elsewhere in the development a panic is an outcome; here is what [kpanic] itself
    does.  The register lines it prints are one [Report]; what other CPUs do to memory
    meanwhile is up to the environment. *)

From S2P Require Export Interrupts.

(** [flag_of t j r]: what the [ready] flag of CPU [j], last written [r] by this CPU,
    reads after the accesses [t]; [count_of t n]: the same for [started_cpus]. *)
Class Others := {
  flag_of : list io_event -> nat -> bool -> bool;
  count_of : list io_event -> Z -> Z }.

Definition strings : list string := [
  "Division by Zero"; "Debug"; "Non-Maskable-Interrupt"; "Breakpoint"; "Overflow";
  "Bound Range Exceeded"; "Invalid opcode"; "Device (FPU) not available"; "Double Fault";
  "RESERVED VECTOR"; "Invalid TSS"; "Segment not present"; "Stack Segment Fault";
  "General Protection Fault"; "Page Fault"; "RESERVED VECTOR"; "x87 FP Exception";
  "Alignment Check"; "Machine Check (Internal Error)"; "SIMD FP Exception";
  "Virtualization Exception"; "Control  Protection Exception"; "RESERVED VECTOR";
  "RESERVED VECTOR"; "RESERVED VECTOR"; "RESERVED VECTOR"; "RESERVED VECTOR";
  "RESERVED VECTOR"; "Hypervisor Injection Exception"; "VMM Communication Exception";
  "Security Exception"; "RESERVED VECTOR" ]%string.

(** [cpu]: the registers; [context]: what the structure held before.  The store of
    [%r8] goes to the field [r9], where that of [%r9] follows. *)
Definition capture_regs (cpu context : register_ctx) : register_ctx :=
  RegisterCtx (r_es cpu) (r_ds cpu) (r_cr4 cpu) (r_cr3 cpu) (r_cr2 cpu) (r_cr0 cpu)
    (r_r15 cpu) (r_r14 cpu) (r_r13 cpu) (r_r12 cpu) (r_r11 cpu) (r_r10 cpu)
    (r_r9 cpu) (r_r8 context)
    (r_rsi cpu) (r_rdi cpu) (r_rbp cpu) (r_rdx cpu) (r_rcx cpu) (r_rbx cpu) (r_rax cpu)
    (r_vector context) (r_err context) (r_rip cpu) (r_cs cpu) (r_rflags cpu) (r_rsp cpu) (r_ss cpu).

Definition with_err_vector (err vector : Z) (c : register_ctx) : register_ctx :=
  RegisterCtx (r_es c) (r_ds c) (r_cr4 c) (r_cr3 c) (r_cr2 c) (r_cr0 c)
    (r_r15 c) (r_r14 c) (r_r13 c) (r_r12 c) (r_r11 c) (r_r10 c) (r_r9 c) (r_r8 c)
    (r_rsi c) (r_rdi c) (r_rbp c) (r_rdx c) (r_rcx c) (r_rbx c) (r_rax c)
    vector err (r_rip c) (r_cs c) (r_rflags c) (r_rsp c) (r_ss c).

Definition panic_message (fmt : option (list Z)) (vector : Z) : panic_msg :=
  match fmt with
  | Some text => Formatted text
  | None => match strings !! Z.to_nat vector with
            | Some name => Exception name
            | None => UnknownVector vector
            end
  end.

Definition MAX_BACKTRACE_FRAMES : Z := 20.

(** The return addresses that the walk over the frame pointers prints. *)
Fixpoint backtrace_loop (frames : nat) (rbp : Z) : K (list Z) :=
  match frames with
  | O => ret []
  | S n =>
      if rbp =? 0 then ret [] else
      next_rbp <- vread 8 rbp ;;
      return_addr <- vread 8 (rbp + 8) ;;
      l <- backtrace_loop n next_rbp ;;
      ret (return_addr :: l)
  end.

(** Reading the frame pointer through a null pointer faults. *)
Definition backtrace (ctx : option register_ctx) : K (list Z) :=
  match ctx with
  | None => kpanic
  | Some c =>
      l <- backtrace_loop (Z.to_nat (MAX_BACKTRACE_FRAMES - 1)) (r_rbp c) ;;
      ret (r_rip c :: l)
  end.

Section Panic.
Context {PF : Platform} {LY : Layout} {OT : Others}.

(** [cur->ready]. *)
Definition read_ready (j : nat) : H bool :=
  h <- get ;;
  ret (flag_of (trace h) j (default false (ready <$> cpu_locals (smp h) !! j))).

Fixpoint wait_halted (fuel j : nat) : H unit :=
  match fuel with
  | O => out_of_fuel
  | S fuel' =>
      r <- read_ready j ;;
      if r : bool then emit Pause ;;; wait_halted fuel' j else ret tt
  end.

(** One round of the loop over [cpu_locals]. *)
Definition wait_other (fuel : nat) (i : Z) : H unit :=
  p <- get_cpu_local ;;
  me <- deref_cpu p ;;
  cur <- deref_cpu (cpu_ptr i) ;;
  when (negb (cpu_idx cur =? cpu_idx me)) (wait_halted fuel (Z.to_nat i)).

(** [depth] bounds the panics inside the panic: [lapic_send_ipi] panics before
    [lapic_init].  [cpu]: the registers that [capture_regs] finds, [junk]: the bytes of
    the uninitialised [regs]. *)
Fixpoint kpanic_fn (depth fuel : nat) (cpu junk : register_ctx) (ctx : option register_ctx)
    (fmt : option (list Z)) : H unit :=
  match depth with
  | O => out_of_fuel
  | S depth' =>
      base <- gets (fun h => lapic_base (apic h)) ;;
      if base =? 0 then kpanic_fn depth' fuel cpu junk None (Some []) else
      lapic_send_ipi fuel 0 0xFE ICR_FIXED ICR_PHYSICAL ICR_ALL_EXCLUDING_SELF ;;;
      n <- gets (fun h => cpu_count (smp h)) ;;
      for_loop (Z.to_nat n) 0 1 (wait_other fuel) ;;;
      let regs := match ctx with
                  | None => with_err_vector 0xDEADBEEF 0 (capture_regs cpu junk)
                  | Some c => c
                  end in
      p <- get_cpu_local ;;
      idx <- (if p =? NULL then ret None else me <- deref_cpu p ;; ret (Some (cpu_idx me))) ;;
      emit (Report (panic_message fmt (r_vector regs)) idx regs) ;;;
      lift (backtrace ctx) ;;;
      hcf
  end.
End Panic.

(** ** Theorems *)

(** A chain of frames: saved frame pointer, then return address, the last pointer null. *)
Fixpoint frames_at (m : memory) (lo rbp : Z) (l : list Z) : Prop :=
  match l with
  | [] => rbp = 0
  | a :: l' => lo <= rbp /\ 0 < rbp /\ rbp + 16 <= 2 ^ 64 /\ load64 m (rbp + 8) = a /\
               frames_at m lo (load64 m rbp) l'
  end.

Lemma backtrace_loop_spec n rbp l s :
  0 <= hhdm_offset s -> frames_at (mem s) (hhdm_offset s) rbp l ->
  backtrace_loop n rbp s = Ret (take n l) s.
Proof.
  intros Hh. revert rbp l. induction n as [|n IH]; intros rbp l Hl; [done|]. cbn [backtrace_loop].
  destruct l as [|a l]; cbn [frames_at] in Hl; [by subst rbp|]. destruct Hl as (H1 & H2 & H3 & H4 & H5).
  rewrite (proj2 (Z.eqb_neq rbp 0)) by lia. unfold bind.
  rewrite !(vread_kernel 8) by lia. change (loadn 8) with load64.
  rewrite (IH _ l H5), H4. done.
Qed.

Section Props.
Context {PF : Platform} {LY : Layout} {OT : Others}.

(** before [lapic_init] a panic never reports its cause and never halts: [kpanic]
    calls [lapic_send_ipi], which panics because the controller is not mapped, without
    end, whatever the cause and however deep the recursion may go. *)
Theorem kpanic_before_lapic depth fuel cpu junk ctx fmt h :
  lapic_base (apic h) = 0 -> kpanic_fn depth fuel cpu junk ctx fmt h = NoFuel.
Proof.
  intros Hb. revert ctx fmt. induction depth as [|d IH]; intros ctx fmt; [done|].
  cbn [kpanic_fn]. unfold bind at 1, gets. rewrite Hb. exact (IH None (Some [])).  
Qed.

Section Halt.
Context (b : Z) (Hb0 : 0 < b) (Hb : b + 4096 <= 2 ^ 64) (j : nat) (me : cpu_local_t).

(** The command that raises the halting trap on all other CPUs. *)
Definition halt_ipi : io_event := Write32 (b + LAPIC_ICRLO) 0xC40FE.

(** Rounds of waiting since it was sent. *)
Fixpoint pauses_since (t : list io_event) : option nat :=
  match t with
  | [] => None
  | e :: t' => if decide (e = halt_ipi) then Some O
               else if decide (e = Pause) then S <$> pauses_since t' else pauses_since t'
  end.

(** The environment: the flag of every other CPU goes down, which is what [die] does on it
    ([die_stops]), within [k] rounds after the trap was sent. *)
Definition halts_within (k : nat) : Prop :=
  forall t i r n, i <> j -> pauses_since t = Some n -> (k <= n)%nat -> flag_of t i r = false.

(** The flag of CPU [i], last written [r] by this CPU, reads down after the accesses
    [sent] that follow [t0] and are part of [t]. *)
Definition down_at (r : bool) (sent t0 t : list io_event) (i : nat) : Prop :=
  flag_of (sent ++ t0) i r = false /\ sent ++ t0 `suffix_of` t.

Lemma down_later r sent t0 t t' i : down_at r sent t0 t i -> t `suffix_of` t' -> down_at r sent t0 t' i.
Proof. intros [H1 H2] Ht. split; [done|by etransitivity]. Qed.

(** What waiting leaves alone, and that the trap stays sent. *)
Record waited (h h' : hw) : Prop := Waited {
  wt_only : h' = set_trace (trace h') h;
  wt_sent : is_Some (pauses_since (trace h'));
  wt_gs : gs_base (trace h') = gs_base (trace h);
  wt_grows : trace h `suffix_of` trace h' }.

Lemma waited_trans h1 h2 h3 : waited h1 h2 -> waited h2 h3 -> waited h1 h3.
Proof.
  intros [A1 A2 A3 A4] [B1 B2 B3 B4]. split; [rewrite B1, A1; done|done|congruence|by etransitivity].
Qed.

Lemma pauses_other e t : e <> halt_ipi -> e <> Pause -> pauses_since (e :: t) = pauses_since t.
Proof. intros H1 H2. cbn. by rewrite !decide_False. Qed.

Definition flag_here (h : hw) (i : nat) : bool := default false (ready <$> cpu_locals (smp h) !! i).

Lemma wait_halted_spec k fuel h i n :
  halts_within k -> i <> j -> pauses_since (trace h) = Some n -> (k < fuel + n)%nat -> (0 < fuel)%nat ->
  wp (wait_halted fuel i) (fun _ h' => waited h h' /\ flag_of (trace h') i (flag_here h i) = false) h.
Proof.
  intros Hk Hi. revert h n. induction fuel as [|fuel IH]; intros h n Hn Hf Hf0; [lia|]. cbn [wait_halted].
  unfold wp, read_ready, bind at 1 2, get, ret at 1.
  destruct (flag_of (trace h) i _) eqn:Hr.
  2: { split; [|exact Hr]. split; [by destruct h|by eexists|done|done]. }
  assert (Hlt : (n < k)%nat).
  { destruct (le_lt_dec k n) as [Hle|]; [|done].
    rewrite (Hk _ _ _ _ Hi Hn Hle) in Hr. discriminate. }
  unfold bind, emit, modify. set (h1 := set_trace (Pause :: trace h) h).
  assert (Hn1 : pauses_since (trace h1) = Some (S n)).
  { cbn [h1 trace set_trace pauses_since]. rewrite decide_False by discriminate.
    rewrite decide_True by done. by rewrite Hn. }
  assert (H1 : waited h h1) by (split; [done|by eexists|done|by apply suffix_cons_r]).
  eapply wp_mono; [apply (IH h1 (S n) Hn1); lia|]. cbv beta. intros _ h' [Hw Hs].
  split; [by eapply waited_trans|exact Hs].
Qed.

Lemma pauses_since_sent t : halt_ipi ∈ writes t -> is_Some (pauses_since t).
Proof.
  induction t as [|e t IH]; [intros H; by apply not_elem_of_nil in H|]. intros H. cbn [pauses_since].
  destruct (decide (e = halt_ipi)) as [He|Hne]; [by eexists|].
  assert (H' : halt_ipi ∈ writes t).
  { destruct e; cbn [writes] in H; try exact H. apply elem_of_cons in H as [H|H]; [|exact H].
    by destruct Hne. }
  destruct (IH H') as [n Hn]. rewrite Hn. case_decide; by eexists.
Qed.

Lemma deref_entry h i c :
  0 < cpu_locals_at -> cpu_locals (smp h) !! i = Some c ->
  deref_cpu (cpu_ptr (Z.of_nat i)) h = Ret c h.
Proof.
  intros H1 He. unfold deref_cpu.
  assert (H0 : 0 < cpu_ptr (Z.of_nat i)) by (unfold cpu_ptr, sizeof_cpu_local; lia).
  rewrite (proj2 (Z.eqb_neq _ NULL)) by lia. unfold gets. by rewrite cpu_index_of, Nat2Z.id, He.
Qed.

(** The CPUs in use are numbered by their index. *)
Definition cpus_numbered (h : hw) : Prop :=
  forall i, (i < Z.to_nat (cpu_count (smp h)))%nat ->
    exists c, cpu_locals (smp h) !! i = Some c /\ cpu_idx c = Z.of_nat i.

Lemma asked_waited h t : 
  is_Some (pauses_since (trace h)) -> t = who_am_i h ++ trace h -> waited h (set_trace t h).
Proof.
  intros Hs ->. split; [done| |apply gs_base_asked|by exists (who_am_i h)].
  cbn [trace set_trace]. unfold who_am_i. destruct (_ =? 0); cbn [app]; by rewrite ?pauses_other by discriminate.
Qed.

(** One round of the loop that waits for the other CPUs. *)
Lemma wait_round k fuel h i :
  halts_within k -> (k < fuel)%nat -> runs_on h j me -> cpu_idx me = Z.of_nat j ->
  cpus_numbered h -> (i < Z.to_nat (cpu_count (smp h)))%nat -> is_Some (pauses_since (trace h)) ->
  wp (wait_other fuel (Z.of_nat i)) (fun _ h' => waited h h' /\
    (i <> j -> flag_of (trace h') i (flag_here h i) = false)) h.
Proof.
  intros Hk Hf Hon Hme Hnum Hi Hs. destruct (Hnum i Hi) as (c & Hc & Hidx).
  unfold wp, wait_other, bind at 1. rewrite (get_cpu_local_run h j me Hon). set (h1 := set_trace _ h).
  assert (H1 : waited h h1) by (by apply asked_waited). destruct (wt_sent _ _ H1) as [n Hn1].
  unfold bind at 1. rewrite (deref_cpu_run h h1 j me Hon) by done.
  unfold bind. rewrite Nat2Z.id. rewrite (deref_entry h1 i c) by (apply (on_base _ _ _ Hon) || exact Hc).
  rewrite Hidx, Hme. destruct (Z.eqb_spec (Z.of_nat i) (Z.of_nat j)) as [He|Hne]; cbn [negb when].
  - split; [exact H1|lia].
  - eapply wp_mono; [apply (wait_halted_spec k fuel h1 i n Hk); [lia|exact Hn1|lia|lia]|].
    cbv beta. intros _ h' [Hw Hd]. split; [by eapply waited_trans|by intros _].
Qed.

Lemma waited_on h h' : waited h h' -> runs_on h j me -> runs_on h' j me.
Proof.
  intros [He _ Hg _] Hon. apply (runs_on_same h); [done|done|rewrite He; done|rewrite He; done].
Qed.

(** The whole loop: the flags of the other CPUs were read down one after the other. *)
Lemma wait_all k fuel h :
  halts_within k -> (k < fuel)%nat -> runs_on h j me -> cpu_idx me = Z.of_nat j ->
  cpus_numbered h -> is_Some (pauses_since (trace h)) ->
  wp (for_loop (Z.to_nat (cpu_count (smp h))) 0 1 (wait_other fuel)) (fun _ h' => waited h h' /\
    forall i, (i < Z.to_nat (cpu_count (smp h)))%nat -> i <> j ->
      exists later, down_at (flag_here h i) later (trace h) (trace h') i) h.
Proof.
  intros Hk Hf Hon Hme Hnum Hs.
  apply (wp_for_loop _ 0 1 (wait_other fuel) (fun n h' => waited h h' /\
    forall i, (i < n)%nat -> i <> j -> exists later, down_at (flag_here h i) later (trace h) (trace h') i)).
  { split; [by split; [destruct h|..]|lia]. }
  intros n h2 Hn [H2 Hd]. replace (0 + Z.of_nat n * 1) with (Z.of_nat n) by lia.
  assert (Hsmp : smp h2 = smp h) by (by rewrite (wt_only _ _ H2)).
  eapply wp_mono; [apply (wait_round k fuel h2 n Hk Hf)|].
  - by apply (waited_on h).
  - exact Hme.
  - unfold cpus_numbered. by rewrite Hsmp.
  - by rewrite Hsmp.
  - apply H2.
  - cbv beta. intros _ h3 [H3 Hd3]. pose proof (waited_trans _ _ _ H2 H3) as H13. split; [done|].
    intros i Hi Hij. destruct (decide (i = n)) as [->|Hne].
    + destruct (wt_grows _ _ H13) as [l Hl]. exists l. split; [|by rewrite <-Hl].
      rewrite <-Hl. unfold flag_here in Hd3. rewrite Hsmp in Hd3. by apply Hd3.
    + destruct (Hd i ltac:(lia) Hij) as [l Hl]. exists l. apply (down_later _ _ _ _ _ _ Hl), H3.
Qed.

(** The trap is sent to all other CPUs. *)
Lemma send_halt k fuel h :
  lapic_at b h -> sends_within b k -> (k < fuel)%nat ->
  wp (lapic_send_ipi fuel 0 0xFE ICR_FIXED ICR_PHYSICAL ICR_ALL_EXCLUDING_SELF) (fun _ h' =>
    waited h h' /\ exists sent, trace h' = sent ++ trace h /\ halt_ipi ∈ sent) h.
Proof.
  intros Hl Hk Hf. eapply wp_mono.
  { apply (lapic_send_ipi_spec b Hb0 Hb k fuel h 0 0xFE ICR_FIXED ICR_PHYSICAL ICR_ALL_EXCLUDING_SELF
      Hk Hl Hf); lia. }
  cbv beta. intros _ h1 (He & Hw & Hg & Hs). split.
  { split; try done. apply pauses_since_sent. rewrite Hw. apply list_elem_of_here. }
  destruct Hs as [sent Hs]. exists sent. split; [done|]. rewrite Hs in Hw.
  assert (Happ : forall l1 l2, writes (l1 ++ l2) = writes l1 ++ writes l2).
  { induction l1 as [|e l1 IH]; intros l2; [done|]. destruct e; cbn [app writes]; by rewrite ?IH. }
  assert (Hsub : forall l e, e ∈ writes l -> e ∈ l).
  { induction l as [|e l IH]; intros e' H; [done|]. apply elem_of_cons.
    destruct e; cbn [writes] in H; try (by right; apply IH). apply elem_of_cons in H as [->|H]; [by left|by right; apply IH]. }
  apply Hsub. rewrite Happ in Hw. destruct (writes sent) as [|e ws]; [|injection Hw as -> _; apply list_elem_of_here].
  apply (f_equal length) in Hw. cbn [app length] in Hw. lia.
Qed.
End Halt.

(** The frame pointers are followed, the CPU stops. *)
Lemma report_and_halt fmt regs c idx h ret_addrs :
  0 <= hhdm_offset (core h) -> frames_at (mem (core h)) (hhdm_offset (core h)) (r_rbp c) ret_addrs ->
  (emit (Report (panic_message fmt (r_vector regs)) idx regs) ;;; lift (backtrace (Some c)) ;;; hcf (A := unit)) h =
  Hang (set_trace (Cli :: Report (panic_message fmt (r_vector regs)) idx regs :: trace h) h).
Proof.
  intros Hh Hfr. unfold bind, emit, modify, hcf, lift, backtrace, bind, emit, modify, hang.
  cbn [core set_trace]. rewrite (backtrace_loop_spec _ _ ret_addrs) by done. by destruct h.
Qed.

End Props.

(** ** A machine with two CPUs *)

Definition panic_platform : Platform := fun t e =>
  match e with
  | Rdmsr m => if m =? MSR_GS_BASE then gs_base t else 0
  | Read32 a => if a =? lab0 + LAPIC_ID then Z.shiftl 7 24 else busy_once t e
  | _ => busy_once t e
  end.

(** The other CPU stops one round after the interrupt. *)
Definition stops_soon : Others := {|
  flag_of t i r := match pauses_since lab0 t with Some (S _) => false | _ => r end;
  count_of t n := n |}.

Definition two_cpus : hw :=
  set_smp (Smp 2 7 2 ([lone_cpu; CpuLocal 9 1 true] ++ replicate 62 (CpuLocal 0 0 false)))
    (set_trace started_trace lapic_board).

Lemma two_cpus_on : runs_on (PF := panic_platform) (LY := lay0) two_cpus 0 lone_cpu.
Proof.
  split; [split; vm_compute; reflexivity|done| |done]. right. split_and!; [done| |done].
  split_and!; try done; vm_compute; discriminate.
Qed.

Lemma two_cpus_numbered : cpus_numbered two_cpus.
Proof.
  intros [|[|i]] Hi; [by eexists|by eexists|]. exfalso. change (Z.to_nat (cpu_count (smp two_cpus))) with 2%nat in Hi.
  lia.
Qed.

Lemma panic_sends : sends_within (PF := panic_platform) lab0 1.
Proof. intros t Ht. exact (busy_once_sends t Ht). Qed.

Lemma panic_halts : halts_within (OT := stops_soon) lab0 0 1.
Proof.
  intros t i r n _ Hn Hle. cbn [flag_of stops_soon]. rewrite Hn. destruct n; [lia|reflexivity].
Qed.

Lemma kpanic_before_lapic_witness :
  kpanic_fn (PF := panic_platform) (LY := lay0) (OT := stops_soon) 1000 10 zero_ctx zero_ctx
    (Some (regs_at 0x104)) None hw0 = NoFuel.
Proof.
  exact (kpanic_before_lapic (PF := panic_platform) (LY := lay0) (OT := stops_soon) 1000 10
    zero_ctx zero_ctx (Some (regs_at 0x104)) None hw0 eq_refl).
Defined.

