(* ===== verification/Smp.v ===== *)
(** * arch/smp.c: starting the CPUs

    Definitions of the boot CPU's and the other CPUs' code, and what [smp_init] has seen of
    the other CPUs when it returns, whatever they do ([Others]). *)

From S2P Require Export Panic.

Definition CPU_START_TIMEOUT : Z := 10000000.

(** The boot loader's answer: [cpu_count], [bsp_lapic_id] and the CPUs' APIC identifiers. *)
Record limine_mp_response := MpResponse {
  mp_cpu_count : Z;
  mp_bsp_lapic_id : Z;
  mp_lapic_ids : list Z }.

Definition mp_lapic_id (mp : limine_mp_response) (i : Z) : Z := default 0 (mp_lapic_ids mp !! Z.to_nat i).

Definition set_smp_counts (n bsp : Z) (h : hw) : hw :=
  set_smp (Smp n bsp (started_cpus (smp h)) (cpu_locals (smp h))) h.

(** [atomic_fetch_add(&started_cpus, 1)]. *)
Definition add_started : H unit := modify (fun h =>
  set_smp (Smp (cpu_count (smp h)) (bootstrap_lapic_id (smp h)) (w32 (started_cpus (smp h) + 1))
    (cpu_locals (smp h))) h).

Section Smp.
Context {FA : FrameAlloc} {PF : Platform} {LY : Layout} {OT : Others}.
Context (fuel : nat) (kstack_top : Z).

Definition smp_early_init (mp : option limine_mp_response) : H unit :=
  match mp with
  | None => kpanic
  | Some mp =>
      let cpu_count := w32 (mp_cpu_count mp) in
      modify (fun h => set_smp_counts cpu_count (bootstrap_lapic_id (smp h)) h) ;;;
      if MAX_CPUS <? cpu_count then kpanic else
      modify (set_smp_counts cpu_count (w32 (mp_bsp_lapic_id mp))) ;;;
      for_loop (Z.to_nat cpu_count) 0 1 (fun i =>
        modify (fun h => set_cpu_locals
          (<[Z.to_nat i := CpuLocal (mp_lapic_id mp i) i false]> (cpu_locals (smp h))) h))
  end.

Definition init_cpu : H unit :=
  gdt_init ;;;
  idt_init ;;;
  lift (s <- get ;; pmset (kernel_pagemap (paging s))) ;;;
  lapic_enable ;;;
  tss_init kstack_top ;;;
  on_cpu (sched_init fuel) ;;;
  on_cpu (s <- get ;;
          sched_spawn fuel false test_at (kernel_pagemap (paging s)) (kvm_ctx s)) ;;;
  ret tt.

Definition smp_entry (lapic_id : Z) : H unit :=
  s <- gets smp ;;
  match find_cpu (Z.to_nat (cpu_count s)) 0 lapic_id (cpu_locals s) with
  | None => kpanic
  | Some i =>
      set_cpu_local (cpu_ptr i) ;;;
      init_cpu ;;;
      update_cpu (cpu_ptr i) (with_ready true) ;;;
      add_started ;;;
      emit Sti ;;;
      hlt
  end.

(** [while (!cpu_locals[i].ready && timeout < CPU_START_TIMEOUT) { pause; timeout++; }] *)
Fixpoint wait_started (rounds i : nat) (timeout : Z) : H unit :=
  match rounds with
  | O => out_of_fuel
  | S rounds' =>
      r <- read_ready i ;;
      if negb r && (timeout <? CPU_START_TIMEOUT)
      then emit Pause ;;; wait_started rounds' i (timeout + 1)
      else ret tt
  end.

(** One CPU of the loop in [smp_init]. *)
Definition start_cpu (mp : limine_mp_response) (i : Z) : H unit :=
  bsp <- gets (fun h => bootstrap_lapic_id (smp h)) ;;
  if mp_lapic_id mp i =? bsp then
    set_cpu_local (cpu_ptr i) ;;;
    init_cpu ;;;
    update_cpu (cpu_ptr i) (with_ready true) ;;;
    add_started
  else
    emit (StartCpu i smp_entry_at) ;;;
    wait_started fuel (Z.to_nat i) 0 ;;;
    r <- read_ready (Z.to_nat i) ;;
    if negb r then kpanic else ret tt.

(** [atomic_load(&started_cpus)]. *)
Definition load_started : H Z := gets (fun h => count_of (trace h) (started_cpus (smp h))).

Definition smp_init (mp : option limine_mp_response) : H unit :=
  match mp with
  | None => kpanic
  | Some mp =>
      lapic_enable ;;;
      n <- gets (fun h => cpu_count (smp h)) ;;
      for_loop (Z.to_nat n) 0 1 (start_cpu mp) ;;;
      started <- load_started ;;
      if negb (started =? n) then kpanic else ret tt
  end.
End Smp.

(** ** The CPUs that smp_early_init records *)

Section Early.

Lemma early_loop mp n h :
  (n <= length (cpu_locals (smp h)))%nat ->
  wp (for_loop n 0 1 (fun i =>
        modify (fun h => set_cpu_locals
          (<[Z.to_nat i := CpuLocal (mp_lapic_id mp i) i false]> (cpu_locals (smp h))) h)))
    (fun _ h' => exists l, h' = set_cpu_locals l h /\ length l = length (cpu_locals (smp h)) /\
       (forall i, (i < n)%nat -> l !! i = Some (CpuLocal (mp_lapic_id mp (Z.of_nat i)) (Z.of_nat i) false)) /\
       (forall i, (n <= i)%nat -> l !! i = cpu_locals (smp h) !! i)) h.
Proof.
  intros Hn. apply (wp_for_loop n 0 1 _ (fun k h' => exists l, h' = set_cpu_locals l h /\
    length l = length (cpu_locals (smp h)) /\
    (forall i, (i < k)%nat -> l !! i = Some (CpuLocal (mp_lapic_id mp (Z.of_nat i)) (Z.of_nat i) false)) /\
    (forall i, (k <= i)%nat -> l !! i = cpu_locals (smp h) !! i))).
  - exists (cpu_locals (smp h)). split_and!; [by destruct h as [? ? ? ? ? [] ? ? ? ?]|done|lia|done].
  - intros k h' Hk (l & -> & Hl & H1 & H2). replace (0 + Z.of_nat k * 1) with (Z.of_nat k) by lia.
    wp_step. rewrite Nat2Z.id. eexists. split; [reflexivity|].
    cbn [smp set_cpu_locals set_smp cpu_locals]. split_and!.
    + by rewrite length_insert.
    + intros i Hi. destruct (decide (i = k)) as [->|]; [apply list_lookup_insert_eq; lia|].
      rewrite list_lookup_insert_ne by done. apply H1. lia.
    + intros i Hi. rewrite list_lookup_insert_ne by lia. apply H2. lia.
Qed.

(** [smp_early_init] refuses more CPUs than it has room for, and records the others in
    the boot loader's order. *)
Theorem smp_early_init_correct mp h :
  0 <= mp_cpu_count mp < 2 ^ 32 -> length (cpu_locals (smp h)) = Z.to_nat MAX_CPUS ->
  if MAX_CPUS <? mp_cpu_count mp
  then exists h', smp_early_init (Some mp) h = Panic h'
  else wp (smp_early_init (Some mp)) (fun _ h' => cpus_numbered h' /\
         cpu_count (smp h') = mp_cpu_count mp /\
         forall i, (i < Z.to_nat (mp_cpu_count mp))%nat ->
           lapic_id <$> cpu_locals (smp h') !! i = Some (mp_lapic_id mp (Z.of_nat i))) h.
Proof.
  intros Hn Hl. unfold smp_early_init. rewrite (w32_id (mp_cpu_count mp)) by done.
  destruct (Z.ltb_spec MAX_CPUS (mp_cpu_count mp)) as [Hlt|Hge]; [by eexists|].
  do 4 wp_step. unfold MAX_CPUS in *.
  eapply wp_mono; [apply early_loop; cbn [smp set_smp_counts set_smp cpu_locals]; lia|].
  cbv beta. intros _ h' (l & -> & _ & H1 & _). unfold cpus_numbered.
  cbn [smp set_cpu_locals set_smp_counts set_smp cpu_locals cpu_count]. split_and!; [|done|].
  - intros i Hi. rewrite (H1 i Hi). by eexists.
  - intros i Hi. by rewrite (H1 i Hi).
Qed.
End Early.

(** ** Partial correctness: what holds if a program returns *)

Definition wlp {A} (m : H A) (Q : A -> hw -> Prop) (h : hw) : Prop :=
  match m h with Ret a h' => Q a h' | _ => True end.

Lemma wlp_mono {A} (m : H A) (Q Q' : A -> hw -> Prop) h :
  wlp m Q h -> (forall a h', Q a h' -> Q' a h') -> wlp m Q' h.
Proof. unfold wlp. destruct (m h); auto. Qed.

Lemma wlp_bind {A B} (m : H A) (f : A -> H B) Q h :
  wlp m (fun a h' => wlp (f a) Q h') h -> wlp (bind m f) Q h.
Proof. unfold wlp, bind. by destruct (m h). Qed.

Lemma wlp_seq {A B} (m : H A) (n : H B) P Q h :
  wlp m P h -> (forall a h', P a h' -> wlp n Q h') -> wlp (m ;;; n) Q h.
Proof. intros Hm Hn. apply wlp_bind. by eapply wlp_mono. Qed.

Lemma wlp_for_loop n start step body (I : nat -> hw -> Prop) h :
  I O h ->
  (forall k h', (k < n)%nat -> I k h' ->
     wlp (body (start + Z.of_nat k * step)) (fun _ h'' => I (S k) h'') h') ->
  wlp (for_loop n start step body) (fun _ h' => I n h') h.
Proof.
  revert start I h. induction n as [|n IH]; intros start I h H0 Hb; [exact H0|]. cbn [for_loop].
  pose proof (Hb 0%nat h ltac:(lia) H0) as H0'. cbn [Z.of_nat] in H0'.
  rewrite Z.mul_0_l, Z.add_0_r in H0'. eapply wlp_seq; [exact H0'|]. cbv beta. intros _ h' H1. apply (IH (start + step) (fun k => I (S k)) h' H1).
  intros k h2 Hk H2. replace (start + step + Z.of_nat k * step) with (start + Z.of_nat (S k) * step) by lia.
  apply Hb; [lia|exact H2].
Qed.

(** What the code that sets up a CPU leaves alone: it only adds accesses. *)
Record extends (h h' : hw) : Prop := Extends {
  ex_trace : trace h `suffix_of` trace h';
  ex_smp : smp h' = smp h }.

Definition keeps {A} (m : H A) : Prop := forall h, wlp m (fun _ h' => extends h h') h.

Lemma extends_refl h : extends h h.
Proof. by split. Qed.

Lemma extends_trans h1 h2 h3 : extends h1 h2 -> extends h2 h3 -> extends h1 h3.
Proof. intros [A1 A2] [B1 B2]. split; [by etransitivity|congruence]. Qed.

Lemma keeps_ret {A} (a : A) : keeps (ret a).
Proof. intros h. apply extends_refl. Qed.

Lemma keeps_panic {A} : keeps (kpanic (A := A)).
Proof. by intros h. Qed.

Lemma keeps_gets {A} (f : hw -> A) : keeps (gets f).
Proof. intros h. apply extends_refl. Qed.

Lemma keeps_bind {A B} (m : H A) (f : A -> H B) : keeps m -> (forall a, keeps (f a)) -> keeps (bind m f).
Proof.
  intros Hm Hf h. apply wlp_bind. eapply wlp_mono; [apply Hm|]. cbv beta. intros a h1 H1.
  eapply wlp_mono; [apply Hf|]. cbv beta. intros b h2 H2. by eapply extends_trans.
Qed.

Lemma keeps_modify f : (forall h, extends h (f h)) -> keeps (modify f).
Proof. intros Hf h. apply Hf. Qed.

Lemma keeps_emit e : keeps (emit e).
Proof. apply keeps_modify. intros h. split; [by apply suffix_cons_r|done]. Qed.

Lemma keeps_ask {PF : Platform} e : keeps (ask e).
Proof. intros h. split; [by apply suffix_cons_r|done]. Qed.

Lemma keeps_lift {A} (m : K A) : keeps (lift m).
Proof. intros h. unfold wlp, lift. by destruct (m (core h)). Qed.

Lemma keeps_for_loop n start step body : (forall i, keeps (body i)) -> keeps (for_loop n start step body).
Proof.
  intros Hb h. apply (wlp_for_loop n start step body (fun _ h' => extends h h')); [apply extends_refl|].
  intros k h' _ H'. eapply wlp_mono; [apply Hb|]. cbv beta. intros _ h2 H2. by eapply extends_trans.
Qed.

Create HintDb keeps.
#[local] Hint Resolve keeps_ret keeps_panic keeps_gets keeps_bind keeps_emit keeps_ask keeps_lift keeps_for_loop : keeps.
#[local] Hint Extern 1 (keeps (modify _)) => (apply keeps_modify; by split) : keeps.
#[local] Hint Extern 2 (keeps (match ?x with _ => _ end)) => destruct x : keeps.

Section Keeps.
Context {FA : FrameAlloc} {PF : Platform} {LY : Layout} {OT : Others}.

Lemma lapic_read_keeps o : keeps (lapic_read o).
Proof. unfold lapic_read, mmio_read. auto 8 with keeps. Qed.

Lemma lapic_write_keeps o v : keeps (lapic_write o v).
Proof. unfold lapic_write, mmio_write. auto 8 with keeps. Qed.
#[local] Hint Resolve lapic_read_keeps lapic_write_keeps : keeps.

Lemma lapic_enable_keeps : keeps lapic_enable.
Proof. unfold lapic_enable, mask_lvt. auto 20 with keeps. Qed.

Lemma get_cpu_local_keeps : keeps get_cpu_local.
Proof. unfold get_cpu_local, rdmsr, lapic_get_id. auto 20 with keeps. Qed.

Lemma on_cpu_keeps {A} (m : K A) : keeps (on_cpu m).
Proof.
  unfold on_cpu, deref_cpu. pose proof get_cpu_local_keeps. auto 20 with keeps.
Qed.

Lemma gdt_init_keeps : keeps gdt_init.
Proof. unfold gdt_init, gdt_flush, update_gdts. auto 20 with keeps. Qed.

Lemma tss_init_keeps stack : keeps (tss_init stack).
Proof. unfold tss_init, gdt_flush, flush_tss, update_gdts. auto 20 with keeps. Qed.

Lemma idt_init_keeps : keeps idt_init.
Proof. unfold idt_init, idt_set_gate, set_handler, update_idt. auto 20 with keeps. Qed.

Lemma init_cpu_keeps fuel stack : keeps (init_cpu fuel stack).
Proof.
  pose proof gdt_init_keeps. pose proof idt_init_keeps. pose proof lapic_enable_keeps.
  pose proof (tss_init_keeps stack). unfold init_cpu.
  repeat (apply keeps_bind; [auto using on_cpu_keeps with keeps|intros ?]). apply keeps_ret.
Qed.
End Keeps.

(** ** The start-up protocol *)

(** The other CPUs run [smp_entry] meanwhile; what this CPU reads of their flags and their
    count is the environment's choice ([Others]). *)

Section Protocol.
Context {FA : FrameAlloc} {PF : Platform} {LY : Layout} {OT : Others}.

(** CPU [i] was told to start, and after that its flag, last written [r] by the boot CPU,
    was read up. *)
Definition raised (r : bool) (t : list io_event) (i : nat) : Prop :=
  exists waiting before, let seen := waiting ++ StartCpu (Z.of_nat i) smp_entry_at :: before in
    flag_of seen i r = true /\ seen `suffix_of` t.

Lemma raised_later r t t' i : raised r t i -> t `suffix_of` t' -> raised r t' i.
Proof. intros (w & b & H1 & H2) Ht. exists w, b. split; [done|by etransitivity]. Qed.

Lemma pauses_shift n t : replicate n Pause ++ Pause :: t = replicate (S n) Pause ++ t.
Proof. change (Pause :: t) with ([Pause] ++ t). by rewrite app_assoc, <-replicate_cons_app. Qed.

(** Waiting reads the flag until it is up, at most [CPU_START_TIMEOUT] times in vain. *)
Lemma wait_started_spec rounds i timeout h :
  timeout <= CPU_START_TIMEOUT ->
  match wait_started rounds i timeout h with
  | Ret _ h' => exists n, h' = set_trace (replicate n Pause ++ trace h) h /\
      (flag_of (trace h') i (flag_here h i) = true \/ CPU_START_TIMEOUT <= timeout + Z.of_nat n)
  | NoFuel => Z.of_nat rounds <= CPU_START_TIMEOUT - timeout
  | _ => False
  end.
Proof.
  revert timeout h. induction rounds as [|rounds IH]; intros timeout h Ht; cbn [wait_started]; [cbn; lia|].
  unfold read_ready at 1, bind at 1 2, get, ret at 1. fold (flag_here h i).
  destruct (flag_of (trace h) i (flag_here h i)) eqn:Hr; cbn [negb andb].
  { exists O. split; [by destruct h|by left]. }
  destruct (Z.ltb_spec timeout CPU_START_TIMEOUT) as [Hlt|Hge].
  2: { exists O. split; [by destruct h|right; lia]. }
  unfold bind, emit, modify. specialize (IH (timeout + 1) (set_trace (Pause :: trace h) h) ltac:(lia)).
  destruct (wait_started _ _ _ _) as [[] h'| | |]; try done; [|lia].
  destruct IH as (n & -> & Hor). exists (S n). cbn [trace set_trace] in *.
  rewrite (pauses_shift n (trace h)) in *. split; [done|]. destruct Hor as [Hf|Hn]; [by left|right; lia].
Qed.

(** The boot CPU's part for another CPU ends: that CPU was seen up, or it was given up
    after [CPU_START_TIMEOUT] rounds with its flag still down. *)
Lemma start_other_spec fuel stack mp i h :
  0 <= i -> mp_lapic_id mp i <> bootstrap_lapic_id (smp h) ->
  match start_cpu fuel stack mp i h with
  | Ret _ h' => h' = set_trace (trace h') h /\ trace h `suffix_of` trace h' /\
      raised (flag_here h (Z.to_nat i)) (trace h') (Z.to_nat i)
  | Panic h' => exists n, CPU_START_TIMEOUT <= Z.of_nat n /\
      trace h' = replicate n Pause ++ StartCpu i smp_entry_at :: trace h /\
      flag_of (trace h') (Z.to_nat i) (flag_here h (Z.to_nat i)) = false
  | NoFuel => Z.of_nat fuel <= CPU_START_TIMEOUT
  | Hang _ => False
  end.
Proof.
  intros Hi Hne. unfold start_cpu, bind at 1, gets. rewrite (proj2 (Z.eqb_neq _ _) Hne).
  unfold bind at 1, emit, modify. set (h1 := set_trace (StartCpu i smp_entry_at :: trace h) h).
  pose proof (wait_started_spec fuel (Z.to_nat i) 0 h1 ltac:(unfold CPU_START_TIMEOUT; lia)) as Hw.
  unfold bind at 1. destruct (wait_started _ _ _ _) as [[] h2| | |]; [|done|done|lia].
  destruct Hw as (n & -> & Hor). cbn [trace set_trace] in Hor. unfold read_ready, bind, get, ret.
  cbn [trace set_trace smp h1]. fold (flag_here h (Z.to_nat i)). change (flag_here h1) with (flag_here h) in Hor.
  cbn [h1 trace set_trace] in Hor.
  destruct (flag_of _ _ _) eqn:Hr in |- *; cbn [negb].
  - cbn [trace set_trace]. split; [done|]. split; [by apply suffix_app_r, suffix_cons_r|].
    exists (replicate n Pause), (trace h). rewrite Z2Nat.id by done. split; [exact Hr|done].
  - unfold kpanic. exists n. cbn [trace set_trace]. split; [|by split].
    destruct Hor as [Hor|Hn]; [congruence|lia].
Qed.

(** CPU [i] has arrived: the boot CPU has raised its own flag, that of another CPU it has
    seen up. *)
Definition arrived (mp : limine_mp_response) (h h' : hw) (i : nat) : Prop :=
  if mp_lapic_id mp (Z.of_nat i) =? bootstrap_lapic_id (smp h)
  then ready <$> cpu_locals (smp h') !! i = Some true
  else raised (flag_here h i) (trace h') i.

(** The number of the entries below [n] that carry the boot CPU's identifier. *)
Definition boot_entries (mp : limine_mp_response) (bsp : Z) (n : nat) : Z :=
  Z.of_nat (length (filter (fun i : nat => mp_lapic_id mp (Z.of_nat i) = bsp) (seq 0 n))).

Lemma boot_entries_S mp bsp n :
  boot_entries mp bsp (S n) =
    boot_entries mp bsp n + (if mp_lapic_id mp (Z.of_nat n) =? bsp then 1 else 0).
Proof.
  unfold boot_entries. rewrite seq_S, filter_app, length_app. cbn [Nat.add].
  rewrite filter_cons, filter_nil. destruct (Z.eqb_spec (mp_lapic_id mp (Z.of_nat n)) bsp);
    [rewrite decide_True by done|rewrite decide_False by done]; cbn [length]; lia.
Qed.

(** The entries below [n] have been dealt with. *)
Record started_upto (mp : limine_mp_response) (h : hw) (n : nat) (h' : hw) : Prop := StartedUpto {
  su_grows : trace h `suffix_of` trace h';
  su_count : cpu_count (smp h') = cpu_count (smp h);
  su_boot : bootstrap_lapic_id (smp h') = bootstrap_lapic_id (smp h);
  su_length : length (cpu_locals (smp h')) = length (cpu_locals (smp h));
  su_others : forall i, mp_lapic_id mp (Z.of_nat i) <> bootstrap_lapic_id (smp h) ->
    cpu_locals (smp h') !! i = cpu_locals (smp h) !! i;
  su_started : started_cpus (smp h') =
    w32 (started_cpus (smp h) + boot_entries mp (bootstrap_lapic_id (smp h)) n);
  su_arrived : forall i, (i < n)%nat -> arrived mp h h' i }.

Lemma update_cpu_entry i f h :
  wlp (update_cpu (cpu_ptr (Z.of_nat i)) f)
    (fun _ h' => h' = set_cpu_locals (alter f i (cpu_locals (smp h))) h) h.
Proof. unfold update_cpu. case_match; [done|]. unfold wlp, modify. by rewrite cpu_index_of, Nat2Z.id. Qed.

(** The boot CPU's part for itself. *)
Lemma start_boot_spec fuel stack mp i h :
  mp_lapic_id mp (Z.of_nat i) = bootstrap_lapic_id (smp h) ->
  wlp (start_cpu fuel stack mp (Z.of_nat i)) (fun _ h' => trace h `suffix_of` trace h' /\
    smp h' = Smp (cpu_count (smp h)) (bootstrap_lapic_id (smp h)) (w32 (started_cpus (smp h) + 1))
      (alter (with_ready true) i (cpu_locals (smp h)))) h.
Proof.
  intros He. unfold start_cpu. apply wlp_bind. unfold wlp at 1, gets.
  rewrite He, Z.eqb_refl. eapply wlp_seq; [apply (keeps_emit (Wrmsr _ _))|].
  cbv beta. intros _ h1 [T1 S1]. eapply wlp_seq; [apply init_cpu_keeps|]. cbv beta. intros _ h2 [T2 S2].
  eapply wlp_seq; [apply update_cpu_entry|]. cbv beta. intros _ h3 ->.
  unfold wlp, add_started, modify. cbn [smp trace set_cpu_locals set_smp started_cpus cpu_locals].
  rewrite S2, S1. split; [by etransitivity|done].
Qed.

Lemma start_cpu_round fuel stack mp h n h1 :
  (n < length (cpu_locals (smp h)))%nat -> started_upto mp h n h1 ->
  wlp (start_cpu fuel stack mp (Z.of_nat n)) (fun _ h2 => started_upto mp h (S n) h2) h1.
Proof.
  intros Hn [U1 U2 U3 U4 U5 U6 U7]. set (bsp := bootstrap_lapic_id (smp h)) in *.
  destruct (Z.eq_dec (mp_lapic_id mp (Z.of_nat n)) bsp) as [He|Hne].
  - eapply wlp_mono; [apply start_boot_spec; congruence|]. cbv beta. intros _ h2 [T2 S2].
    assert (Hfl : forall i, ready <$> cpu_locals (smp h1) !! i = Some true ->
      ready <$> cpu_locals (smp h2) !! i = Some true).
    { intros i. rewrite S2. cbn [cpu_locals]. rewrite list_lookup_alter. case_decide; [|done].
      subst. by destruct (cpu_locals (smp h1) !! i). }
    split; rewrite ?S2; cbn [cpu_count bootstrap_lapic_id cpu_locals started_cpus]; try done.
    + by etransitivity.
    + by rewrite length_alter.
    + intros i Hi. rewrite list_lookup_alter_ne by (intros ->; done). by apply U5.
    + rewrite U6, boot_entries_S. fold bsp. rewrite He, Z.eqb_refl. unfold w32.
      rewrite Zplus_mod_idemp_l. f_equal. lia.
    + intros i Hi. unfold arrived. fold bsp. destruct (decide (i = n)) as [->|Hin].
      * rewrite He, Z.eqb_refl, S2. cbn [cpu_locals]. rewrite list_lookup_alter_eq.
        destruct (lookup_lt_is_Some_2 (cpu_locals (smp h1)) n) as [c ->]; [lia|done].
      * specialize (U7 i ltac:(lia)). unfold arrived in U7. fold bsp in U7.
        destruct (_ =? _); [by apply Hfl|by eapply raised_later].
  - pose proof (start_other_spec fuel stack mp (Z.of_nat n) h1 ltac:(lia) ltac:(congruence)) as Hs.
    unfold wlp. destruct (start_cpu _ _ _ _ h1) as [[] h2| | |]; try done. rewrite Nat2Z.id in Hs.
    destruct Hs as (E2 & T2 & R2). assert (S2 : smp h2 = smp h1) by (by rewrite E2).
    split; rewrite ?S2; try done.
    + by etransitivity.
    + rewrite U6, boot_entries_S. fold bsp. rewrite (proj2 (Z.eqb_neq _ _) Hne). by rewrite Z.add_0_r.
    + intros i Hi. unfold arrived. fold bsp. destruct (decide (i = n)) as [->|Hin].
      * rewrite (proj2 (Z.eqb_neq _ _) Hne). unfold flag_here in *. by rewrite <-(U5 n Hne).
      * specialize (U7 i ltac:(lia)). unfold arrived in U7. fold bsp in U7. rewrite S2.
        destruct (_ =? _); [done|by eapply raised_later].
Qed.

(** C35: [smp_init] lets the boot continue only with all CPUs up, whatever the others do: if
    it returns, the boot CPU has raised its flag and counted itself, each other CPU was told
    to start and its flag was read up after that, and the count read at the end is the
    number of CPUs.  For each other CPU the wait ends: its flag was read up, or the boot
    panics, after [CPU_START_TIMEOUT] rounds with the flag still down. *)
Theorem smp_init_waits_for_all fuel stack mp h :
  (Z.to_nat (cpu_count (smp h)) <= length (cpu_locals (smp h)))%nat ->
  0 <= started_cpus (smp h) < 2 ^ 32 ->
  (forall h', smp_init fuel stack (Some mp) h = Ret tt h' ->
     started_cpus (smp h') = w32 (started_cpus (smp h) +
       boot_entries mp (bootstrap_lapic_id (smp h)) (Z.to_nat (cpu_count (smp h)))) /\
     count_of (trace h') (started_cpus (smp h')) = cpu_count (smp h) /\
     forall i, (i < Z.to_nat (cpu_count (smp h)))%nat -> arrived mp h h' i) /\
  (forall fuel' i h1, 0 <= i -> mp_lapic_id mp i <> bootstrap_lapic_id (smp h1) ->
     CPU_START_TIMEOUT < Z.of_nat fuel' ->
     wpp (start_cpu fuel' stack mp i)
       (fun _ h2 => h2 = set_trace (trace h2) h1 /\
          raised (flag_here h1 (Z.to_nat i)) (trace h2) (Z.to_nat i))
       (fun h2 => exists n, CPU_START_TIMEOUT <= Z.of_nat n /\
          trace h2 = replicate n Pause ++ StartCpu i smp_entry_at :: trace h1 /\
          flag_of (trace h2) (Z.to_nat i) (flag_here h1 (Z.to_nat i)) = false) h1).
Proof.
  intros Hlen Hst. split.
  - assert (Hw : wlp (smp_init fuel stack (Some mp)) (fun _ h' =>
      started_upto mp h (Z.to_nat (cpu_count (smp h))) h' /\
      count_of (trace h') (started_cpus (smp h')) = cpu_count (smp h)) h).
    { unfold smp_init. eapply wlp_seq; [apply lapic_enable_keeps|]. cbv beta. intros _ h1 [T1 S1].
      apply wlp_bind. unfold wlp at 1, gets at 1. rewrite S1. eapply wlp_seq.
      - apply (wlp_for_loop _ 0 1 _ (started_upto mp h)).
        + split; rewrite ?S1; try done; try lia. unfold boot_entries. cbn [seq]. rewrite filter_nil.
          cbn [length Z.of_nat]. rewrite Z.add_0_r, w32_id by done. done.
        + intros k h2 Hk H2. rewrite Z.mul_1_r. cbn [Z.add]. apply start_cpu_round; [lia|done].
      - cbv beta. intros _ h2 H2. apply wlp_bind. unfold wlp at 1, load_started, gets.
        destruct (Z.eqb_spec (count_of (trace h2) (started_cpus (smp h2))) (cpu_count (smp h))) as [Hc|]; [|done].
        by split. }
    intros h' Hr. unfold wlp in Hw. rewrite Hr in Hw. destruct Hw as [H1 H2].
    split; [apply H1|]. split; [exact H2|apply H1].
  - intros fuel' i h1 Hi Hne Hf. pose proof (start_other_spec fuel' stack mp i h1 Hi Hne) as Hs.
    unfold wpp. destruct (start_cpu _ _ _ _ h1) as [[] h2| | |]; [|exact Hs|done|lia].
    destruct Hs as (H1 & _ & H2). by split.
Qed.
End Protocol.

(** ** A board with two CPUs

    Its memory is up: the page map at [small_frame 1] has the tables on the way to the first
    2 MiB and maps the heap, four pages at 0x1000; the kernel's context has the empty first
    region and the heap's, and five frames are left, in the cache of the frame allocator. *)

Definition small_frame (f : Z) : Z := HHDM + f * PAGE_SIZE.

Definition small_fields : list (nat * Z * Z) := [
  (8%nat, small_frame 1, 0x2007); (8%nat, small_frame 2, 0x3007); (8%nat, small_frame 3, 0x4007);
  (8%nat, small_frame 4 + 8, 0x8003); (8%nat, small_frame 4 + 16, 0x9003);
  (8%nat, small_frame 4 + 24, 0xa003); (8%nat, small_frame 4 + 32, 0xb003);
  (8%nat, small_frame 5, small_frame 6); (8%nat, small_frame 5 + 8, small_frame 1);
  (8%nat, small_frame 6, 0x1000); (8%nat, small_frame 6 + 24, small_frame 7);
  (8%nat, small_frame 7, 0x1000); (8%nat, small_frame 7 + 8, 4); (8%nat, small_frame 7 + 16, 3);
  (8%nat, small_frame 7 + 32, small_frame 6);
  (8%nat, 0x1000, 16368) ].

Definition small : machine :=
  Machine (store_fields ∅ small_fields) HHDM [] (small_frame 5)
    (Pmm 32 4 (small_frame 12) 5 0 [16; 17; 18; 19; 20] 64 5)
    (Paging (small_frame 1) (small_frame 1) []) (Heap 0x1000 0x1000)
    (Sched (replicate 64 (CpuSched 0 (replicate 512 NULL) 0 0 0)) ∅ 1 0).

Definition smp_platform : Platform := fun t e =>
  match e with
  | Rdmsr m => if m =? MSR_GS_BASE then gs_base t else 0
  | Read32 a => if a =? lab0 + LAPIC_ID then Z.shiftl 7 24 else 0
  | _ => 0
  end.

(** Rounds of waiting since CPU [i] was told to start. *)
Fixpoint rounds_since (i : nat) (t : list io_event) : option nat :=
  match t with
  | [] => None
  | StartCpu k _ :: t' => if k =? Z.of_nat i then Some O else rounds_since i t'
  | Pause :: t' => S <$> rounds_since i t'
  | _ :: t' => rounds_since i t'
  end.

Definition after_rounds (k i : nat) (t : list io_event) : bool :=
  match rounds_since i t with Some n => Nat.leb k n | None => false end.

(** CPU 1 runs [smp_entry]: it raises its flag in round [up] of the boot CPU's waiting, and
    counts itself, after that, in round [counted]. *)
Definition one_other (up counted : nat) : Others := {|
  flag_of t i r := after_rounds up i t || r;
  count_of t n := n + if after_rounds counted 1 t then 1 else 0 |}.

Definition smp_board : hw :=
  set_apic (Apic 0 lab0 0)
    (set_smp (Smp 2 7 0 ([CpuLocal 7 0 false; CpuLocal 9 1 false] ++ replicate 62 (CpuLocal 0 0 false)))
      (board small)).
Definition mp2 : limine_mp_response := MpResponse 2 7 [7; 9].

#[local] Abbreviation smp_run up counted :=
  (smp_init (PF := smp_platform) (LY := lay0) (OT := one_other up counted) 20 0xFFFF800000009000
    (Some mp2) smp_board).

(** How a run ends, and whether the other CPU's flag is up by then. *)
Definition run_end (o : outcome hw unit) : option (bool * bool) :=
  match o with
  | Ret _ h => Some (true, after_rounds 1 1 (trace h))
  | Panic h => Some (false, after_rounds 1 1 (trace h))
  | _ => None
  end.

Lemma smp_run_returned : run_end (smp_run 1 1) = Some (true, true).
Proof. vm_compute. reflexivity. Qed.

Lemma smp_run_panicked : run_end (smp_run 1 2) = Some (false, true).
Proof. vm_compute. reflexivity. Qed.


Lemma ends_returned o b : run_end o = Some (true, b) -> exists h, o = Ret tt h.
Proof. destruct o as [[] h| | |]; intros; try done. by exists h. Qed.

Lemma ends_panicked o b :
  run_end o = Some (false, b) -> exists h, o = Panic h /\ after_rounds 1 1 (trace h) = b.
Proof. destruct o as [[] h|h| |]; cbn [run_end]; intros [=]. by exists h. Qed.

(** A CPU that arrives in time can still bring the boot down: it raises its flag before it
    counts itself, and a boot CPU that has seen the flag and looks at the counter in
    between panics. *)
Lemma smp_init_race : exists h',
  smp_init (PF := smp_platform) (LY := lay0) (OT := one_other 1 2) 20 0xFFFF800000009000
    (Some mp2) smp_board = Panic h' /\ after_rounds 1 1 (trace h') = true.
Proof. destruct (ends_panicked _ _ smp_run_panicked) as [h' H]. exists h'. exact H. Qed.


Lemma smp_init_waits_for_all_witness :
  exists h', smp_init (PF := smp_platform) (LY := lay0) (OT := one_other 1 1) 20 0xFFFF800000009000
      (Some mp2) smp_board = Ret tt h' /\
    started_cpus (smp h') = w32 (0 + boot_entries mp2 7 2) /\
    count_of (Others := one_other 1 1) (trace h') (started_cpus (smp h')) = 2 /\
    forall i, (i < 2)%nat -> arrived (LY := lay0) (OT := one_other 1 1) mp2 smp_board h' i.
Proof.
  destruct (ends_returned _ _ smp_run_returned) as [h' Hr]. exists h'. split; [exact Hr|].
  refine (proj1 (smp_init_waits_for_all (PF := smp_platform) (LY := lay0) (OT := one_other 1 1) 20
    0xFFFF800000009000 mp2 smp_board _ _) h' Hr).
  - vm_compute. lia.
  - split; vm_compute; [discriminate|reflexivity].
Defined.
