(* ===== verification/Boot.v ===== *)
(** * emk.c: from the boot loader to the first process

    [emk_entry] with the boot loader's answers as data, in the default configuration
    (no frame buffer terminal, timer enabled); log lines are left out.  The parts it
    calls are those of the other files, composed in its order. *)

From S2P Require Export Smp PmmInit.

(** The responses to the Limine requests; [None] is a null pointer. *)
Record limine_responses := LimineResponses {
  binfo : bool;
  firmware : bool;
  cmdline : option Z;
  modules : option (list Z);
  base_revision_supported : bool;
  hhdm : option Z;
  memmap_response : option (list limine_memmap_entry);
  executable_address : option (Z * Z);
  rsdp : option Z;
  mp : option limine_mp_response }.

Definition require {A} (r : option A) : H A := match r with None => kpanic | Some a => ret a end.
Definition require_flag (b : bool) : H unit := if b then ret tt else kpanic.
Definition require_ptr (p : Z) : H unit := if p =? NULL then kpanic else ret tt.

Definition set_hhdm_offset (x : Z) (s : machine) : machine :=
  Machine (mem s) x (memmap s) (kvm_ctx s) (pmm s) (paging s) (heap s) (sched s).

(** [kvirt] and [kphys] join what the linker and the processor determine. *)
Definition loaded_at (k : kernel_image) (kvirt kphys : Z) : kernel_image :=
  KernelImage (LARGE_PAGES k) (cpuid_edx k) kvirt kphys (Paging.kstack_top k) (limine_requests k)
    (text k) (rodata k) (data k).

(** The module that the key [init] of the command line selects. *)
Definition select_module (fuel : nat) (cmdline init_key mod_count : Z) : K Z :=
  init <- get_key fuel cmdline init_key ;;
  mod_idx <- (if init =? NULL then ret 0 else
              s <- get ;;
              match atoi fuel (mem s) init with
              | None => out_of_fuel
              | Some n => ret (w32 n)
              end) ;;
  ret (if mod_count <=? mod_idx then 0 else mod_idx).

Section Boot.
Context {PF : Platform} {LY : Layout} {OT : Others}.
(** [init_key]: the address of the string "init"; [rounds] bounds the MADT's loop. *)
Context (fuel rounds : nat) (image : kernel_image) (init_key : Z).

(** Physical memory, page tables, the kernel's address space and heap, each with a
    test allocation. *)
Definition boot_memory (r : limine_responses) : H unit :=
  offset <- require (hhdm r) ;;
  entries <- require (memmap_response r) ;;
  lift (modify (fun s => set_hhdm_offset offset (set_memmap entries s)) ;;; pmm_init) ;;;
  a <- lift (palloc 1 true) ;;
  require_ptr a ;;;
  lift (modify (fun s => set_mem (store8 (mem s) a 32) s) ;;; pfree a 1) ;;;
  addr <- require (executable_address r) ;;
  lift (paging_init (loaded_at image (fst addr) (snd addr))) ;;;
  ctx <- lift (pm <- gets (fun s => kernel_pagemap (paging s)) ;; vinit pm 0x1000) ;;
  lift (modify (set_kvm_ctx ctx)) ;;;
  require_ptr ctx ;;;
  b <- lift (valloc fuel ctx 1 VALLOC_RW) ;;
  require_ptr b ;;;
  lift (vstore8 b 32 ;;; vfree fuel ctx b) ;;;
  lift (heap_init fuel) ;;;
  c <- lift (kmalloc fuel 1) ;;
  require_ptr c ;;;
  lift (modify (fun s => set_mem (store8 (mem s) c 32) s) ;;; kfree fuel c).

(** Firmware tables, interrupt controllers, timer and CPUs. *)
Definition boot_platform (r : limine_responses) : H unit :=
  address <- require (rsdp r) ;;
  acpi_init fuel (Some address) ;;;
  madt_init rounds ;;;
  outb 0x21 0xFF ;;;
  outb 0xA1 0xFF ;;;
  mp_response <- require (mp r) ;;
  lapic_init ;;;
  smp_early_init (Some mp_response) ;;;
  ioapic_init ;;;
  timer_init (Some tick_fn) ;;;
  smp_init fuel (Paging.kstack_top image) (Some mp_response) ;;;
  enabled <- timer_enabled ;;
  when enabled (ioapic_unmask 0).

(** The first process.  The result of [elf_load] is its entry point.  An index past the
    modules (there are none) is a panic here. *)
Definition boot_init (r : limine_responses) : H unit :=
  match cmdline r, modules r with
  | Some cmdline, Some mods =>
      let mod_count := w32 (Z.of_nat (length mods)) in
      mod_idx <- lift (select_module fuel cmdline init_key mod_count) ;;
      match mods !! Z.to_nat mod_idx with
      | None => kpanic
      | Some address =>
          vctx <- lift (pm <- pmnew ;; vinit pm 0x10000) ;;
          emit Cli ;;;
          entry <- lift (elf_load fuel true address vctx) ;;
          require_ptr vctx ;;;
          on_cpu (s <- get ;; sched_spawn fuel true entry (ctx_pagemap (mem s) vctx) vctx) ;;;
          emit Sti ;;;
          hlt
      end
  | _, _ => ret tt
  end.

Definition emk_entry (r : limine_responses) : H unit :=
  serial_init COM1 ;;;
  require_flag (binfo r) ;;;
  require_flag (firmware r) ;;;
  require (cmdline r) ;;;
  require (modules r) ;;;
  require_flag (base_revision_supported r) ;;;
  gdt_init ;;;
  idt_init ;;;
  boot_memory r ;;;
  boot_platform r ;;;
  boot_init r.
End Boot.

(** ** Theorems *)

(** C36: the boot process runs the module that the command line asks for: with a word
    "init=<decimal>" and room on the heap for its text, [select_module] is that number
    when there is such a module and 0 otherwise. *)
Theorem select_module_correct fuel cmdline kp line key fl lo hi s z n rest count b :
  cmdline <> NULL -> kp <> NULL ->
  cstring (mem s) cmdline line -> cstring (mem s) kp key ->
  Forall (fun c => in_word c = true) key -> heap_ok s fl lo hi ->
  (forall x, cmdline <= x < cmdline + Z.of_nat (length line) -> ~ covered fl x) ->
  Z.of_nat (length line) + 9 < 2 ^ 64 ->
  (length line < fuel)%nat -> (length key < fuel)%nat -> (length fl < fuel)%nat ->
  lookup_key key line = Some (decimal (S n) z ++ rest) -> isdigit (default 0 (head rest)) = false ->
  0 <= z < 10 ^ Z.of_nat (S n) -> z < 2 ^ 31 -> (length (decimal (S n) z) < fuel)%nat ->
  b ∈ fl -> ALIGN_UP (Z.of_nat (length (decimal (S n) z ++ rest)) + 1) 8 <= b.2 ->
  wp (select_module fuel cmdline kp count) (fun r _ => r = if z <? count then z else 0) s.
Proof.
  intros Hc Hk Hl Hkl Hkw Hok Hap Hb Hf1 Hf2 Hf3 Hlk Hrest Hz Hz31 Hf4 Hin Hroom.
  unfold select_module. wp_step.
  eapply wp_mono; [exact (get_key_spec fuel cmdline kp line key fl lo hi s Hc Hk Hl Hkl Hkw Hok Hap Hb Hf1 Hf2 Hf3)|]. cbv beta.
  rewrite Hlk. intros p s' [(_ & _ & Hfull)|(fl' & Hp & Hs & _)].
  { destruct b as [a k]. specialize (Hfull a k Hin). cbn [snd] in Hroom. lia. }
  wp_step. rewrite (proj2 (Z.eqb_neq p NULL) Hp). wp_step. wp_step.
  rewrite (atoi_decimal_spec (mem s') p [] z n rest fuel); try done.
  - do 2 wp_step. rewrite w32_id by lia.
    destruct (Z.leb_spec count z), (Z.ltb_spec z count); (reflexivity || lia).
  - cbn [app]. unfold sign_char. rewrite (proj2 (Z.ltb_ge z 0)), Z.abs_eq by lia. exact Hs.
  - lia.
  - lia.
  - cbn. lia.
  - by rewrite Z.abs_eq by lia.
Qed.

Lemma select_module_correct_witness :
  wp (select_module 20 0x4000 0x5000 3) (fun r _ => r = 2) cmdline0.
Proof.
  refine (select_module_correct 20 0x4000 0x5000 line0 key0 [(0x1000, 4080)] 0x1000 0x3000 cmdline0
    2 0 [] 3 (0x1000, 4080) _ _ _ _ _ cmdline0_heap _ _ _ _ _ eq_refl eq_refl _ _ _ _ _).
  - lia.
  - lia.
  - cbn [cstring line0]. split_and!; (lia || (vm_compute; reflexivity)).
  - cbn [cstring key0]. split_and!; (lia || (vm_compute; reflexivity)).
  - repeat constructor.
  - intros x Hx. apply covered0. lia.
  - cbn. lia.
  - cbn. lia.
  - cbn. lia.
  - cbn. lia.
  - split; [lia|vm_compute; reflexivity].
  - lia.
  - vm_compute. lia.
  - apply list_elem_of_here.
  - vm_compute. discriminate.
Defined.

(** Without one of the answers that [emk_entry] checks first nothing is set up: memory
    and all globals are as before, only the serial port has been programmed. *)
Section Missing.
Context {PF : Platform} {LY : Layout} {OT : Others}.

(** Code that only accesses devices. *)
Definition only_io {A} (m : H A) : Prop := forall h, exists v t, m h = Ret v (set_trace t h).

Lemma only_io_bind {A B} (m : H A) (f : A -> H B) :
  only_io m -> (forall a, only_io (f a)) -> only_io (bind m f).
Proof.
  intros Hm Hf h. destruct (Hm h) as (v & t & Hv). destruct (Hf v (set_trace t h)) as (w & t' & Hw).
  exists w, t'. unfold bind. by rewrite Hv, Hw.
Qed.

Lemma only_io_ret {A} (a : A) : only_io (ret a).
Proof. intros h. exists a, (trace h). by destruct h. Qed.

Lemma only_io_emit e : only_io (emit e).
Proof. intros h. by exists tt, (e :: trace h). Qed.

Lemma only_io_inb p : only_io (inb p).
Proof. apply only_io_bind; [|intros; apply only_io_ret]. intros h. by do 2 eexists. Qed.

#[local] Hint Resolve only_io_bind only_io_ret only_io_emit only_io_inb : core.

Lemma serial_init_io p : only_io (serial_init p).
Proof.
  unfold serial_init, uart_set, outb, io_wait.
  repeat (apply only_io_bind; [auto|intros ?]). destruct (negb _); auto.
Qed.

Theorem emk_entry_missing fuel rounds image key r h :
  binfo r && firmware r && bool_decide (cmdline r <> None) && bool_decide (modules r <> None) &&
    base_revision_supported r = false ->
  exists t, emk_entry fuel rounds image key r h = Panic (set_trace t h).
Proof.
  intros Hr. unfold emk_entry, bind at 1. destruct (serial_init_io COM1 h) as (v & t & ->).
  exists t. destruct r as [[] [] [c|] [m|] [] ? ? ? ? ?]; try reflexivity. discriminate Hr.
Qed.
End Missing.
