(* ===== verification/BootMem.v ===== *)
(** * emk.c: bringing up memory

    [boot_memory] builds, one upon the other, the frame allocator, the kernel's page map,
    its virtual memory context and the heap, and tries each with one allocation.  Here:
    after it has returned, the invariants hold that the theorems about those parts start
    from. *)

From S2P Require Export Boot KernelMapProps ElfSpec Reap.

(** ** Code that returns or panics *)

Lemma wpp_seq {St A B} (m : M St A) (f : A -> M St B) Q R s :
  wpp m (fun a s' => wpp (f a) Q R s') R s -> wpp (bind m f) Q R s.
Proof. unfold wpp, bind. by destruct (m s). Qed.

Lemma wpp_mono {St A} (m : M St A) (P Q : A -> St -> Prop) (R : St -> Prop) s :
  wpp m P R s -> (forall a s', P a s' -> Q a s') -> wpp m Q R s.
Proof. unfold wpp. destruct (m s); auto. Qed.

Lemma wpp_weaken {St A} (m : M St A) Q (R R' : St -> Prop) s :
  wpp m Q R s -> (forall s', R s' -> R' s') -> wpp m Q R' s.
Proof. unfold wpp. destruct (m s); auto. Qed.

(** Code that cannot panic returns. *)
Lemma wpp_returns {St A} (m : M St A) Q (R : St -> Prop) s :
  wpp m Q R s -> (forall s', ~ R s') -> wp m Q s.
Proof. unfold wpp, wp. intros Hm HR. destruct (m s) as [|s'| |]; try done. by apply (HR s'). Qed.

(** Of the [n] frames that there were, all but at most [k] are left. *)
Definition spent_of `{FrameAllocLaws} (n k : Z) (s : machine) : Prop := n <= fa_free s + k.

(** At most one frame is left, and there were not more than [T]. *)
Definition ran_out `{FrameAllocLaws} (n T : Z) (s : machine) : Prop := frames_out s /\ n <= T.

Lemma ran_out_full `{FrameAllocLaws} n k T s : fa_full s -> spent_of n k s -> k <= T -> ran_out n T s.
Proof. unfold ran_out, frames_out, spent_of, fa_full. lia. Qed.

Lemma spent_same `{FrameAllocLaws} n k s s' : pmm s' = pmm s -> spent_of n k s -> spent_of n k s'.
Proof. unfold spent_of. by intros ->%fa_free_same. Qed.

Lemma ran_out_same `{FrameAllocLaws} n T s s' : pmm s' = pmm s -> ran_out n T s -> ran_out n T s'.
Proof. unfold ran_out, frames_out. by intros ->%fa_free_same. Qed.

(** Where the boot panics. *)
Definition out_of_frames (n T : Z) (h : hw) : Prop := ran_out n T (core h).

Lemma wpp_lift {A} (m : K A) n T Q h :
  wpp m (fun a s => Q a (set_core s h)) (ran_out n T) (core h) -> wpp (lift m) Q (out_of_frames n T) h.
Proof. unfold wpp, lift. by destruct (m (core h)). Qed.

(** One stage on the machine, then the rest on the board. *)
Lemma wpp_stage {A B} (m : K A) (f : A -> H B) n T P Q s h :
  wpp m P (ran_out n T) s -> (forall a s', P a s' -> wpp (f a) Q (out_of_frames n T) (set_core s' h)) ->
  wpp (bind (lift m) f) Q (out_of_frames n T) (set_core s h).
Proof.
  intros Hm Hf. apply wpp_seq, wpp_lift. by apply (wpp_mono m P).
Qed.

(** A pointer that is NULL only when the frames have run out. *)
Definition unless_out `{FrameAllocLaws} (n T : Z) (p : Z) (P : Prop) (s : machine) : Prop :=
  (p = NULL /\ ran_out n T s) \/ (p <> NULL /\ P).

Lemma wpp_require_ptr {B} n T p P (f : unit -> H B) Q h :
  unless_out n T p P (core h) -> (P -> wpp (f tt) Q (out_of_frames n T) h) ->
  wpp (bind (require_ptr p) f) Q (out_of_frames n T) h.
Proof.
  unfold require_ptr. intros [[-> Ho]|[Hp HP]] Hf; [exact Ho|].
  rewrite (proj2 (Z.eqb_neq p NULL) Hp). by apply Hf.
Qed.

Lemma wpp_require {A B} (r : option A) a (f : A -> H B) Q R h :
  r = Some a -> wpp (f a) Q R h -> wpp (bind (require r) f) Q R h.
Proof. by intros ->. Qed.

(** ** Frames *)

(** What the memory map must be for [pmm_init] to work. *)
Record memory_given (s : machine) (offset : Z) (es : list limine_memmap_entry) : Prop := MemoryGiven {
  mg_ok : boot_ok (set_hhdm_offset offset (set_memmap es s));
  mg_fits : bitmap_fits (set_hhdm_offset offset (set_memmap es s));
  mg_top : init_pages (set_hhdm_offset offset (set_memmap es s)) * PAGE_SIZE <= 2 ^ 52 }.

(** One entry of the map has lost the frames of the bitmap. *)
Definition bitmap_taken (es es' : list limine_memmap_entry) : Prop :=
  exists l e e' r, es = l ++ e :: r /\ es' = l ++ e' :: r /\ shrunk e e'.

(** The frames that the allocator starts with: those of the usable entries, less the
    bitmap's. *)
Definition frames_given (s : machine) (offset : Z) (es : list limine_memmap_entry) : Z :=
  total_frames es - init_bitmap_size (set_hhdm_offset offset (set_memmap es s)) / PAGE_SIZE.

Record frames_ready (offset : Z) (es : list limine_memmap_entry) (s : machine) : Prop := FramesReady {
  fy_inv : pmm_inv s;
  fy_hhdm : hhdm_offset s = offset;
  fy_map : bitmap_taken es (memmap s) }.

Lemma frames_ready_others offset es s s' :
  frames_ready offset es s -> pmm_inv s' -> others s' = others s -> frames_ready offset es s'.
Proof. unfold others. intros [_ H1 H2] Hi [= Ho1 Ho2 _ _ _ _]. by split; rewrite ?Ho1, ?Ho2. Qed.

Lemma frames_stage T s offset es :
  memory_given s offset es -> let n := frames_given s offset es in
  wpp (modify (fun s => set_hhdm_offset offset (set_memmap es s)) ;;; pmm_init)
    (fun _ s' => frames_ready offset es s' /\ spent_of n 0 s') (ran_out n T) s.
Proof.
  intros [Hok Hfit Htop] n. apply wpp_ret. do 2 wp_step. eapply wp_mono; [by apply pmm_init_spec|].
  intros ? s' Hp. pose proof (pi_pages _ _ Hp) as Hpg.
  pose proof (pi_kept _ _ Hp) as Hk. injection Hk as Hk _ _ _ _.
  split; [split; [split; [apply Hp|by rewrite Hpg]|done|exact (pi_map _ _ Hp)]|].
  unfold spent_of. change (fa_free s') with (free_pages (pmm s')). rewrite (pi_free _ _ Hp). by rewrite Z.add_0_r.
Qed.

Section Frames.
Context (n T : Z).

Lemma test_frame k s offset es :
  frames_ready offset es s -> spent_of n k s -> k <= T ->
  wpp (palloc 1 true) (fun a s' => unless_out n T a
    (exists f, a = page_at s' f /\ owned s' f /\ frames_ready offset es s' /\ spent_of n (k + 1) s') s')
    (ran_out n T) s.
Proof.
  intros Hr Hk HT. apply wpp_ret. eapply wp_mono; [exact (fa_palloc_fresh s true (fy_inv _ _ _ Hr))|].
  intros a s' [(-> & -> & Hfull)|(f & -> & Hi' & Hout & _ & Hcnt)];
    [left; split; [done|by apply (ran_out_full n k)]|right].
  assert (Hown : owned s' f) by (apply (ho_owned _ _ _ _ Hout); by right).
  destruct (owned_bounds s' f Hi' Hown) as (Hf0 & _), (ok_hhdm s (proj1 (fy_inv _ _ _ Hr))) as [Hh _].
  split; [unfold frame_ptr, PAGE_SIZE; lia|]. exists f.
  pose proof (ho_others _ _ _ _ Hout) as Ho. split_and!.
  - unfold frame_ptr, page_at. by rewrite (others_hhdm _ _ Ho).
  - exact Hown.
  - by apply (frames_ready_others _ _ s).
  - unfold spent_of in *. lia.
Qed.

Lemma test_frame_back k s offset es f :
  owned s f -> frames_ready offset es s -> spent_of n (k + 1) s ->
  wpp (modify (fun s0 => set_mem (store8 (mem s0) (page_at s f) 32) s0) ;;; pfree (page_at s f) 1)
    (fun _ s' => frames_ready offset es s' /\ spent_of n k s') (ran_out n T) s.
Proof.
  intros Hf Hr Hk. apply wpp_ret. do 2 wp_step. set (s1 := set_mem _ s).
  destruct (pmm_client s s1 (fy_inv _ _ _ Hr)) as [Hi1 Ho1]; [done|done| |].
  { intros a _ Hne. exists f. split; [done|]. fold (page_at s f).
    destruct (decide (a = page_at s f)) as [->|Hd]; [unfold in_range, PAGE_SIZE; lia|].
    destruct Hne. unfold s1. cbn. by rewrite load8_store8_ne. }
  pose proof (proj2 (Ho1 f) Hf) as Hf1.
  eapply wp_mono; [exact (wp_and _ _ _ _ (pmm_pfree_one s1 true f Hi1 Hf1) (pmm_pfree_count s1 true f Hi1 Hf1))|].
  intros _ s2 [[Hi2 Htb] Hcnt].
  split; [|unfold spent_of in *; change (fa_free s2) with (pmm_free s2); change (fa_free s) with (pmm_free s1) in Hk; lia].
  apply (frames_ready_others _ _ s1); [by apply (frames_ready_others _ _ s)|done|].
  apply (tb_others _ _ _ _ Htb).
Qed.

(** ** The page map *)

(** The kernel's page map [root] is loaded. *)
Record map_loaded (offset root : Z) (s : machine) : Prop := MapLoaded {
  ml_hhdm : hhdm_offset s = offset;
  ml_pagemap : kernel_pagemap (paging s) = root;
  ml_active : active s root }.

Lemma map_loaded_same offset root s s' :
  map_loaded offset root s -> hhdm_offset s' = hhdm_offset s -> kernel_pagemap (paging s') = kernel_pagemap (paging s) ->
  cr3 (paging s') = cr3 (paging s) -> map_loaded offset root s'.
Proof. intros [H1 H2 H3] Hh Hk Hc. split; [congruence..|]. unfold active in *. by rewrite Hh, Hc. Qed.

Lemma map_loaded_globals offset root s s' :
  map_loaded offset root s -> globals s' = globals s -> map_loaded offset root s'.
Proof. unfold globals. intros Hm Hg. apply (map_loaded_same offset root s); [done|congruence..]. Qed.

(** No request of [paging_init] is for the first page that [vinit] is given. *)
Definition KERNEL_START : Z := 0x1000.
Definition start_free (k : kernel_image) (offset : Z) (es : list limine_memmap_entry) : Prop :=
  forall m, m ∈ kernel_maps k offset es -> page_of KERNEL_START <> page_of (mp_virt m).

Record map_ready (offset root : Z) (s : machine) : Prop := MapReady {
  my_inv : pmm_inv s;
  my_pt : pt_ok s root;
  my_linked : linked s root;
  my_map : map_loaded offset root s;
  my_free : lookup s root KERNEL_START = None }.

Lemma map_stage c P k s offset es :
  frames_ready offset es s -> LARGE_PAGES k = false -> start_free k offset es ->
  tables_for P (kernel_maps k offset es) -> spent_of n c s -> c <= T ->
  wpp (paging_init k) (fun _ s' => (exists root, map_ready offset root s') /\
    spent_of n (c + 1 + Z.of_nat (length P)) s') (ran_out n T) s.
Proof.
  intros [Hi Hh (l & e & e' & r & He & He' & Hsh)] Hl Hfree HP Hc HT.
  eapply wpp_weaken; [eapply wpp_mono; [exact (paging_init_spec k s Hi Hl)|]|].
  2: { intros s' [-> Hfull]. apply (ran_out_full n c); [by apply (fa_full_same s)|by apply (spent_same n c s)|done]. }
  intros _ s' (f & Hp). split.
  2:{ unfold spent_of in *. enough (fa_free s <= fa_free s' + 1 + Z.of_nat (length P)) by lia.
      apply (pp_count _ _ _ _ Hp). intros m Hm. apply HP. rewrite Hh, He' in Hm. rewrite He.
      by apply (kernel_maps_shrunk _ _ _ e e'). }
  exists (page_at s f). split; [apply Hp|apply Hp|apply Hp| |].
  - pose proof (pp_globals _ _ _ _ Hp) as Hg. unfold globals in Hg. injection Hg as Hgh _ _ Hgk Hgc _ _.
    split; [congruence|done|]. unfold active. rewrite Hgh, Hgc.
    destruct (root_client s' _ (pp_pt _ _ _ _ Hp)) as (g & Hg & Hge). unfold page_at in Hge. rewrite Hgh in Hge.
    assert (g = f) as -> by (unfold PAGE_SIZE in Hge; lia).
    destruct (fa_bounds s' f (pp_inv _ _ _ _ Hp) Hg) as (Hf & Hb & _ & Hb').
    unfold page_at. rewrite Hgh in Hb, Hb'. apply higher_half_phys; unfold PAGE_SIZE in *; lia.
  - apply (unrequested s k f s' _ Hp). intros m Hm. apply Hfree. rewrite Hh, He' in Hm. rewrite He.
    by apply (kernel_maps_shrunk _ _ _ e e').
Qed.
End Frames.

(** ** The kernel's virtual memory context *)

Section Space.
Context {FA : FrameAlloc} {FL : FrameAllocLaws} {FF : FrameFreeLaws} (N T : Z).

(** The kernel runs in its own page map [root] and allocates regions from [ctx], whose
    regions are [l]. *)
Record kernel_space (offset ctx root : Z) (l : list region) (s : machine) : Prop := KernelSpace {
  ks_ctx : vctx_ok s ctx root l;
  ks_map : map_loaded offset root s;
  ks_kvm : kvm_ctx s = ctx }.

Lemma kernel_space_globals offset ctx root l l' s s' :
  kernel_space offset ctx root l s -> vctx_ok s' ctx root l' -> globals s' = globals s ->
  kernel_space offset ctx root l' s'.
Proof.
  intros [_ Hm Hk] Hok Hg. split; [done|by apply (map_loaded_globals _ _ s)|].
  unfold globals in Hg. congruence.
Qed.

(** After [vinit]: one empty region, without a predecessor, and the page where it starts
    is free. *)
Record space_started (offset ctx root n : Z) (s : machine) : Prop := SpaceStarted {
  st_space : kernel_space offset ctx root [first_region n KERNEL_START] s;
  st_linked : linked s root;
  st_prev : region_prev (mem s) n = NULL;
  st_free : lookup s root KERNEL_START = None }.

Lemma space_stage k offset root s :
  fa_inv s -> pt_ok s root -> linked s root -> map_loaded offset root s -> lookup s root KERNEL_START = None ->
  spent_of N k s -> k + 1 <= T ->
  wpp (pm <- gets (fun s => kernel_pagemap (paging s)) ;; vinit pm KERNEL_START)
    (fun ctx s' => unless_out N T ctx ((exists n, space_started offset ctx root n (set_kvm_ctx ctx s')) /\
       spent_of N (k + 2) (set_kvm_ctx ctx s')) (set_kvm_ctx ctx s')) (ran_out N T) s.
Proof.
  intros Hi Hpt Hln Hm Hfree Hk HT. apply wpp_ret. wp_step. wp_step. cbv beta. rewrite (ml_pagemap _ _ _ Hm).
  eapply wp_mono; [apply (vinit_spec root KERNEL_START s Hi Hpt); unfold KERNEL_START; lia|]. cbv beta.
  intros ctx s' [[-> [Hi' Hpt' _ _ Hfew Hsame]]|(Hctx & [(n & Hok & Hp) _ _ Hlk Hg Hln' Hcnt])];
    [left; split; [done|]|right; split; [done|]; split; [exists n|]].
  - rewrite <-(fa_free_same s' (set_kvm_ctx NULL s') eq_refl) in Hsame.
    unfold ran_out, frames_out, spent_of in *. lia.
  - pose proof (vc_inv _ _ _ _ Hok) as Hi'. pose proof (vc_pt _ _ _ _ Hok) as Hpt'.
    destruct (same_memory s' (set_kvm_ctx ctx s') root Hi' Hpt') as (_ & _ & _ & _ & Hlk'); [done..|].
    destruct (high_grown s' (set_kvm_ctx ctx s') Hi') as (_ & _ & Hgr); [done..|].
    split; [split; [by apply (vctx_same_memory s')| |done]|by apply (grown_linked s'), Hln'|done|by rewrite Hlk', Hlk].
    apply (map_loaded_same _ _ s'); [by apply (map_loaded_globals _ _ s)|done..].
  - rewrite <-(fa_free_same s' (set_kvm_ctx ctx s') eq_refl) in Hcnt. unfold spent_of in *. lia.
Qed.

(** The region of the test allocation. *)
Definition test_region (n : Z) : region := Region n KERNEL_START 1 (VFLAGS_TO_PFLAGS VALLOC_RW).

(** [valloc] behind the last region. *)
Lemma valloc_last fuel offset ctx root l x pages k s :
  kernel_space offset ctx root (l ++ [x]) s -> (S (length l) < fuel)%nat -> 0 <= pages < 2 ^ 64 ->
  (forall y, y ∈ l ++ [x] -> rg_end y + pages * PAGE_SIZE <= 2 ^ 48) ->
  (forall l1 y l2, first_gap gap_after (mem s) (l ++ [x]) l1 y l2 -> l1 = l /\ y = x /\ l2 = []) ->
  spent_of N k s -> k + 1 + 4 * pages <= T ->
  wp (valloc fuel ctx pages VALLOC_RW) (fun r s' => (r = NULL /\ ran_out N T s') \/ r = rg_end x /\
    spent_of N (k + 1 + 4 * pages) s' /\
    exists n fs, let l' := l ++ [x; new_region n x pages VALLOC_RW] in
      kernel_space offset ctx root l' s' /\ globals s' = globals s /\
      pages_set s s' root (rg_end x) (frame_entry (VFLAGS_TO_PFLAGS VALLOC_RW) <$> fs) /\
      (forall f, Some f ∈ fs -> fresh_frame s root (ctx_nodes ctx l') s' f) /\
      length fs = Z.to_nat pages /\ (linked s root -> None ∈ fs -> fa_full s') /\
      region_prev (mem s') (rg_node x) = region_prev (mem s) (rg_node x)) s.
Proof.
  intros Hks Hf Hp Hb Hlast Hk HT. eapply wp_mono.
  { apply (valloc_spent fuel s ctx root (l ++ [x]) pages VALLOC_RW (ks_ctx _ _ _ _ _ Hks)); try done.
    rewrite length_app. cbn. lia. }
  intros r s' [(-> & -> & Hfull)|(l1 & y & l2 & n & es & Hg & Hok & Hps & [[[_ Hno] (fs & -> & _ & Hfr)] Hspent] & [Hsp _] & Hpv & Hr)];
    [left; split; [done|]; apply (ran_out_full N k); [done..|lia]|].
  unfold spent in Hspent. rewrite length_fmap in *.
  destruct (Hlast _ _ _ Hg) as (-> & -> & ->). destruct Hr as [(-> & Hfull & Hlt)|[-> Hlen]].
  { left. split; [done|]. unfold ran_out, frames_out, spent_of, fa_full in *. lia. }
  right. split; [done|]. split; [unfold spent_of in *; lia|].
  pose proof (sp_globals _ _ _ _ Hsp) as Hgl. exists n, fs. cbn zeta. split_and!; try done; [| |apply Hpv].
  - by apply (kernel_space_globals offset ctx root (l ++ [x]) _ s).
  - intros Hl Hin. apply (Hno Hl), list_elem_of_fmap. by exists None.
Qed.

Lemma only_gap m x l1 y l2 : first_gap gap_after m [x] l1 y l2 -> l1 = [] /\ y = x /\ l2 = [].
Proof. intros (Hl & _). destruct l1 as [|? [|? ?]]; by simplify_eq/=. Qed.

(** The written byte lies in the new page, or there is no page and the store faults. *)
Lemma store_first k s s' offset ctx root l fs b v :
  kernel_space offset ctx root l s' -> b < offset -> length fs = 1%nat -> lookup s root b = None ->
  pages_set s s' root b (frame_entry (VFLAGS_TO_PFLAGS VALLOC_RW) <$> fs) ->
  (forall f, Some f ∈ fs -> fresh_frame s root (ctx_nodes ctx l) s' f) -> (None ∈ fs -> fa_full s') ->
  spent_of N k s' -> k <= T ->
  wpp (vstore8 b v) (fun _ s'' => kernel_space offset ctx root l s'' /\ globals s'' = globals s' /\
    (forall n, n ∈ rg_node <$> l -> region_prev (mem s'') n = region_prev (mem s') n) /\ spent_of N k s'') (ran_out N T) s'.
Proof.
  intros Hks Hb Hlen Hnone Hps Hfr Hno Hk HT. destruct fs as [|o [|? ?]]; try done.
  destruct Hks as [Hok [Hh Hpm Hact] Hkv].
  pose proof (ps_in _ _ _ _ _ Hps 0%nat _ eq_refl) as Hl.
  replace (nth_page b 0) with b in Hl by (unfold nth_page; lia).
  unfold vstore8, wpp, bind, get, translate. unfold active in Hact. rewrite Hact, Hh.
  destruct (Z.leb_spec offset b); [lia|]. rewrite Hl. destruct o as [f|]; cbn [frame_entry]; 
    [|rewrite Hnone; apply (ran_out_full N k); [by apply Hno, list_elem_of_here|done..]].
  rewrite has_lor. change (has (VFLAGS_TO_PFLAGS VALLOC_RW) VMM_WRITE) with true. rewrite orb_true_r. cbn [andb negb].
  unfold modify.
  destruct (Hfr f (list_elem_of_here _ _)) as (Hf & _ & Hnt & Hnn).
  destruct (fa_bounds s' f (vc_inv _ _ _ _ Hok) Hf) as (Hf0 & Hfh & Hf52 & Hf64).
  rewrite entry_address; [|unfold PAGE_SIZE in *; lia|by apply Z.mod_mul|apply vflags_range].
  rewrite higher_half_phys by (unfold PAGE_SIZE in *; lia).
  set (u := offset + f * PAGE_SIZE). set (m := store8 (mem s') (u + b mod PAGE_SIZE) v).
  assert (HW : data_pages s' ctx root l [u]).
  { apply Forall_singleton. assert (u = page_at s' f) as -> by (unfold page_at; by rewrite Hh).
    split_and!; [by exists f|done|]. intros Hin. apply Hnn, elem_of_cons. by right. }
  assert (Hm : agree_outside (in_pages [u]) (mem s') m).
  { intros a Ha. apply load8_store8_ne. intros He. apply Ha. exists u. split; [apply list_elem_of_here|].
    unfold in_range, PAGE_SIZE in *. pose proof (Z.mod_pos_bound b 4096). lia. }
  destruct (data_writes s' ctx root l [u] m Hok HW Hm) as [Hok' _]. split_and!; [by split|done| |by apply (spent_same N k s')].
  intros n Hn. apply (region_fields_agree (mem s') m n).
  apply (data_writes_nodes s' ctx root l [u] m n Hok HW Hm). apply elem_of_cons. by right.
Qed.

(** The test allocation.  [vfree] takes the empty first region for it, so the allocated
    region stays. *)
Lemma test_region_stage k fuel offset ctx root n s :
  space_started offset ctx root n s -> KERNEL_START < offset -> (3 <= fuel)%nat ->
  spent_of N k s -> k + 5 <= T ->
  wpp (valloc fuel ctx 1 VALLOC_RW) (fun b s' => unless_out N T b
    (wpp (vstore8 b 32 ;;; vfree fuel ctx b)
      (fun _ s'' => (exists n1, kernel_space offset ctx root [test_region n1] s'') /\ spent_of N (k + 4) s'')
      (ran_out N T) s') s') (ran_out N T) s.
Proof.
  intros [Hks Hln Hprev Hfree] Hoff Hf Hk HT. apply wpp_ret.
  set (x := first_region n KERNEL_START) in *. assert (Hx : rg_end x = KERNEL_START) by reflexivity.
  eapply wp_mono.
  { apply (valloc_last fuel offset ctx root [] x 1 k s Hks); [cbn; lia|lia| |by apply only_gap|done|lia].
    intros y ->%list_elem_of_singleton. rewrite Hx. vm_compute. discriminate. }
  cbv beta. intros b s1 [[-> Hfull]|(-> & Hk1 & n1 & fs & Hks1 & Hg1 & Hps & Hfr & Hlen & Hno & Hpv)];
    [by left|right; split; [done|]].
  rewrite Hx in *. change (new_region n1 x 1 VALLOC_RW) with (test_region n1) in *.
  apply wpp_seq. eapply wpp_mono; [apply (store_first (k + 1 + 4 * 1) s s1 offset ctx root [x; test_region n1] fs); (lia || auto)|].
  cbv beta. intros _ s2 (Hks2 & Hg2 & Hpv2 & Hk2). apply wpp_ret.
  eapply wp_mono; [apply (vfree_first_allocation fuel s2 ctx root x (test_region n1) [])|].
  - exact (ks_ctx _ _ _ _ _ Hks2).
  - cbn. lia.
  - exact (ml_pagemap _ _ _ (ks_map _ _ _ _ _ Hks2)).
  - done.
  - done.
  - rewrite Hpv2 by apply list_elem_of_here. by rewrite Hpv.
  - cbn. unfold KERNEL_START. lia.
  - done.
  - cbv beta. intros _ s3 (Hok3 & _ & _ & Hg3 & Hf3). split; [exists n1|unfold spent_of in *; lia]. by apply (kernel_space_globals offset ctx root [x; test_region n1] _ s2).
Qed.

(** ** The heap *)

Definition HEAP_START : Z := 0x2000.
Definition HEAP_END : Z := 0x202000.
Definition heap_region (n : Z) : region := Region n HEAP_START FF_POOL_SIZE (VFLAGS_TO_PFLAGS VALLOC_RW).
Definition whole_heap : list (Z * Z) := [(HEAP_START, HEAP_END - HEAP_START - sizeof_block)].

(** Memory is up: the regions of the kernel's context are the test page and the heap, and
    the heap is one free block. *)
Record memory_up (offset ctx root : Z) (s : machine) : Prop := MemoryUp {
  mu_space : exists n1 n2, kernel_space offset ctx root [test_region n1; heap_region n2] s;
  mu_heap : heap_ok s whole_heap HEAP_START HEAP_END }.

(** What happens below the direct map does not concern the kernel's context. *)
Lemma kernel_space_below offset ctx root l s s' :
  kernel_space offset ctx root l s ->
  (hhdm_offset s', kvm_ctx s', pmm s', paging s') = (hhdm_offset s, kvm_ctx s, pmm s, paging s) ->
  (forall a, offset <= a -> load8 (mem s') a = load8 (mem s) a) -> kernel_space offset ctx root l s'.
Proof.
  intros [Hok Hm Hk] [= Ho1 Ho2 Ho3 Ho4] Hb. pose proof (ml_hhdm _ _ _ Hm) as Hh.
  destruct (high_grown s s' (vc_inv _ _ _ _ Hok)) as (Hi' & _ & Hg); [done|done|by rewrite Hh|].
  split; [by apply (vctx_ok_grown s)| |congruence]. apply (map_loaded_same _ _ s); [done|congruence..].
Qed.

Lemma heap_stage k fuel offset ctx root n1 s :
  kernel_space offset ctx root [test_region n1] s -> HEAP_END <= offset -> (3 <= fuel)%nat ->
  spent_of N k s -> k + 1 + 4 * FF_POOL_SIZE <= T ->
  wpp (heap_init fuel) (fun _ s' => memory_up offset ctx root s') (ran_out N T) s.
Proof.
  intros Hks Hoff Hf Hk HT. set (x := test_region n1) in *. assert (Hx : rg_end x = HEAP_START) by reflexivity.
  unfold heap_init. apply wpp_seq, wpp_ret. wp_step. rewrite (ks_kvm _ _ _ _ _ Hks).
  apply wpp_seq, wpp_ret. eapply wp_mono.
  { apply (valloc_last fuel offset ctx root [] x FF_POOL_SIZE k s Hks); [cbn; lia|unfold FF_POOL_SIZE; lia| |by apply only_gap|done..].
    intros y ->%list_elem_of_singleton. rewrite Hx. vm_compute. discriminate. }
  cbv beta. intros p s1 [[-> Hfull]|(-> & _ & n2 & fs & Hks1 & _)]; [by apply (ran_out_same N T s1)|]. rewrite Hx in *.
  apply wpp_ret. unfold set_freelist, set_block_size, set_block_next, write64.
  change (HEAP_START =? NULL) with false. cbv iota. wp_steps.
  split.
  - exists n1, n2. apply (kernel_space_below _ _ _ _ s1); [exact Hks1|done|].
    intros a Ha. cbn [mem set_mem set_heap]. unfold HEAP_START, HEAP_END in *.
    rewrite !load8_store64_out by lia. done.
  - split; [done|by vm_compute|]. cbn [heap set_mem set_heap freelist whole_heap seg]. unfold block_size, block_next.
    cbn [mem set_mem]. split_and!; [done|done| |].
    + rewrite load64_store64_ne by lia. by rewrite load64_store64_id.
    + by rewrite load64_store64_id.
Qed.

(** The test allocation, which [kfree] gives back completely. *)
Lemma heap_test_stage fuel offset ctx root s :
  memory_up offset ctx root s -> HEAP_END <= offset -> (3 <= fuel)%nat ->
  wpp (kmalloc fuel 1) (fun c s' => unless_out N T c
    (wpp (modify (fun s0 => set_mem (store8 (mem s0) c 32) s0) ;;; kfree fuel c)
      (fun _ s'' => memory_up offset ctx root s'') (ran_out N T) s') s') (ran_out N T) s.
Proof.
  intros [(n1 & n2 & Hks) Hheap] Hoff Hf. apply wpp_ret.
  assert (Hal : ff_alloc (ALIGN_UP 1 8) whole_heap =
    Some ((HEAP_START, 8), [(HEAP_START + 24, HEAP_END - HEAP_START - 40)])) by reflexivity.
  eapply wp_mono; [apply (kmalloc_spec fuel 1 whole_heap HEAP_START HEAP_END s Hheap); [done|done|cbn; lia]|].
  intros c s1. unfold kmalloc_post. rewrite Hal. intros (-> & Hheap1 & Hbs & Ho1 & Hm1). right. split; [done|].
  apply wpp_ret. do 2 wp_step. set (s2 := set_mem _ s1).
  set (rest := [(HEAP_START + 24, HEAP_END - HEAP_START - 40)]) in *.
  assert (Hcov : forall l a, spaced HEAP_START l HEAP_END -> covered l a -> a < offset).
  { intros l a Hsp (b & k & Hin & Ha). pose proof (spaced_in _ _ _ _ _ Hsp Hin). lia. }
  assert (Hheap2 : heap_ok s2 rest HEAP_START HEAP_END).
  { split; [apply Hheap1|apply Hheap1|].
    apply (seg_frame (mem s1) _ _ _ _ (HEAP_START + 24) HEAP_END); [by vm_compute| |apply Hheap1].
    intros a Ha. apply load8_store8_ne. unfold sizeof_block. lia. }
  assert (Hbs2 : block_size (mem s2) HEAP_START = 8).
  { rewrite <-Hbs. apply load64_ext. intros a Ha. apply load8_store8_ne. unfold sizeof_block. lia. }
  eapply wp_mono; [apply (kfree_spec fuel s2 rest HEAP_START 8 HEAP_START HEAP_END Hheap2 Hbs2)|].
  - done.
  - done.
  - by vm_compute.
  - intros a k [= -> ->]%list_elem_of_singleton. left. by vm_compute.
  - cbn. lia.
  - cbv beta. intros _ s3 (Hheap3 & Ho3 & Hm3).
    change (ff_free (HEAP_START, 8) rest) with whole_heap in Hheap3. split; [exists n1, n2|exact Hheap3].
    unfold heap_others in *. injection Ho1 as A1 _ A2 A3 A4 _ _. injection Ho3 as B1 _ B2 B3 B4 _ _.
    apply (kernel_space_below _ _ _ _ s); [exact Hks|by rewrite B1, B2, B3, B4, <-A1, <-A2, <-A3, <-A4|].
    intros a Ha. unfold HEAP_START, HEAP_END, sizeof_block in *. rewrite Hm3; [|cbn [fst snd]; intros [?|Hc]; [lia|]].
    + unfold s2. cbn [mem set_mem]. rewrite load8_store8_ne by lia. apply Hm1. intros Hc.
      apply (Hcov whole_heap a) in Hc; [lia|apply Hheap].
    + apply (Hcov rest a) in Hc; [lia|apply Hheap2].
Qed.
End Space.

(** ** boot_memory *)

Section Boot.
Context {PF : Platform} {LY : Layout} {OT : Others}.

(** What the boot takes at most: the root of the page map and the page tables at [P], two
    frames for the kernel's context, one for each of its two regions, and four (the page
    and three tables) for each of their 1 + 512 pages; the test page's region gives one
    back. *)
Definition boot_cost (P : list (list Z)) : Z := 2056 + Z.of_nat (length P).

(** C15: [boot_memory], given a sound memory map, the default page size and a kernel whose
    image leaves the first page of the kernel's context free: it returns, or panics because
    the frames have run out: at most one is left, and the memory map had at most
    [boot_cost P] to give, where [P] are the paths of the page tables that the kernel's
    page map needs.  So with more frames it returns.  When it returns the kernel's page map is
    loaded, the kernel's context has two regions, the test page (which [vfree] did not find)
    and the heap, and the heap is one free block.  These are the states in which the other
    theorems start. *)
Theorem boot_memory_correct fuel image r h offset es kv kp P :
  hhdm r = Some offset -> memmap_response r = Some es -> executable_address r = Some (kv, kp) ->
  memory_given (core h) offset es -> LARGE_PAGES image = false ->
  start_free (loaded_at image kv kp) offset es -> HEAP_END <= offset -> (3 <= fuel)%nat ->
  tables_for P (kernel_maps (loaded_at image kv kp) offset es) ->
  wpp (boot_memory fuel image r) (fun _ h' => exists ctx root, memory_up offset ctx root (core h'))
    (out_of_frames (frames_given (core h) offset es) (boot_cost P)) h.
Proof.
  intros Hr1 Hr2 Hr3 Hgiven Hlarge Hfree Hoff Hf HP.
  set (n := frames_given (core h) offset es). set (T := boot_cost P).
  assert (HT : 0 <= Z.of_nat (length P) /\ T = 2056 + Z.of_nat (length P)) by (unfold T, boot_cost; lia).
  clearbody T.
  unfold boot_memory. eapply wpp_require; [exact Hr1|]. eapply wpp_require; [exact Hr2|].
  replace h with (set_core (core h) h) by (by destruct h).
  eapply wpp_stage; [by apply frames_stage|]. cbv beta. intros _ s1 [H1 K1]. fold n in K1.
  eapply wpp_stage; [apply (test_frame n T 0); [exact H1|exact K1|lia]|]. cbv beta. intros a s2 H2.
  eapply wpp_require_ptr; [exact H2|]. intros (f & -> & Hown & H2' & K2).
  eapply wpp_stage; [by apply (test_frame_back n T 0 s2 offset es)|]. cbv beta. intros _ s3 [H3 K3].
  eapply wpp_require; [exact Hr3|].
  eapply wpp_stage; [apply (map_stage n T 0 P _ s3 offset es); (done || lia)|]. cbv beta.
  intros _ s4 [(root & [Hi Hpt Hln Hmap Hno]) K4].
  eapply wpp_stage; [apply (space_stage n T (0 + 1 + Z.of_nat (length P)) offset root); (assumption || lia)|]. cbv beta. intros ctx s5 H5.
  eapply (wpp_stage _ _ _ _ (fun _ s' => s' = set_kvm_ctx ctx s5)); [done|]. cbv beta. intros _ ? ->.
  eapply wpp_require_ptr; [exact H5|]. intros [(k & H5') K5].
  eapply wpp_stage; [eapply (test_region_stage n T _ fuel offset ctx root k);
    [done|unfold HEAP_END, KERNEL_START in *; lia|done|exact K5|lia]|].
  cbv beta. intros b s6 H6. eapply wpp_require_ptr; [exact H6|]. intros H6'.
  eapply wpp_stage; [exact H6'|]. cbv beta. intros _ s7 [(n1 & H7) K7].
  eapply wpp_stage; [eapply (heap_stage n T _ fuel offset ctx root n1); [done..|exact K7|unfold FF_POOL_SIZE; lia]|].
  cbv beta. intros _ s8 H8.
  eapply wpp_stage; [by apply (heap_test_stage n T fuel offset ctx root)|]. cbv beta. intros c s9 H9.
  eapply wpp_require_ptr; [exact H9|]. intros H9'.
  apply wpp_lift. eapply wpp_mono; [exact H9'|]. cbv beta. intros _ s10 H10. by exists ctx, root.
Qed.
End Boot.

(** *** A machine with 32 MiB, and the kernel of four pages *)

Definition entries32 : list limine_memmap_entry :=
  [MemmapEntry 0x1000 0xff000 LIMINE_MEMMAP_USABLE; MemmapEntry 0x100000 0x100000 1;
   MemmapEntry 0x200000 0x1e00000 LIMINE_MEMMAP_USABLE].
Definition responses32 : limine_responses :=
  LimineResponses true true None None true (Some HHDM) (Some entries32) (Some (kvirt image0, kphys image0)) None None.

Lemma given32 : memory_given (core (board boot0)) HHDM entries32.
Proof.
  split; [| |vm_compute; discriminate].
  - split.
    + by split; vm_compute.
    + repeat (apply Forall_cons; split); [| | |by apply Forall_nil]; intros H; try (by vm_compute in H);
        split_and!; by vm_compute.
    + split; [|split; [|split; [|done]]]; intros H; try (by vm_compute in H).
      apply Forall_cons. split; [intros H'; by vm_compute in H'|].
      apply Forall_singleton. intros _. by vm_compute.
    + by split; vm_compute.
  - split; [|vm_compute; done].
    exists (MemmapEntry 0x1000 0xff000 LIMINE_MEMMAP_USABLE).
    split; [constructor|]. split; [done|vm_compute; done].
Qed.

(** Every request is for the direct map of the first 4 GiB (where the stack is, too) or for
    the image. *)
#[local] Opaque iters loop_maps.

Lemma in_loop (Q : Z -> Prop) start stop virt_of phys_of flags m :
  m ∈ loop_maps (iters start stop PAGE_SIZE) start virt_of phys_of flags ->
  (forall a, start <= a < stop -> Q (virt_of a)) -> Q (mp_virt m).
Proof.
  intros (i & Hi%iters_below & ->)%in_loop_maps HQ. apply HQ. unfold PAGE_SIZE in *. lia.
Qed.

Lemma in_entry_maps (Q : Z -> Prop) e base stop m :
  m ∈ entry_maps HHDM e -> (forall a, 0 <= a < 2 ^ 32 -> Q (HIGHER_HALF HHDM a)) ->
  (e_base e =? 0) || (e_length e =? 0) = false /\ ALIGN_DOWN (e_base e) PAGE_SIZE = base /\
  ALIGN_UP (w64 (e_base e + e_length e)) PAGE_SIZE = stop ->
  0 <= base -> stop <= 2 ^ 32 -> Q (mp_virt m).
Proof.
  unfold entry_maps. cbv zeta. intros Hm Hv (H1 & H2 & H3) Hb Hs. rewrite H1, H2, H3 in Hm.
  apply (in_loop Q _ _ _ _ _ _ Hm). intros a Ha. apply Hv. lia.
Qed.

Lemma requests32 (Q : Z -> Prop) :
  (forall a, 0 <= a < 2 ^ 32 -> Q (HIGHER_HALF HHDM a)) ->
  (forall b, 0 <= b < 0x4000 -> Q (0xffffffff80000000 + b)) ->
  forall m, m ∈ kernel_maps (loaded_at image0 (kvirt image0) (kphys image0)) HHDM entries32 -> Q (mp_virt m).
Proof.
  change (loaded_at image0 (kvirt image0) (kphys image0)) with image0. intros Hd Hi m Hm.
  assert (Hi' : forall lo hi, 0xffffffff80000000 <= lo -> hi <= 0xffffffff80004000 -> forall a, lo <= a < hi -> Q a).
  { intros lo hi Hlo Hhi a Ha. replace a with (0xffffffff80000000 + (a - 0xffffffff80000000)) by lia. apply Hi. lia. }
  unfold kernel_maps, image_maps in Hm. rewrite !elem_of_app, list_elem_of_bind in Hm.
  destruct Hm as [Hm|[[Hm|[Hm|[Hm|Hm]]]|[Hm|(e & Hm & He)]]].
  - apply (in_loop Q _ _ _ _ _ _ Hm). intros a Ha.
    assert (HHDM <= a < HHDM + 2 ^ 32) as Hr.
    { revert Ha. change (stack_end image0) with 0xffff8000000f0000.
      change (w64 (0xffff8000000f0000 - 16 * 1024)) with 0xffff8000000ec000. unfold HHDM. lia. }
    specialize (Hd (a - HHDM) ltac:(lia)). rewrite higher_half_phys in Hd by (unfold HHDM in *; lia).
    by replace (HHDM + (a - HHDM)) with a in Hd by lia.
  - apply (in_loop Q _ _ _ _ _ _ Hm), Hi'; vm_compute; congruence.
  - apply (in_loop Q _ _ _ _ _ _ Hm), Hi'; vm_compute; congruence.
  - apply (in_loop Q _ _ _ _ _ _ Hm), Hi'; vm_compute; congruence.
  - apply (in_loop Q _ _ _ _ _ _ Hm), Hi'; vm_compute; congruence.
  - apply (in_loop Q _ _ _ _ _ _ Hm). exact Hd.
  - unfold entries32 in He. rewrite !elem_of_cons, elem_of_nil in He. destruct He as [-> |[-> |[-> |[]]]].
    + apply (in_entry_maps Q _ 0x1000 0x100000 _ Hm Hd); [by vm_compute|lia..].
    + apply (in_entry_maps Q _ 0x100000 0x200000 _ Hm Hd); [by vm_compute|lia..].
    + apply (in_entry_maps Q _ 0x200000 0x2000000 _ Hm Hd); [by vm_compute|lia..].
Qed.

(** Nothing is mapped at the start of the kernel's context. *)
Lemma upper_apart a : 0xffff800000000000 <= a < 2 ^ 64 -> page_of KERNEL_START <> page_of a.
Proof.
  intros Ha. unfold page_of, KERNEL_START, PAGE_SIZE.
  pose proof (Z.div_mod a 4096 ltac:(lia)). pose proof (Z.mod_pos_bound a 4096 ltac:(lia)).
  change (4096 / 4096 mod 2 ^ 36) with 1. intros He.
  pose proof (Z.div_mod (a / 4096) (2 ^ 36) ltac:(lia)). rewrite <-He in *. lia.
Qed.

Lemma start_free32 : start_free (loaded_at image0 (kvirt image0) (kphys image0)) HHDM entries32.
Proof.
  refine (requests32 (fun a => page_of KERNEL_START <> page_of a) _ _); intros a Ha.
  - rewrite higher_half_phys by (unfold HHDM; lia). apply upper_apart. unfold HHDM. lia.
  - apply upper_apart. lia.
Qed.

(** The paths of the page tables: 4 GiB from the start of the upper half on, and the
    first 2 MiB of the image. *)
Definition direct_paths : list (list Z) :=
  [256] :: ((fun i => [256; i]) <$> seqZ 0 4) ++ ((fun k => [256; k / 512; k mod 512]) <$> seqZ 0 2048).
Definition paths32 : list (list Z) := [[511]; [511; 510]; [511; 510; 0]] ++ direct_paths.

Lemma direct_paths_elem p : p ∈ direct_paths <->
  p = [256] \/ (exists i, p = [256; i] /\ 0 <= i < 4) \/
  (exists k, p = [256; k / 512; k mod 512] /\ 0 <= k < 2048).
Proof.
  unfold direct_paths. rewrite elem_of_cons, elem_of_app, !list_elem_of_fmap.
  by setoid_rewrite elem_of_seqZ.
Qed.

Lemma direct_paths_nodup : NoDup direct_paths.
Proof.
  unfold direct_paths. apply NoDup_cons. split.
  { rewrite elem_of_app, !list_elem_of_fmap. intros [(? & ? & _)|(? & ? & _)]; done. }
  apply NoDup_app. split_and!.
  - apply NoDup_fmap_2_strong; [|apply NoDup_seqZ]. by intros x y _ _ [= ->].
  - intros p (i & -> & _)%list_elem_of_fmap. rewrite list_elem_of_fmap. by intros (? & ? & _).
  - apply NoDup_fmap_2_strong; [|apply NoDup_seqZ]. intros x y _ _ [= H1 H2].
    rewrite (Z.div_mod x 512), (Z.div_mod y 512) by lia. by rewrite H1, H2.
Qed.

Lemma direct_paths_length : length direct_paths = 2053%nat.
Proof. unfold direct_paths. cbn [length]. rewrite length_app, !length_fmap, !length_seqZ. reflexivity. Qed.

#[local] Opaque direct_paths.

Lemma not_direct a p : a <> 256 -> ~ (a :: p) ∈ direct_paths.
Proof. rewrite direct_paths_elem. intros Ha [H|[(? & H & _)|(? & H & _)]]; by injection H. Qed.

Lemma paths32_nodup : NoDup paths32.
Proof.
  unfold paths32. cbn [app]. repeat apply NoDup_cons_2; [..|apply direct_paths_nodup];
    rewrite ?elem_of_cons; intros Hin; destruct_or? Hin; try done; by apply not_direct in Hin.
Qed.

Lemma paths32_paths : Forall is_path paths32.
Proof.
  unfold paths32. repeat (apply Forall_cons; split); try (split; [cbn; lia|by repeat constructor]).
  apply Forall_forall. intros p [->|[(i & -> & Hi)|(k & -> & Hk)]]%direct_paths_elem;
    (split; [cbn; lia|]); rewrite ?Forall_cons; unfold idx; split_and!; try lia; try apply Forall_nil_2.
  - apply Z.div_pos; lia.
  - apply Z.div_lt_upper_bound; lia.
  - apply Z.mod_pos_bound. lia.
  - apply Z.mod_pos_bound. lia.
Qed.

(** A path of three indices whose prefixes are in the list. *)
Lemma paths32_has v a b c :
  table_path v = [a; b; c] -> [a] ∈ paths32 -> [a; b] ∈ paths32 -> [a; b; c] ∈ paths32 ->
  has_paths (table_path v) paths32.
Proof.
  intros -> H1 H2 H3. split; [apply paths32_nodup|]. split; [apply paths32_paths|].
  intros p Hp [r Hr]. destruct p as [|x [|y [|z [|? p]]]]; [done|..]; injection Hr as <-; simplify_eq/=; done.
Qed.

Lemma tables_for32 : tables_for paths32 (kernel_maps (loaded_at image0 (kvirt image0) (kphys image0)) HHDM entries32).
Proof.
  refine (requests32 (fun v => has_paths (table_path v) paths32) _ _); intros a Ha.
  - rewrite higher_half_phys by (unfold HHDM; lia).
    set (k := a / 2 ^ 21). assert (Hk : 0 <= k < 2048).
    { split; [apply Z.div_pos; lia|apply Z.div_lt_upper_bound; lia]. }
    assert (Hp : table_path (HHDM + a) = [256; k / 512; k mod 512]).
    { unfold table_path, PML4_SHIFT, PML3_SHIFT, PML2_SHIFT. rewrite !page_index_eq by lia. unfold HHDM.
      change 0xffff800000000000 with (0xffff8 * 2 ^ 44). unfold k. rewrite Z.div_div by lia.
      replace (0xffff8 * 2 ^ 44 + a) with (a + 0x1ffff00 * 2 ^ 39) at 1 by lia.
      replace (0xffff8 * 2 ^ 44 + a) with (a + 0x1ffff00 * 512 * 2 ^ 30) at 1 by lia.
      replace (0xffff8 * 2 ^ 44 + a) with (a + 0x1ffff00 * 512 * 512 * 2 ^ 21) by lia.
      rewrite !Z.div_add by lia. rewrite (Z.div_small a (2 ^ 39)) by lia.
      rewrite !Z.mod_add by lia. f_equal; f_equal.
      change (2 ^ 21 * 512) with (2 ^ 30). rewrite Z.mod_small; [done|].
      split; [apply Z.div_pos; lia|apply Z.div_lt_upper_bound; lia]. }
    pose proof (Z.mod_pos_bound k 512 ltac:(lia)).
    apply (paths32_has _ _ _ _ Hp); unfold paths32; apply elem_of_app; right; apply direct_paths_elem.
    + by left.
    + right; left. exists (k / 512). split; [done|]. split; [apply Z.div_pos; lia|apply Z.div_lt_upper_bound; lia].
    + right; right. by exists k.
  - assert (Hp : table_path (0xffffffff80000000 + a) = [511; 510; 0]).
    { unfold table_path, PML4_SHIFT, PML3_SHIFT, PML2_SHIFT. rewrite !page_index_eq by lia.
      replace (0xffffffff80000000 + a) with (0x7fffffff80000000 + a + 0x8000000000000000) by lia.
      f_equal; [|f_equal; [|f_equal]].
      - replace (0x7fffffff80000000 + a + 0x8000000000000000) with (2 ^ 39 - 2 ^ 31 + a + 0x1ffffff * 2 ^ 39) by lia.
        rewrite Z.div_add, Z.div_small by lia. done.
      - replace (0x7fffffff80000000 + a + 0x8000000000000000) with (a + 0x3fffffffe * 2 ^ 30) by lia.
        rewrite Z.div_add, Z.div_small by lia. done.
      - replace (0x7fffffff80000000 + a + 0x8000000000000000) with (a + 0x7fffffffc00 * 2 ^ 21) by lia.
        rewrite Z.div_add, Z.div_small by lia. done. }
    apply (paths32_has _ _ _ _ Hp); unfold paths32; apply elem_of_app; left; rewrite !elem_of_cons; auto.
Qed.

Lemma paths32_length : length paths32 = 2056%nat.
Proof. unfold paths32. rewrite length_app, direct_paths_length. reflexivity. Qed.

(** More than enough frames: the boot returns, with memory up. *)
Lemma boot_memory_correct_witness :
  memory_given (core (board boot0)) HHDM entries32 /\
  boot_cost paths32 < frames_given (core (board boot0)) HHDM entries32 /\
  wp (boot_memory 3 image0 responses32) (fun _ h' => exists ctx root, memory_up HHDM ctx root (core h'))
    (board boot0).
Proof.
  assert (Hn : boot_cost paths32 < frames_given (core (board boot0)) HHDM entries32).
  { unfold boot_cost. rewrite paths32_length. vm_compute. reflexivity. }
  split; [exact given32|]. split; [exact Hn|].
  pose proof (boot_memory_correct 3 image0 responses32 (board boot0) HHDM entries32 (kvirt image0) (kphys image0)
    paths32 eq_refl eq_refl eq_refl given32 eq_refl start_free32 ltac:(vm_compute; discriminate) (le_n 3)
    tables_for32) as H.
  exact (wpp_returns _ _ _ _ H (fun s Ho => Zle_not_lt _ _ (proj2 Ho) Hn)).
Defined.
